(* ===== verification/_CoqProject ===== *)
-Q . S2P
Prelude.v
GoStr.v
Utf8.v
GoSort.v
Spans.v
GoFloat.v
Scanner.v
Redactor.v
Sha256.v
Cache.v
Regex.v
Rules.v
FileBlock.v
Coordinator.v
Interleave.v
Checksums.v
Presidio.v
Entropy.v
Json.v
JsonRound.v
JsonDecode.v
JsonStruct.v
Indent.v
JsonAny.v
Gliner.v
Opf.v
RegexScanner.v
Domain.v
Extract.v
Proxy.v
Config.v
Sandbox.v
Sni.v
Replay.v
Firewall.v
Sessions.v
Base64.v
Signing.v
Token.v
Store.v
Tables.v
ServerAuth.v
Bundle.v
Httpapi.v
Daemon.v
System.v
Live.v
Watch.v
Policy.v
Control.v
Client.v
History.v
Fleet.v
Images.v
Platform.v
Certs.v
Hooks.v
Files.v
Hub.v
Shell.v
Mcp.v
Startup.v
Loops.v
Lifecycle.v
Licensing.v
Dashboard.v
Main.v
