(* ===== verification/Prelude.v ===== *)
(** * Redactr: a verification library

    Redactr keeps personal data out of the requests that developer tools send to AI
    providers.  A daemon on the developer's machine intercepts those requests,
    finds sensitive values, and forwards the request with each replaced by a
    placeholder; a dashboard and a control socket configure it; agents run in
    sealed containers whose only way out is the daemon's proxy; a control plane
    enrols devices and distributes signed policies.  This library translates the
    Go code of these parts into executable definitions and proves what each part
    promises the others, up to the composed system.

    ** How the program hangs together, and where it is modelled

    A request (internal/proxy) is filtered by host (internal/domain), its last user
    message is extracted (proxy/extract.go) and handed to the coordinator
    (internal/coordinator), which asks the cache and, on a miss, the pipeline
    (internal/scanner): layers in order, each on the text with what was found so
    far replaced, positions translated back.  The findings that are not allowed
    words are replaced (internal/redactor), and the message is written back.  The
    rules (internal/rules) say which detectors of which layer are on, and the
    configuration (internal/config) carries the user's overrides; the daemon
    (internal/daemon) puts both into force, on dashboard requests (internal/api)
    and when the file changes.

    Foundations of the language and its standard library, executable:
    - Prelude: the type [res] of results, errors and panics, tactics, lists.
    - GoStr (package strings, strconv, bufio lines), Utf8 (UTF-8, unicode; the
      character data above ASCII is the class [UnicodeData]), GoSort (the contract
      of [sort.Slice]), GoFloat (float64), Sha256, Base64 (RawURLEncoding).
    - Regex: [RegexpEngine], what the program relies on of package regexp, and
      [re2], an engine for the syntax of the program's patterns, implementing it.
    - Json, JsonRound, JsonDecode, JsonStruct, Indent, JsonAny: encoding/json —
      parser, printer plain and indented, their round trip, decoding into Go values
      and into empty interfaces.
    - Spans: the reference for replacing disjoint spans of a text, to which the
      pipeline and the redactor are both proved equal.

    The scan path:
    - Scanner (scanner/types.go, pipeline.go), Redactor (redactor.go), Cache
      (scanner/cache.go: map, linked list and heap of shared elements, refined to an
      LRU list), Rules (internal/rules with its catalogue), FileBlock
      (internal/fileblock), Coordinator (coordinator.go).
    - Interleave: the same calls from many goroutines, as interleaved sections.
    - The layers: Checksums and Presidio (scanner/presidio), Entropy
      (scanner/entropy), Gliner and Opf (the sidecar clients), RegexScanner
      (scanner/regex); [contextgate_layer] of Daemon (scanner/contextgate).
    - Domain (internal/domain), Extract (proxy/extract.go), Proxy (proxy.go,
      bypass.go, rewrite.go), Sni (sni.go, transparent.go), Replay (what goproxy reads
      of a connection taken over).

    The daemon:
    - Config (internal/config), Daemon ([Build], the watcher's callback, the
      dashboard's handlers of rules, configuration, cache and scans), System (runs
      of all of them), Watch (config/watcher.go beside whoever writes the file).  The
      daemon's record holds one copy of each shared object; [coord_of] and [proxy_of]
      are the views its parts have of it.
    - Firewall (internal/firewall: controller, DNS loop, state file), Platform (its
      managers of pf, iptables and netsh), Control (listeners, the switch of proxy
      and firewall, daemon/socket.go, the agent launch), Client (cli/client.go, byte
      for byte).
    - Startup (daemon.go Start and Stop, step by step), Loops (its background loops,
      [Run], sidecar/manager.go), Lifecycle (internal/lifecycle), Certs (certgen/ca.go
      and server/keys on disk).
    - Hub (api/ws.go), Dashboard (sessions, licence, health), History (internal/store,
      and its dashboard handlers), Sessions (internal/sessions, internal/monitor),
      Licensing (internal/licensing).
    - Mcp (internal/mcpwrap and its command), Sandbox (internal/sandbox,
      internal/devcontainer, cli/agent.go), Shell (cli/shell.go, cli/code.go), Hooks
      (internal/hooks), Main (the commands' mains, internal/tray).

    The control plane: Signing (internal/signing), Token (server/auth/token.go),
    Store (server/store), Tables (what it keeps of its rows), ServerAuth
    (server/auth), Bundle (internal/control), Httpapi (server/httpapi), Images
    (server/imagebuild).  The device's side: Policy (internal/policysync, policy,
    enrollment), Files (their files byte for byte), Fleet (cli/enroll.go and the
    reports, against the server).

    ** Interfaces

    Code that is not in the repository is a class with the laws its documentation
    gives: [UnicodeData], [GoSort], [RegexpEngine], [EntropyEnv] (math.Log2 and map
    order), [HttpClient], [Yaml], [TimeText], [FwManager] (the platform firewalls),
    [SysProbe] (ps, lsof, DNS), [ContainerCLI] (docker and podman), [Ecdsa] and
    [PublicKeyText] (the curve), [KeyFormat] (PEM and X.509 texts), [Sqlite] (time
    texts), [Bolt] (bbolt).  Every class of laws has an instance, on which the
    witnesses are evaluated.  Between parts of the program the interfaces are
    [Scanner.layer_ok], what a layer promises the pipeline, discharged by every layer;
    [ScanPipeline], the interface of proxy/rewrite.go, with the contract
    [ScanContract] that the coordinator implements: the proxy's theorems are proved
    from the contract alone; and [LoadTarget], what the watcher's callback promises,
    which the daemon implements.
    Faults — a failing write, database call, command or listener — are arguments of
    each operation, so a theorem over runs ranges over every pattern of failures.

    ** What is proved

    - Redaction: the replaced text is the reference rendering of exactly the
      disjoint findings ([Redactor.Redact_render], [Scanner.applyRedactions_render]);
      positions translate back exactly ([Scanner.toOriginalPos_inverse],
      [Scanner.Scan_locates]); scans never panic on layers that keep their contract
      ([Scanner.Scan_report], [Coordinator.scan_filter_redact_ok]); each layer keeps
      it or is shown where it does not ([Presidio.Presidio_Scan_reports],
      [Entropy.Entropy_Scan_total], [Opf.sidecar_layers_safe]).
    - The cache and concurrency are invisible: [Cache.cache_refines],
      [Coordinator.Coordinator_transparent], [Interleave.concurrent_scans_fresh].
    - Requests: [Proxy.handle_request_redacts] and [Proxy.handle_request_fails_open]
      for every body, [Extract.Replace_forwards_redacted] for the rewrite,
      [Sni.parseSNI_roundtrip], [Sni.handleTransparent_safe] and [Replay.stream_whole]
      for raw connections, [Mcp.tool_result_redacted] for tool servers.
    - The daemon as a whole: [System.settings_in_force], [System.disabled_rules_silent],
      [System.PutRules_effective], [System.UpdateConfig_effective] over any run;
      [Watch.changes_take_effect] for edits of the file; [Control.proxy_switch],
      [Client.socket_roundtrip], [Lifecycle.singleton_exclusive] and
      [Lifecycle.acquire_terminates], [Startup.stop_tears_down], [Hub.feed_delivers],
      [Firewall.firewall_consistent], [Firewall.Reconcile_converges] and
      [Platform.darwin_redirect], [Certs.keys_survive_restarts],
      [History.history_exact], [Sessions.session_verdict], [Licensing.license_refines].
    - Agents and shells: [Control.agent_confined], [Sandbox.Launch_sealed],
      [Sandbox.devcontainer_agrees], [Shell.shell_is_protected].
    - The control plane: [Store.enrollment_bounded], [Tables.tables_typed],
      [Token.token_authentic], [ServerAuth.enrolled_device_access],
      [Httpapi.ServeHTTP_authorized], [Images.built_image_pinned].
    - From the control plane to the device: [Policy.Sync_authentic],
      [Policy.policy_delivery], [Files.files_refine_disk],
      [Fleet.enrolled_device_reports].
    Where the code does less than it means to, a lemma exhibits it on a concrete
    input ([Redactor.Redact_overlap_leaks], [Entropy.Entropy_offsets_leak],
    [Interleave.Reconfigure_races_scan], [Control.leaked_forever],
    [Mcp.ScanMessage_misses], [Lifecycle.early_reader_stale_target], ...), and the
    theorem beside it has the hypothesis that excludes it.

    ** Bounds and fuel

    - The JSON parser recurses on fuel, 2n+2 for n bytes; [JsonRound.parse_enough]
      shows that more changes nothing.  Its depth limit is Go's, 10000.
    - [extract_loop], [sni_names], [sni_exts], [chunks], [digits_pos] have the length of
      their input (or the width of the integer) as fuel: each step consumes some.
      [sni_names_total] and [sni_exts_total] show that it does not run out.
    - [re2] matches with fuel computed from the text; only evaluations use it, the
      clients' theorems hold for every engine.
    - Machine integers: Go's [int] and [int64] are [Z]; where a sum or a product can
      leave 64 bits the code's wrap-around is written out ([wrap64]) and the theorem
      states the bound it needs.  Text lengths are assumed below 2^63, as in Go.
    - AcquireSingleton polls 100 times in its grace period of 5 s (every 50 ms) and
      40 times after SIGKILL.
    - A call of the coordinator takes at most four sections and one per layer.

    ** Not modelled

    - What other programs do: the Python detectors, pfctl, iptables, netsh,
      osascript, docker, ps.  Their arguments are modelled, their answers are
      arguments.
    - The contents of certificates and keys, with IssueCert, which the daemon does
      not call: the standard library's cryptography.
    - TLS, TCP and HTTP framing: a request is its host, path and body.  The routing
      of a path to its handler is the standard library's.
    - Static files, log output (internal/logging), Prometheus's own metrics page, the
      menu of the tray and the encoding of its image, prompts.
    - The intervals of the tickers (what a tick does, and in which order ticks may
      fall among other events, is modelled), and the search of the file system for
      the detector's script. *)
From stdpp Require Export prelude gmap strings sorting.
From Stdlib Require Export ZArith Lia.
From Stdlib Require Ascii String.
Export (notations) Stdlib.Strings.Ascii.

(** ** The computation type

    A Go function of type [(T, error)] is modelled by [res E T]: [Ok v] is
    [(v, nil)], [Err e] is a non-nil error, and [Panic] is a run-time panic
    (an out-of-range slice expression, an out-of-range index).  A Go function
    that returns no error never yields [Err]. *)

Inductive res (E A : Type) : Type :=
| Ok (a : A)
| Err (e : E)
| Panic.
Arguments Ok {E A} a.
Arguments Err {E A} e.
Arguments Panic {E A}.

#[export] Instance res_ret {E} : MRet (res E) := fun A a => Ok a.
#[export] Instance res_bind {E} : MBind (res E) := fun A B f m =>
  match m with Ok a => f a | Err e => Err e | Panic => Panic end.
#[export] Instance res_fmap {E} : FMap (res E) := fun A B f m =>
  match m with Ok a => Ok (f a) | Err e => Err e | Panic => Panic end.
#[export] Instance res_eq_dec {E A} `{EqDecision E, EqDecision A} : EqDecision (res E A).
Proof. solve_decision. Defined.

#[export] Instance Ok_inj {E A} : Inj (=) (=) (@Ok E A).
Proof. by intros ?? [=]. Qed.

Section res_lemmas.
Context {E A B : Type}.
Implicit Types (m : res E A) (f : A → res E B).

Lemma bind_Ok m f b : m ≫= f = Ok b ↔ ∃ a, m = Ok a ∧ f a = Ok b.
Proof. destruct m; split; [eauto|by intros (?&[= <-]&?)|done|by intros (?&?&?)|done|by intros (?&?&?)]. Qed.

Lemma bind_Panic m f : m ≫= f = Panic ↔ m = Panic ∨ ∃ a, m = Ok a ∧ f a = Panic.
Proof.
  destruct m; split; [eauto|by intros [?|(?&[= <-]&?)]|done|by intros [?|(?&?&?)]|auto|done].
Qed.
End res_lemmas.

(** ** Automation *)

Create HintDb redactr.
Create Rewrite HintDb redactr.

(** Split the boolean guards the code's conditions are written with. *)
Ltac bool_hyps :=
  repeat match goal with
  | H : _ && _ = true |- _ => apply andb_true_iff in H; destruct H
  | H : _ || _ = false |- _ => apply orb_false_iff in H; destruct H
  | H : negb _ = true |- _ => apply negb_true_iff in H
  | H : negb _ = false |- _ => apply negb_false_iff in H
  | H : (_ <? _)%Z = true |- _ => apply Z.ltb_lt in H
  | H : (_ <? _)%Z = false |- _ => apply Z.ltb_ge in H
  | H : (_ <=? _)%Z = true |- _ => apply Z.leb_le in H
  | H : (_ <=? _)%Z = false |- _ => apply Z.leb_gt in H
  | H : (_ =? _)%Z = true |- _ => apply Z.eqb_eq in H
  | H : (_ =? _)%Z = false |- _ => apply Z.eqb_neq in H
  | H : bool_decide _ = true |- _ => apply bool_decide_eq_true in H
  | H : bool_decide _ = false |- _ => apply bool_decide_eq_false in H
  end.

(** The same, with a case for each disjunct of a condition that holds. *)
Ltac bool_cases :=
  bool_hyps;
  repeat match goal with
  | H : _ || _ = true |- _ => apply orb_true_iff in H; destruct H; bool_hyps
  | H : _ && _ = false |- _ => apply andb_false_iff in H; destruct H; bool_hyps
  end.

(** Case on the condition of the first [if] of the goal, keeping the guard. *)
Ltac if_case :=
  match goal with
  | |- context [if ?b then _ else _] => destruct b eqn:?
  end; bool_hyps.

(** The same in a hypothesis. *)
Ltac if_case_in H :=
  match type of H with
  | context [if ?b then _ else _] => destruct b eqn:?
  end; bool_hyps.

(** Rewrite with every condition known to hold. *)
Ltac rewrite_true := repeat match goal with H : ?b = true |- _ => rewrite H end; cbn [andb].

(** Unpack a successful computation step by step. *)
Ltac res_inv :=
  repeat match goal with
  | H : _ ≫= _ = Ok _ |- _ => apply bind_Ok in H; destruct H as (? & ? & ?)
  | H : Ok _ = Ok _ |- _ => injection H as H; subst
  | H : Err _ = Ok _ |- _ => discriminate H
  | H : Panic = Ok _ |- _ => discriminate H
  | H : mret _ = Ok _ |- _ => injection H as H; subst
  end.

(** ** Lists *)

(** Filtering two related lists by corresponding predicates. *)
Lemma Forall2_filter {A B} (R : A → B → Prop) (P : A → Prop) (Q : B → Prop)
    `{∀ x, Decision (P x), ∀ y, Decision (Q y)} l k :
  Forall2 R l k → (∀ x y, x ∈ l → R x y → (P x ↔ Q y)) →
  Forall2 R (filter P l) (filter Q k).
Proof.
  induction 1 as [|x y l k Hxy Hlk IH]; intros Hiff; [constructor|].
  assert (Forall2 R (filter P l) (filter Q k)) by (apply IH; set_solver).
  specialize (Hiff x y ltac:(set_solver) Hxy).
  destruct (decide (P x)), (decide (Q y)); try tauto.
  - rewrite !filter_cons_True by done. by constructor.
  - by rewrite !filter_cons_False by done.
Qed.

Lemma Forall2_impl_elem {A B} (R S : A → B → Prop) l k :
  Forall2 R l k → (∀ x y, x ∈ l → R x y → S x y) → Forall2 S l k.
Proof.
  induction 1 as [|x y l k Hxy Hlk IH]; intros HRS; constructor.
  - apply HRS; set_solver.
  - apply IH. intros a b Ha. apply HRS. set_solver.
Qed.

Lemma filter_all {A} (P : A → Prop) `{∀ x, Decision (P x)} (l : list A) :
  (∀ x, x ∈ l → P x) → filter P l = l.
Proof.
  induction l as [|x l IH]; intros HP; [done|].
  rewrite filter_cons_True by (apply HP; set_solver). f_equal. apply IH. set_solver.
Qed.

Lemma Forall_filter_1 {A} (P Q : A → Prop) `{∀ x, Decision (Q x)} (l : list A) :
  Forall P l → Forall P (filter Q l).
Proof. rewrite !Forall_forall. intros Hl x [_ Hx]%list_elem_of_filter. by apply Hl. Qed.
