(* ===== verification/GoStr.v ===== *)
(** * Go strings and slice expressions

    A Go [string] (and a [[]byte]) is a sequence of bytes: [gostring].  Go's
    [int] offsets are [Z]; a slice expression [s[i:j]] with offsets out of
    range panics.  The functions of package [strings] the code calls are
    defined here on bytes. *)
From S2P Require Import Prelude.

Declare Scope go_scope.
Delimit Scope go_scope with go.

Abbreviation gostring := (list Ascii.ascii).

(** String literals of the Go source. *)
Definition go : string → gostring := String.list_ascii_of_string.
Arguments go : simpl never.

Definition len {A} (s : list A) : Z := Z.of_nat (length s).

(** The bytes from offset [i] up to offset [j], for offsets in range. *)
Definition sub {A} (s : list A) (i j : Z) : list A :=
  take (Z.to_nat (j - i)) (drop (Z.to_nat i) s).

(** [s[i:j]] *)
Definition slice {E A} (s : list A) (i j : Z) : res E (list A) :=
  if (0 <=? i)%Z && (i <=? j)%Z && (j <=? len s)%Z then Ok (sub s i j) else Panic.

(** [s[i]] *)
Definition index {E A} (s : list A) (i : Z) : res E A :=
  if (0 <=? i)%Z then
    match s !! Z.to_nat i with Some b => Ok b | None => Panic end
  else Panic.

(** Two's-complement wrap-around of an [int64]. *)
Definition wrap64 (n : Z) : Z := ((n + 2 ^ 63) mod 2 ^ 64 - 2 ^ 63)%Z.

Lemma wrap64_small n : (- 2 ^ 63 ≤ n < 2 ^ 63)%Z → wrap64 n = n.
Proof. intros. unfold wrap64. rewrite Z.mod_small; lia. Qed.

Lemma wrap64_add_l a b : wrap64 (wrap64 a + b) = wrap64 (a + b).
Proof.
  unfold wrap64. f_equal.
  replace ((a + 2 ^ 63) mod 2 ^ 64 - 2 ^ 63 + b + 2 ^ 63)%Z
    with ((a + 2 ^ 63) mod 2 ^ 64 + b)%Z by lia.
  rewrite Z.add_mod_idemp_l by lia. f_equal. lia.
Qed.

Section slice_lemmas.
Context {E A : Type}.
Implicit Types (s t : list A) (i j k : Z).

Lemma len_nonneg s : (0 ≤ len s)%Z.
Proof. unfold len. lia. Qed.

Lemma len_app s t : len (s ++ t) = (len s + len t)%Z.
Proof. unfold len. rewrite length_app. lia. Qed.

Lemma len_nil : len (@nil A) = 0%Z.
Proof. done. Qed.

Lemma len_cons x s : len (x :: s) = (1 + len s)%Z.
Proof. unfold len. simpl. lia. Qed.

Lemma slice_Ok s i j :
  (0 ≤ i ≤ j)%Z → (j ≤ len s)%Z → slice (E:=E) s i j = Ok (sub s i j).
Proof.
  intros [? ?] ?. unfold slice.
  by rewrite (proj2 (Z.leb_le _ _)), (proj2 (Z.leb_le _ _)), (proj2 (Z.leb_le _ _)).
Qed.

Lemma slice_inv s i j r :
  slice (E:=E) s i j = Ok r → (0 ≤ i ≤ j)%Z ∧ (j ≤ len s)%Z ∧ r = sub s i j.
Proof. unfold slice. if_case; [|done]. intros [= <-]. split_and!; [lia..|done]. Qed.

Lemma slice_Panic s i j :
  (i < 0 ∨ j < i ∨ len s < j)%Z → slice (E:=E) s i j = Panic.
Proof. intros ?. unfold slice. if_case; [lia|done]. Qed.

Lemma slice_not_Err s i j e : slice (E:=E) s i j ≠ Err e.
Proof. unfold slice. by if_case. Qed.

Lemma len_sub s i j :
  (0 ≤ i ≤ j)%Z → (j ≤ len s)%Z → len (sub s i j) = (j - i)%Z.
Proof. unfold len, sub. intros. rewrite length_take, length_drop. lia. Qed.

Lemma sub_nil s i j : (j ≤ i)%Z → sub s i j = [].
Proof. intros. unfold sub. by replace (Z.to_nat (j - i)) with 0 by lia. Qed.

Lemma sub_full s : sub s 0 (len s) = s.
Proof.
  unfold sub, len. rewrite Z.sub_0_r, Nat2Z.id. by rewrite drop_0, firstn_all.
Qed.

Lemma sub_lookup s i j (n : nat) :
  (0 ≤ i)%Z → (i + Z.of_nat n < j)%Z → sub s i j !! n = s !! (Z.to_nat i + n).
Proof.
  intros. unfold sub. rewrite lookup_take_lt by lia. by rewrite lookup_drop.
Qed.

Lemma sub_lookup_ge s i j (n : nat) :
  (0 ≤ i)%Z → (j ≤ i + Z.of_nat n)%Z → sub s i j !! n = None.
Proof. intros. unfold sub. apply lookup_take_ge. lia. Qed.

(** Adjacent slices concatenate. *)
Lemma sub_app_sub s i j k :
  (0 ≤ i ≤ j)%Z → (j ≤ k)%Z → sub s i j ++ sub s j k = sub s i k.
Proof.
  intros. unfold sub.
  replace (Z.to_nat (k - i)) with (Z.to_nat (j - i) + Z.to_nat (k - j)) by lia.
  replace (Z.to_nat j) with (Z.to_nat i + Z.to_nat (j - i)) by lia.
  rewrite <- drop_drop. apply take_take_drop.
Qed.

(** A slice of a slice. *)
Lemma sub_sub s i j a b :
  (0 ≤ i)%Z → (0 ≤ a)%Z → (b ≤ j - i)%Z → sub (sub s i j) a b = sub s (i + a) (i + b).
Proof.
  intros. apply list_eq. intros n.
  destruct (Z_lt_dec (a + Z.of_nat n) b).
  - rewrite !sub_lookup by lia. f_equal. lia.
  - by rewrite !sub_lookup_ge by lia.
Qed.

Lemma sub_app_l s t i j :
  (0 ≤ i)%Z → (j ≤ len s)%Z → sub (s ++ t) i j = sub s i j.
Proof.
  unfold len. intros. apply list_eq. intros n.
  destruct (Z_lt_dec (i + Z.of_nat n) j).
  - rewrite !sub_lookup by lia. apply lookup_app_l. lia.
  - by rewrite !sub_lookup_ge by lia.
Qed.

Lemma sub_app_r s t i j :
  (len s ≤ i)%Z → sub (s ++ t) i j = sub t (i - len s) (j - len s).
Proof.
  unfold len. intros. apply list_eq. intros n.
  destruct (Z_lt_dec (i + Z.of_nat n) j).
  - rewrite !sub_lookup by lia. rewrite lookup_app_r by lia. f_equal. lia.
  - by rewrite !sub_lookup_ge by lia.
Qed.

Lemma index_inv s i b :
  index (E:=E) s i = Ok b → (0 ≤ i < len s)%Z ∧ s !! Z.to_nat i = Some b.
Proof.
  unfold index, len. if_case; [|done].
  destruct (s !! Z.to_nat i) eqn:Hl; [|done]. intros [= <-].
  apply lookup_lt_Some in Hl as ?. split; [lia|done].
Qed.

Lemma index_Ok s i :
  (0 ≤ i < len s)%Z → ∃ b, index (E:=E) s i = Ok b.
Proof.
  unfold index, len. intros. if_case; [|lia].
  destruct (s !! Z.to_nat i) eqn:Hl; [eauto|].
  apply lookup_ge_None in Hl. lia.
Qed.
End slice_lemmas.

#[export] Hint Resolve len_nonneg : redactr.
#[export] Hint Rewrite @len_app @len_nil @len_cons : redactr.

(** ** Package strings, on bytes *)

(** [byte] values: the code compares bytes with character literals and adds
    them as integers. *)
Definition byteZ (c : Ascii.ascii) : Z := Z.of_N (Ascii.N_of_ascii c).

(** [byte(n)]: the low eight bits. *)
Definition byte_of (n : Z) : Ascii.ascii := Ascii.ascii_of_N (Z.to_N (n mod 256)).

Lemma byteZ_range c : (0 ≤ byteZ c < 256)%Z.
Proof. unfold byteZ. destruct c as [[][][][][][][][]]; vm_compute; split; congruence. Qed.

Lemma byteZ_byte_of n : byteZ (byte_of n) = (n mod 256)%Z.
Proof.
  unfold byteZ, byte_of.
  pose proof (Z.mod_pos_bound n 256 ltac:(lia)).
  rewrite Ascii.N_ascii_embedding by lia. lia.
Qed.

Lemma byteZ_inj a b : byteZ a = byteZ b → a = b.
Proof.
  unfold byteZ. intros H%N2Z.inj.
  by rewrite <- (Ascii.ascii_N_embedding a), <- (Ascii.ascii_N_embedding b), H.
Qed.

(** [strings.HasPrefix(s, p)] *)
Fixpoint HasPrefix (s p : gostring) : bool :=
  match p, s with
  | [], _ => true
  | b :: p', a :: s' => bool_decide (a = b) && HasPrefix s' p'
  | _ :: _, [] => false
  end.

(** [strings.HasSuffix(s, p)] *)
Definition HasSuffix (s p : gostring) : bool := HasPrefix (rev s) (rev p).

(** [strings.Index(s, p)]: the offset of the first occurrence, [None] for -1. *)
Fixpoint Index (s p : gostring) : option nat :=
  if HasPrefix s p then Some 0
  else match s with [] => None | _ :: s' => S <$> Index s' p end.

(** [strings.Contains(s, p)] *)
Definition Contains (s p : gostring) : bool := bool_decide (is_Some (Index s p)).

(** [strings.TrimPrefix(s, p)] *)
Definition TrimPrefix (s p : gostring) : gostring :=
  if HasPrefix s p then drop (length p) s else s.

(** [strings.IndexByte(s, c)] / [strings.LastIndexByte(s, c)] *)
Fixpoint IndexByte (s : gostring) (c : Ascii.ascii) : option nat :=
  match s with
  | [] => None
  | a :: s' => if bool_decide (a = c) then Some 0 else S <$> IndexByte s' c
  end.

Fixpoint LastIndexByte (s : gostring) (c : Ascii.ascii) : option nat :=
  match s with
  | [] => None
  | a :: s' =>
      match LastIndexByte s' c with
      | Some i => Some (S i)
      | None => if bool_decide (a = c) then Some 0 else None
      end
  end.
Lemma LastIndexByte_plain s c : c ∉ s → LastIndexByte s c = None.
Proof.
  induction s as [|a s IH]; [done|]. intros [Hc Hs]%not_elem_of_cons. cbn [LastIndexByte].
  rewrite IH by done. by rewrite bool_decide_eq_false_2.
Qed.
Lemma LastIndexByte_app_plain h p c : c ∉ p → LastIndexByte (h ++ c :: p) c = Some (length h).
Proof.
  intros Hp. induction h as [|a h IH]; cbn [app LastIndexByte length]; [|by rewrite IH].
  by rewrite LastIndexByte_plain, bool_decide_eq_true_2.
Qed.
Lemma LastIndexByte_Some s c i : LastIndexByte s c = Some i → s = take i s ++ c :: drop (S i) s ∧ c ∉ drop (S i) s.
Proof.
  revert i. induction s as [|a s IH]; intros i; cbn [LastIndexByte]; [done|].
  destruct (LastIndexByte s c) as [j|] eqn:Hj.
  - intros [= <-]. destruct (IH j eq_refl) as [Hs Hn]. cbn [take drop app]. split; [by rewrite <- Hs|exact Hn].
  - case_bool_decide as Ha; [|done]. intros [= <-]. subst a. cbn [take drop app]. split; [done|]. clear IH.
    induction s as [|b s IH]; [apply not_elem_of_nil|]. cbn [LastIndexByte] in Hj.
    destruct (LastIndexByte s c) eqn:Hs; [done|]. case_bool_decide as Hb; [done|].
    apply not_elem_of_cons. split; [congruence|by apply IH].
Qed.

(** [strings.Split(s, sep)] for a one-byte separator. *)
Fixpoint Split (s : gostring) (sep : Ascii.ascii) : list gostring :=
  match s with
  | [] => [[]]
  | a :: s' =>
      if bool_decide (a = sep) then [] :: Split s' sep
      else match Split s' sep with
           | p :: ps => (a :: p) :: ps
           | [] => [[a]]
           end
  end.

(** [strings.SplitN(s, sep, n)] for [n > 0]: at most [n] pieces, the last one
    unsplit. *)
Fixpoint SplitN (s : gostring) (sep : Ascii.ascii) (n : nat) : list gostring :=
  match n with
  | 0 => []
  | 1 => [s]
  | S n' =>
      match IndexByte s sep with
      | None => [s]
      | Some i => take i s :: SplitN (drop (S i) s) sep n'
      end
  end.

(** [strings.Join(parts, sep)] *)
Fixpoint Join (parts : list gostring) (sep : gostring) : gostring :=
  match parts with
  | [] => []
  | [p] => p
  | p :: ps => p ++ sep ++ Join ps sep
  end.

(** [strings.Count(s, c)] for a one-byte pattern. *)
Definition CountByte (s : gostring) (c : Ascii.ascii) : Z :=
  len (filter (λ a, a = c) s).

(** [strings.Replace(s, old, new, 1)] for a non-empty [old]. *)
Definition Replace1 (s old new : gostring) : gostring :=
  match Index s old with
  | Some i => take i s ++ new ++ drop (i + length old) s
  | None => s
  end.

(** [strings.Trim(s, cutset)] for an ASCII cut set. *)
Definition TrimLeftSet (s cutset : gostring) : gostring :=
  let fix go s := match s with
    | a :: s' => if bool_decide (a ∈ cutset) then go s' else s
    | [] => [] end in go s.
Definition Trim (s cutset : gostring) : gostring :=
  rev (TrimLeftSet (rev (TrimLeftSet s cutset)) cutset).
(** Nothing of the cut set at either end. *)
Definition trimmed (t cutset : gostring) : Prop :=
  (∀ c, head t = Some c → c ∉ cutset) ∧ (∀ c, last t = Some c → c ∉ cutset).
Lemma TrimLeftSet_split s cutset : ∃ l, s = l ++ TrimLeftSet s cutset ∧ l ⊆ cutset
  ∧ ∀ c, head (TrimLeftSet s cutset) = Some c → c ∉ cutset.
Proof.
  induction s as [|a s (l & Hs & Hl & Hh)]; [exists []; split; [done|split; [apply list_subseteq_nil|done]]|]. cbn. destruct (bool_decide (a ∈ cutset)) eqn:Ha.
  - apply bool_decide_eq_true in Ha. exists (a :: l). split; [cbn [app]; by rewrite Hs at 1|]. split; [|exact Hh].
    intros x [->|Hx]%elem_of_cons; [done|by apply Hl].
  - apply bool_decide_eq_false in Ha. exists []. split; [done|split; [apply list_subseteq_nil|by intros c [= <-]]].
Qed.
Lemma TrimLeftSet_app l t cutset : l ⊆ cutset → (∀ c, head t = Some c → c ∉ cutset) → TrimLeftSet (l ++ t) cutset = t.
Proof.
  intros Hl Ht. induction l as [|a l IH].
  - destruct t as [|b t]; [done|]. cbn. rewrite bool_decide_eq_false_2; [done|by apply Ht].
  - cbn. rewrite bool_decide_eq_true_2 by (apply Hl; by left). apply IH. intros x Hx. apply Hl. by right.
Qed.
Lemma rev_subseteq (l k : gostring) : l ⊆ k → rev l ⊆ k.
Proof. intros Hl x Hx. apply Hl, list_elem_of_In, in_rev, list_elem_of_In, Hx. Qed.
Lemma head_rev (t : gostring) : head (rev t) = last t.
Proof. induction t as [|c t IH] using rev_ind; [done|]. by rewrite rev_app_distr, last_snoc. Qed.
Lemma Trim_split s cutset : ∃ l r, s = l ++ Trim s cutset ++ r ∧ l ⊆ cutset ∧ r ⊆ cutset ∧ trimmed (Trim s cutset) cutset.
Proof.
  destruct (TrimLeftSet_split s cutset) as (l & Hs & Hl & Hh). unfold Trim.
  destruct (TrimLeftSet_split (rev (TrimLeftSet s cutset)) cutset) as (r & Hr & Hrc & Ht).
  apply (f_equal (@rev _)) in Hr. rewrite rev_involutive, rev_app_distr in Hr.
  exists l, (rev r). split; [by rewrite <- Hr|]. split; [done|]. split; [by apply rev_subseteq|]. split.
  - intros c Hc. apply Hh. rewrite Hr. by destruct (rev (TrimLeftSet (rev _) _)).
  - intros c Hc. apply Ht. by rewrite <- head_rev, rev_involutive in Hc.
Qed.
Lemma Trim_app l t r cutset : l ⊆ cutset → r ⊆ cutset → trimmed t cutset → Trim (l ++ t ++ r) cutset = t.
Proof.
  intros Hl Hr [Hh Ht]. unfold Trim. destruct t as [|c t].
  - cbn [app]. rewrite <- (app_nil_r r), app_assoc, TrimLeftSet_app; [done| |done].
    intros x [Hx|Hx]%elem_of_app; [by apply Hl|by apply Hr].
  - rewrite (TrimLeftSet_app l) by (done || by intros x [= <-]; apply Hh). rewrite rev_app_distr, TrimLeftSet_app.
    + apply rev_involutive.
    + by apply rev_subseteq.
    + intros x Hx. rewrite head_rev in Hx. by apply Ht.
Qed.
(** [strings.TrimRight(s, cutset)] *)
Definition TrimRight (s cutset : gostring) : gostring :=
  rev (TrimLeftSet (rev s) cutset).
Lemma TrimLeftSet_idem s cutset : TrimLeftSet (TrimLeftSet s cutset) cutset = TrimLeftSet s cutset.
Proof.
  induction s as [|a s IH]; [done|]. cbn. destruct (bool_decide (a ∈ cutset)) eqn:Ha; [exact IH|]. cbn. by rewrite Ha.
Qed.
Lemma TrimRight_idem s cutset : TrimRight (TrimRight s cutset) cutset = TrimRight s cutset.
Proof. unfold TrimRight. by rewrite rev_involutive, TrimLeftSet_idem. Qed.

(** Decimal rendering, [%d] and [strconv.Itoa]. *)
Fixpoint digits_pos (fuel : nat) (n : Z) (acc : gostring) : gostring :=
  match fuel with
  | 0 => acc
  | S f =>
      let acc' := byte_of (48 + n mod 10) :: acc in
      if (n <? 10)%Z then acc' else digits_pos f (n / 10)%Z acc'
  end.
Definition Itoa (n : Z) : gostring :=
  if (n <? 0)%Z then go "-" ++ digits_pos 20 (- n)%Z [] else digits_pos 20 n [].

(** [strconv.Atoi], on a 64-bit platform. *)
Definition is_digit_byte (c : Ascii.ascii) : bool :=
  (48 <=? byteZ c)%Z && (byteZ c <=? 57)%Z.
Definition dec_value (s : gostring) : Z :=
  foldl (λ acc c, (10 * acc + (byteZ c - 48))%Z) 0%Z s.
Definition Atoi (s : gostring) : option Z :=
  let '(neg, ds) :=
    match s with
    | a :: s' =>
        if bool_decide (a = "-"%char) then (true, s')
        else if bool_decide (a = "+"%char) then (false, s') else (false, s)
    | [] => (false, []) end in
  if bool_decide (ds = []) then None
  else if forallb is_digit_byte ds then
    let v := if neg : bool then (- dec_value ds)%Z else dec_value ds in
    if (- 2 ^ 63 <=? v)%Z && (v <? 2 ^ 63)%Z then Some v else None
  else None.

(** [bufio.ScanLines] with a buffer of [max] bytes: the lines before the first that does not fit,
    and whether all did.  An empty last piece is no line; a final carriage return is dropped. *)
Definition drop_cr (s : gostring) : gostring :=
  if HasSuffix s [byte_of 13] then take (Nat.pred (length s)) s else s.
Fixpoint scan_lines (max : Z) (pieces : list gostring) : list gostring * bool :=
  match pieces with
  | [] => ([], true)
  | [l] => if bool_decide (l = []) then ([], true) else if (max <=? len l)%Z then ([], false) else ([drop_cr l], true)
  | l :: pieces =>
      if (max <=? len l)%Z then ([], false)
      else let '(ls, all) := scan_lines max pieces in (drop_cr l :: ls, all)
  end.
Definition ScanLines (max : Z) (s : gostring) : list gostring := (scan_lines max (Split s (byte_of 10))).1.

Example split_ex : Split (go "a.b..c") "." = [go "a"; go "b"; go ""; go "c"].
Proof. reflexivity. Qed.
Example splitn_ex : SplitN (go "a.b.c.d") "." 3 = [go "a"; go "b"; go "c.d"].
Proof. reflexivity. Qed.
Example itoa_ex : Itoa (-5073) = go "-5073" ∧ Itoa 0 = go "0".
Proof. split; reflexivity. Qed.
Example atoi_ex : Atoi (go "-42") = Some (-42)%Z ∧ Atoi (go "4x") = None ∧ Atoi (go "") = None.
Proof. repeat split; reflexivity. Qed.
Example contains_ex : Contains (go "my token here") (go "token") = true.
Proof. reflexivity. Qed.

(** *** What the searches find *)

Lemma HasPrefix_spec s p : HasPrefix s p = true ↔ ∃ t, s = p ++ t.
Proof.
  revert s. induction p as [|b p IH]; intros s; destruct s as [|a s]; simpl.
  - split; [by exists []|done].
  - split; [by eexists|done].
  - split; [done|by intros [? [=]]].
  - rewrite andb_true_iff, bool_decide_eq_true, IH. split.
    + intros [-> [t ->]]. by exists t.
    + intros [t [= -> ->]]. eauto.
Qed.

Lemma Index_Some s p i :
  Index s p = Some i → ∃ t, s = take i s ++ p ++ t ∧ (i + length p ≤ length s)%nat.
Proof.
  revert i. induction s as [|a s IH]; intros i; cbn [Index].
  - destruct (HasPrefix [] p) eqn:Hp; [|done]. intros [= <-].
    apply HasPrefix_spec in Hp as [t Ht]. destruct p; [|done]. by exists [].
  - destruct (HasPrefix (a :: s) p) eqn:Hp.
    + intros [= <-]. apply HasPrefix_spec in Hp as [t Ht]. exists t. cbn [take app].
      split; [done|]. rewrite Ht, length_app. lia.
    + destruct (Index s p) as [k|] eqn:Hk; [|done]. intros [= <-].
      destruct (IH k eq_refl) as (t & Ht & Hl). exists t. cbn. split; [by rewrite <- Ht|lia].
Qed.

Lemma Index_sub s p i :
  Index s p = Some i →
  (0 ≤ Z.of_nat i ≤ Z.of_nat i + len p)%Z ∧ (Z.of_nat i + len p ≤ len s)%Z
  ∧ sub s (Z.of_nat i) (Z.of_nat i + len p) = p.
Proof.
  intros H. destruct (Index_Some s p i H) as (t & Ht & Hl). unfold len. split_and!; [lia..|].
  unfold sub. rewrite Nat2Z.id. replace (Z.to_nat _) with (length p) by lia.
  assert (length (take i s) = i) by (rewrite length_take; lia).
  rewrite Ht, drop_app_ge by lia.
  replace (i - length (take i s))%nat with 0%nat by lia. by rewrite drop_0, take_app_length.
Qed.

Lemma Index_app l p t : is_Some (Index (l ++ p ++ t) p).
Proof.
  induction l as [|a l IH]; cbn [app].
  - assert (HasPrefix (p ++ t) p = true) as Hp by (apply HasPrefix_spec; by exists t).
    destruct (p ++ t); cbn [Index]; rewrite Hp; eauto.
  - cbn [Index]. case_match; [eauto|]. by apply fmap_is_Some.
Qed.

Lemma Contains_sub s p :
  Contains s p = true ↔ ∃ i, (0 ≤ i ∧ i + len p ≤ len s)%Z ∧ sub s i (i + len p) = p.
Proof.
  unfold Contains. rewrite bool_decide_eq_true. split.
  - intros [i Hi%Index_sub]. exists (Z.of_nat i). naive_solver lia.
  - intros (i & [H0 H1] & Hs). pose proof (len_nonneg p).
    rewrite <- (sub_full s), <- (sub_app_sub s 0 i) by lia.
    rewrite <- (sub_app_sub s i (i + len p)) by lia. rewrite Hs. apply Index_app.
Qed.

Lemma IndexByte_Some s c i :
  IndexByte s c = Some i → s !! i = Some c ∧ c ∉ take i s.
Proof.
  revert i. induction s as [|a s IH]; intros i; simpl; [done|]. if_case.
  - intros [= <-]. subst. split; [done|]. apply not_elem_of_nil.
  - destruct (IndexByte s c) as [k|]; [|done]. intros [= <-].
    destruct (IH k eq_refl) as [? ?]. split; [done|]. cbn. by apply not_elem_of_cons.
Qed.

Lemma IndexByte_None s c : IndexByte s c = None ↔ c ∉ s.
Proof.
  induction s as [|a s IH]; simpl; [split; [intros _; apply not_elem_of_nil|done]|].
  rewrite not_elem_of_cons. if_case; [naive_solver|].
  destruct (IndexByte s c); cbn; [split; [done|]|]; naive_solver.
Qed.

(** *** Splitting and joining *)

Lemma Split_ne s c : Split s c ≠ [].
Proof. destruct s as [|a s]; cbn [Split]; [done|]. if_case; [done|]. by destruct (Split s c). Qed.

Lemma Join_cons p l sep : l ≠ [] → Join (p :: l) sep = p ++ sep ++ Join l sep.
Proof. by destruct l. Qed.

Lemma Join_Split s c : Join (Split s c) [c] = s.
Proof.
  induction s as [|a s IH]; [done|]. cbn [Split]. if_case.
  - subst. rewrite Join_cons by apply Split_ne. by rewrite IH.
  - pose proof (Split_ne s c). destruct (Split s c) as [|p ps]; [done|]. destruct ps as [|q ps].
    + cbn in *. by rewrite IH.
    + rewrite Join_cons in * by done. by rewrite <- IH.
Qed.

Lemma Split_app p s c : c ∉ p → Split (p ++ c :: s) c = p :: Split s c.
Proof.
  induction p as [|a p IH]; cbn [app Split]; intros Hp; [by rewrite bool_decide_eq_true_2|].
  apply not_elem_of_cons in Hp as [Ha Hp]. rewrite bool_decide_eq_false_2, IH by done. done.
Qed.

Lemma Split_Join l c : l ≠ [] → Forall (λ p, c ∉ p) l → Split (Join l [c]) c = l.
Proof.
  intros Hne Hl. induction Hl as [|p l Hp Hl IH]; [done|]. destruct l as [|q l].
  - cbn [Join]. clear IH Hl Hne. induction p as [|a p IH]; [done|].
    apply not_elem_of_cons in Hp as [Ha Hp]. cbn [Split]. by rewrite bool_decide_eq_false_2, IH.
  - rewrite Join_cons by done. cbn [app]. by rewrite Split_app, IH.
Qed.

(** *** Shifts and unions of disjoint bit fields *)
Section bit_fields.
Local Open Scope Z_scope.

Lemma lor_shiftl_add a b k : 0 ≤ k → 0 ≤ b < 2 ^ k → Z.lor (Z.shiftl a k) b = a * 2 ^ k + b.
Proof.
  intros Hk Hb. rewrite <- Z.add_nocarry_lor; [by rewrite Z.shiftl_mul_pow2|].
  apply Z.bits_inj'. intros n Hn. rewrite Z.land_spec, Z.bits_0. destruct (Z.lt_ge_cases n k).
  - by rewrite Z.shiftl_spec_low.
  - rewrite <- (Z.mod_small b (2 ^ k)) by done. rewrite Z.mod_pow2_bits_high by lia. apply andb_false_r.
Qed.
Lemma lor_bytes lo hi : 0 ≤ lo < 256 → Z.lor lo (Z.shiftl hi 8) = 256 * hi + lo.
Proof. intros. rewrite Z.lor_comm, lor_shiftl_add by lia. lia. Qed.
End bit_fields.

(** *** Decimal texts *)
Section decimals.
Local Open Scope Z_scope.

Lemma dec_value_snoc ds c : dec_value (ds ++ [c]) = 10 * dec_value ds + (byteZ c - 48).
Proof. unfold dec_value. by rewrite foldl_snoc. Qed.

Lemma digit_byte d : 0 ≤ d < 10 → byteZ (byte_of (48 + d)) = 48 + d ∧ is_digit_byte (byte_of (48 + d)) = true.
Proof.
  intros Hd. assert (byteZ (byte_of (48 + d)) = 48 + d) as E.
  { rewrite byteZ_byte_of. apply Z.mod_small. lia. }
  split; [done|]. unfold is_digit_byte. rewrite E. apply andb_true_iff. split; apply Z.leb_le; lia.
Qed.

(** A decimal text without a leading zero, and its value. *)
Definition decimal_of (n : Z) (ds : gostring) : Prop :=
  ds ≠ [] ∧ forallb is_digit_byte ds = true ∧ dec_value ds = n
  ∧ ∀ c t, ds = c :: t → byteZ c = 48 → t = [].

Lemma digits_pos_decimal fuel n acc :
  0 ≤ n < 10 ^ Z.of_nat fuel → (0 < fuel)%nat →
  ∃ ds, digits_pos fuel n acc = ds ++ acc ∧ decimal_of n ds.
Proof.
  revert n acc. induction fuel as [|fuel IH]; intros n acc Hn Hf; [lia|]. cbn [digits_pos].
  destruct (Z.ltb_spec n 10) as [Hlt|Hge].
  - exists [byte_of (48 + n)]. rewrite Z.mod_small by lia. split; [done|].
    destruct (digit_byte n) as [Hb Hd]; [lia|]. split_and!; [done| | |by intros ?? [= _ <-] _].
    + cbn [forallb]. by rewrite Hd.
    + unfold dec_value; cbn [foldl]. lia.
  - destruct fuel as [|fuel]; [cbn in Hn; lia|]. pose proof (Z.div_mod n 10) as Hdm. pose proof (Z.mod_pos_bound n 10) as Hmod.
    destruct (IH (n / 10) (byte_of (48 + n mod 10) :: acc)) as (ds & -> & Hne & Hall & Hv & Hz); [|lia|].
    { rewrite Nat2Z.inj_succ, Z.pow_succ_r in Hn by lia. split; [apply Z.div_pos; lia|]. apply Z.div_lt_upper_bound; lia. }
    exists (ds ++ [byte_of (48 + n mod 10)]). rewrite <-app_assoc. split; [done|].
    destruct (digit_byte (n mod 10)) as [Hb Hd]; [lia|]. split_and!.
    + by destruct ds.
    + rewrite forallb_app, Hall. cbn [forallb]. by rewrite Hd.
    + rewrite dec_value_snoc, Hv, Hb. lia.
    + intros c t Heq Hc. destruct ds as [|c' ds]; [done|]. injection Heq as <- _.
      specialize (Hz _ _ eq_refl Hc). subst ds. unfold dec_value in Hv. cbn [foldl] in Hv. lia.
Qed.

Lemma Itoa_decimal n :
  0 ≤ n < 2 ^ 63 → decimal_of n (Itoa n).
Proof.
  intros Hn. unfold Itoa. rewrite (proj2 (Z.ltb_ge n 0)) by lia.
  destruct (digits_pos_decimal 20 n []) as (ds & -> & Hd); [lia..|]. by rewrite app_nil_r.
Qed.

Lemma is_digit_byte_range c : is_digit_byte c = true → 48 ≤ byteZ c ≤ 57.
Proof. unfold is_digit_byte. intros Hc. by bool_hyps. Qed.

Lemma Atoi_Itoa n : 0 ≤ n < 2 ^ 63 → Atoi (Itoa n) = Some n.
Proof.
  intros Hn. destruct (Itoa_decimal n Hn) as (Hne & Hall & Hv & _). unfold Atoi.
  destruct (Itoa n) as [|c t]; [done|]. assert (is_digit_byte c = true) as Hc%is_digit_byte_range.
  { cbn [forallb] in Hall. by apply andb_true_iff in Hall as [? _]. }
  rewrite !(bool_decide_eq_false_2 (c = _)) by (intros ->; vm_compute in Hc; destruct Hc as [Hc _]; by apply Hc).
  rewrite bool_decide_eq_false_2 by done. rewrite Hall, Hv.
  rewrite (proj2 (Z.leb_le _ _)), (proj2 (Z.ltb_lt _ _)) by lia. done.
Qed.
End decimals.
