(* ===== verification/Utf8.v ===== *)
(** * UTF-8 and package unicode

    Go converts between byte strings and runes with the decoder of package
    [unicode/utf8]: an invalid byte decodes to U+FFFD with width one.  The
    Unicode character database is the class [UnicodeData]; it is consulted for
    code points above U+007F only, the ASCII range is defined here. *)
From Stdlib Require Import ZifyBool.
From S2P Require Import Prelude GoStr.
Local Open Scope N_scope.

(** A code point and the bytes it was decoded from. *)
Definition RuneError : N := 65533.

Definition byteN (c : Ascii.ascii) : N := Ascii.N_of_ascii c.
Definition chr (n : N) : Ascii.ascii := Ascii.ascii_of_N n.

Definition in_range (lo hi : N) (c : Ascii.ascii) : bool :=
  (lo <=? byteN c) && (byteN c <=? hi).

(** The number of bytes of the sequence a first byte starts and the range of
    its second byte ([utf8.first] and [utf8.acceptRanges]). *)
Definition utf8_first (b : N) : option (nat * N * N) :=
  if b <? 128 then Some (1%nat, 0, 0)
  else if b <? 194 then None
  else if b <? 224 then Some (2%nat, 128, 191)
  else if b =? 224 then Some (3%nat, 160, 191)
  else if b =? 237 then Some (3%nat, 128, 159)
  else if b <? 240 then Some (3%nat, 128, 191)
  else if b =? 240 then Some (4%nat, 144, 191)
  else if b <? 244 then Some (4%nat, 128, 191)
  else if b =? 244 then Some (4%nat, 128, 143)
  else None.

Definition cont (c : Ascii.ascii) : N := N.land (byteN c) 63.

(** [utf8.DecodeRuneInString] on a non-empty string: the rune and its width. *)
Definition decode_rune (c0 : Ascii.ascii) (s : gostring) : N * nat :=
  let b0 := byteN c0 in
  match utf8_first b0, s with
  | Some (1%nat, _, _), _ => (b0, 1%nat)
  | Some (2%nat, lo, hi), c1 :: _ =>
      if in_range lo hi c1 then (N.lor (N.shiftl (N.land b0 31) 6) (cont c1), 2%nat)
      else (RuneError, 1%nat)
  | Some (3%nat, lo, hi), c1 :: c2 :: _ =>
      if in_range lo hi c1 && in_range 128 191 c2 then
        (N.lor (N.shiftl (N.land b0 15) 12) (N.lor (N.shiftl (cont c1) 6) (cont c2)), 3%nat)
      else (RuneError, 1%nat)
  | Some (4%nat, lo, hi), c1 :: c2 :: c3 :: _ =>
      if in_range lo hi c1 && in_range 128 191 c2 && in_range 128 191 c3 then
        (N.lor (N.shiftl (N.land b0 7) 18)
           (N.lor (N.shiftl (cont c1) 12) (N.lor (N.shiftl (cont c2) 6) (cont c3))), 4%nat)
      else (RuneError, 1%nat)
  | _, _ => (RuneError, 1%nat)
  end.

(** [utf8.EncodeRune] *)
Definition encode_rune (r : N) : gostring :=
  if r <? 128 then [chr r]
  else if r <? 2048 then
    [chr (192 + N.shiftr r 6); chr (128 + N.land r 63)]
  else if (1114111 <? r) || ((55296 <=? r) && (r <=? 57343)) then
    [chr 239; chr 191; chr 189]
  else if r <? 65536 then
    [chr (224 + N.shiftr r 12); chr (128 + N.land (N.shiftr r 6) 63); chr (128 + N.land r 63)]
  else
    [chr (240 + N.shiftr r 18); chr (128 + N.land (N.shiftr r 12) 63);
     chr (128 + N.land (N.shiftr r 6) 63); chr (128 + N.land r 63)].

(** The runes of a string in order, each with its source bytes.  [n] skips the
    bytes a multi-byte rune has already consumed. *)
Fixpoint decode_from (skip : nat) (s : gostring) : list (N * gostring) :=
  match s with
  | [] => []
  | c :: s' =>
      match skip with
      | S k => decode_from k s'
      | 0%nat =>
          let '(r, w) := decode_rune c s' in
          (r, c :: take (Nat.pred w) s') :: decode_from (Nat.pred w) s'
      end
  end.
Definition decode_all (s : gostring) : list (N * gostring) := decode_from 0 s.

(** [[]rune(s)] and [string(runes)] *)
Definition runes (s : gostring) : list N := fst <$> decode_all s.
Definition string_of_runes (rs : list N) : gostring := rs ≫= encode_rune.

(** [strings.Map(f, s)]: [None] drops the rune (a negative result in Go). *)
Definition Map (f : N → option N) (s : gostring) : gostring :=
  runes s ≫= λ r, match f r with Some r' => encode_rune r' | None => [] end.

Definition ascii_only (s : gostring) : bool := forallb (λ c, byteN c <? 128) s.

Class UnicodeData := {
  uni_letter : N → bool;
  uni_digit : N → bool;
  uni_upper : N → bool;
  uni_lower : N → bool;
  uni_space : N → bool;
  uni_to_lower : N → N;
  uni_to_upper : N → N;
  (** the representative of a rune's simple-folding orbit *)
  uni_fold : N → N;
}.

Definition between (lo hi r : N) : bool := (lo <=? r) && (r <=? hi).

Section unicode.
Context `{UnicodeData}.

(** [unicode.IsUpper], [IsLower], [IsLetter], [IsDigit], [IsSpace],
    [ToLower], [ToUpper] *)
Definition IsUpper (r : N) : bool := if r <? 128 then between 65 90 r else uni_upper r.
Definition IsLower (r : N) : bool := if r <? 128 then between 97 122 r else uni_lower r.
Definition IsLetter (r : N) : bool :=
  if r <? 128 then between 65 90 r || between 97 122 r else uni_letter r.
Definition IsDigit (r : N) : bool := if r <? 128 then between 48 57 r else uni_digit r.
Definition IsSpace (r : N) : bool :=
  if r <? 128 then between 9 13 r || (r =? 32) else uni_space r.
Definition RuneToLower (r : N) : N :=
  if r <? 128 then (if between 65 90 r then r + 32 else r) else uni_to_lower r.
Definition RuneToUpper (r : N) : N :=
  if r <? 128 then (if between 97 122 r then r - 32 else r) else uni_to_upper r.

(** [strings.ToLower], [strings.ToUpper] *)
Definition ToLower (s : gostring) : gostring := Map (λ r, Some (RuneToLower r)) s.
Definition ToUpper (s : gostring) : gostring := Map (λ r, Some (RuneToUpper r)) s.

(** [strings.TrimSpace] *)
Fixpoint drop_spaces (l : list (N * gostring)) : list (N * gostring) :=
  match l with
  | (r, b) :: l' => if IsSpace r then drop_spaces l' else l
  | [] => []
  end.
Definition TrimSpace (s : gostring) : gostring :=
  rev (drop_spaces (rev (drop_spaces (decode_all s)))) ≫= snd.

(** [strings.EqualFold]: equality of runes up to simple case folding. *)
Definition fold_rune (r : N) : N :=
  if r <? 128 then (if between 65 90 r then r + 32 else r) else uni_fold r.
Definition EqualFold (s t : gostring) : bool :=
  bool_decide (fold_rune <$> runes s = fold_rune <$> runes t).
End unicode.

(** A database for concrete evaluations: no letters outside ASCII, except
    U+0130 (capital I with dot), whose lower case is the ASCII letter i, and
    the two letters of e-acute. *)
Definition sample_unicode : UnicodeData := {|
  uni_letter r := bool_decide (r ∈ [304; 201; 233]);
  uni_digit _ := false;
  uni_upper r := bool_decide (r ∈ [304; 201]);
  uni_lower r := bool_decide (r = 233);
  uni_space r := bool_decide (r ∈ [133; 160]);
  uni_to_lower r := if r =? 304 then 105 else if r =? 201 then 233 else r;
  uni_to_upper r := if r =? 233 then 201 else r;
  uni_fold r := if r =? 201 then 233 else if r =? 383 then 115 else if r =? 8490 then 107 else r;
|}.

(** ** Lemmas *)

Lemma decode_rune_width c s : (1 ≤ snd (decode_rune c s) ≤ S (length s))%nat.
Proof.
  unfold decode_rune.
  repeat (case_match; simplify_eq/=; try lia).
Qed.

Lemma decode_from_bytes k s : (decode_from k s ≫= snd) = drop k s.
Proof.
  revert k. induction s as [|c s IH]; intros k; [by destruct k|].
  destruct k as [|k]; simpl; [|apply IH].
  destruct (decode_rune c s) as [r w] eqn:Hd. simpl.
  rewrite IH. f_equal. apply take_drop.
Qed.

(** Decoding splits a string without losing a byte. *)
Lemma decode_all_bytes s : (decode_all s ≫= snd) = s.
Proof. apply decode_from_bytes. Qed.

Lemma decode_rune_ascii c s : byteN c < 128 → decode_rune c s = (byteN c, 1%nat).
Proof.
  intros Hc. unfold decode_rune, utf8_first.
  by rewrite (proj2 (N.ltb_lt _ _)).
Qed.

Lemma decode_all_ascii s :
  ascii_only s = true → decode_all s = (λ c, (byteN c, [c])) <$> s.
Proof.
  unfold decode_all. induction s as [|c s IH]; [done|].
  simpl. intros [Hc Hs]%andb_true_iff. apply N.ltb_lt in Hc.
  rewrite decode_rune_ascii by done. simpl. by rewrite take_0, IH.
Qed.

Lemma runes_ascii s : ascii_only s = true → runes s = byteN <$> s.
Proof.
  intros Hs. unfold runes. rewrite decode_all_ascii by done.
  by rewrite <- list_fmap_compose.
Qed.

Lemma encode_rune_ascii r : r < 128 → encode_rune r = [chr r].
Proof. intros. unfold encode_rune. by rewrite (proj2 (N.ltb_lt _ _)). Qed.

Lemma chr_byteN c : chr (byteN c) = c.
Proof. apply Ascii.ascii_N_embedding. Qed.

Lemma byteN_chr n : n < 256 → byteN (chr n) = n.
Proof. apply Ascii.N_ascii_embedding. Qed.

Lemma string_of_runes_ascii s :
  ascii_only s = true → string_of_runes (byteN <$> s) = s.
Proof.
  unfold string_of_runes. induction s as [|c s IH]; [done|].
  simpl. intros [Hc Hs]%andb_true_iff. apply N.ltb_lt in Hc.
  rewrite encode_rune_ascii by done. rewrite chr_byteN. simpl. f_equal. by apply IH.
Qed.

(** Every rune takes at least one byte. *)
Lemma decode_from_nonempty k s : Forall (λ p, (0 < length p.2)%nat) (decode_from k s).
Proof.
  revert k. induction s as [|c s IH]; intros k; cbn; [constructor|].
  destruct k; [|apply IH]. destruct (decode_rune c s) as [r w]. constructor; [cbn; lia|apply IH].
Qed.

Lemma length_bind_ge {A B} (f : A → list B) l :
  Forall (λ x, (0 < length (f x))%nat) l → (length l ≤ length (l ≫= f))%nat.
Proof. induction 1 as [|x l Hx Hl IH]; [done|]. csimpl. rewrite length_app. lia. Qed.

Lemma length_runes_le s : (length (runes s) ≤ length s)%nat.
Proof.
  unfold runes. rewrite length_fmap. rewrite <- (decode_all_bytes s) at 2.
  apply length_bind_ge, decode_from_nonempty.
Qed.

Lemma encode_rune_nonempty r : (0 < length (encode_rune r))%nat.
Proof. unfold encode_rune. repeat case_match; cbn; lia. Qed.

(** Lower-casing keeps the number of runes, so it has no fewer bytes than the
    text has runes. *)
Lemma length_runes_ToLower `{UnicodeData} s : (length (runes s) ≤ length (ToLower s))%nat.
Proof.
  unfold ToLower, Map. apply length_bind_ge, Forall_true. intros r. apply encode_rune_nonempty.
Qed.

(** On ASCII text, lower-casing keeps every byte offset. *)
Lemma ToLower_ascii_length `{UnicodeData} s :
  ascii_only s = true → length (ToLower s) = length s.
Proof.
  unfold ToLower, Map. intros Hs. rewrite runes_ascii by done.
  induction s as [|c s IH]; [done|].
  simpl in Hs. apply andb_true_iff in Hs as [Hc Hs]. apply N.ltb_lt in Hc.
  csimpl. rewrite length_app, IH by done.
  rewrite encode_rune_ascii; [done|].
  unfold RuneToLower, between. rewrite (proj2 (N.ltb_lt _ _)) by done.
  destruct ((65 <=? byteN c) && (byteN c <=? 90)) eqn:E; [|done].
  apply andb_true_iff in E as [_ E%N.leb_le]. lia.
Qed.

(** The converse fails: lower-casing can shorten a string. *)
Example ToLower_shortens :
  length (@ToLower sample_unicode [chr 196; chr 176]) = 1%nat.
Proof. reflexivity. Qed.

Example TrimSpace_ex :
  @TrimSpace sample_unicode (go "  a b " ++ [chr 194; chr 160]) = go "a b".
Proof. reflexivity. Qed.

(** *** What a decoding step depends on *)

Definition is_cont (c : Ascii.ascii) : bool := in_range 128 191 c.

Lemma utf8_first_range b n lo hi :
  utf8_first b = Some (S (S n), lo, hi) → 128 ≤ lo ∧ hi ≤ 191.
Proof. unfold utf8_first. intros H. repeat case_match; simplify_eq; lia. Qed.

Lemma in_range_cont lo hi c : 128 ≤ lo → hi ≤ 191 → in_range lo hi c = true → is_cont c = true.
Proof.
  unfold is_cont, in_range. intros ?? [H1%N.leb_le H2%N.leb_le]%andb_true_iff.
  apply andb_true_iff. split; apply N.leb_le; lia.
Qed.

(** A step that takes more than one byte takes continuation bytes, and does
    not look past them. *)
Lemma decode_rune_wide c s r w t :
  decode_rune c s = (r, S (S w)) →
  (S w ≤ length s)%nat ∧ forallb is_cont (take (S w) s) = true ∧ 128 ≤ byteN c
  ∧ decode_rune c (take (S w) s ++ t) = (r, S (S w)).
Proof.
  unfold decode_rune. destruct (utf8_first (byteN c)) as [[[n lo] hi]|] eqn:Hf; [|done].
  assert (128 ≤ byteN c ∨ n = 1%nat) as Hc.
  { unfold utf8_first in Hf. destruct (byteN c <? 128) eqn:E; [right; by simplify_eq|].
    apply N.ltb_ge in E. by left. }
  destruct n as [|[|[|[|[|n]]]]]; try done; destruct Hc as [Hc|Hc]; try done.
  all: destruct (utf8_first_range _ _ _ _ Hf) as [Hlo Hhi]; destruct s as [|c1 s]; try done.
  - if_case; [|done]. intros [= <- <-]. cbn [take app length forallb].
    rewrite (in_range_cont lo hi) by done. rewrite_true. split_and!; (lia || done).
  - destruct s as [|c2 s]; [done|]. if_case; [|done]. intros [= <- <-].
    cbn [take app length forallb].
    rewrite (in_range_cont lo hi c1), (in_range_cont 128 191 c2) by done.
    rewrite_true. split_and!; (lia || done).
  - destruct s as [|c2 [|c3 s]]; [done..|]. if_case; [|done]. intros [= <- <-].
    cbn [take app length forallb].
    rewrite (in_range_cont lo hi c1), (in_range_cont 128 191 c2), (in_range_cont 128 191 c3) by done.
    rewrite_true. split_and!; (lia || done).
Qed.

(** The leading continuation bytes of a string. *)
Fixpoint cont_prefix (s : gostring) : gostring :=
  match s with c :: s' => if is_cont c then c :: cont_prefix s' else [] | [] => [] end.

Lemma decode_rune_cont_prefix c s : decode_rune c s = decode_rune c (cont_prefix s).
Proof.
  unfold decode_rune. destruct (utf8_first (byteN c)) as [[[n lo] hi]|] eqn:Hf; [|done].
  destruct n as [|[|[|[|[|n]]]]]; try done;
    destruct (utf8_first_range _ _ _ _ Hf) as [Hlo Hhi]; clear Hf.
  all: assert (∀ d, is_cont d = false → in_range lo hi d = false) as Hn
    by (intros d Hd; destruct (in_range lo hi d) eqn:E; [|done];
        apply in_range_cont in E; congruence).
  all: destruct s as [|c1 s]; [done|]; cbn [cont_prefix];
    destruct (is_cont c1) eqn:E1; [|rewrite (Hn c1 E1); by repeat case_match].
  all: destruct s as [|c2 s]; [done|]; cbn [cont_prefix];
    destruct (is_cont c2) eqn:E2; unfold is_cont in E2; try done;
    rewrite ?E2, ?andb_false_r; try done.
  all: destruct s as [|c3 s]; [done|]; cbn [cont_prefix];
    destruct (is_cont c3) eqn:E3; unfold is_cont in E3; try done;
    rewrite ?E3, ?andb_false_r; done.
Qed.

(** *** Encoding and decoding back *)

Definition valid_rune (r : N) : bool := (r <? 55296) || ((57343 <? r) && (r <=? 1114111)).

Lemma land_low a k : N.land a (N.ones k) = a mod 2 ^ k.
Proof. apply N.land_ones. Qed.
Lemma lor_shift a b k : b < 2 ^ k → N.lor (N.shiftl a k) b = a * 2 ^ k + b.
Proof.
  intros Hb. assert (N.land (N.shiftl a k) b = 0) as H0.
  { apply N.bits_inj. intros i. rewrite N.land_spec, N.bits_0. destruct (N.lt_ge_cases i k).
    - by rewrite N.shiftl_spec_low.
    - rewrite <- (N.mod_small b (2 ^ k)) by done.
      rewrite (N.mod_pow2_bits_high b k i) by done. apply andb_false_r. }
  by rewrite <- N.lxor_lor, <- N.add_nocarry_lxor, N.shiftl_mul_pow2.
Qed.

Lemma in_range_chr lo hi n : n < 256 → in_range lo hi (chr n) = (lo <=? n) && (n <=? hi).
Proof. intros. unfold in_range. by rewrite byteN_chr. Qed.
Lemma cont_chr n : n < 64 → cont (chr (128 + n)) = n.
Proof.
  intros Hn. unfold cont. rewrite byteN_chr by lia. rewrite (land_low _ 6 : N.land _ 63 = _).
  change (2 ^ 6) with 64. rewrite <- (N.mod_small n 64) at 2 by done.
  change 128 with (2 * 64). rewrite N.add_comm. apply N.Div0.mod_add.
Qed.

Lemma mod_lead b p n : n < p → (b * p + n) mod p = n.
Proof. intros. rewrite N.add_comm, N.Div0.mod_add. by apply N.mod_small. Qed.

(** The lead byte and continuation bytes of a multi-byte encoding. *)
Lemma split64 r : r = 64 * (r / 64) + r mod 64 ∧ r mod 64 < 64.
Proof. split; [apply N.Div0.div_mod|by apply N.mod_lt]. Qed.

(** A rune decodes from its encoding, whatever follows. *)
Lemma decode_encode r c cs t :
  valid_rune r = true → encode_rune r = c :: cs → decode_rune c (cs ++ t) = (r, S (length cs)).
Proof.
  unfold valid_rune. intros Hv. unfold encode_rune.
  assert (∀ n, N.land n 63 = n mod 64) as H63 by (intros n; exact (land_low n 6)).
  rewrite !N.shiftr_div_pow2, !H63. change (2 ^ 6) with 64.
  replace (r / 2 ^ 12) with (r / 64 / 64) by (by rewrite N.Div0.div_div).
  replace (r / 2 ^ 18) with (r / 64 / 64 / 64) by (by rewrite !N.Div0.div_div).
  destruct (split64 r) as [Hr0 Hm0], (split64 (r / 64)) as [Hr1 Hm1], (split64 (r / 64 / 64)) as [Hr2 Hm2].
  set (m0 := r mod 64) in *. set (m1 := (r / 64) mod 64) in *. set (m2 := (r / 64 / 64) mod 64) in *.
  set (q1 := r / 64) in *. set (q2 := q1 / 64) in *. set (q3 := q2 / 64) in *.
  clearbody m0 m1 m2 q1 q2 q3.
  destruct (r <? 128) eqn:E1.
  { intros [= <- <-]. rewrite decode_rune_ascii; rewrite byteN_chr; try lia; done. }
  destruct (r <? 2048) eqn:E2; [|destruct (1114111 <? r) eqn:E3; [lia|]; cbn [orb];
    destruct ((55296 <=? r) && (r <=? 57343)) eqn:E4; [lia|]; destruct (r <? 65536) eqn:E5];
    intros [= <- <-]; unfold decode_rune; rewrite byteN_chr by lia; unfold utf8_first; cbn [app];
    repeat match goal with
    | |- context [if ?b then _ else _] =>
        first [assert (b = true) as -> by (rewrite ?in_range_chr by lia; lia)
              |assert (b = false) as -> by (rewrite ?in_range_chr by lia; lia)
              |destruct b eqn:?]
    end; cbn [length]; rewrite ?cont_chr by lia.
  all: try (exfalso; lia).
  all: f_equal; rewrite ?(lor_shift m1 m0 6) by done.
  1: rewrite (land_low _ 5 : N.land _ 31 = _), (mod_lead 6 32), (lor_shift _ _ 6) by lia; lia.
  1-3: rewrite (land_low _ 4 : N.land _ 15 = _), (mod_lead 14 16), (lor_shift _ _ 12) by lia; lia.
  all: rewrite (lor_shift m2 _ 12), (land_low _ 3 : N.land _ 7 = _), (mod_lead 30 8), (lor_shift _ _ 18) by lia; lia.
Qed.

Lemma encode_rune_invalid r : valid_rune r = false → encode_rune r = encode_rune RuneError.
Proof.
  unfold valid_rune, encode_rune. intros Hv. rewrite (proj2 (N.ltb_ge r 128)) by lia.
  rewrite (proj2 (N.ltb_ge r 2048)) by lia.
  assert ((1114111 <? r) || (55296 <=? r) && (r <=? 57343) = true) as -> by lia. done.
Qed.

(** Encoded runes decode to themselves, invalid ones to U+FFFD. *)
Definition fix_rune (r : N) : N := if valid_rune r then r else RuneError.
Lemma encode_fix_rune r : encode_rune (fix_rune r) = encode_rune r.
Proof. unfold fix_rune. destruct (valid_rune r) eqn:E; [done|]. symmetry; by apply encode_rune_invalid. Qed.

Lemma decode_from_skip k s : decode_from k s = decode_from 0 (drop k s).
Proof.
  revert k. induction s as [|c s IH]; intros [|k]; try done. cbn [drop decode_from]. by rewrite <- IH.
Qed.

Lemma runes_encode r t : runes (encode_rune r ++ t) = fix_rune r :: runes t.
Proof.
  rewrite <- encode_fix_rune. destruct (encode_rune (fix_rune r)) as [|c cs] eqn:E.
  { pose proof (encode_rune_nonempty (fix_rune r)) as Hl. rewrite E in Hl. cbn in Hl. lia. }
  unfold runes, decode_all. cbn [app decode_from].
  rewrite (decode_encode (fix_rune r) c cs t); [|unfold fix_rune; by destruct (valid_rune r) eqn:?|done].
  rewrite fmap_cons. cbn [fst Nat.pred]. by rewrite decode_from_skip, drop_app_length.
Qed.

Lemma runes_string_of_runes rs : runes (string_of_runes rs) = fix_rune <$> rs.
Proof.
  induction rs as [|r rs IH]; [done|]. unfold string_of_runes. rewrite bind_cons, runes_encode.
  rewrite fmap_cons. f_equal. exact IH.
Qed.

(** [strings.ToValidUTF8(s, U+FFFD)], byte by byte: what a JSON string keeps of
    a Go string. *)
Definition valid_utf8 (s : gostring) : gostring := string_of_runes (runes s).

Lemma valid_utf8_string_of_runes rs : valid_utf8 (string_of_runes rs) = string_of_runes rs.
Proof.
  unfold valid_utf8. rewrite runes_string_of_runes. unfold string_of_runes.
  induction rs as [|r rs IH]; [done|]. by rewrite fmap_cons, !bind_cons, encode_fix_rune, IH.
Qed.
Lemma valid_utf8_ascii s : ascii_only s = true → valid_utf8 s = s.
Proof. intros Hs. unfold valid_utf8. by rewrite runes_ascii, string_of_runes_ascii. Qed.
