(* ===== verification/GoSort.v ===== *)
(** * The contract of [sort.Slice]

    [sort.Slice(x, less)] permutes [x] so that no element is less than one
    before it; it is not stable, so nothing else may be relied on.  The class
    [GoSort] is that contract: every client is proved against it, and
    [insertion_sort], the algorithm Go uses for short slices, is an instance
    on which the development's witnesses are evaluated. *)
From S2P Require Import Prelude GoStr.

(** The documented requirement on [less]: a strict weak ordering. *)
Record StrictWeak {A} (less : A → A → bool) : Prop := {
  sw_asym : ∀ a b, less a b = true → less b a = false;
  sw_negtrans : ∀ a b c, less b a = false → less c b = false → less c a = false;
}.

Definition not_after {A} (less : A → A → bool) (a b : A) : Prop := less b a = false.

Class GoSort := {
  sort_slice : ∀ {A : Type}, (A → A → bool) → list A → list A;
  sort_slice_perm : ∀ {A : Type} (less : A → A → bool) l, sort_slice less l ≡ₚ l;
  sort_slice_sorted : ∀ {A : Type} (less : A → A → bool) l,
    StrictWeak less → StronglySorted (not_after less) (sort_slice less l);
}.

Section orders.
Context {A : Type}.

(** Comparing an integer key. *)
Lemma strict_weak_key (f : A → Z) : StrictWeak (λ a b, (f a <? f b)%Z).
Proof. split; intros; bool_hyps; apply Z.ltb_ge; lia. Qed.

(** Comparing a key and then, among equals, a second key, descending. *)
Lemma strict_weak_key_desc (f g : A → Z) :
  StrictWeak (λ a b, if (f a =? f b)%Z then (g b <? g a)%Z else (f a <? f b)%Z).
Proof.
  split; intros;
    repeat match goal with
    | H : context [if ?b then _ else _] |- _ => destruct b eqn:?; bool_hyps
    | |- context [if ?b then _ else _] => destruct b eqn:?; bool_hyps
    end; try apply Z.ltb_ge; lia.
Qed.

Fixpoint ins (less : A → A → bool) (x : A) (l : list A) : list A :=
  match l with
  | [] => [x]
  | y :: l' => if less x y then x :: l else y :: ins less x l'
  end.
Definition insertion (less : A → A → bool) (l : list A) : list A :=
  foldl (λ acc x, ins less x acc) [] l.

Lemma ins_perm less x l : ins less x l ≡ₚ x :: l.
Proof.
  induction l as [|y l IH]; simpl; [done|]. case_match; [done|].
  rewrite IH. apply Permutation_swap.
Qed.

Lemma insertion_perm less l : insertion less l ≡ₚ l.
Proof.
  unfold insertion. rewrite <- (app_nil_r l) at 2. generalize (@nil A) as acc.
  induction l as [|x l IH]; intros acc; simpl; [done|].
  rewrite IH, ins_perm. by rewrite Permutation_middle.
Qed.

Lemma ins_sorted less x l :
  StrictWeak less → StronglySorted (not_after less) l →
  StronglySorted (not_after less) (ins less x l).
Proof.
  intros Hw. induction 1 as [|y l Hl IH Hy]; simpl; [repeat constructor|].
  destruct (less x y) eqn:E.
  - repeat (constructor; try done).
    + apply (sw_asym _ Hw _ _ E).
    + eapply Forall_impl; [exact Hy|]. intros z Hz. unfold not_after in *.
      eapply (sw_negtrans _ Hw x y z); [apply (sw_asym _ Hw _ _ E)|done].
  - constructor; [done|]. rewrite ins_perm. by constructor.
Qed.

Lemma insertion_sorted less l :
  StrictWeak less → StronglySorted (not_after less) (insertion less l).
Proof.
  intros Hw. unfold insertion.
  assert (StronglySorted (not_after less) (@nil A)) as Hacc by constructor.
  revert Hacc. generalize (@nil A) as acc.
  induction l as [|x l IH]; intros acc Hacc; simpl; [done|].
  apply IH. by apply ins_sorted.
Qed.
End orders.

Definition insertion_sort : GoSort := {|
  sort_slice A := @insertion A;
  sort_slice_perm A := @insertion_perm A;
  sort_slice_sorted A := @insertion_sorted A;
|}.

(** Facts about sorted lists the clients share. *)
Section sorted_facts.
Context {A : Type} (R : A → A → Prop).

Lemma StronglySorted_app_inv_r l1 l2 : StronglySorted R (l1 ++ l2) → StronglySorted R l2.
Proof. induction l1; simpl; [done|]. inversion 1; auto. Qed.

Lemma StronglySorted_snoc l x :
  StronglySorted R l → Forall (λ y, R y x) l → StronglySorted R (l ++ [x]).
Proof.
  induction 1 as [|y l Hl IH Hy]; intros Hx; simpl.
  - repeat constructor.
  - apply Forall_cons in Hx as [? ?]. constructor; [auto|].
    apply Forall_app. by repeat constructor.
Qed.

Lemma StronglySorted_impl (Q : A → A → Prop) l :
  (∀ a b, R a b → Q a b) → StronglySorted R l → StronglySorted Q l.
Proof.
  intros HRQ. induction 1; constructor; [done|]. eapply Forall_impl; eauto.
Qed.

End sorted_facts.

Section sorted_unique.
Context {A : Type}.

(** A permutation of a list sorted by a strict order, itself sorted for the
    negation of its converse, is the same list. *)
Lemma sorted_perm_unique (less : A → A → bool) l l' :
  l ≡ₚ l' → StronglySorted (λ a b, less a b = true) l →
  StronglySorted (not_after less) l' → l' = l.
Proof.
  intros Hp Hl. revert l' Hp. induction Hl as [|x l Hl IH Hx]; intros l' Hp Hl'.
  - by apply Permutation_nil_l in Hp.
  - destruct l' as [|y l']; [by apply Permutation_nil_r in Hp|].
    apply StronglySorted_inv in Hl' as [Hl' Hy].
    assert (y = x) as ->.
    { assert (y ∈ x :: l) as [->|Hin]%elem_of_cons by (rewrite Hp; set_solver); [done|].
      rewrite Forall_forall in Hx. specialize (Hx y Hin).
      assert (x ∈ y :: l') as [->|Hin']%elem_of_cons by (rewrite <- Hp; set_solver); [done|].
      rewrite Forall_forall in Hy. specialize (Hy x Hin'). unfold not_after in Hy. congruence. }
    f_equal. apply IH; [|done]. by apply Permutation_cons_inv in Hp.
Qed.
End sorted_unique.
