(* ===== verification/Spans.v ===== *)
(** * Replacing disjoint spans of a text

    The abstract theory both redaction routines refine: a text, a list of
    spans in increasing order, and the text with each span replaced.  It holds
    the specification ([render]), what replacing reveals ([render_agree]) and
    the position map between the two texts ([fwd]). *)
From S2P Require Import Prelude GoStr.

Record span := Span { s_from : Z; s_to : Z; s_new : gostring }.

(** Spans in increasing order, inside [[lo, n)], none empty. *)
Inductive spans_ok (n : Z) : Z → list span → Prop :=
| spans_ok_nil lo : (lo ≤ n)%Z → spans_ok n lo []
| spans_ok_cons lo s l :
    (lo ≤ s_from s)%Z → (s_from s < s_to s)%Z → (s_to s ≤ n)%Z →
    spans_ok n (s_to s) l → spans_ok n lo (s :: l).

(** The same, allowing empty spans (an insertion). *)
Inductive spans_le (n : Z) : Z → list span → Prop :=
| spans_le_nil lo : (lo ≤ n)%Z → spans_le n lo []
| spans_le_cons lo s l :
    (lo ≤ s_from s)%Z → (s_from s ≤ s_to s)%Z → (s_to s ≤ n)%Z →
    spans_le n (s_to s) l → spans_le n lo (s :: l).

(** The text from [lo] on with each span replaced. *)
Fixpoint render (text : gostring) (lo : Z) (l : list span) : gostring :=
  match l with
  | [] => sub text lo (len text)
  | s :: l' => sub text lo (s_from s) ++ s_new s ++ render text (s_to s) l'
  end.

(** Byte [i] lies in one of the spans. *)
Definition covered (l : list span) (i : Z) : Prop :=
  Exists (λ s, (s_from s ≤ i < s_to s)%Z) l.

(** Position [i] is in the interior of no span. *)
Definition clear_of (l : list span) (i : Z) : Prop :=
  Forall (λ s, (i ≤ s_from s ∨ s_to s ≤ i)%Z) l.

(** The position of the replaced text a clear position moves to. *)
Fixpoint fwd (l : list span) (i : Z) : Z :=
  match l with
  | [] => i
  | s :: l' =>
      if (s_to s <=? i)%Z then (fwd l' i + (len (s_new s) - (s_to s - s_from s)))%Z else i
  end.

Lemma spans_ok_le n lo l : spans_ok n lo l → spans_le n lo l.
Proof. induction 1; constructor; auto; lia. Qed.

Lemma spans_le_bound n lo l : spans_le n lo l → (lo ≤ n)%Z.
Proof. induction 1; lia. Qed.

Lemma spans_le_weaken n lo lo' l : (lo' ≤ lo)%Z → spans_le n lo l → spans_le n lo' l.
Proof. intros ?. inversion 1; subst; constructor; auto; lia. Qed.

Lemma spans_le_from n lo l :
  spans_le n lo l → Forall (λ s, (lo ≤ s_from s ≤ s_to s)%Z ∧ (s_to s ≤ n)%Z) l.
Proof.
  induction 1 as [|lo s l Hlo Hs Hn Hl IH]; constructor; [lia|].
  eapply Forall_impl; [exact IH|]. simpl. lia.
Qed.

#[export] Hint Resolve spans_ok_le spans_le_bound : redactr.

(** What the replaced text depends on: the length of the text and its bytes
    outside the spans, nothing else. *)
Lemma render_agree t1 t2 lo l :
  len t1 = len t2 → (0 ≤ lo)%Z → spans_le (len t1) lo l →
  (∀ i : nat, (lo ≤ Z.of_nat i)%Z → ¬ covered l (Z.of_nat i) → t1 !! i = t2 !! i) →
  render t1 lo l = render t2 lo l.
Proof.
  intros Hlen Hlo Hok. revert Hlo. induction Hok as [lo Hn|lo s l Hlo Hs Hn Hl IH]; intros H0 Hag.
  - simpl. rewrite <- Hlen. apply list_eq. intros n.
    destruct (Z_lt_dec (lo + Z.of_nat n) (len t1)).
    + rewrite !sub_lookup by lia. apply Hag; [lia|]. inversion 1.
    + by rewrite !sub_lookup_ge by lia.
  - simpl. f_equal; [|f_equal].
    + apply list_eq. intros n. destruct (Z_lt_dec (lo + Z.of_nat n) (s_from s)).
      * rewrite !sub_lookup by lia. apply Hag; [lia|].
        unfold covered. rewrite Exists_cons. intros [Hc|Hc]; [lia|].
        apply spans_le_from in Hl. rewrite Forall_forall in Hl.
        apply Exists_exists in Hc as (x & Hx & ?). specialize (Hl x Hx). lia.
      * by rewrite !sub_lookup_ge by lia.
    + apply IH; [lia|]. intros i Hi Hc. apply Hag; [lia|].
      unfold covered. rewrite Exists_cons. intros [?|?]; [lia|done].
Qed.

(** The length of the replaced text. *)
Fixpoint growth (l : list span) : Z :=
  match l with [] => 0 | s :: l' => len (s_new s) - (s_to s - s_from s) + growth l' end.

Lemma len_render text lo l :
  (0 ≤ lo)%Z → spans_le (len text) lo l →
  len (render text lo l) = (len text - lo + growth l)%Z.
Proof.
  intros H0 Hok. revert H0. induction Hok as [lo Hn|lo s l Hlo Hs Hn Hl IH]; intros H0; simpl.
  - rewrite len_sub; lia.
  - rewrite !len_app, IH by lia. rewrite len_sub by lia. lia.
Qed.

(** Bytes outside the spans survive, at their forward position. *)
Lemma render_lookup text lo l (i : nat) :
  (0 ≤ lo)%Z → spans_le (len text) lo l → (lo ≤ Z.of_nat i < len text)%Z →
  ¬ covered l (Z.of_nat i) →
  render text lo l !! Z.to_nat (fwd l (Z.of_nat i) - lo) = text !! i
  ∧ (lo ≤ fwd l (Z.of_nat i))%Z.
Proof.
  intros H0 Hok. revert H0. induction Hok as [lo Hn|lo s l Hlo Hs Hn Hl IH]; intros H0 Hi Hc; simpl.
  - split; [|lia]. rewrite sub_lookup by lia. f_equal. lia.
  - unfold covered in Hc. rewrite Exists_cons in Hc.
    destruct (s_to s <=? Z.of_nat i)%Z eqn:E; bool_hyps.
    + destruct (IH ltac:(lia) ltac:(lia)) as [IH1 IH2]; [tauto|].
      pose proof (len_nonneg (s_new s)).
      assert (Hl1 := len_sub text lo (s_from s) ltac:(lia) ltac:(lia)).
      split; [|lia]. rewrite <- IH1. unfold len in *.
      rewrite lookup_app_r by lia. rewrite lookup_app_r by lia. f_equal. lia.
    + assert (Z.of_nat i < s_from s)%Z by (destruct (Z_lt_dec (Z.of_nat i) (s_from s)); [lia|exfalso; apply Hc; left; lia]).
      split; [|lia].
      assert (Hl1 := len_sub text lo (s_from s) ltac:(lia) ltac:(lia)). unfold len in Hl1.
      rewrite lookup_app_l by lia. rewrite sub_lookup by lia. f_equal. lia.
Qed.

Lemma fwd_ge n lo l i :
  spans_le n lo l → (lo ≤ i)%Z → (lo ≤ fwd l i)%Z.
Proof.
  intros Hok. revert i. induction Hok as [|lo s l Hlo Hs Hn Hl IH]; intros i Hi; simpl; [done|].
  if_case; [|done]. specialize (IH i ltac:(lia)). pose proof (len_nonneg (s_new s)). lia.
Qed.

(** Moving forward respects the order of positions. *)
Lemma fwd_mono n lo l i j :
  spans_le n lo l → clear_of l i → (i ≤ j)%Z → (fwd l i ≤ fwd l j)%Z.
Proof.
  intros Hok. revert i j. induction Hok as [|lo s l Hlo Hs Hn Hl IH]; intros i j Hi Hij; simpl; [done|].
  apply Forall_cons in Hi as [Hc Hi]. repeat if_case; try lia.
  - specialize (IH i j Hi Hij). lia.
  - pose proof (fwd_ge _ _ _ j Hl ltac:(lia)). pose proof (len_nonneg (s_new s)). lia.
Qed.
