(* ===== verification/GoFloat.v ===== *)
(** * float64

    Go's [float64] is IEEE 754 binary64: the specification floats of the
    standard library at precision 53 and maximal exponent 1024, rounding to
    nearest even. *)
From S2P Require Import Prelude.
From Corelib Require Export SpecFloat.
Local Open Scope Z_scope.

Abbreviation float64 := spec_float.

Definition f64_add : float64 → float64 → float64 := SFadd 53 1024.
Definition f64_sub : float64 → float64 → float64 := SFsub 53 1024.
Definition f64_mul : float64 → float64 → float64 := SFmul 53 1024.
Definition f64_div : float64 → float64 → float64 := SFdiv 53 1024.
Definition f64_lt : float64 → float64 → bool := SFltb.
Definition f64_le : float64 → float64 → bool := SFleb.

(** [float64(n)] *)
Definition f64_of_Z (n : Z) : float64 := binary_normalize 53 1024 n 0 false.

(** The decimal literal [n/d]: the nearest float64 to the rational. *)
Definition f64_lit (n d : Z) : float64 := f64_div (f64_of_Z n) (f64_of_Z d).

(** [math.Min(a, b)] for arguments that are not NaN. *)
Definition f64_min (a b : float64) : float64 := if f64_lt b a then b else a.

#[export] Instance spec_float_eq_dec : EqDecision float64.
Proof. solve_decision. Defined.

Example lit_ex : f64_lit 35 100 = S754_finite false 6305039478318694 (-54).
Proof. vm_compute. reflexivity. Qed.
Example add_ex : f64_lt (f64_add (f64_lit 1 10) (f64_lit 2 10)) (f64_lit 3 10) = false
  ∧ f64_lt (f64_lit 3 10) (f64_add (f64_lit 1 10) (f64_lit 2 10)) = true.
Proof. vm_compute. split; reflexivity. Qed.

(** The float64 nearest to the positive rational [n/d], whatever the size of
    [n] and [d]. *)
Definition f64_ratio (n d : positive) : float64 :=
  let '(q, e, l) := SFdiv_core_binary 53 1024 (Zpos n) 0 (Zpos d) 0 in
  match q with
  | Zpos m => binary_round_aux 53 1024 false (Zpos m) e l
  | _ => S754_zero false
  end.

(** [m * 10^e], rounded once. *)
Definition f64_of_decimal (neg : bool) (m e : Z) : float64 :=
  let f := match m with
    | Zpos p =>
        if 0 <=? e then binary_normalize 53 1024 (m * 10 ^ e) 0 false
        else match 10 ^ (- e) with Zpos d => f64_ratio p d | _ => S754_nan end
    | _ => S754_zero false
    end in
  if neg then SFopp f else f.

Example decimal_ex :
  f64_of_decimal false 35 (-2) = f64_lit 35 100
  ∧ f64_of_decimal true 12345678901234567890 (-10) = f64_of_decimal true 123456789012345678900 (-11)
  ∧ f64_of_decimal false 1 400 = S754_infinity false
  ∧ f64_of_decimal false 5 (-324) = S754_finite false 1 (-1074).
Proof. vm_compute. repeat split; reflexivity. Qed.
