(* ===== verification/Scanner.v ===== *)
(** * The scan pipeline — internal/scanner/types.go, pipeline.go

    Layers run in order, each on the text with everything found so far
    replaced by a placeholder; [toOriginalPos] translates the positions a
    later layer reports back to the original text. *)
From S2P Require Import Prelude GoStr Utf8 GoFloat GoSort Spans.
Local Open Scope Z_scope.

Record Finding := mkFinding {
  f_label : gostring;
  f_value : gostring;
  f_start : Z;
  f_end : Z;
  f_conf : float64;
  f_layer : gostring;
}.

(** [ScanResult]: the findings; [LayerMs] is a clock reading. *)
Record ScanResult := mkScanResult { sr_findings : list Finding; sr_ms : Z }.

(** One call of [Scan]: its number, by which the clock, the scheduler and the
    processes a layer asks may answer differently in every call, and the
    milliseconds it takes. *)
Record Moment := mkMoment { mo_call : nat; mo_ms : Z }.

(** A value of the [Layer] interface: an object with its own state, its
    methods on that state, its [Reconfigure] method when it implements
    [Reconfigurable], and what the clock and the scheduler contribute to its
    part of one call (the milliseconds it takes and whether the pipeline's timer
    fires before it returns).  [Ready] and [Scan] may give another answer in
    every call, to the same text and in the same state. *)
Record Layer := mkLayer {
  l_State : Type;
  l_state : l_State;
  l_name : gostring;
  l_Ready : nat → l_State → bool;
  l_Scan : nat → l_State → gostring → res gostring ScanResult;
  l_Reconfigure : option ((gostring → bool) → l_State → l_State);
  l_ms : nat → gostring → Z;
  l_timer_first : nat → gostring → bool;
}.

Definition l_ready (l : Layer) (n : nat) : bool := l_Ready l n (l_state l).
Definition l_scan (l : Layer) (n : nat) : gostring → res gostring ScanResult := l_Scan l n (l_state l).
Definition with_state (l : Layer) (st : l_State l) : Layer :=
  mkLayer (l_State l) st (l_name l) (l_Ready l) (l_Scan l) (l_Reconfigure l) (l_ms l)
    (l_timer_first l).

Record PipelineLayerInfo := mkInfo {
  li_name : gostring;
  li_count : Z;
  li_ms : Z;
  li_skipped : bool;
  li_reason : gostring;
}.

Record PipelineReport := mkReport {
  r_findings : list Finding;
  r_layers : list PipelineLayerInfo;
  r_ms : Z;
}.

Record Pipeline := mkPipeline { p_layers : list Layer; p_timeout : Z }.

Definition SetTimeout (p : Pipeline) (ms : Z) : Pipeline := mkPipeline (p_layers p) ms.

(** [Pipeline.Reconfigure]: layers that are not [Reconfigurable] are kept. *)
Definition Reconfigure (p : Pipeline) (enabled : gostring → bool) : Pipeline :=
  mkPipeline
    ((λ l, match l_Reconfigure l with
           | Some r => with_state l (r enabled (l_state l))
           | None => l
           end) <$> p_layers p)
    (p_timeout p).

(** [fmt.Sprintf("[REDACTED-%s]", label)] *)
Definition placeholder (label : gostring) : gostring := go "[REDACTED-" ++ label ++ go "]".
Arguments placeholder : simpl never.

Record offsetEntry := mkOffset { origStart : Z; origEnd : Z; newLen : Z }.

Fixpoint toOriginalPos_loop (pos shift : Z) (offsets : list offsetEntry) : Z :=
  match offsets with
  | [] => pos - shift
  | e :: es =>
      let redactedStart := origStart e + shift in
      if pos <=? redactedStart then pos - shift
      else
        let redactedEnd := redactedStart + newLen e in
        if redactedEnd <=? pos then
          toOriginalPos_loop pos (shift + (newLen e - (origEnd e - origStart e))) es
        else origStart e
  end.
Definition toOriginalPos (pos : Z) (offsets : list offsetEntry) : Z :=
  toOriginalPos_loop pos 0 offsets.

Definition less_start (a b : Finding) : bool := f_start a <? f_start b.

Section pipeline.
Context `{GoSort}.

(** The loop of [applyRedactions] over the sorted findings. *)
Fixpoint apply_loop (text : gostring) (fs : list Finding)
    (b : gostring) (entries : list offsetEntry) (prev : Z)
    : res gostring (gostring * list offsetEntry) :=
  match fs with
  | [] => rest ← slice text prev (len text); Ok (b ++ rest, entries)
  | f :: fs' =>
      if f_start f <? prev then apply_loop text fs' b entries prev
      else if (len text <? f_start f) || (len text <? f_end f) || (f_end f <=? f_start f)
      then apply_loop text fs' b entries prev
      else
        seg ← slice text prev (f_start f);
        let replacement := placeholder (f_label f) in
        apply_loop text fs' (b ++ seg ++ replacement)
          (entries ++ [mkOffset (f_start f) (f_end f) (len replacement)]) (f_end f)
  end.

Definition applyRedactions (text : gostring) (findings : list Finding)
    : res gostring (gostring * list offsetEntry) :=
  apply_loop text (sort_slice less_start findings) [] [] 0.

Definition scanWithTimeout (p : Pipeline) (n : nat) (layer : Layer) (text : gostring)
    : res gostring ScanResult :=
  if p_timeout p <=? 0 then l_scan layer n text
  else if l_timer_first layer n text
  then Err (go "timeout after " ++ Itoa (p_timeout p) ++ go "ms")
  else l_scan layer n text.

(** The variables of [Scan] the loop updates. *)
Record ScanState := mkScan {
  s_findings : list Finding;
  s_layers : list PipelineLayerInfo;
  s_text : gostring;
  s_offsets : list offsetEntry;
}.

Definition remap (offsets : list offsetEntry) (f : Finding) : Finding :=
  mkFinding (f_label f) (f_value f) (toOriginalPos (f_start f) offsets)
    (toOriginalPos (f_end f) offsets) (f_conf f) (f_layer f).

(** One iteration of the loop of [Scan]. *)
Definition scan_layer (p : Pipeline) (n : nat) (text : gostring) (st : ScanState) (layer : Layer)
    : res gostring ScanState :=
  if negb (l_ready layer n) then
    Ok (mkScan (s_findings st)
          (s_layers st ++ [mkInfo (l_name layer) 0 0 true (go "not ready")])
          (s_text st) (s_offsets st))
  else
    let ms := l_ms layer n (s_text st) in
    match scanWithTimeout p n layer (s_text st) with
    | Panic => Panic
    | Err e =>
        Ok (mkScan (s_findings st)
              (s_layers st ++ [mkInfo (l_name layer) 0 ms true e])
              (s_text st) (s_offsets st))
    | Ok result =>
        let fs := sr_findings result in
        let info := mkInfo (l_name layer) (len fs) ms false [] in
        match fs with
        | [] => Ok (mkScan (s_findings st) (s_layers st ++ [info]) (s_text st) (s_offsets st))
        | _ =>
            let all := s_findings st ++ (remap (s_offsets st) <$> fs) in
            '(cur, offs) ← applyRedactions text all;
            Ok (mkScan all (s_layers st ++ [info]) cur offs)
        end
    end.

Fixpoint scan_loop (p : Pipeline) (n : nat) (text : gostring) (layers : list Layer) (st : ScanState)
    : res gostring ScanState :=
  match layers with
  | [] => Ok st
  | l :: ls => st' ← scan_layer p n text st l; scan_loop p n text ls st'
  end.

(** [Pipeline.Scan] *)
Definition Scan (p : Pipeline) (m : Moment) (text : gostring) : res gostring PipelineReport :=
  st ← scan_loop p (mo_call m) text (p_layers p) (mkScan [] [] text []);
  Ok (mkReport (s_findings st) (s_layers st) (mo_ms m)).
End pipeline.

(** ** The position map *)

Definition span_of (f : Finding) : span := Span (f_start f) (f_end f) (placeholder (f_label f)).
Definition entry_of_span (s : span) : offsetEntry := mkOffset (s_from s) (s_to s) (len (s_new s)).

(** [toOriginalPos] as a function of the position relative to the shift. *)
Fixpoint unfwd (l : list span) (q : Z) : Z :=
  match l with
  | [] => q
  | s :: l' =>
      if q <=? s_from s then q
      else if s_from s + len (s_new s) <=? q
      then unfwd l' (q - (len (s_new s) - (s_to s - s_from s)))
      else s_from s
  end.

Lemma toOriginalPos_loop_unfwd l pos shift :
  toOriginalPos_loop pos shift (entry_of_span <$> l) = unfwd l (pos - shift).
Proof.
  revert shift. induction l as [|s l IH]; intros shift; simpl; [done|].
  repeat if_case; try lia; try done. rewrite IH. f_equal. lia.
Qed.

Lemma toOriginalPos_unfwd l pos : toOriginalPos pos (entry_of_span <$> l) = unfwd l pos.
Proof. unfold toOriginalPos. rewrite toOriginalPos_loop_unfwd. f_equal. lia. Qed.

Lemma unfwd_bounds n lo l q :
  spans_le n lo l → lo ≤ q ≤ n + growth l → lo ≤ unfwd l q ≤ n.
Proof.
  intros Hok. revert q. induction Hok as [|lo s l Hlo Hs Hn Hl IH]; simpl; intros q Hq; [lia|].
  repeat if_case; try lia. specialize (IH (q - (len (s_new s) - (s_to s - s_from s)))). lia.
Qed.

Lemma unfwd_ge n lo l q : spans_le n lo l → lo ≤ q → lo ≤ unfwd l q.
Proof.
  intros Hok. revert q. induction Hok as [|lo s l Hlo Hs Hn Hl IH]; simpl; intros q Hq; [lia|].
  repeat if_case; try lia. specialize (IH (q - (len (s_new s) - (s_to s - s_from s)))). lia.
Qed.

Lemma unfwd_mono n lo l q1 q2 :
  spans_le n lo l → q1 ≤ q2 → unfwd l q1 ≤ unfwd l q2.
Proof.
  intros Hok. revert q1 q2. induction Hok as [|lo s l Hlo Hs Hn Hl IH]; simpl; intros q1 q2 Hq; [lia|].
  repeat if_case; try lia.
  - pose proof (unfwd_ge _ _ _ (q2 - (len (s_new s) - (s_to s - s_from s))) Hl). lia.
  - apply IH. lia.
  - pose proof (unfwd_ge _ _ _ (q2 - (len (s_new s) - (s_to s - s_from s))) Hl). lia.
Qed.

Definition nonempty_new (l : list span) : Prop := Forall (λ s, 0 < len (s_new s)) l.

Lemma unfwd_fwd n lo l p :
  spans_le n lo l → nonempty_new l → clear_of l p → lo ≤ p → unfwd l (fwd l p) = p.
Proof.
  intros Hok. revert p. induction Hok as [|lo s l Hlo Hs Hn Hl IH]; simpl; [done|].
  intros p [Hpos Hne]%Forall_cons [Hc Hcl]%Forall_cons Hp.
  destruct (s_to s <=? p) eqn:E; bool_hyps.
  - pose proof (fwd_ge _ _ _ p Hl ltac:(lia)).
    rewrite (proj2 (Z.leb_gt _ _)), (proj2 (Z.leb_le _ _)) by lia.
    replace (_ - _) with (fwd l p) by lia. apply IH; auto; lia.
  - rewrite (proj2 (Z.leb_le _ _)) by lia. done.
Qed.

(** The interval [[a, b)] of the replaced text meets no placeholder. *)
Fixpoint avoids_spans (l : list span) (a b : Z) : Prop :=
  match l with
  | [] => True
  | s :: l' =>
      b ≤ s_from s ∨
      (s_from s + len (s_new s) ≤ a ∧
       let d := len (s_new s) - (s_to s - s_from s) in avoids_spans l' (a - d) (b - d))
  end.

Lemma sub_render text lo l a b :
  0 ≤ lo → spans_le (len text) lo l → lo ≤ a ≤ b → b ≤ len text + growth l →
  nonempty_new l → avoids_spans l a b →
  sub (render text lo l) (a - lo) (b - lo) = sub text (unfwd l a) (unfwd l b).
Proof.
  intros H0 Hok. revert a b H0.
  induction Hok as [lo Hn|lo s l Hlo Hs Hn Hl IH]; simpl; intros a b H0 Hab Hb Hne Hav.
  - rewrite sub_sub by lia. f_equal; lia.
  - apply Forall_cons in Hne as [Hpos Hne].
    assert (Hl1 := len_sub text lo (s_from s) ltac:(lia) ltac:(lia)).
    destruct Hav as [Hav|[Ha Hav]].
    + rewrite !(proj2 (Z.leb_le _ _)) by lia.
      rewrite sub_app_l by lia. rewrite sub_sub by lia. f_equal; lia.
    + rewrite (proj2 (Z.leb_gt _ _)), (proj2 (Z.leb_le _ _)) by lia.
      rewrite (proj2 (Z.leb_gt b _)), (proj2 (Z.leb_le _ b)) by lia.
      rewrite app_assoc. rewrite sub_app_r by (rewrite len_app; lia).
      rewrite <- IH; [|lia..|done|done]. rewrite len_app. f_equal; lia.
Qed.

(** ** What [applyRedactions] computes *)

(** The findings the loop keeps, in order. *)
Fixpoint accepted (n prev : Z) (fs : list Finding) : list Finding :=
  match fs with
  | [] => []
  | f :: fs' =>
      if f_start f <? prev then accepted n prev fs'
      else if (n <? f_start f) || (n <? f_end f) || (f_end f <=? f_start f)
      then accepted n prev fs'
      else f :: accepted n (f_end f) fs'
  end.

Lemma placeholder_pos label : 0 < len (placeholder label).
Proof. unfold placeholder. rewrite !len_app. unfold len. simpl. lia. Qed.

Lemma nonempty_span_of fs : nonempty_new (span_of <$> fs).
Proof. apply Forall_fmap, Forall_true. intros f. apply placeholder_pos. Qed.
#[export] Hint Resolve nonempty_span_of : redactr.

Lemma accepted_ok n prev fs :
  0 ≤ prev ≤ n → spans_ok n prev (span_of <$> accepted n prev fs).
Proof.
  revert prev. induction fs as [|f fs IH]; intros prev Hp; simpl; [constructor; lia|].
  repeat if_case; auto. simpl. constructor; simpl; try lia. apply IH. lia.
Qed.

Lemma render_finding text lo f fs :
  render text lo (span_of <$> f :: fs) =
    sub text lo (f_start f) ++ placeholder (f_label f) ++
    render text (f_end f) (span_of <$> fs).
Proof. done. Qed.

Lemma apply_loop_spec text fs b es prev :
  0 ≤ prev ≤ len text →
  apply_loop text fs b es prev =
    Ok (b ++ render text prev (span_of <$> accepted (len text) prev fs),
        es ++ (entry_of_span <$> (span_of <$> accepted (len text) prev fs))).
Proof.
  revert b es prev. induction fs as [|f fs IH]; intros b es prev Hp; cbn [apply_loop accepted].
  - rewrite slice_Ok by lia. simpl. by rewrite app_nil_r.
  - if_case; [by apply IH|]. if_case; [by apply IH|]. bool_hyps.
    rewrite slice_Ok by lia. cbn [mbind res_bind]. rewrite IH by lia.
    rewrite render_finding, <- !app_assoc. done.
Qed.

(** A finding of the text, in range and not empty. *)
Definition in_range (n : Z) (f : Finding) : Prop :=
  0 ≤ f_start f ∧ f_start f < f_end f ∧ f_end f ≤ n.

Lemma accepted_elem n prev fs f :
  f ∈ accepted n prev fs → f ∈ fs ∧ prev ≤ f_start f < f_end f ∧ f_end f ≤ n.
Proof.
  revert prev. induction fs as [|g fs IH]; intros prev; cbn [accepted]; [by intros ?%not_elem_of_nil|].
  repeat if_case.
  - intros [? ?]%IH. set_solver.
  - intros [? ?]%IH. set_solver.
  - intros [->|[? ?]%IH]%elem_of_cons; [split; [set_solver|lia]|split; [set_solver|lia]].
Qed.

(** A finding that the loop passes over starts inside, or before, a finding
    it has accepted. *)
Lemma accepted_cover n prev fs f :
  StronglySorted (not_after less_start) fs → f ∈ fs → prev ≤ f_start f → in_range n f →
  Exists (λ g, f_start g ≤ f_start f < f_end g) (accepted n prev fs).
Proof.
  intros Hs. revert prev. induction Hs as [|g fs Hs IH Hg]; intros prev Hin Hp Hr;
    [by apply not_elem_of_nil in Hin|].
  rewrite Forall_forall in Hg. unfold in_range in Hr. cbn [accepted].
  apply elem_of_cons in Hin as [->|Hin]; repeat if_case; try lia; auto.
  - constructor. lia.
  - specialize (Hg f Hin). unfold not_after, less_start in Hg. bool_hyps.
    destruct (Z_lt_dec (f_start f) (f_end g)).
    + constructor. lia.
    + apply Exists_cons_tl, IH; auto; lia.
Qed.

Lemma less_start_weak : StrictWeak less_start.
Proof. apply (strict_weak_key f_start). Qed.
#[export] Hint Resolve less_start_weak : redactr.

(** [avoids offsets f]: the finding, reported on the replaced text, meets no
    placeholder. *)
Fixpoint avoids (offsets : list offsetEntry) (a b : Z) : Prop :=
  match offsets with
  | [] => True
  | e :: es =>
      b ≤ origStart e ∨
      (origStart e + newLen e ≤ a ∧
       let d := newLen e - (origEnd e - origStart e) in avoids es (a - d) (b - d))
  end.

Lemma avoids_entries l a b : avoids (entry_of_span <$> l) a b → avoids_spans l a b.
Proof.
  revert a b. induction l as [|s l IH]; csimpl; [done|].
  intros a b [?|[? ?]]; [by left|right]. split; [done|]. by apply IH.
Qed.

(** ** The properties of the pipeline *)

Section pipeline_props.
Context `{GoSort}.

Lemma applyRedactions_accepted text fs :
  let l := span_of <$> accepted (len text) 0 (sort_slice less_start fs) in
  applyRedactions text fs = Ok (render text 0 l, entry_of_span <$> l)
  ∧ spans_ok (len text) 0 l.
Proof.
  pose proof (len_nonneg text). split.
  - unfold applyRedactions. rewrite apply_loop_spec by lia. done.
  - apply accepted_ok. lia.
Qed.

(** [applyRedactions] never panics, whatever findings it is given: the
    text comes back with a placeholder for each of a list of disjoint spans in
    increasing order, each span is one of the findings, every in-range finding
    starts inside a replaced span, and the offsets list the spans. *)
Theorem applyRedactions_render text fs :
  ∃ acc,
    applyRedactions text fs =
      Ok (render text 0 (span_of <$> acc), entry_of_span <$> (span_of <$> acc))
    ∧ spans_ok (len text) 0 (span_of <$> acc)
    ∧ acc ⊆ fs
    ∧ ∀ f, f ∈ fs → in_range (len text) f → Exists (λ g, f_start g ≤ f_start f < f_end g) acc.
Proof.
  exists (accepted (len text) 0 (sort_slice less_start fs)).
  destruct (applyRedactions_accepted text fs) as [-> ?]. split_and!; [done|done|..].
  - intros f [Hf _]%accepted_elem. by rewrite sort_slice_perm in Hf.
  - intros f Hf Hr. apply accepted_cover; auto with redactr.
    + apply sort_slice_sorted, less_start_weak.
    + by rewrite sort_slice_perm.
    + apply Hr.
Qed.

(** The text a later layer (or the caller) sees after [applyRedactions]
    depends on the original only through its length and the bytes outside the
    replaced spans: two texts that agree there are redacted to the same
    string, so nothing of a replaced value can be recovered from it. *)
Theorem applyRedactions_noninterference text1 text2 fs acc out offs :
  len text1 = len text2 →
  acc = accepted (len text1) 0 (sort_slice less_start fs) →
  (∀ i : nat, ¬ covered (span_of <$> acc) (Z.of_nat i) → text1 !! i = text2 !! i) →
  applyRedactions text1 fs = Ok (out, offs) → applyRedactions text2 fs = Ok (out, offs).
Proof.
  intros Hlen -> Hag. pose proof (len_nonneg text1).
  destruct (applyRedactions_accepted text1 fs) as [-> Hok].
  destruct (applyRedactions_accepted text2 fs) as [-> _].
  rewrite <- Hlen. intros [= <- <-]. f_equal. f_equal. symmetry.
  apply render_agree; auto using spans_ok_le with lia.
Qed.

(** [toOriginalPos] inverts the replacement on every position that is in
    no replaced span, sends every position of the replaced text into the
    original text, and keeps the order of positions. *)
Theorem toOriginalPos_inverse text spans pos :
  spans_ok (len text) 0 spans → nonempty_new spans →
  let offs := entry_of_span <$> spans in
  (∀ i, 0 ≤ i → clear_of spans i → toOriginalPos (fwd spans i) offs = i)
  ∧ (0 ≤ pos ≤ len (render text 0 spans) → 0 ≤ toOriginalPos pos offs ≤ len text)
  ∧ (∀ pos', pos ≤ pos' → toOriginalPos pos offs ≤ toOriginalPos pos' offs).
Proof.
  intros Hok%spans_ok_le Hne offs. unfold offs. split_and!.
  - intros i ? ?. rewrite toOriginalPos_unfwd. by eapply unfwd_fwd.
  - intros Hp. rewrite len_render in Hp by (done || lia).
    rewrite toOriginalPos_unfwd. eapply unfwd_bounds; [done|lia].
  - intros pos' ?. rewrite !toOriginalPos_unfwd. by eapply unfwd_mono.
Qed.

(** *** The whole scan *)

(** What [Scan] keeps true of its variables: the current text is the original
    with the accepted spans replaced, and the offsets describe them. *)
Definition scan_inv (text : gostring) (st : ScanState) : Prop :=
  ∃ l, spans_ok (len text) 0 l ∧ nonempty_new l
    ∧ s_text st = render text 0 l ∧ s_offsets st = entry_of_span <$> l.

Lemma scan_inv_init text : scan_inv text (mkScan [] [] text []).
Proof.
  exists []. pose proof (len_nonneg text). split_and!; try constructor; [lia|].
  cbn [s_text render]. by rewrite sub_full.
Qed.

(** What a layer contributes: the findings of the scan step, and its entry in
    the report. *)
Definition layer_findings (p : Pipeline) (n : nat) (st : ScanState) (l : Layer) : list Finding :=
  if l_ready l n then
    match scanWithTimeout p n l (s_text st) with Ok r => sr_findings r | _ => [] end
  else [].

(** One iteration, on every branch. *)
Lemma scan_layer_step p n text st l :
  scan_inv text st → (l_ready l n = true → scanWithTimeout p n l (s_text st) ≠ Panic) →
  ∃ st' info,
    scan_layer p n text st l = Ok st' ∧ scan_inv text st'
    ∧ s_findings st' = s_findings st ++ (remap (s_offsets st) <$> layer_findings p n st l)
    ∧ s_layers st' = s_layers st ++ [info]
    ∧ li_name info = l_name l ∧ li_count info = len (layer_findings p n st l)
    ∧ (layer_findings p n st l = [] → s_text st' = s_text st ∧ s_offsets st' = s_offsets st)
    ∧ (layer_findings p n st l ≠ [] →
         ∃ acc, acc ⊆ s_findings st' ∧ s_text st' = render text 0 (span_of <$> acc)).
Proof.
  intros Hinv Hp. unfold scan_layer, layer_findings.
  destruct (l_ready l n) eqn:Hr; cbn [negb].
  2:{ eexists _, _. split; [done|]. cbn. rewrite app_nil_r. by split_and!. }
  destruct (scanWithTimeout p n l (s_text st)) as [r|e|] eqn:Hs; [|..|by destruct (Hp eq_refl)].
  - destruct (sr_findings r) as [|f fs] eqn:Hf.
    + eexists _, _. split; [done|]. cbn. rewrite app_nil_r. by split_and!.
    + set (all := s_findings st ++ _).
      destruct (applyRedactions_accepted text all) as [-> Hok]. cbn.
      eexists _, _. split; [done|]. split_and!; try done.
      * eexists. split_and!; [exact Hok|apply nonempty_span_of|done|done].
      * intros _. eexists. split; [|reflexivity]. cbn.
        intros g [Hg _]%accepted_elem. by rewrite sort_slice_perm in Hg.
  - eexists _, _. split; [done|]. cbn. rewrite app_nil_r. by split_and!.
Qed.

(** A class of texts that is closed under replacing findings whose labels are
    of a given kind: all texts, or the ASCII texts with ASCII labels. *)
Record TextClass := mkTextClass {
  tc_text : gostring → Prop;
  tc_label : gostring → Prop;
  tc_closed : ∀ text fs, tc_text text → Forall (λ f, tc_label (f_label f)) fs →
    tc_text (render text 0 (span_of <$> fs));
}.

(** A layer that, on the texts of the class, does not panic and reports
    findings of the text it was given, labelled within the class. *)
Definition within (n : Z) (f : Finding) : Prop := 0 ≤ f_start f ≤ f_end f ∧ f_end f ≤ n.
Definition layer_ok (T : TextClass) (l : Layer) : Prop :=
  ∀ n t, tc_text T t → l_scan l n t ≠ Panic ∧
    ∀ r, l_scan l n t = Ok r →
      Forall (λ f, within (len t) f ∧ tc_label T (f_label f)) (sr_findings r).

Lemma scanWithTimeout_inv p n l t :
  scanWithTimeout p n l t = l_scan l n t ∨ ∃ e, scanWithTimeout p n l t = Err e.
Proof. unfold scanWithTimeout. repeat if_case; eauto. Qed.

Lemma layer_ok_scan T p n l t : layer_ok T l → tc_text T t → scanWithTimeout p n l t ≠ Panic.
Proof. intros Hl Ht. destruct (scanWithTimeout_inv p n l t) as [->|[e ->]]; [by apply Hl|done]. Qed.

Lemma layer_ok_findings T p n st l :
  layer_ok T l → tc_text T (s_text st) →
  Forall (λ f, within (len (s_text st)) f ∧ tc_label T (f_label f)) (layer_findings p n st l).
Proof.
  intros Hl Ht. unfold layer_findings. destruct (l_ready l n); [|done].
  destruct (scanWithTimeout p n l (s_text st)) eqn:Hs; try done.
  destruct (scanWithTimeout_inv p n l (s_text st)) as [E|[e E]]; [|congruence].
  apply (Hl n (s_text st)); congruence.
Qed.

Lemma remap_within text st f :
  scan_inv text st → within (len (s_text st)) f → within (len text) (remap (s_offsets st) f).
Proof.
  intros (l & Hok%spans_ok_le & Hne & -> & ->) [[H1 H2] H3].
  rewrite len_render in H3 by (done || lia).
  unfold within; cbn [f_start f_end remap]. rewrite !toOriginalPos_unfwd.
  pose proof (unfwd_bounds _ _ _ (f_start f) Hok).
  pose proof (unfwd_bounds _ _ _ (f_end f) Hok).
  pose proof (unfwd_mono _ _ _ _ _ Hok H2). lia.
Qed.

Definition info_sum (l : list PipelineLayerInfo) : Z := foldr (λ i n, li_count i + n) 0 l.
Lemma info_sum_app l1 l2 : info_sum (l1 ++ l2) = info_sum l1 + info_sum l2.
Proof. induction l1 as [|i l1 IH]; simpl; [done|]. rewrite IH. lia. Qed.

(** What one run of the loop preserves, from any state. *)
Definition report_inv (T : TextClass) (text : gostring) (names : list gostring) (st : ScanState) : Prop :=
  scan_inv text st ∧ tc_text T text ∧ tc_text T (s_text st)
  ∧ Forall (λ f, within (len text) f ∧ tc_label T (f_label f)) (s_findings st)
  ∧ li_name <$> s_layers st = names ∧ info_sum (s_layers st) = len (s_findings st).

Lemma report_inv_init T text : tc_text T text → report_inv T text [] (mkScan [] [] text []).
Proof. intros Ht. split_and!; [apply scan_inv_init|done|done|by constructor|done|done]. Qed.

Lemma scan_layer_report T p n text names st l :
  layer_ok T l → report_inv T text names st →
  ∃ st', scan_layer p n text st l = Ok st' ∧ report_inv T text (names ++ [l_name l]) st'.
Proof.
  intros Hl (Hinv & Ht & Hst & Hf & Hn & Hs).
  destruct (scan_layer_step p n text st l Hinv)
    as (st' & info & -> & Hinv' & Hf' & Hl' & Hn' & Hc & Hnil & Hcons);
    [by intros _; eapply layer_ok_scan|].
  assert (Forall (λ f, within (len text) f ∧ tc_label T (f_label f)) (s_findings st')) as Hall.
  { rewrite Hf'. apply Forall_app. split; [done|]. apply Forall_fmap.
    eapply Forall_impl; [by apply layer_ok_findings|]. intros f [? ?].
    split; [by apply remap_within|done]. }
  exists st'. split; [done|]. split_and!; [done|done| |done|..].
  - destruct (decide (layer_findings p n st l = [])) as [E|E].
    + by destruct (Hnil E) as [-> _].
    + destruct (Hcons E) as (acc & Hsub & ->). apply tc_closed; [done|].
      rewrite Forall_forall in Hall |- *. intros f Hfa%Hsub. by apply Hall.
  - rewrite Hl', fmap_app, Hn. cbn. by rewrite Hn'.
  - rewrite Hl', info_sum_app, Hs, Hf', len_app. cbn. rewrite Hc. unfold len.
    rewrite length_fmap. lia.
Qed.

Lemma scan_loop_report T p n text layers names st :
  Forall (layer_ok T) layers → report_inv T text names st →
  ∃ st', scan_loop p n text layers st = Ok st' ∧ report_inv T text (names ++ (l_name <$> layers)) st'.
Proof.
  intros Hl. revert names st. induction Hl as [|l ls Hl Hls IH]; intros names st Hinv; cbn.
  - exists st. by rewrite app_nil_r.
  - destruct (scan_layer_report T p n text names st l Hl Hinv) as (st1 & -> & Hinv1). cbn.
    destruct (IH _ _ Hinv1) as (st2 & -> & ?). exists st2. split; [done|].
    by rewrite <- app_assoc in *.
Qed.

Lemma Scan_report_lemma T p m text :
  Forall (layer_ok T) (p_layers p) → tc_text T text →
  ∃ rep, Scan p m text = Ok rep
    ∧ Forall (within (len text)) (r_findings rep)
    ∧ li_name <$> r_layers rep = l_name <$> p_layers p
    ∧ info_sum (r_layers rep) = len (r_findings rep).
Proof.
  intros Hl Ht. unfold Scan.
  destruct (scan_loop_report T p (mo_call m) text (p_layers p) [] (mkScan [] [] text []) Hl)
    as (st & -> & Hinv & _ & _ & Hf & Hn & Hs); [by apply report_inv_init|].
  cbn. eexists. split; [done|]. split_and!; [|done..].
  eapply Forall_impl; [exact Hf|]. by intros f [? _].
Qed.

(** C3: a scan succeeds whenever its layers report findings of the text they
    are given: it never panics, every finding of the report lies inside the
    original text although each layer scanned a rewritten one, the report has
    one entry per layer in order, and the entries' counts add up to the number
    of findings.  The layers need to behave only on a class of texts that
    replacing findings stays in (all texts, or ASCII texts). *)
Theorem Scan_report T p m text :
  Forall (layer_ok T) (p_layers p) → tc_text T text →
  ∃ rep, Scan p m text = Ok rep
    ∧ Forall (within (len text)) (r_findings rep)
    ∧ li_name <$> r_layers rep = l_name <$> p_layers p
    ∧ info_sum (r_layers rep) = len (r_findings rep).
Proof. apply Scan_report_lemma. Qed.

(** A layer whose findings carry the text they were found at. *)
Definition locates (text : gostring) (f : Finding) : Prop :=
  sub text (f_start f) (f_end f) = f_value f.
Definition layer_faithful (T : TextClass) (l : Layer) : Prop :=
  layer_ok T l ∧
  ∀ n t r, tc_text T t → l_scan l n t = Ok r → Forall (locates t) (sr_findings r).

(** No finding of the run overlaps a placeholder of the text it was found
    in. *)
Fixpoint run_avoids (p : Pipeline) (n : nat) (text : gostring) (layers : list Layer) (st : ScanState) : Prop :=
  match layers with
  | [] => True
  | l :: ls =>
      Forall (λ f, avoids (s_offsets st) (f_start f) (f_end f)) (layer_findings p n st l)
      ∧ ∀ st', scan_layer p n text st l = Ok st' → run_avoids p n text ls st'
  end.

Lemma remap_locates text st f :
  scan_inv text st → within (len (s_text st)) f → locates (s_text st) f →
  avoids (s_offsets st) (f_start f) (f_end f) → locates text (remap (s_offsets st) f).
Proof.
  intros (l & Hok%spans_ok_le & Hne & Ht & ->) [[H1 H2] H3] Hloc Hav%avoids_entries.
  rewrite Ht, len_render in H3 by (done || lia). rewrite Ht in *.
  unfold locates in *. cbn [f_start f_end f_value remap].
  rewrite !toOriginalPos_unfwd, <- Hloc.
  rewrite <- (sub_render text 0 l (f_start f) (f_end f)) by (done || lia). f_equal; lia.
Qed.

Lemma scan_loop_locates T p n text layers st names :
  Forall (layer_faithful T) layers → report_inv T text names st → run_avoids p n text layers st →
  Forall (locates text) (s_findings st) →
  ∃ st', scan_loop p n text layers st = Ok st' ∧ Forall (locates text) (s_findings st').
Proof.
  intros Hl. revert st names. induction Hl as [|l ls [Hl Hloc] Hls IH];
    intros st names Hinv Hav Hf; cbn; [eauto|].
  destruct Hav as [Hav Hrest].
  destruct (scan_layer_report T p n text names st l Hl Hinv) as (st1 & E1 & Hinv1).
  specialize (Hrest _ E1). rewrite E1. cbn. eapply IH; [done..|].
  destruct Hinv as (Hinv & _ & Ht & _).
  destruct (scan_layer_step p n text st l Hinv) as (st2 & info & E2 & _ & Hf2 & _);
    [by intros _; eapply layer_ok_scan|].
  rewrite E1 in E2. injection E2 as <-. rewrite Hf2. apply Forall_app. split; [done|].
  apply Forall_fmap, Forall_forall. intros f Hin.
  apply remap_locates; [done|..|].
  - pose proof (layer_ok_findings T p n st l Hl Ht) as Hw. rewrite Forall_forall in Hw. by apply Hw.
  - unfold layer_findings in Hin. destruct (l_ready l n); [|by apply not_elem_of_nil in Hin].
    destruct (scanWithTimeout_inv p n l (s_text st)) as [E|[e E]]; rewrite E in Hin;
      [|by apply not_elem_of_nil in Hin].
    destruct (l_scan l n (s_text st)) as [r|e|] eqn:Hs; [|by apply not_elem_of_nil in Hin..].
    specialize (Hloc _ _ _ Ht Hs). rewrite Forall_forall in Hloc. by apply Hloc.
  - rewrite Forall_forall in Hav. by apply Hav.
Qed.

(** The pipeline reports every value where it stands in the original
    text: if each layer's findings carry the text at their own offsets and no
    finding overlaps a placeholder, then each finding of the report carries
    the original text at its translated offsets. *)
Theorem Scan_locates T p m text :
  Forall (layer_faithful T) (p_layers p) → tc_text T text →
  run_avoids p (mo_call m) text (p_layers p) (mkScan [] [] text []) →
  ∃ rep, Scan p m text = Ok rep ∧ Forall (locates text) (r_findings rep).
Proof.
  intros Hl Ht Hav.
  destruct (scan_loop_locates T p (mo_call m) text (p_layers p) (mkScan [] [] text []) [] Hl)
    as (st & E & Hf); [by apply report_inv_init|done|constructor|].
  unfold Scan. rewrite E. cbn. eauto.
Qed.

(** A layer that contributes nothing: it is not ready, its scan fails or it
    runs past the pipeline's timeout. *)
Definition inert (p : Pipeline) (n : nat) (l : Layer) : Prop :=
  l_ready l n = false ∨ ∀ t, ∃ e, scanWithTimeout p n l t = Err e.

Definition same_scan (st1 st2 : ScanState) : Prop :=
  s_findings st1 = s_findings st2 ∧ s_text st1 = s_text st2 ∧ s_offsets st1 = s_offsets st2.

Lemma scan_layer_same p n text l st1 st2 st1' :
  same_scan st1 st2 → scan_layer p n text st1 l = Ok st1' →
  ∃ st2', scan_layer p n text st2 l = Ok st2' ∧ same_scan st1' st2'.
Proof.
  intros (E1 & E2 & E3). unfold scan_layer. rewrite E1, E2, E3.
  destruct (l_ready l n); cbn; [|intros [= <-]; (eexists; split; [done|by repeat split])].
  destruct (scanWithTimeout p n l (s_text st2)) as [r|e|]; [|intros [= <-]; (eexists; split; [done|by repeat split])|done].
  destruct (sr_findings r); [intros [= <-]; (eexists; split; [done|by repeat split])|].
  cbn zeta. match goal with |- context [applyRedactions ?t ?fs] =>
    destruct (applyRedactions t fs) as [[cur offs]|e|]; cbn; [|done..] end.
  intros [= <-]. (eexists; split; [done|by repeat split]).
Qed.

Lemma scan_loop_same p n text ls st1 st2 st1' :
  same_scan st1 st2 → scan_loop p n text ls st1 = Ok st1' →
  ∃ st2', scan_loop p n text ls st2 = Ok st2' ∧ same_scan st1' st2'.
Proof.
  revert st1 st2. induction ls as [|l ls IH]; intros st1 st2 Hs; cbn.
  - intros [= <-]. eauto.
  - intros (st & Hst & Hls)%bind_Ok.
    destruct (scan_layer_same p n text l st1 st2 st Hs Hst) as (st' & -> & Hs'). cbn. eauto.
Qed.

Lemma scan_loop_app p n text ls1 ls2 st :
  scan_loop p n text (ls1 ++ ls2) st = scan_loop p n text ls1 st ≫= scan_loop p n text ls2.
Proof.
  revert st. induction ls1 as [|l ls1 IH]; intros st; cbn; [done|].
  destruct (scan_layer p n text st l); cbn; [apply IH|done..].
Qed.

(** A layer that is not ready, fails or times out changes nothing but its
    own entry: the scan's findings are those of the pipeline without that
    layer, wherever in the order it stands. *)
Theorem Scan_skips_inert ls1 l ls2 ms m text rep :
  let p := mkPipeline (ls1 ++ l :: ls2) ms in
  inert p (mo_call m) l → Scan p m text = Ok rep →
  ∃ rep', Scan (mkPipeline (ls1 ++ ls2) ms) m text = Ok rep'
    ∧ r_findings rep' = r_findings rep.
Proof.
  intros p Hin. unfold Scan, p. cbn [p_layers]. rewrite !scan_loop_app.
  intros (st & Hst & [= <-])%bind_Ok. apply bind_Ok in Hst as (st1 & Hst1 & Hst).
  cbn [scan_loop] in Hst. apply bind_Ok in Hst as (st2 & Hst2 & Hst).
  assert (same_scan st2 st1) as Hsame.
  { unfold scan_layer in Hst2. destruct Hin as [Hr|Hs].
    - rewrite Hr in Hst2. cbn in Hst2. by injection Hst2 as <-.
    - destruct (l_ready l (mo_call m)); cbn in Hst2; [|by injection Hst2 as <-].
      destruct (Hs (s_text st1)) as [e He].
      change (scanWithTimeout p (mo_call m) l (s_text st1) = Err e) in He.
      unfold p in He. rewrite He in Hst2. by injection Hst2 as <-. }
  assert (∀ ls s, scan_loop (mkPipeline (ls1 ++ ls2) ms) (mo_call m) text ls s =
                  scan_loop (mkPipeline (ls1 ++ l :: ls2) ms) (mo_call m) text ls s) as Hsm.
  { induction ls as [|l' ls IH]; intros s; cbn; [done|].
    unfold scan_layer at 1 2, scanWithTimeout at 1 2. cbn [p_timeout].
    case_match; cbn; [apply IH|]. repeat case_match; cbn; try done; try apply IH;
    match goal with |- context [applyRedactions ?t ?fs] =>
      destruct (applyRedactions t fs) as [[]|?|]; cbn; auto end. }
  rewrite Hsm, Hst1. cbn. rewrite Hsm.
  destruct (scan_loop_same _ _ _ _ _ _ _ Hsame Hst) as (st3 & -> & (Hf & _)). cbn. eauto.
Qed.
End pipeline_props.

(** ** The two classes of texts *)

Definition any_text : TextClass := {|
  tc_text _ := True; tc_label _ := True; tc_closed _ _ _ _ := I;
|}.

Definition is_ascii (s : gostring) : Prop := Forall (λ c, byteZ c < 128) s.

Lemma is_ascii_only s : is_ascii s → ascii_only s = true.
Proof.
  unfold is_ascii, ascii_only. intros Hs. apply forallb_forall. intros c Hc%list_elem_of_In.
  rewrite Forall_forall in Hs. specialize (Hs c Hc). unfold byteZ, byteN in *.
  apply N.ltb_lt. lia.
Qed.

Lemma is_ascii_sub s i j : is_ascii s → is_ascii (sub s i j).
Proof. intros Hs. unfold sub. by apply Forall_take, Forall_drop. Qed.

Lemma is_ascii_render text lo fs :
  is_ascii text → Forall (λ f, is_ascii (f_label f)) fs →
  is_ascii (render text lo (span_of <$> fs)).
Proof.
  intros Ht Hfs. revert lo. induction Hfs as [|f fs Hf Hfs IH]; intros lo.
  - by apply is_ascii_sub.
  - rewrite render_finding. unfold placeholder.
    repeat (apply Forall_app; split); [by apply is_ascii_sub| |done| |apply IH];
      vm_compute; repeat constructor.
Qed.

Definition ascii_text : TextClass := {|
  tc_text := is_ascii; tc_label := is_ascii;
  tc_closed text fs := is_ascii_render text 0 fs;
|}.

(** ** Evaluation *)

(** A layer that reports the first occurrence of a fixed word. *)
Definition literal_scan (name label word text : gostring) : res gostring ScanResult :=
  Ok (mkScanResult
    match Index text word with
    | Some i => [mkFinding label word (Z.of_nat i) (Z.of_nat i + len word) (f64_of_Z 0) name]
    | None => []
    end 0).
Definition literal_layer (name label word : gostring) (ready timer : bool) : Layer :=
  mkLayer unit tt name (λ _ _, ready) (λ _ _, literal_scan name label word) None (λ _ _, 0) (λ _ _, timer).

Lemma literal_faithful name label word ready timer :
  layer_faithful any_text (literal_layer name label word ready timer).
Proof.
  split.
  - intros n t _. split; [done|]. intros r [= <-]. cbn.
    destruct (Index t word) as [i|] eqn:Hi; [|done].
    apply Index_sub in Hi as (? & ? & ?). repeat constructor; cbn; lia.
  - intros n t r _ [= <-]. cbn. destruct (Index t word) as [i|] eqn:Hi; [|done].
    apply Index_sub in Hi as (? & ? & ?). by repeat constructor.
Qed.

Definition demo_layers : list Layer :=
  [ literal_layer (go "regex") (go "email") (go "bob@x.io") true false;
    literal_layer (go "opf") (go "name") (go "Bob") false false;
    literal_layer (go "slow") (go "name") (go "Bob") true true;
    literal_layer (go "entropy") (go "key") (go "k3y!") true false ].
Definition demo_pipeline : Pipeline := mkPipeline demo_layers 500.
Definition demo_text : gostring := go "mail bob@x.io the k3y! now".

Lemma demo_faithful : Forall (layer_faithful any_text) demo_layers.
Proof. repeat (constructor; [apply literal_faithful|]). constructor. Qed.

Example demo_scan :
  (λ r, (λ f, (f_label f, f_start f, f_end f)) <$> r_findings r)
    <$> @Scan insertion_sort demo_pipeline (mkMoment 0 0) demo_text =
  Ok [(go "email", 5, 13); (go "key", 18, 22)].
Proof. vm_compute. reflexivity. Qed.

Theorem Scan_report_witness :
  ∃ rep, @Scan insertion_sort demo_pipeline (mkMoment 0 0) demo_text = Ok rep
    ∧ Forall (within (len demo_text)) (r_findings rep)
    ∧ li_name <$> r_layers rep = l_name <$> p_layers demo_pipeline
    ∧ info_sum (r_layers rep) = len (r_findings rep).
Proof.
  apply (@Scan_report insertion_sort any_text demo_pipeline (mkMoment 0 0) demo_text); [|done].
  eapply Forall_impl; [exact demo_faithful|]. by intros l [? _].
Defined.

Theorem Scan_locates_witness :
  ∃ rep, @Scan insertion_sort demo_pipeline (mkMoment 0 0) demo_text = Ok rep
    ∧ Forall (locates demo_text) (r_findings rep).
Proof.
  apply (@Scan_locates insertion_sort any_text demo_pipeline (mkMoment 0 0) demo_text demo_faithful); [done|].
  cbn [p_layers demo_pipeline demo_layers run_avoids].
  repeat match goal with
  | |- _ ∧ _ => split
  | |- ∀ _, _ → _ => intros ? [= <-]
  | |- True => exact I
  | |- Forall _ _ => vm_compute; constructor
  end. right. split; [discriminate|exact I].
Defined.

Theorem Scan_skips_inert_witness :
  ∃ rep rep', @Scan insertion_sort (mkPipeline demo_layers 500) (mkMoment 0 0) demo_text = Ok rep
    ∧ @Scan insertion_sort (mkPipeline (take 2 demo_layers ++ drop 3 demo_layers) 500) (mkMoment 0 0) demo_text
      = Ok rep' ∧ r_findings rep' = r_findings rep.
Proof.
  eexists. 
  edestruct (@Scan_skips_inert insertion_sort (take 2 demo_layers)
    (literal_layer (go "slow") (go "name") (go "Bob") true true) (drop 3 demo_layers)
    500 (mkMoment 0 0) demo_text) as (rep' & ? & ?).
  - right. intros t. eexists. reflexivity.
  - vm_compute. reflexivity.
  - exists rep'. split; [vm_compute; reflexivity|]. split; [done|].
    match goal with H : r_findings rep' = _ |- _ => exact H end.
Defined.

Theorem toOriginalPos_inverse_witness :
  let spans := span_of <$> [mkFinding (go "email") [] 5 13 (f64_of_Z 0) []] in
  spans_ok (len demo_text) 0 spans ∧
  (∀ i, 0 ≤ i → clear_of spans i → toOriginalPos (fwd spans i) (entry_of_span <$> spans) = i)
  ∧ toOriginalPos 26 (entry_of_span <$> spans) = 18.
Proof.
  intros spans. assert (spans_ok (len demo_text) 0 spans) as Hok.
  { repeat constructor; vm_compute; congruence. }
  split; [done|]. split; [|reflexivity].
  apply (toOriginalPos_inverse demo_text spans 0 Hok). apply nonempty_span_of.
Defined.

Theorem applyRedactions_noninterference_witness :
  let fs := [mkFinding (go "email") [] 5 13 (f64_of_Z 0) []] in
  @applyRedactions insertion_sort (go "mail bob@x.io now") fs =
    Ok (go "mail [REDACTED-email] now", [mkOffset 5 13 16])
  ∧ @applyRedactions insertion_sort (go "mail eve@y.io now") fs =
    Ok (go "mail [REDACTED-email] now", [mkOffset 5 13 16]).
Proof.
  intros fs. split; [reflexivity|].
  apply (@applyRedactions_noninterference insertion_sort
    (go "mail bob@x.io now") (go "mail eve@y.io now") fs fs); [done|done| |reflexivity].
  intros i Hi. destruct (decide (5 ≤ Z.of_nat i < 13)) as [?|Hn].
  - destruct Hi. by constructor.
  - do 17 (destruct i as [|i]; [first [reflexivity | exfalso; apply Hn; lia]|]). reflexivity.
Defined.
