(* ===== verification/Redactor.v ===== *)
(** * Replacing the findings in the text — internal/redactor/redactor.go *)
From S2P Require Import Prelude GoStr GoFloat GoSort Spans Scanner.
Local Open Scope Z_scope.

Record AppliedRedaction := mkApplied {
  ar_label : gostring;
  ar_original : gostring;
  ar_start : Z;
  ar_end : Z;
}.

Record RedactionResult := mkRedaction {
  rr_text : gostring;
  rr_applied : list AppliedRedaction;
}.

Definition finding_len (f : Finding) : Z := f_end f - f_start f.

(** The order [dedup] sorts by: by start, the longer first. *)
Definition less_start_len (a b : Finding) : bool :=
  if f_start a =? f_start b then finding_len b <? finding_len a else f_start a <? f_start b.

(** [f] lies within [existing]. *)
Definition inside (f existing : Finding) : bool :=
  (f_start existing <=? f_start f) && (f_end f <=? f_end existing).

Definition dedup_loop : list Finding → list Finding → list Finding :=
  foldl (λ result f, if existsb (inside f) result then result else result ++ [f]).

Section redactor.
Context `{GoSort}.

(** [dedup] sorts the slice it is given in place: the caller's findings come
    back in that order, with the deduplicated copy. *)
Definition dedup (findings : list Finding) : list Finding * list Finding :=
  let findings := sort_slice less_start_len findings in
  (dedup_loop [] findings, findings).

(** The loop of [Redact]. *)
Fixpoint redact_loop (text : gostring) (fs : list Finding)
    (b : gostring) (applied : list AppliedRedaction) (prev : Z)
    : res gostring RedactionResult :=
  match fs with
  | [] => rest ← slice text prev (len text); Ok (mkRedaction (b ++ rest) applied)
  | f :: fs' =>
      if f_start f <? prev then redact_loop text fs' b applied prev
      else
        seg ← slice text prev (f_start f);
        let label := placeholder (f_label f) in
        redact_loop text fs' (b ++ seg ++ label)
          (applied ++ [mkApplied label (f_value f) (f_start f) (f_end f)]) (f_end f)
  end.

(** [Redact]: the result, and the caller's slice as [dedup] leaves it. *)
Definition Redact (text : gostring) (findings : list Finding)
    : res gostring (RedactionResult * list Finding) :=
  match findings with
  | [] => Ok (mkRedaction text [], findings)
  | _ =>
      let '(deduped, findings') := dedup findings in
      r ← redact_loop text (sort_slice less_start deduped) [] [] 0;
      Ok (r, findings')
  end.
End redactor.

(** ** Deduplication *)

(** Starts and ends both strictly increase. *)
Definition before (f g : Finding) : Prop := f_start f < f_start g ∧ f_end f < f_end g.

Lemma less_start_len_weak : StrictWeak less_start_len.
Proof. apply (strict_weak_key_desc f_start finding_len). Qed.

(** What the loop knows of its result when it meets the sorted rest. *)
Lemma dedup_loop_spec fs acc :
  StronglySorted before acc →
  StronglySorted (not_after less_start_len) fs →
  Forall (λ e, Forall (not_after less_start_len e) fs) acc →
  let r := dedup_loop acc fs in
  StronglySorted before r
  ∧ r ⊆ acc ++ fs
  ∧ ∀ f, f ∈ acc ++ fs → Exists (λ e, inside f e = true) r.
Proof.
  intros Hacc Hs. revert acc Hacc. induction Hs as [|f fs Hs IH Hf]; intros acc Hacc Hcross; cbn.
  - rewrite app_nil_r. split_and!; [done|done|]. intros f Hin. apply Exists_exists. exists f.
    split; [done|]. unfold inside. apply andb_true_iff; split; apply Z.leb_le; lia.
  - assert (Forall (λ e, not_after less_start_len e f) acc) as Hle.
    { eapply Forall_impl; [exact Hcross|]. by intros e [? ?]%Forall_cons. }
    assert (Forall (λ e, Forall (not_after less_start_len e) fs) acc) as Hcross'.
    { eapply Forall_impl; [exact Hcross|]. by intros e [? ?]%Forall_cons. }
    destruct (existsb (inside f) acc) eqn:Hex.
    + destruct (IH acc Hacc Hcross') as (H1 & H2 & H3). split_and!; [done|set_solver|].
      intros g Hg. apply elem_of_app in Hg as [Hg|[->|Hg]%elem_of_cons];
        [apply H3; set_solver| |apply H3; set_solver].
      apply existsb_exists in Hex as (e & He & Hfe). apply list_elem_of_In in He.
      destruct (proj1 (Exists_exists _ _) (H3 e ltac:(set_solver))) as (d & Hd & Hed).
      apply Exists_exists. exists d. split; [done|]. unfold inside in *. bool_hyps.
      apply andb_true_iff; split; apply Z.leb_le; lia.
    + destruct (IH (acc ++ [f])) as (H1 & H2 & H3).
      * apply StronglySorted_snoc; [done|].
        rewrite Forall_forall in Hle |- *. intros e He. specialize (Hle e He).
        assert (inside f e = false) as Hn.
        { apply not_true_is_false. intros Hi.
          rewrite <- not_true_iff_false in Hex. apply Hex, existsb_exists.
          exists e. split; [by apply list_elem_of_In|done]. }
        unfold not_after, less_start_len, finding_len, inside, before in *.
        repeat if_case_in Hle; bool_cases; lia.
      * apply Forall_app. split; [done|]. by constructor.
      * split_and!; [done|set_solver|]. intros g Hg. apply H3. set_solver.
Qed.

Section dedup_lemmas.
Context `{GoSort}.

Lemma dedup_inv fs :
  let '(d, fs') := dedup fs in
  fs' ≡ₚ fs ∧ StronglySorted before d ∧ d ⊆ fs
  ∧ ∀ f, f ∈ fs → Exists (λ e, inside f e = true) d.
Proof.
  unfold dedup. pose proof (sort_slice_perm less_start_len fs) as Hp.
  destruct (dedup_loop_spec (sort_slice less_start_len fs) []) as (H1 & H2 & H3).
  - constructor.
  - apply sort_slice_sorted, less_start_len_weak.
  - constructor.
  - cbn in *. split_and!; [done|done|..].
    + intros f Hf%H2. by rewrite Hp in Hf.
    + intros f Hf. apply H3. by rewrite Hp.
Qed.

(** The second sort of [Redact] finds the list already sorted. *)
Lemma sort_start_before d :
  StronglySorted before d → sort_slice less_start d = d.
Proof.
  intros Hd. apply (sorted_perm_unique less_start).
  - by rewrite sort_slice_perm.
  - eapply StronglySorted_impl; [|exact Hd]. intros a b [? _]. apply Z.ltb_lt. done.
  - apply sort_slice_sorted, less_start_weak.
Qed.
End dedup_lemmas.

(** ** The replacement loop *)

(** The findings the loop replaces, in order. *)
Fixpoint kept (prev : Z) (fs : list Finding) : list Finding :=
  match fs with
  | [] => []
  | f :: fs' => if f_start f <? prev then kept prev fs' else f :: kept (f_end f) fs'
  end.

Definition applied_of (f : Finding) : AppliedRedaction :=
  mkApplied (placeholder (f_label f)) (f_value f) (f_start f) (f_end f).

Lemma kept_elem prev fs f : f ∈ kept prev fs → f ∈ fs.
Proof.
  revert prev. induction fs as [|g fs IH]; intros prev; cbn [kept]; [done|].
  if_case; [intros ?%IH; set_solver|].
  intros [->|?%IH]%elem_of_cons; set_solver.
Qed.

Lemma kept_ok n prev fs :
  0 ≤ prev ≤ n → Forall (within n) fs → spans_le n prev (span_of <$> kept prev fs).
Proof.
  intros Hp Hw. revert prev Hp. induction Hw as [|f fs [? ?] Hw IH]; intros prev Hp;
    cbn [kept]; [constructor; lia|].
  if_case; [auto|]. csimpl. constructor; cbn; try lia. apply IH. lia.
Qed.

Lemma redact_loop_spec text fs b applied prev :
  0 ≤ prev ≤ len text → Forall (within (len text)) fs →
  redact_loop text fs b applied prev =
    Ok (mkRedaction (b ++ render text prev (span_of <$> kept prev fs))
          (applied ++ (applied_of <$> kept prev fs))).
Proof.
  intros Hp Hw. revert b applied prev Hp.
  induction Hw as [|f fs [? ?] Hw IH]; intros b applied prev Hp; cbn [redact_loop kept].
  - rewrite slice_Ok by lia. simpl. by rewrite app_nil_r.
  - if_case; [by apply IH|].
    rewrite slice_Ok by lia. cbn [mbind res_bind]. rewrite IH by lia.
    rewrite render_finding, <- !app_assoc. done.
Qed.

(** Two findings are disjoint, or one lies within the other. *)
Definition laminar (fs : list Finding) : Prop :=
  ∀ f g, f ∈ fs → g ∈ fs →
    f_end f ≤ f_start g ∨ f_end g ≤ f_start f ∨ inside f g = true ∨ inside g f = true.

Lemma kept_laminar n prev d :
  StronglySorted before d → laminar d → Forall (within n) d →
  Forall (λ f, prev ≤ f_start f) d → kept prev d = d.
Proof.
  intros Hd. revert prev. induction Hd as [|f d Hd IH Hf]; intros prev Hl Hw Hp; [done|].
  apply Forall_cons in Hp as [Hp Hps]. apply Forall_cons in Hw as [Hwf Hw].
  cbn [kept]. if_case; [lia|]. f_equal. apply IH; [|done|].
  - intros a b Ha Hb. apply Hl; set_solver.
  - rewrite Forall_forall in Hf, Hw |- *. intros g Hg.
    destruct (Hf g Hg). destruct (Hw g Hg).
    destruct (Hl f g) as [?|[?|[Hi|Hi]]]; [set_solver|set_solver|lia..| |];
      unfold inside in Hi; bool_hyps; lia.
Qed.

(** ** The properties of [Redact] *)

Section redact_props.
Context `{GoSort}.

(** [Redact] in terms of the deduplicated list. *)
Lemma Redact_dedup text fs :
  Forall (within (len text)) fs →
  let '(d, fs') := dedup fs in
  Redact text fs =
    Ok (mkRedaction (render text 0 (span_of <$> kept 0 d)) (applied_of <$> kept 0 d), fs').
Proof.
  intros Hw. pose proof (dedup_inv fs) as Hd. pose proof (len_nonneg text).
  destruct (dedup fs) as [d fs'] eqn:E. destruct Hd as (Hp & Hb & Hsub & _).
  destruct fs as [|f fs]; cbn [Redact].
  - apply Permutation_nil_r in Hp as ->.
    assert (d = []) as ->.
    { destruct d as [|x d]; [done|]. exfalso. apply (not_elem_of_nil x), Hsub. set_solver. }
    cbn. by rewrite sub_full.
  - rewrite E. cbn. rewrite sort_start_before by done.
    rewrite redact_loop_spec; [|lia|].
    + done.
    + rewrite Forall_forall in Hw |- *. auto.
Qed.

Lemma dedup_kept (text : gostring) fs d fs' :
  Forall (within (len text)) fs → laminar fs → dedup fs = (d, fs') → kept 0 d = d.
Proof.
  intros Hw Hl E. pose proof (dedup_inv fs) as Hd. rewrite E in Hd.
  destruct Hd as (_ & Hb & Hsub & _).
  assert (Forall (within (len text)) d) as Hwd by (rewrite Forall_forall in Hw |- *; auto).
  eapply kept_laminar; [done| |done|].
  - intros a b Ha Hc. apply Hl; auto.
  - rewrite Forall_forall in Hwd |- *. intros f Hf. apply Hwd in Hf as [? ?]. lia.
Qed.

Lemma Redact_spec text fs :
  Forall (within (len text)) fs →
  ∃ acc fs', Redact text fs =
      Ok (mkRedaction (render text 0 (span_of <$> acc)) (applied_of <$> acc), fs')
    ∧ spans_le (len text) 0 (span_of <$> acc) ∧ acc ⊆ fs ∧ fs' ≡ₚ fs
    ∧ (laminar fs → ∀ f, f ∈ fs → Exists (λ g, inside f g = true) acc).
Proof.
  intros Hw. pose proof (Redact_dedup text fs Hw) as HR. pose proof (dedup_inv fs) as Hd.
  pose proof (len_nonneg text).
  destruct (dedup fs) as [d fs'] eqn:E. destruct Hd as (Hp & _ & Hsub & Hcov).
  eexists _, _. split; [done|]. split_and!; [|..|done|].
  - apply kept_ok; [lia|]. rewrite Forall_forall in Hw |- *. auto.
  - intros f Hf%kept_elem. auto.
  - intros Hl f Hf. rewrite (dedup_kept text fs d fs' Hw Hl E). by apply Hcov.
Qed.

(** Every finding lies within one of the findings that is applied, or that begins in an
    applied one. *)
Lemma kept_cover prev fs e :
  e ∈ fs → prev ≤ f_start e → StronglySorted before fs → Forall (λ f, f_start f ≤ f_end f) fs →
  ∃ g, g ∈ kept prev fs ∧ f_start g ≤ f_start e ∧ (e = g ∨ f_start e < f_end g).
Proof.
  revert prev. induction fs as [|f fs IH]; intros prev He Hp Hs Hw; [by apply not_elem_of_nil in He|].
  apply StronglySorted_inv in Hs as [Hs Hf]. apply Forall_cons in Hw as [Hwf Hw]. cbn [kept].
  apply elem_of_cons in He as [->|He].
  - if_case; [lia|]. exists f. split; [by left|]. split; [lia|by left].
  - if_case; [by apply IH|]. rewrite Forall_forall in Hf. destruct (Hf e He) as [Hst _].
    destruct (decide (f_end f ≤ f_start e)) as [Hle|Hlt].
    + destruct (IH (f_end f) He Hle Hs Hw) as (g & Hg & ?). exists g. split; [by right|done].
    + exists f. split; [by left|]. split; [lia|right; lia].
Qed.
Lemma Redact_selects text fs acc fs' :
  Forall (within (len text)) fs →
  Redact text fs = Ok (mkRedaction (render text 0 (span_of <$> acc)) (applied_of <$> acc), fs') →
  acc = kept 0 (dedup fs).1 →
  ∀ f, f ∈ fs → ∃ e g, e ∈ fs ∧ inside f e = true ∧ g ∈ acc ∧ f_start g ≤ f_start e ∧ (e = g ∨ f_start e < f_end g).
Proof.
  intros Hw _ Hacc f Hf. pose proof (dedup_inv fs) as Hd. destruct (dedup fs) as [d fs1]. cbn [fst] in Hacc. subst acc.
  destruct Hd as (_ & Hb & Hsub & Hcov). apply Hcov, Exists_exists in Hf as (e & He & Hi).
  assert (Forall (within (len text)) d) as Hwd by (rewrite Forall_forall in Hw |- *; auto).
  pose proof Hwd as Hwe. rewrite Forall_forall in Hwe. destruct (Hwe e He) as [Hse _].
  destruct (kept_cover 0 d e He ltac:(lia) Hb) as (g & Hg & ?).
  { eapply Forall_impl; [exact Hwd|]. intros x [? _]. lia. }
  exists e, g. split_and!; [by apply Hsub|done|done|tauto|tauto].
Qed.

(** When any two findings are disjoint or nested, every finding lies
    within an applied one, and the redacted text is a function of the bytes
    outside the findings alone. *)
Lemma Redact_laminar text fs :
  Forall (within (len text)) fs → laminar fs →
  ∃ r fs', Redact text fs = Ok (r, fs')
    ∧ (∀ f, f ∈ fs →
         Exists (λ a, ar_start a ≤ f_start f ∧ f_end f ≤ ar_end a) (rr_applied r))
    ∧ (∀ text', len text' = len text →
         (∀ i : nat, ¬ Exists (λ f, f_start f ≤ Z.of_nat i < f_end f) fs →
            text' !! i = text !! i) →
         Redact text' fs = Ok (r, fs')).
Proof.
  intros Hw Hl. pose proof (len_nonneg text).
  pose proof (Redact_dedup text fs Hw) as HR. pose proof (dedup_inv fs) as Hd.
  destruct (dedup fs) as [d fs'] eqn:E. destruct Hd as (Hp & Hb & Hsub & Hcov).
  pose proof (dedup_kept text fs d fs' Hw Hl E) as Hk.
  rewrite Hk in HR. eexists _, _. split; [done|]. split.
  - intros f Hf%Hcov. apply Exists_exists in Hf as (e & He & Hi). unfold inside in Hi.
    bool_hyps. apply Exists_fmap, Exists_exists. exists e. split; [done|]. cbn. lia.
  - intros text' Hlen Hag.
    assert (Forall (within (len text')) fs) as Hw' by (by rewrite Hlen).
    pose proof (Redact_dedup text' fs Hw') as HR'. rewrite E, Hk in HR'.
    rewrite HR'. do 3 f_equal. apply render_agree; [done|lia| |].
    + apply spans_le_weaken with 0; [lia|]. rewrite <- Hk. apply kept_ok; [lia|].
      rewrite Hlen. rewrite Forall_forall in Hw |- *. auto.
    + intros i _ Hc. apply Hag. intros Hex. apply Hc.
      apply Exists_exists in Hex as (f & Hf & ?).
      apply Hcov, Exists_exists in Hf as (e & He & Hi). unfold inside in Hi. bool_hyps.
      apply Exists_fmap, Exists_exists. exists e. split; [done|]. cbn. lia.
Qed.

(** C1: on findings inside the text [Redact] never panics, and what it replaces is
    pinned down.  The result is the text with the placeholder of each applied
    finding in place of its span; the applied findings are disjoint and in order,
    and the list of them gives label, value and offsets.  Every finding is
    replaced, or lies in one that is, or lies in one that begins inside an applied
    one.  When any two findings are disjoint or nested, every finding lies within
    an applied one, and no byte of a finding matters: two texts of one length that
    agree outside the findings are redacted to the same string.  The caller's slice
    is only reordered. *)
Theorem Redact_render text fs :
  Forall (within (len text)) fs →
  ∃ acc fs', Redact text fs =
      Ok (mkRedaction (render text 0 (span_of <$> acc)) (applied_of <$> acc), fs')
    ∧ spans_le (len text) 0 (span_of <$> acc) ∧ acc ⊆ fs ∧ fs' ≡ₚ fs
    ∧ (∀ f, f ∈ fs → ∃ e g, e ∈ fs ∧ inside f e = true ∧ g ∈ acc
         ∧ f_start g ≤ f_start e ∧ (e = g ∨ f_start e < f_end g))
    ∧ (laminar fs →
         (∀ f, f ∈ fs → ∃ g, g ∈ acc ∧ inside f g = true)
         ∧ ∀ text', len text' = len text →
             (∀ i : nat, ¬ Exists (λ f, f_start f ≤ Z.of_nat i < f_end f) fs → text' !! i = text !! i) →
             Redact text' fs = Redact text fs).
Proof.
  intros Hw. pose proof (Redact_dedup text fs Hw) as HR. pose proof (dedup_inv fs) as Hd.
  destruct (dedup fs) as [d fs'] eqn:E. destruct Hd as (Hp & _ & Hsub & Hcov).
  pose proof (len_nonneg text). exists (kept 0 d), fs'. split; [done|]. split_and!; [| |done| |].
  - apply kept_ok; [lia|]. rewrite Forall_forall in Hw |- *. auto.
  - intros f Hf%kept_elem. auto.
  - eapply Redact_selects; [done..|]. by rewrite E.
  - intros Hl. split.
    + intros f Hf. rewrite (dedup_kept text fs d fs' Hw Hl E). by apply Exists_exists, Hcov.
    + intros text' Hlen Hag. destruct (Redact_laminar text fs Hw Hl) as (r & fs2 & HR2 & _ & Hsame).
      rewrite HR2. by apply Hsame.
Qed.

(** [Redact] has no bounds check, unlike the pipeline's own
    [applyRedactions]: on one finding it panics exactly when the finding
    starts in or after the text and an offset lies outside it, and a finding
    with a negative start is ignored. *)
Lemma Redact_single_panics text f :
  Redact text [f] = Panic ↔
    0 ≤ f_start f ∧ (len text < f_start f ∨ f_end f < 0 ∨ len text < f_end f).
Proof.
  pose proof (len_nonneg text).
  assert (sort_slice less_start_len [f] = [f]) as E1.
  { apply Permutation_singleton_r. apply sort_slice_perm. }
  assert (sort_slice less_start [f] = [f]) as E2.
  { apply Permutation_singleton_r. apply sort_slice_perm. }
  cbn [Redact]. unfold dedup. rewrite E1. cbn [dedup_loop foldl existsb app].
  rewrite E2. cbn [redact_loop]. if_case.
  - rewrite slice_Ok by lia. cbn. split; [done|lia].
  - destruct (Z_le_dec (f_start f) (len text)).
    + rewrite (slice_Ok text 0 (f_start f)) by lia. cbn [mbind res_bind].
      unfold slice. if_case; cbn; [split; [done|lia]|]. split; [intros _|done].
      bool_cases; lia.
    + rewrite (slice_Panic text 0 (f_start f)) by lia. cbn. split; [intros _; lia|done].
Qed.
End redact_props.

(** ** Evaluation *)

Definition mkf (label : string) (s e : Z) : Finding := mkFinding (go label) [] s e (f64_of_Z 0) [].
Definition nested_findings : list Finding := [mkf "key" 7 9; mkf "url" 4 12; mkf "name" 0 3].

Lemma nested_within : Forall (within 18) nested_findings.
Proof. repeat constructor; vm_compute; congruence. Qed.
Lemma nested_laminar : laminar nested_findings.
Proof.
  intros f g Hf Hg.
  repeat (apply elem_of_cons in Hf as [->|Hf]); try by apply not_elem_of_nil in Hf.
  all: repeat (apply elem_of_cons in Hg as [->|Hg]); try by apply not_elem_of_nil in Hg.
  all: cbn; tauto || lia.
Qed.

Theorem Redact_render_witness :
  ∃ acc fs', @Redact insertion_sort (go "bob at x.io:443 ok") nested_findings =
      Ok (mkRedaction (render (go "bob at x.io:443 ok") 0 (span_of <$> acc)) (applied_of <$> acc), fs')
    ∧ spans_le 18 0 (span_of <$> acc) ∧ acc ⊆ nested_findings ∧ fs' ≡ₚ nested_findings
    ∧ ∀ f, f ∈ nested_findings → ∃ g, g ∈ acc ∧ inside f g = true.
Proof.
  destruct (@Redact_render insertion_sort (go "bob at x.io:443 ok") nested_findings nested_within)
    as (acc & fs' & H1 & H2 & H3 & H4 & _ & H5).
  exists acc, fs'. exact (conj H1 (conj H2 (conj H3 (conj H4 (proj1 (H5 nested_laminar)))))).
Defined.

Example redact_nested :
  @Redact insertion_sort (go "bob at x.io:443 ok") nested_findings =
  Ok (mkRedaction (go "[REDACTED-name] [REDACTED-url]443 ok")
        [mkApplied (go "[REDACTED-name]") [] 0 3; mkApplied (go "[REDACTED-url]") [] 4 12],
      [mkf "name" 0 3; mkf "url" 4 12; mkf "key" 7 9]).
Proof. reflexivity. Qed.

Lemma Redact_laminar_example :
  @Redact insertion_sort (go "bob at x.io:443 ok") nested_findings =
  @Redact insertion_sort (go "eve at y.de:443 ok") nested_findings.
Proof. vm_compute. reflexivity. Qed.

(** Two findings that overlap without nesting: the second is dropped whole
    because it starts before the end of the first, and the bytes of it past
    that end reach the output. *)
Lemma Redact_overlap_leaks :
  ∃ text f g r fs',
    Forall (within (len text)) [f; g]
    ∧ @Redact insertion_sort text [f; g] = Ok (r, fs')
    ∧ f_end f < f_end g
    ∧ HasSuffix (rr_text r) (sub text (f_end f) (f_end g)) = true
    ∧ length (rr_applied r) = 1%nat.
Proof.
  exists (go "user=alice@corp.example"), (mkf "email" 5 15), (mkf "host" 11 23).
  eexists _, _. split; [repeat constructor; vm_compute; congruence|].
  split; [vm_compute; reflexivity|]. by vm_compute.
Qed.
