(* ===== verification/Sha256.v ===== *)
(** * SHA-256 and hexadecimal (crypto/sha256, encoding/hex)

    FIPS 180-4, on 32-bit words in [N]: the digest the cache keys, the server's
    token hashes and the policy keys are made of, executable and checked on
    the standard's test vectors. *)
From S2P Require Import Prelude GoStr Utf8.
Local Open Scope N_scope.

Definition w32 (n : N) : N := N.land n 4294967295.
Definition add32 (a b : N) : N := w32 (a + b).
Definition rotr (n : N) (x : N) : N := N.lor (N.shiftr x n) (w32 (N.shiftl x (32 - n))).
Definition not32 (x : N) : N := N.lxor x 4294967295.

Definition sha_K : list N := [
   1116352408; 1899447441; 3049323471; 3921009573; 961987163; 1508970993;
   2453635748; 2870763221; 3624381080; 310598401; 607225278; 1426881987;
   1925078388; 2162078206; 2614888103; 3248222580; 3835390401; 4022224774;
   264347078; 604807628; 770255983; 1249150122; 1555081692; 1996064986;
   2554220882; 2821834349; 2952996808; 3210313671; 3336571891; 3584528711;
   113926993; 338241895; 666307205; 773529912; 1294757372; 1396182291;
   1695183700; 1986661051; 2177026350; 2456956037; 2730485921; 2820302411;
   3259730800; 3345764771; 3516065817; 3600352804; 4094571909; 275423344;
   430227734; 506948616; 659060556; 883997877; 958139571; 1322822218;
   1537002063; 1747873779; 1955562222; 2024104815; 2227730452; 2361852424;
   2428436474; 2756734187; 3204031479; 3329325298].

Definition sha_H0 : list N := [
   1779033703; 3144134277; 1013904242; 2773480762;
   1359893119; 2600822924; 528734635; 1541459225].

Definition ssig0 (x : N) : N := N.lxor (N.lxor (rotr 7 x) (rotr 18 x)) (N.shiftr x 3).
Definition ssig1 (x : N) : N := N.lxor (N.lxor (rotr 17 x) (rotr 19 x)) (N.shiftr x 10).
Definition bsig0 (x : N) : N := N.lxor (N.lxor (rotr 2 x) (rotr 13 x)) (rotr 22 x).
Definition bsig1 (x : N) : N := N.lxor (N.lxor (rotr 6 x) (rotr 11 x)) (rotr 25 x).
Definition sha_ch (x y z : N) : N := N.lxor (N.land x y) (N.land (not32 x) z).
Definition sha_maj (x y z : N) : N :=
  N.lxor (N.lxor (N.land x y) (N.land x z)) (N.land y z).

(** The message schedule, kept newest word first. *)
Fixpoint schedule (n : nat) (w : list N) : list N :=
  match n with
  | 0%nat => rev w
  | S n' =>
      let at_ i := nth i w 0 in
      schedule n' (add32 (add32 (ssig1 (at_ 1%nat)) (at_ 6%nat))
                     (add32 (ssig0 (at_ 14%nat)) (at_ 15%nat)) :: w)
  end.

Definition sha_round (h : list N) (kw : N * N) : list N :=
  match h with
  | [a; b; c; d; e; f; g; h] =>
      let t1 := add32 (add32 (add32 h (bsig1 e)) (add32 (sha_ch e f g) (fst kw))) (snd kw) in
      let t2 := add32 (bsig0 a) (sha_maj a b c) in
      [add32 t1 t2; a; b; c; add32 d t1; e; f; g]
  | _ => h
  end.

Definition be_word (bs : list N) : N := foldl (λ acc b, N.lor (N.shiftl acc 8) b) 0 bs.

Fixpoint chunks {A} (fuel k : nat) (l : list A) : list (list A) :=
  match fuel, l with
  | S f, _ :: _ => take k l :: chunks f k (drop k l)
  | _, _ => []
  end.

Definition sha_block (h : list N) (block : list N) : list N :=
  let w := be_word <$> chunks 16 4 block in
  zip_with add32 h (foldl sha_round h (zip sha_K (schedule 48 (rev w)))).

Definition be_bytes (k : nat) (n : N) : list N :=
  (λ i, N.land (N.shiftr n (8 * N.of_nat i)) 255) <$> rev (seq 0 k).

Definition sha_pad (m : list N) : list N :=
  let n := length m in
  let zeros := (Nat.modulo (119 - Nat.modulo n 64) 64)%nat in
  m ++ [128] ++ replicate zeros 0 ++ be_bytes 8 (8 * N.of_nat n).

(** [sha256.Sum256] *)
Definition Sum256 (s : gostring) : gostring :=
  let m := sha_pad (byteN <$> s) in
  chr <$> (foldl sha_block sha_H0 (chunks (length m) 64 m) ≫= be_bytes 4).

(** [hex.EncodeToString] *)
Definition hex_digit (n : N) : Ascii.ascii :=
  if n <? 10 then chr (48 + n) else chr (87 + n).
Definition hex_encode (s : gostring) : gostring :=
  s ≫= λ c, [hex_digit (N.shiftr (byteN c) 4); hex_digit (N.land (byteN c) 15)].

(** [hex.DecodeString]: [None] for an odd length or another character. *)
Definition hex_value (c : Ascii.ascii) : option N :=
  let n := byteN c in
  if between 48 57 n then Some (n - 48)
  else if between 97 102 n then Some (n - 87)
  else if between 65 70 n then Some (n - 55) else None.
Fixpoint hex_decode (s : gostring) : option gostring :=
  match s with
  | [] => Some []
  | a :: b :: s' =>
      match hex_value a, hex_value b, hex_decode s' with
      | Some x, Some y, Some r => Some (chr (16 * x + y) :: r)
      | _, _, _ => None
      end
  | _ => None
  end.

(** The digest in hexadecimal. *)
Definition sha256_hex (s : gostring) : gostring := hex_encode (Sum256 s).

Example sha256_abc :
  sha256_hex (go "abc") = go "ba7816bf8f01cfea414140de5dae2223b00361a396177a9cb410ff61f20015ad".
Proof. vm_compute. reflexivity. Qed.
Example sha256_empty :
  sha256_hex [] = go "e3b0c44298fc1c149afbf4c8996fb92427ae41e4649b934ca495991b7852b855".
Proof. vm_compute. reflexivity. Qed.
Example sha256_two_blocks :
  sha256_hex (go "abcdbcdecdefdefgefghfghighijhijkijkljklmklmnlmnomnopnopq") =
  go "248d6a61d20638b8e5c026930c3e6039a33ce45964ff2167f6ecedd419db06c1".
Proof. vm_compute. reflexivity. Qed.

Lemma hex_encode_nil_inv s : hex_encode s = [] → s = [].
Proof. by destruct s. Qed.

Lemma hex_decode_encode s : hex_decode (hex_encode s) = Some s.
Proof.
  induction s as [|c s IH]; [done|].
  unfold hex_encode in *. cbn [mbind list_bind app hex_decode]. rewrite IH.
  by destruct c as [[][][][][][][][]]; vm_compute.
Qed.

(** Different byte strings have different hexadecimal renderings. *)
Lemma hex_encode_inj : Inj (=) (=) hex_encode.
Proof.
  intros s t H. apply (f_equal hex_decode) in H. rewrite !hex_decode_encode in H. congruence.
Qed.
