(* ===== verification/Cache.v ===== *)
(** * The LRU scan cache — internal/scanner/cache.go

    The concrete cache is the code's: a map from keys to list elements and a
    [container/list] of those elements, which hold pointers to the entries.
    The abstract one ([lru]) is a list of entries, most recently used first;
    [cache_refines] is the simulation between them. *)
From S2P Require Import Prelude GoStr Sha256 GoFloat GoSort Spans Scanner.
Local Open Scope Z_scope.

Record CacheStats := mkStats {
  cs_hits : Z; cs_misses : Z; cs_size : Z; cs_max : Z;
}.

Record cacheEntry := mkEntry {
  ce_key : gostring;
  ce_redacted : gostring;
  ce_report : PipelineReport;
}.

(** [container/list]: elements are identities; a list is the sequence of the
    identities it links, front first; [MoveToFront] and [Remove] of an element
    of another list do nothing. *)
Definition ListRemove (id : nat) (order : list nat) : list nat := filter (λ i, i ≠ id) order.
Definition MoveToFront (id : nat) (order : list nat) : list nat :=
  if decide (id ∈ order) then id :: ListRemove id order else order.

(** [c_elems] is the heap: the entry each element's [Value] points to. *)
Record Cache := mkCache {
  c_maxSize : Z;
  c_items : gmap gostring nat;
  c_order : list nat;
  c_elems : gmap nat cacheEntry;
  c_hits : Z;
  c_misses : Z;
}.

Definition NewCache (maxSize : Z) : Cache := mkCache maxSize ∅ [] ∅ 0 0.

Definition hash (text : gostring) : gostring := sha256_hex text.

(** [Get]: the nil pointer dereference of an element without an entry panics. *)
Definition Get (c : Cache) (text : gostring)
    : res gostring (Cache * option (gostring * PipelineReport)) :=
  let key := hash text in
  match c_items c !! key with
  | Some elem =>
      let order := MoveToFront elem (c_order c) in
      match c_elems c !! elem with
      | Some entry =>
          Ok (mkCache (c_maxSize c) (c_items c) order (c_elems c)
                (wrap64 (c_hits c + 1)) (c_misses c),
              Some (ce_redacted entry, ce_report entry))
      | None => Panic
      end
  | None =>
      Ok (mkCache (c_maxSize c) (c_items c) (c_order c) (c_elems c)
            (c_hits c) (wrap64 (c_misses c + 1)), None)
  end.

Definition Put (c : Cache) (text redactedText : gostring) (report : PipelineReport)
    : res gostring Cache :=
  let key := hash text in
  match c_items c !! key with
  | Some elem =>
      let order := MoveToFront elem (c_order c) in
      match c_elems c !! elem with
      | Some entry =>
          Ok (mkCache (c_maxSize c) (c_items c) order
                (<[elem := mkEntry (ce_key entry) redactedText report]> (c_elems c))
                (c_hits c) (c_misses c))
      | None => Panic
      end
  | None =>
      '(items, order) ←
        (if c_maxSize c <=? len (c_order c) then
           match last (c_order c) with
           | Some oldest =>
               match c_elems c !! oldest with
               | Some e => Ok (delete (ce_key e) (c_items c), ListRemove oldest (c_order c))
               | None => Panic
               end
           | None => Ok (c_items c, c_order c)
           end
         else Ok (c_items c, c_order c));
      let elem := fresh (dom (c_elems c)) in
      Ok (mkCache (c_maxSize c) (<[key := elem]> items) (elem :: order)
            (<[elem := mkEntry key redactedText report]> (c_elems c))
            (c_hits c) (c_misses c))
  end.

Definition Invalidate (c : Cache) : Cache :=
  mkCache (c_maxSize c) ∅ [] (c_elems c) (c_hits c) (c_misses c).

Definition Stats (c : Cache) : CacheStats :=
  mkStats (c_hits c) (c_misses c) (len (c_order c)) (c_maxSize c).

(** ** The abstract LRU *)

Abbreviation lru := (list cacheEntry).

Fixpoint lru_find (key : gostring) (l : lru) : option cacheEntry :=
  match l with
  | [] => None
  | e :: l' => if decide (ce_key e = key) then Some e else lru_find key l'
  end.
Definition lru_remove (key : gostring) (l : lru) : lru := filter (λ e, ce_key e ≠ key) l.

Definition lru_get (key : gostring) (l : lru) : lru :=
  match lru_find key l with Some e => e :: lru_remove key l | None => l end.

Definition lru_put (maxSize : Z) (e : cacheEntry) (l : lru) : lru :=
  match lru_find (ce_key e) l with
  | Some _ => e :: lru_remove (ce_key e) l
  | None => e :: (if maxSize <=? len l then take (Nat.pred (length l)) l else l)
  end.

(** ** The invariant and the abstraction *)

Definition at_id (c : Cache) (id : nat) (e : cacheEntry) : Prop := c_elems c !! id = Some e.

Record cache_wf (c : Cache) : Prop := {
  wf_nodup : NoDup (c_order c);
  wf_order : ∀ id, id ∈ c_order c → ∃ e, c_elems c !! id = Some e ∧ c_items c !! ce_key e = Some id;
  wf_items : ∀ k id, c_items c !! k = Some id →
    id ∈ c_order c ∧ ∃ e, c_elems c !! id = Some e ∧ ce_key e = k;
}.

(** The cache [c] stands for the list [l]. *)
Definition represents (c : Cache) (l : lru) : Prop :=
  cache_wf c ∧ Forall2 (at_id c) (c_order c) l.

Lemma lru_find_Some k l e : lru_find k l = Some e → e ∈ l ∧ ce_key e = k.
Proof.
  induction l as [|x l IH]; cbn; [done|]. case_decide; [intros [= <-]; set_solver|].
  intros [? ?]%IH. set_solver.
Qed.

Lemma ListRemove_elem id order i : i ∈ ListRemove id order ↔ i ∈ order ∧ i ≠ id.
Proof. unfold ListRemove. rewrite list_elem_of_filter. tauto. Qed.

Section repr.
Context (c : Cache) (l : lru) (Hr : represents c l).

Lemma repr_find k :
  match c_items c !! k with
  | Some id => id ∈ c_order c ∧ ∃ e, c_elems c !! id = Some e ∧ lru_find k l = Some e ∧ ce_key e = k
  | None => lru_find k l = None
  end.
Proof.
  destruct Hr as [Hwf Hl]. destruct (c_items c !! k) as [id|] eqn:Hk.
  - destruct (wf_items _ Hwf k id Hk) as (Hin & e & He & Hke). split; [done|].
    exists e. split; [done|]. split; [|done]. clear Hr.
    assert (∀ i e', (i, e') ∈ zip (c_order c) l → ce_key e' = k → i = id) as Huniq.
    { intros i e' Hz Hk'. apply elem_of_zip_l in Hz as Hi.
      destruct (wf_order _ Hwf i Hi) as (e2 & He2 & Hi2).
      assert (e2 = e') as ->.
      { apply list_elem_of_lookup in Hz as [j Hj]. apply lookup_zip_with_Some in Hj
          as (x & y & [= -> ->] & Hx & Hy).
        pose proof (Forall2_lookup_lr _ _ _ _ _ _ Hl Hx Hy) as Ha. unfold at_id in Ha. congruence. }
      congruence. }
    revert Hin Huniq. clear Hwf Hk. induction Hl as [|i x js xs Hx Hxs IH]; intros Hin Huniq;
      [by apply not_elem_of_nil in Hin|].
    cbn. case_decide as Hxk.
    + rewrite (Huniq i x) in Hx; [unfold at_id in Hx; congruence|cbn; set_solver|done].
    + apply IH.
      * apply elem_of_cons in Hin as [->|?]; [|done]. unfold at_id in Hx. congruence.
      * intros j y Hz. apply Huniq. cbn. set_solver.
  - assert (∀ e, e ∈ l → ce_key e ≠ k) as Hn.
    { intros e He Hke. apply list_elem_of_lookup in He as [j Hj].
      destruct (Forall2_lookup_r _ _ _ _ _ Hl Hj) as (i & Hi & Ha).
      destruct (wf_order _ Hwf i (list_elem_of_lookup_2 _ _ _ Hi)) as (e2 & He2 & Hi2).
      unfold at_id in Ha. congruence. }
    clear -Hn. induction l as [|x xs IH]; [done|]. cbn.
    rewrite decide_False by (apply Hn; set_solver). apply IH. set_solver.
Qed.

(** Removing the element of a key removes the key's entry. *)
Lemma repr_remove k id e :
  c_items c !! k = Some id → c_elems c !! id = Some e →
  Forall2 (at_id c) (ListRemove id (c_order c)) (lru_remove k l).
Proof.
  destruct Hr as [Hwf Hl]. intros Hk He.
  assert (∀ i e', i ∈ c_order c → at_id c i e' → (i ≠ id ↔ ce_key e' ≠ k)) as Hiff.
  { intros i e' Hi Ha. destruct (wf_order _ Hwf i Hi) as (e2 & He2 & Hi2).
    destruct (wf_items _ Hwf k id Hk) as (_ & e3 & He3 & Hk3). unfold at_id in Ha.
    split; intros Hne Heq; apply Hne; [congruence|]. subst. congruence. }
  by apply Forall2_filter.
Qed.
End repr.

Lemma ListRemove_snoc id order : NoDup (order ++ [id]) → ListRemove id (order ++ [id]) = order.
Proof.
  intros (Hnd & Hx & _)%NoDup_app. unfold ListRemove. rewrite filter_app, filter_cons_False by tauto.
  cbn. rewrite app_nil_r. apply filter_all. intros i Hi ->.
  apply (Hx id); set_solver.
Qed.

Lemma MoveToFront_wf c id e :
  cache_wf c → c_items c !! ce_key e = Some id → ∀ i, i ∈ MoveToFront id (c_order c) ↔ i ∈ c_order c.
Proof.
  intros Hwf Hk i. destruct (wf_items _ Hwf _ _ Hk) as (Hin & _). unfold MoveToFront.
  rewrite decide_True by done. rewrite elem_of_cons, ListRemove_elem.
  destruct (decide (i = id)) as [->|]; tauto.
Qed.

Lemma MoveToFront_nodup id order : NoDup order → NoDup (MoveToFront id order).
Proof.
  intros Hnd. unfold MoveToFront. case_decide; [|done]. constructor.
  - rewrite ListRemove_elem. tauto.
  - by apply NoDup_filter.
Qed.

(** Moving an element to the front and giving it a new value moves the key's
    entry to the front. *)
Lemma repr_touch c l k id e e' hits misses :
  represents c l → c_items c !! k = Some id → c_elems c !! id = Some e → ce_key e' = k →
  represents (mkCache (c_maxSize c) (c_items c) (MoveToFront id (c_order c))
                (<[id := e']> (c_elems c)) hits misses)
    (e' :: lru_remove k l).
Proof.
  intros Hr Hk He Hk'. destruct Hr as [Hwf Hl]. split.
  - destruct (wf_items _ Hwf k id Hk) as (Hin & e1 & He1 & Hke1).
    assert (ce_key e = k) by congruence.
    split; cbn.
    + by apply MoveToFront_nodup, wf_nodup.
    + intros i Hi. rewrite (MoveToFront_wf c id e') in Hi by (done || congruence).
      destruct (decide (i = id)) as [->|Hne].
      * exists e'. rewrite lookup_insert_eq. split; [done|congruence].
      * rewrite lookup_insert_ne by done. by apply wf_order.
    + intros k2 i Hi. rewrite (MoveToFront_wf c id e') by (done || congruence).
      destruct (wf_items _ Hwf k2 i Hi) as (Hin2 & e2 & He2 & Hke2). split; [done|].
      destruct (decide (i = id)) as [->|Hne].
      * exists e'. rewrite lookup_insert_eq. split; [done|congruence].
      * rewrite lookup_insert_ne by done. eauto.
  - cbn. destruct (wf_items _ Hwf k id Hk) as (Hin & _). unfold MoveToFront.
    rewrite decide_True by done. constructor.
    + unfold at_id. cbn. apply lookup_insert_eq.
    + pose proof (repr_remove c l (conj Hwf Hl) k id e Hk He) as Hrem.
      eapply Forall2_impl_elem; [exact Hrem|]. intros i x [_ Hi]%ListRemove_elem Hx.
      unfold at_id. cbn. by rewrite lookup_insert_ne.
Qed.

(** *** Each operation of the code does what the abstract one does *)

Lemma Get_refines c l text :
  represents c l →
  ∃ c', Get c text =
      Ok (c', (λ e, (ce_redacted e, ce_report e)) <$> lru_find (hash text) l)
    ∧ represents c' (lru_get (hash text) l)
    ∧ c_maxSize c' = c_maxSize c
    ∧ c_hits c' = (if lru_find (hash text) l then wrap64 (c_hits c + 1) else c_hits c)
    ∧ c_misses c' = (if lru_find (hash text) l then c_misses c else wrap64 (c_misses c + 1)).
Proof.
  intros Hr. pose proof (repr_find c l Hr (hash text)) as Hf. unfold Get, lru_get.
  destruct (c_items c !! hash text) as [id|] eqn:Hk.
  - destruct Hf as (Hin & e & He & -> & Hke). rewrite He. cbn. eexists. split; [done|].
    split_and!; [|done..].
    replace (c_elems c) with (<[id := e]> (c_elems c)) by (by rewrite insert_id).
    eapply repr_touch; eauto.
  - rewrite Hf. cbn. eexists. split; [done|]. split_and!; [|done..].
    destruct Hr as [[] Hl]. split; [split|]; done.
Qed.

Lemma represents_length c l : represents c l → length l = length (c_order c).
Proof. intros [_ Hl]. symmetry. by eapply Forall2_length. Qed.

(** Dropping the oldest element. *)
Lemma repr_evict c l order oldest :
  represents c l → c_order c = order ++ [oldest] →
  ∃ e, c_elems c !! oldest = Some e
    ∧ represents (mkCache (c_maxSize c) (delete (ce_key e) (c_items c)) order (c_elems c)
                    (c_hits c) (c_misses c)) (take (Nat.pred (length l)) l).
Proof.
  intros Hr Ho. destruct Hr as [Hwf Hl]. pose proof (wf_nodup _ Hwf) as Hnd.
  rewrite Ho in Hl, Hnd.
  destruct (wf_order _ Hwf oldest) as (e & He & Hk); [rewrite Ho; set_solver|].
  exists e. split; [done|]. apply NoDup_app in Hnd as (Hnd & Hx & _).
  assert (∀ i, i ∈ order → i ≠ oldest) as Hne by (intros i Hi ->; apply (Hx oldest); set_solver).
  split.
  - split; cbn; [done|..].
    + intros i Hi. destruct (wf_order _ Hwf i) as (e2 & He2 & Hk2); [rewrite Ho; set_solver|].
      exists e2. split; [done|]. rewrite lookup_delete_ne; [done|]. intros Heq.
      apply (Hne i Hi). congruence.
    + intros k i [Hki Hi]%lookup_delete_Some. destruct (wf_items _ Hwf k i Hi) as (Hin & e2 & He2 & Hk2).
      split; [|eauto]. rewrite Ho in Hin. apply elem_of_app in Hin as [?|Hin]; [done|].
      apply list_elem_of_singleton in Hin as ->. congruence.
  - cbn. apply Forall2_app_inv_l in Hl as (l1 & l2 & H1 & H2 & ->).
    apply Forall2_cons_inv_l in H2 as (x & l3 & _ & H3%Forall2_nil_inv_l & ->). subst l3.
    rewrite length_app. cbn. replace (Nat.pred (length l1 + 1)) with (length l1) by lia.
    by rewrite take_app_length.
Qed.

(** Linking a new element at the front. *)
Lemma repr_push c l id e :
  represents c l → c_items c !! ce_key e = None → c_elems c !! id = None →
  represents (mkCache (c_maxSize c) (<[ce_key e := id]> (c_items c)) (id :: c_order c)
                (<[id := e]> (c_elems c)) (c_hits c) (c_misses c)) (e :: l).
Proof.
  intros [Hwf Hl] Hk Hid.
  assert (∀ i, i ∈ c_order c → i ≠ id) as Hne.
  { intros i Hi ->. destruct (wf_order _ Hwf id Hi) as (e2 & He2 & _). congruence. }
  split.
  - split; cbn.
    + constructor; [by intros Hi%Hne|apply Hwf].
    + intros i [->|Hi]%elem_of_cons.
      * exists e. by rewrite !lookup_insert_eq.
      * destruct (wf_order _ Hwf i Hi) as (e2 & He2 & Hk2). exists e2.
        rewrite lookup_insert_ne by (apply not_eq_sym, Hne, Hi). split; [done|].
        rewrite lookup_insert_ne; congruence.
    + intros k i Hi. apply lookup_insert_Some in Hi as [[<- <-]|[Hkk Hi]].
      * split; [set_solver|]. exists e. by rewrite lookup_insert_eq.
      * destruct (wf_items _ Hwf k i Hi) as (Hin & e2 & He2 & Hk2). split; [set_solver|].
        exists e2. rewrite lookup_insert_ne by (apply not_eq_sym, Hne, Hin). done.
  - cbn. constructor; [apply lookup_insert_eq|].
    eapply Forall2_impl_elem; [exact Hl|]. intros i x Hi Hx. unfold at_id in *. cbn.
    by rewrite lookup_insert_ne by (apply not_eq_sym, Hne, Hi).
Qed.

Lemma Put_refines c l text redacted report :
  represents c l →
  let e := mkEntry (hash text) redacted report in
  ∃ c', Put c text redacted report = Ok c'
    ∧ represents c' (lru_put (c_maxSize c) e l)
    ∧ c_maxSize c' = c_maxSize c ∧ c_hits c' = c_hits c ∧ c_misses c' = c_misses c.
Proof.
  intros Hr e. pose proof (repr_find c l Hr (hash text)) as Hf.
  pose proof (represents_length c l Hr) as Hlen. unfold Put, lru_put. cbn [ce_key e].
  destruct (c_items c !! hash text) as [id|] eqn:Hk.
  - destruct Hf as (Hin & e0 & He & -> & Hke). rewrite He, Hke. eexists. split; [done|].
    split_and!; [|done..]. eapply repr_touch; eauto.
  - rewrite Hf. unfold len. rewrite Hlen.
    assert (c_elems c !! fresh (dom (c_elems c)) = None) as Hfr
      by (apply not_elem_of_dom, is_fresh).
    if_case.
    + destruct (c_order c) as [|i0 o0 _] eqn:Ho using rev_ind.
      * destruct Hr as [Hwf Hl]. rewrite Ho in Hl. apply Forall2_nil_inv_l in Hl as ->.
        cbn. eexists. split; [done|]. split_and!; [|done..].
        assert (represents c []) as Hr0 by (split; [done|rewrite Ho; constructor]).
        pose proof (repr_push c [] _ e Hr0 Hk Hfr) as Hp.
        by rewrite Ho in Hp.
      * rewrite last_snoc. destruct (repr_evict c l o0 i0 Hr Ho) as (eo & -> & Hev).
        rewrite ListRemove_snoc by (rewrite <- Ho; apply Hr). cbn.
        eexists. split; [done|]. split_and!; [|done..].
        rewrite <- Hlen. eapply (repr_push _ _ _ e Hev); cbn; [|done].
        apply lookup_delete_None. by right.
    + cbn. eexists. split; [done|]. split_and!; [|done..]. exact (repr_push c l _ e Hr Hk Hfr).
Qed.

Lemma Invalidate_refines c l : represents c l → represents (Invalidate c) [].
Proof.
  intros _. split; [|constructor].
  split; cbn; [constructor|by intros ? ?%not_elem_of_nil|done].
Qed.

Lemma NewCache_refines n : represents (NewCache n) [].
Proof. split; [|constructor]. split; cbn; [constructor|by intros ? ?%not_elem_of_nil|done]. Qed.

(** ** Runs *)

Inductive cache_op :=
| OpGet (text : gostring)
| OpPut (text redacted : gostring) (report : PipelineReport)
| OpInvalidate.

Definition cache_reply : Type := option (gostring * PipelineReport).

Definition cache_step (c : Cache) (o : cache_op) : res gostring (Cache * list cache_reply) :=
  match o with
  | OpGet t => '(c', r) ← Get c t; Ok (c', [r])
  | OpPut t red rep => c' ← Put c t red rep; Ok (c', [])
  | OpInvalidate => Ok (Invalidate c, [])
  end.
Fixpoint cache_run (c : Cache) (ops : list cache_op) : res gostring (Cache * list cache_reply) :=
  match ops with
  | [] => Ok (c, [])
  | o :: ops' =>
      '(c1, r1) ← cache_step c o; '(c2, r2) ← cache_run c1 ops'; Ok (c2, r1 ++ r2)
  end.

Definition lru_step (maxSize : Z) (l : lru) (o : cache_op) : lru * list cache_reply :=
  match o with
  | OpGet t =>
      (lru_get (hash t) l, [(λ e, (ce_redacted e, ce_report e)) <$> lru_find (hash t) l])
  | OpPut t red rep => (lru_put maxSize (mkEntry (hash t) red rep) l, [])
  | OpInvalidate => ([], [])
  end.
Fixpoint lru_run (maxSize : Z) (l : lru) (ops : list cache_op) : lru * list cache_reply :=
  match ops with
  | [] => (l, [])
  | o :: ops' =>
      let '(l1, r1) := lru_step maxSize l o in
      let '(l2, r2) := lru_run maxSize l1 ops' in (l2, r1 ++ r2)
  end.

Lemma lru_remove_length k l e : lru_find k l = Some e → (length (lru_remove k l) < length l)%nat.
Proof.
  induction l as [|x l IH]; cbn [lru_find]; [done|]. intros Hf. unfold lru_remove in *.
  case_decide as Hx.
  - rewrite filter_cons_False by tauto. pose proof (length_filter (λ e, ce_key e ≠ k) l). cbn [length]. lia.
  - rewrite filter_cons_True by done. cbn [length]. specialize (IH Hf). lia.
Qed.

Lemma lru_step_length n l o :
  len l ≤ Z.max 1 n → len (lru_step n l o).1 ≤ Z.max 1 n.
Proof.
  unfold len. intros Hl. destruct o as [t|t red rep|]; cbn; [| |lia].
  - unfold lru_get. destruct (lru_find (hash t) l) eqn:Hf; [|done].
    apply lru_remove_length in Hf. cbn. lia.
  - unfold lru_put. cbn. destruct (lru_find (hash t) l) eqn:Hf.
    + apply lru_remove_length in Hf. cbn. lia.
    + cbn. if_case; unfold len in *; rewrite ?length_take; lia.
Qed.

(** The counters a run ends with. *)
Definition hits_of (rs : list cache_reply) : Z := len (filter is_Some rs).
Definition misses_of (rs : list cache_reply) : Z := len (filter (λ r, r = None) rs).

Lemma hits_of_Some r : hits_of [Some r] = 1. Proof. done. Qed.
Lemma hits_of_None : hits_of [None] = 0. Proof. done. Qed.
Lemma misses_of_Some r : misses_of [Some r] = 0. Proof. done. Qed.
Lemma misses_of_None : misses_of [None] = 1. Proof. done. Qed.

Lemma cache_step_refines c l o h m :
  represents c l → c_hits c = wrap64 h → c_misses c = wrap64 m →
  let '(l', rs) := lru_step (c_maxSize c) l o in
  ∃ c', cache_step c o = Ok (c', rs) ∧ represents c' l' ∧ c_maxSize c' = c_maxSize c
    ∧ c_hits c' = wrap64 (h + hits_of rs) ∧ c_misses c' = wrap64 (m + misses_of rs).
Proof.
  intros Hr Hh Hm. destruct o as [t|t red rep|]; cbn.
  - destruct (Get_refines c l t Hr) as (c' & -> & Hr' & Hx & Hh' & Hm').
    cbn. exists c'. split_and!; try done.
    + rewrite Hh'. destruct (lru_find (hash t) l); cbn [fmap option_fmap option_map];
        rewrite Hh, ?hits_of_Some, ?hits_of_None, ?wrap64_add_l; f_equal; lia.
    + rewrite Hm'. destruct (lru_find (hash t) l); cbn [fmap option_fmap option_map];
        rewrite Hm, ?misses_of_Some, ?misses_of_None, ?wrap64_add_l; f_equal; lia.
  - destruct (Put_refines c l t red rep Hr) as (c' & -> & Hr' & Hx & Hh' & Hm').
    cbn. exists c'. change (hits_of []) with 0. change (misses_of []) with 0.
    rewrite !Z.add_0_r. split_and!; try done; congruence.
  - exists (Invalidate c). change (hits_of []) with 0. change (misses_of []) with 0.
    rewrite !Z.add_0_r. split_and!; try done. by eapply Invalidate_refines.
Qed.

Lemma hits_of_app r1 r2 : hits_of (r1 ++ r2) = hits_of r1 + hits_of r2.
Proof. unfold hits_of. by rewrite filter_app, len_app. Qed.
Lemma misses_of_app r1 r2 : misses_of (r1 ++ r2) = misses_of r1 + misses_of r2.
Proof. unfold misses_of. by rewrite filter_app, len_app. Qed.

Lemma cache_run_refines ops c l h m :
  represents c l → c_hits c = wrap64 h → c_misses c = wrap64 m → len l ≤ Z.max 1 (c_maxSize c) →
  let '(l', rs) := lru_run (c_maxSize c) l ops in
  ∃ c', cache_run c ops = Ok (c', rs) ∧ represents c' l' ∧ len l' ≤ Z.max 1 (c_maxSize c)
    ∧ c_maxSize c' = c_maxSize c
    ∧ c_hits c' = wrap64 (h + hits_of rs) ∧ c_misses c' = wrap64 (m + misses_of rs).
Proof.
  revert c l h m. induction ops as [|o ops IH]; intros c l h m Hr Hh Hm Hs; cbn.
  - exists c. change (hits_of []) with 0. change (misses_of []) with 0.
    rewrite !Z.add_0_r. by split_and!.
  - pose proof (cache_step_refines c l o h m Hr Hh Hm) as H1.
    pose proof (lru_step_length (c_maxSize c) l o Hs) as Hs1.
    destruct (lru_step (c_maxSize c) l o) as [l1 r1]. destruct H1 as (c1 & -> & Hr1 & Hx & Hh1 & Hm1).
    rewrite <- Hx in Hs1. specialize (IH c1 l1 _ _ Hr1 Hh1 Hm1 Hs1). rewrite Hx in IH.
    destruct (lru_run (c_maxSize c) l1 ops) as [l2 r2].
    destruct IH as (c2 & E2 & Hr2 & Hs2 & Hx2 & Hh2 & Hm2). cbn. rewrite E2. cbn.
    exists c2. rewrite hits_of_app, misses_of_app, !Z.add_assoc. by split_and!.
Qed.

Lemma cache_runs n ops :
  let '(l, rs) := lru_run n [] ops in
  ∃ c, cache_run (NewCache n) ops = Ok (c, rs) ∧ represents c l ∧ c_maxSize c = n
    ∧ len l ≤ Z.max 1 n
    ∧ c_hits c = wrap64 (hits_of rs) ∧ c_misses c = wrap64 (misses_of rs).
Proof.
  pose proof (cache_run_refines ops (NewCache n) [] 0 0 (NewCache_refines n) eq_refl eq_refl
    ltac:(rewrite len_nil; cbn [c_maxSize NewCache]; lia)) as H. cbn in H.
  destruct (lru_run n [] ops) as [l rs]. destruct H as (c & -> & Hr & Hs & Hx & Hh & Hm).
  exists c. by split_and!.
Qed.

(** C32: the cache refines the abstract LRU list, over every sequence of
    operations from [NewCache n]: no operation panics, each [Get] replies what
    the abstract list holds, the heap, the map and the linked list stand for
    that list in its order, it never holds more than the larger of [n] and one
    entry, and [Stats] reports its size and, modulo 2^64, the numbers of hits
    and misses. *)
Theorem cache_refines n ops :
  let '(l, rs) := lru_run n [] ops in
  ∃ c, cache_run (NewCache n) ops = Ok (c, rs) ∧ represents c l
    ∧ len l ≤ Z.max 1 n
    ∧ Stats c = mkStats (wrap64 (hits_of rs)) (wrap64 (misses_of rs)) (len l) n.
Proof.
  pose proof (cache_runs n ops) as H. destruct (lru_run n [] ops) as [l rs].
  destruct H as (c & -> & Hr & Hx & Hs & Hh & Hm). exists c. split_and!; [done..|].
  unfold Stats. rewrite Hx, Hh, Hm. f_equal. unfold len. by rewrite (represents_length c l Hr).
Qed.

(** ** What a hit returns *)

(** The entry a run of operations last stored under [key], with nothing since
    that removed it: no [Invalidate] and no later [Put] of the key. *)
Fixpoint last_put (key : gostring) (ops : list cache_op) (acc : option (gostring * PipelineReport))
    : option (gostring * PipelineReport) :=
  match ops with
  | [] => acc
  | OpGet _ :: ops' => last_put key ops' acc
  | OpPut t red rep :: ops' =>
      last_put key ops' (if decide (hash t = key) then Some (red, rep) else acc)
  | OpInvalidate :: ops' => last_put key ops' None
  end.

Definition fresh_in (l : lru) (key : gostring) (v : option (gostring * PipelineReport)) : Prop :=
  ∀ e, e ∈ l → ce_key e = key → v = Some (ce_redacted e, ce_report e).

Lemma lru_remove_elem k l e : e ∈ lru_remove k l ↔ e ∈ l ∧ ce_key e ≠ k.
Proof. unfold lru_remove. rewrite list_elem_of_filter. tauto. Qed.

Lemma lru_find_elem k l : lru_find k l = None → ∀ e, e ∈ l → ce_key e ≠ k.
Proof.
  induction l as [|x l IH]; cbn; [intros _ e He; by apply not_elem_of_nil in He|].
  case_decide; [done|]. intros Hf e [->|?]%elem_of_cons; auto.
Qed.

Lemma lru_get_elem k l e : e ∈ lru_get k l → e ∈ l.
Proof.
  unfold lru_get. destruct (lru_find k l) eqn:Hf; [|done].
  apply lru_find_Some in Hf as [? ?]. intros [->|?%lru_remove_elem]%elem_of_cons; tauto.
Qed.

Lemma lru_put_elem n e0 l e :
  e ∈ lru_put n e0 l → e = e0 ∨ (e ∈ l ∧ ce_key e ≠ ce_key e0).
Proof.
  unfold lru_put. destruct (lru_find (ce_key e0) l) eqn:Hf.
  - intros [->|?%lru_remove_elem]%elem_of_cons; tauto.
  - intros [->|He]%elem_of_cons; [tauto|right].
    assert (e ∈ l) by (revert He; if_case; [intros (i & Hi & _)%elem_of_take; by eapply list_elem_of_lookup_2|done]).
    split; [done|]. by eapply lru_find_elem.
Qed.

Lemma lru_run_fresh n ops l key v :
  fresh_in l key v → fresh_in (lru_run n l ops).1 key (last_put key ops v).
Proof.
  revert l v. induction ops as [|o ops IH]; intros l v Hf; [done|]. cbn [lru_run last_put].
  destruct o as [t|t red rep|]; cbn [lru_step];
    match goal with |- context [lru_run n ?l1 ops] =>
      specialize (IH l1); destruct (lru_run n l1 ops) as [l2 r2] end; cbn in *; apply IH.
  - intros e He%lru_get_elem. by apply Hf.
  - intros e [->|[He Hne]]%lru_put_elem; cbn in *.
    + intros ->. by rewrite decide_True.
    + intros Hk. rewrite decide_False by congruence. by apply Hf.
  - intros e He. by apply not_elem_of_nil in He.
Qed.

(** A hit returns what was last stored for a text with the same SHA-256
    digest, and only if the cache was not invalidated since: after any sequence
    of operations, a [Get] that finds the text returns exactly the redacted text
    and the report of the last [Put] of that digest. *)
Theorem cache_hit_is_last_put n ops text c rs red rep c' :
  cache_run (NewCache n) ops = Ok (c, rs) →
  Get c text = Ok (c', Some (red, rep)) →
  last_put (hash text) ops None = Some (red, rep).
Proof.
  intros Hrun Hget. pose proof (cache_runs n ops) as Href.
  pose proof (lru_run_fresh n ops [] (hash text) None) as Hf.
  destruct (lru_run n [] ops) as [l rs'] eqn:El. destruct Href as (c2 & Hrun2 & Hr & _).
  rewrite Hrun in Hrun2. injection Hrun2 as <- <-.
  destruct (Get_refines c l text Hr) as (c3 & Hg & _). rewrite Hget in Hg.
  destruct (lru_find (hash text) l) as [e|] eqn:Hfi; cbn in Hg; [|done].
  injection Hg as _ -> ->. apply lru_find_Some in Hfi as [He Hk].
  apply Hf; [|done..]. intros e0 He0. by apply not_elem_of_nil in He0.
Qed.

(** ** Evaluation *)

Definition empty_report : PipelineReport := mkReport [] [] 0.

Definition demo_ops : list cache_op := [
  OpPut (go "a") (go "A") empty_report; OpPut (go "b") (go "B") empty_report;
  OpGet (go "a"); OpPut (go "c") (go "C") empty_report
].

(** "b" is the least recently used when "c" arrives. *)
Example cache_lru_ex :
  ce_redacted <$> (lru_run 2 [] demo_ops).1 = [go "C"; go "A"].
Proof. vm_compute. reflexivity. Qed.

Theorem cache_hit_is_last_put_witness :
  last_put (hash (go "a")) demo_ops None = Some (go "A", empty_report).
Proof.
  pose proof (cache_runs 2 demo_ops) as Hc.
  destruct (lru_run 2 [] demo_ops) as [l rs] eqn:E. destruct Hc as (c & Hrun & Hr & _).
  destruct (Get_refines c l (go "a") Hr) as (c' & Hget & _).
  refine (cache_hit_is_last_put 2 demo_ops (go "a") c rs (go "A") empty_report c' Hrun _).
  rewrite Hget. replace l with (lru_run 2 [] demo_ops).1 by (by rewrite E).
  do 2 f_equal.
Defined.

(** The bound of [cache_refines] is exact: a cache of size zero holds one
    entry. *)
Example cache_zero_holds_one :
  len (lru_run 0 [] demo_ops).1 = 1.
Proof. vm_compute. reflexivity. Qed.
