(* ===== verification/Regex.v ===== *)
(** * Package regexp

    [RegexpEngine] is what the program relies on of Go's [regexp]: compiling a
    pattern may fail, and [FindAllStringIndex] returns non-overlapping matches
    from left to right.  Below it stands an engine for the RE2 syntax the
    program's patterns use — flags, classes, groups, counted and lazy
    repetition, word boundaries — with leftmost-first semantics; like RE2 it
    rejects look-ahead.  It implements the interface ([re2]) and evaluates the
    program's pattern tables.  Named groups, Unicode classes, POSIX classes and
    numeric escapes are outside this engine (it rejects them); the clients'
    theorems hold for every engine. *)
From S2P Require Import Prelude GoStr Utf8.
Local Open Scope N_scope.

(** Matches in order: from [lo] on, inside a text of length [n], the next one
    starting no earlier than the last one ended. *)
Inductive ordered_matches (n : Z) : Z → list (Z * Z) → Prop :=
| om_nil lo : ordered_matches n lo []
| om_cons lo a b ms :
    (lo ≤ a ≤ b)%Z → (b ≤ n)%Z → ordered_matches n b ms → ordered_matches n lo ((a, b) :: ms).

Class RegexpEngine := {
  Regexp : Type;
  Compile : gostring → option Regexp;
  FindAllStringIndex : Regexp → gostring → list (Z * Z);
  FindAll_ordered : ∀ re s, ordered_matches (len s) 0 (FindAllStringIndex re s);
}.

Lemma ordered_matches_bounds n lo ms :
  ordered_matches n lo ms → (0 ≤ lo)%Z → Forall (λ m, (0 ≤ m.1 ≤ m.2)%Z ∧ (m.2 ≤ n)%Z) ms.
Proof. induction 1; intros; constructor; cbn; [lia|auto with lia]. Qed.

(** ** Syntax *)

Record cclass := mkClass { cl_neg : bool; cl_fold : bool; cl_ranges : list (N * N) }.

Inductive assertion := ABegin | ABeginLine | AEnd | AEndLine | AWord | ANotWord.

Inductive re :=
| REps
| RSet (c : cclass)
| RCat (a b : re)
| RAlt (a b : re)
| RRep (min : nat) (max : option nat) (greedy : bool) (a : re)
| RAssert (a : assertion).

(** *** Parsing *)

Record flags := mkFlags { fl_i : bool; fl_s : bool; fl_m : bool }.

Definition perl_d : list (N * N) := [(48, 57)].
Definition perl_s : list (N * N) := [(9, 10); (12, 13); (32, 32)].
Definition perl_w : list (N * N) := [(48, 57); (65, 90); (95, 95); (97, 122)].

(** The complement of an increasing list of ranges, from [lo]. *)
Fixpoint complement (lo : N) (rs : list (N * N)) : list (N * N) :=
  match rs with
  | [] => [(lo, 1114111)]
  | (a, b) :: rs' => if lo <? a then (lo, a - 1) :: complement (b + 1) rs' else complement (b + 1) rs'
  end.

(** The ranges of a Perl class letter. *)
Definition perl_class (c : N) : option (list (N * N)) :=
  if c =? 100 then Some perl_d
  else if c =? 68 then Some (complement 0 perl_d)
  else if c =? 115 then Some perl_s
  else if c =? 83 then Some (complement 0 perl_s)
  else if c =? 119 then Some perl_w
  else if c =? 87 then Some (complement 0 perl_w)
  else None.

(** An escaped character that stands for itself, or a control escape. *)
Definition escape_char (c : N) : option N :=
  if c =? 110 then Some 10 else if c =? 116 then Some 9 else if c =? 114 then Some 13
  else if c =? 102 then Some 12 else if c =? 118 then Some 11
  else if (c <? 128) && negb (between 48 57 c || between 65 90 c || between 97 122 c) then Some c
  else None.

(** One item of a bracket expression: a set of ranges, or a single character
    that may begin a range. *)
Definition class_char (s : list N) : option ((list (N * N) + N) * list N) :=
  match s with
  | 92 :: c :: s' =>
      match perl_class c with
      | Some rs => Some (inl rs, s')
      | None => match escape_char c with Some x => Some (inr x, s') | None => None end
      end
  | 92 :: [] => None
  | 91 :: 58 :: _ => None
  | c :: s' => Some (inr c, s')
  | [] => None
  end.

Fixpoint parse_class (fuel : nat) (first : bool) (s : list N) (acc : list (N * N))
    : option (list (N * N) * list N) :=
  match fuel with
  | 0%nat => None
  | S f =>
      match s with
      | 93 :: s' =>
          if first then
            match s' with
            | 45 :: _ => None
            | _ => parse_class f false s' (acc ++ [(93, 93)])
            end
          else Some (acc, s')
      | _ =>
          match class_char s with
          | None => None
          | Some (inl rs, s') => parse_class f false s' (acc ++ rs)
          | Some (inr lo, 45 :: ((c :: _) as s')) =>
              if c =? 93 then parse_class f false (45 :: s') (acc ++ [(lo, lo)])
              else
                match class_char s' with
                | Some (inr hi, s'') =>
                    if lo <=? hi then parse_class f false s'' (acc ++ [(lo, hi)]) else None
                | _ => None
                end
          | Some (inr lo, s') => parse_class f false s' (acc ++ [(lo, lo)])
          end
      end
  end.

(** A decimal count, as RE2 reads it. *)
Fixpoint parse_num (s : list N) (acc : option N) : option N * list N :=
  match s with
  | c :: s' =>
      if between 48 57 c then parse_num s' (Some (10 * default 0 acc + (c - 48))) else (acc, s)
  | [] => (acc, s)
  end.

(** [{n}], [{n,}] or [{n,m}] after its opening brace: [None] when it is not a
    count, and then the brace stands for itself. *)
Definition parse_counts (s : list N) : option (N * option N * list N) :=
  match parse_num s None with
  | (Some lo, 125 :: s') => Some (lo, Some lo, s')
  | (Some lo, 44 :: s') =>
      match parse_num s' None with
      | (None, 125 :: s'') => Some (lo, None, s'')
      | (Some hi, 125 :: s'') => Some (lo, Some hi, s'')
      | _ => None
      end
  | _ => None
  end.

(** A repetition operator: minimum, maximum, rest. *)
Definition parse_op (s : list N) : option (N * option N * list N) :=
  match s with
  | 42 :: s' => Some (0, None, s')
  | 43 :: s' => Some (1, None, s')
  | 63 :: s' => Some (0, Some 1, s')
  | 123 :: s' => parse_counts s'
  | _ => None
  end.

(** Apply the repetition operator that follows an atom, if any. *)
Definition parse_repeat (a : re) (s : list N) : option (re * list N) :=
  match parse_op s with
  | None => Some (a, s)
  | Some (lo, hi, s') =>
      let '(greedy, s'') := match s' with 63 :: t => (false, t) | _ => (true, s') end in
      match parse_op s'' with
      | Some _ => None
      | None =>
          if (lo <=? 1000) && match hi with Some h => (lo <=? h) && (h <=? 1000) | None => true end
          then Some (RRep (N.to_nat lo) (N.to_nat <$> hi) greedy a, s'')
          else None
      end
  end.

Definition cat (a b : re) : re := match a with REps => b | _ => RCat a b end.

Definition lit_set (fl : flags) (c : N) : re := RSet (mkClass false (fl_i fl) [(c, c)]).

(** The atoms that are no group: a literal, an escape, a class, an anchor. *)
Definition parse_atom (fl : flags) (s : list N) : option (re * list N) :=
  match s with
  | 92 :: c :: s' =>
      if c =? 98 then Some (RAssert AWord, s')
      else if c =? 66 then Some (RAssert ANotWord, s')
      else if c =? 65 then Some (RAssert ABegin, s')
      else if c =? 122 then Some (RAssert AEnd, s')
      else match perl_class c with
           | Some rs => Some (RSet (mkClass false (fl_i fl) rs), s')
           | None => match escape_char c with
                     | Some x => Some (lit_set fl x, s')
                     | None => None
                     end
           end
  | 91 :: 94 :: s' =>
      '(rs, s'') ← parse_class (length s) true s' []; Some (RSet (mkClass true (fl_i fl) rs), s'')
  | 91 :: s' =>
      '(rs, s'') ← parse_class (length s) true s' []; Some (RSet (mkClass false (fl_i fl) rs), s'')
  | 46 :: s' =>
      Some (RSet (mkClass false false (if fl_s fl then [(0, 1114111)] else complement 0 [(10, 10)])), s')
  | 94 :: s' => Some (RAssert (if fl_m fl then ABeginLine else ABegin), s')
  | 36 :: s' => Some (RAssert (if fl_m fl then AEndLine else AEnd), s')
  | 92 :: [] => None
  | [] => None
  | c :: s' => match parse_op s with
               | Some _ => None
               | None => Some (lit_set fl c, s')
               end
  end.

(** The flag letters of [(?ism)] and [(?ism:...)]. *)
Fixpoint parse_flags (s : list N) (fl : flags) : option (flags * list N) :=
  match s with
  | 105 :: s' => parse_flags s' (mkFlags true (fl_s fl) (fl_m fl))
  | 115 :: s' => parse_flags s' (mkFlags (fl_i fl) true (fl_m fl))
  | 109 :: s' => parse_flags s' (mkFlags (fl_i fl) (fl_s fl) true)
  | _ => Some (fl, s)
  end.

(** An alternation, up to a closing parenthesis or the end: [alt] holds the
    alternatives already read and [cur] the concatenation being read. *)
Fixpoint parse_alt (fuel : nat) (fl : flags) (s : list N) (alt : option re) (cur : re)
    : option (re * list N) :=
  let close := match alt with Some a => RAlt a cur | None => cur end in
  match fuel with
  | 0%nat => None
  | S f =>
      match s with
      | [] | 41 :: _ => Some (close, s)
      | 124 :: s' => parse_alt f fl s' (Some close) REps
      | 40 :: 63 :: s' =>
          match parse_flags s' fl with
          | Some (fl', 41 :: s'') =>
              (* flags for the rest of the group *)
              match s' with 41 :: _ => None | _ => parse_alt f fl' s'' alt cur end
          | Some (fl', 58 :: s'') =>
              match parse_alt f fl' s'' None REps with
              | Some (a, 41 :: t) =>
                  '(a', t') ← parse_repeat a t; parse_alt f fl t' alt (cat cur a')
              | _ => None
              end
          | _ => None
          end
      | 40 :: s' =>
          match parse_alt f fl s' None REps with
          | Some (a, 41 :: t) =>
              '(a', t') ← parse_repeat a t; parse_alt f fl t' alt (cat cur a')
          | _ => None
          end
      | _ =>
          '(a, t) ← parse_atom fl s; '(a', t') ← parse_repeat a t;
          parse_alt f fl t' alt (cat cur a')
      end
  end.

Definition re2_compile (pattern : gostring) : option re :=
  match parse_alt (S (length pattern)) (mkFlags false false false) (runes pattern) None REps with
  | Some (r, []) => Some r
  | _ => None
  end.

(** ** Matching *)

(** A position in the text: the rune before it, its byte offset, and the runes
    after it with their widths. *)
Record rpos := mkPos { rp_prev : option N; rp_off : Z; rp_rest : list (N * Z) }.

(** The simple case-folding orbit, for the ASCII letters and the two other
    code points that fold to them (U+017F and U+212A). *)
Definition fold_orbit (r : N) : list N :=
  if between 65 90 r then r :: (r + 32) :: (if r =? 75 then [8490] else if r =? 83 then [383] else [])
  else if between 97 122 r then
    r :: (r - 32) :: (if r =? 107 then [8490] else if r =? 115 then [383] else [])
  else if r =? 8490 then [r; 75; 107] else if r =? 383 then [r; 83; 115]
  else [r].

Definition in_ranges (rs : list (N * N)) (r : N) : bool := existsb (λ '(a, b), between a b r) rs.
Definition class_matches (c : cclass) (r : N) : bool :=
  xorb (cl_neg c)
    (if cl_fold c then existsb (in_ranges (cl_ranges c)) (fold_orbit r) else in_ranges (cl_ranges c) r).

Definition is_word (r : option N) : bool :=
  match r with Some r => in_ranges perl_w r | None => false end.
Definition next_rune (p : rpos) : option N := fst <$> head (rp_rest p).

Definition assertion_holds (a : assertion) (p : rpos) : bool :=
  match a with
  | ABegin => match rp_prev p with None => true | _ => false end
  | ABeginLine => match rp_prev p with None => true | Some r => r =? 10 end
  | AEnd => match rp_rest p with [] => true | _ => false end
  | AEndLine => match next_rune p with None => true | Some r => r =? 10 end
  | AWord => xorb (is_word (rp_prev p)) (is_word (next_rune p))
  | ANotWord => negb (xorb (is_word (rp_prev p)) (is_word (next_rune p)))
  end.

(** Keep the first of the positions with one offset: two threads that reach
    the same state continue alike, the one of higher priority counts. *)
Fixpoint dedup_pos (seen : list Z) (ps : list rpos) : list rpos :=
  match ps with
  | [] => []
  | p :: ps' =>
      if existsb (Z.eqb (rp_off p)) seen then dedup_pos seen ps'
      else p :: dedup_pos (rp_off p :: seen) ps'
  end.

Definition then_ (ps : list rpos) (f : rpos → list rpos) : list rpos := dedup_pos [] (ps ≫= f).

Section repeat.
Context (f : rpos → list rpos).

Fixpoint exactly (n : nat) (ps : list rpos) : list rpos :=
  match n with 0%nat => ps | S n' => exactly n' (then_ ps f) end.

Definition choice (greedy : bool) (more : list rpos) (p : rpos) : list rpos :=
  dedup_pos [] (if greedy then more ++ [p] else p :: more).

Fixpoint up_to (n : nat) (greedy : bool) (p : rpos) : list rpos :=
  match n with
  | 0%nat => [p]
  | S n' => choice greedy (then_ (f p) (up_to n' greedy)) p
  end.

(** Any number of iterations that each consume something. *)
Fixpoint star (fuel : nat) (greedy : bool) (p : rpos) : list rpos :=
  match fuel with
  | 0%nat => [p]
  | S k =>
      choice greedy
        (then_ (filter (λ q, rp_off q ≠ rp_off p) (f p)) (star k greedy)) p
  end.
End repeat.

(** The positions at which a match of [r] from [p] can end, the preferred one
    first (the order a backtracking matcher would find them in). *)
Fixpoint ends (r : re) (p : rpos) : list rpos :=
  match r with
  | REps => [p]
  | RSet c =>
      match rp_rest p with
      | (x, w) :: t => if class_matches c x then [mkPos (Some x) (rp_off p + w) t] else []
      | [] => []
      end
  | RCat a b => then_ (ends a p) (ends b)
  | RAlt a b => dedup_pos [] (ends a p ++ ends b p)
  | RRep lo hi greedy a =>
      then_ (exactly (ends a) lo [p])
        (match hi with
         | None => λ q, star (ends a) (length (rp_rest q)) greedy q
         | Some h => up_to (ends a) (h - lo) greedy
         end)
  | RAssert a => if assertion_holds a p then [p] else []
  end.

Definition step_pos (p : rpos) : option rpos :=
  match rp_rest p with
  | (x, w) :: t => Some (mkPos (Some x) (rp_off p + w) t)
  | [] => None
  end.

(** The leftmost match at or after [p]: start and end. *)
Fixpoint find_from (r : re) (fuel : nat) (p : rpos) : option (rpos * rpos) :=
  match head (ends r p) with
  | Some q => Some (p, q)
  | None =>
      match fuel, step_pos p with
      | S k, Some p' => find_from r k p'
      | _, _ => None
      end
  end.

(** [allMatches] of package regexp: an empty match just after the previous
    match is dropped, and the search moves on by one rune. *)
Fixpoint all_matches (r : re) (fuel : nat) (p : rpos) (prev_end : Z) : list (Z * Z) :=
  match fuel with
  | 0%nat => []
  | S k =>
      match find_from r (length (rp_rest p)) p with
      | None => []
      | Some (a, b) =>
          let m := (rp_off a, rp_off b) in
          if (rp_off b =? rp_off p)%Z then
            let rest := match step_pos p with
                        | Some p' => all_matches r k p' (rp_off b)
                        | None => [] end in
            if (rp_off a =? prev_end)%Z then rest else m :: rest
          else m :: all_matches r k b (rp_off b)
      end
  end.

Definition start_pos (s : gostring) : rpos :=
  mkPos None 0 ((λ '(r, bs), (r, len (bs : gostring))) <$> decode_all s).

Definition re2_find_all (r : re) (s : gostring) : list (Z * Z) :=
  all_matches r (S (S (length s))) (start_pos s) (-1).

(** *** Every match lies in the text *)

Definition total_width (l : list (N * Z)) : Z := foldr (λ x n, snd x + n)%Z 0%Z l.
Definition widths_pos (l : list (N * Z)) : Prop := Forall (λ x, (0 < x.2)%Z) l.

(** [q] is reachable from [p] by consuming runes. *)
Definition after (p q : rpos) : Prop :=
  widths_pos (rp_rest p) →
  (rp_off p ≤ rp_off q)%Z
  ∧ (rp_off q + total_width (rp_rest q) = rp_off p + total_width (rp_rest p))%Z
  ∧ widths_pos (rp_rest q).

Lemma after_refl p : after p p.
Proof. intros ?. split_and!; [lia|done|done]. Qed.
Lemma after_trans p q r : after p q → after q r → after p r.
Proof. intros H1 H2 Hw. destruct (H1 Hw) as (? & ? & Hq). destruct (H2 Hq) as (? & ? & ?). split_and!; [lia|lia|done]. Qed.

Lemma dedup_pos_subset seen ps p : p ∈ dedup_pos seen ps → p ∈ ps.
Proof.
  revert seen. induction ps as [|q ps IH]; intros seen; cbn; [done|].
  if_case; [set_solver|]. intros [->|?%IH]%elem_of_cons; set_solver.
Qed.

Definition consuming (f : rpos → list rpos) : Prop := ∀ p, Forall (after p) (f p).

Lemma dedup_pos_Forall P seen ps : Forall P ps → Forall P (dedup_pos seen ps).
Proof. rewrite !Forall_forall. intros H p ?%dedup_pos_subset. auto. Qed.

Lemma then_after p ps f : consuming f → Forall (after p) ps → Forall (after p) (then_ ps f).
Proof.
  intros Hf Hps. apply dedup_pos_Forall, Forall_bind. eapply Forall_impl; [exact Hps|].
  intros q Hq. eapply Forall_impl; [apply Hf|]. intros r. by apply after_trans.
Qed.

Lemma exactly_after p f n ps : consuming f → Forall (after p) ps → Forall (after p) (exactly f n ps).
Proof. intros Hf. revert ps. induction n; intros ps Hps; cbn; [done|]. auto using then_after. Qed.

Lemma choice_after p greedy more : Forall (after p) more → Forall (after p) (choice greedy more p).
Proof.
  intros Hm. apply dedup_pos_Forall. destruct greedy.
  - apply Forall_app. split; [done|]. constructor; [apply after_refl|constructor].
  - constructor; [apply after_refl|done].
Qed.

Lemma up_to_consuming f n greedy : consuming f → consuming (up_to f n greedy).
Proof.
  intros Hf. induction n as [|n IH]; intros p; cbn; [constructor; [apply after_refl|constructor]|].
  apply choice_after, then_after; [done|apply Hf].
Qed.

Lemma star_consuming f fuel greedy : consuming f → consuming (star f fuel greedy).
Proof.
  intros Hf. induction fuel as [|n IH]; intros p; cbn; [constructor; [apply after_refl|constructor]|].
  apply choice_after, then_after; [done|]. rewrite Forall_forall. intros q [_ Hq]%list_elem_of_filter.
  specialize (Hf p). rewrite Forall_forall in Hf. auto.
Qed.

Lemma ends_consuming r : consuming (ends r).
Proof.
  induction r as [|c|a IHa b IHb|a IHa b IHb|lo hi greedy a IH|a]; intros p; cbn [ends].
  - constructor; [apply after_refl|constructor].
  - destruct (rp_rest p) as [|[x w] t] eqn:E; [constructor|]. case_match; [|constructor].
    constructor; [|constructor]. intros Hw. rewrite E in *. apply Forall_cons in Hw as [Hw Ht].
    cbn in *. split_and!; [lia|lia|done].
  - apply then_after; [done|apply IHa].
  - apply dedup_pos_Forall, Forall_app. split; [apply IHa|apply IHb].
  - apply then_after.
    + destruct hi; [by apply up_to_consuming|]. intros q. by apply star_consuming.
    + apply exactly_after; [done|]. constructor; [apply after_refl|constructor].
  - case_match; [|constructor]. constructor; [apply after_refl|constructor].
Qed.

Lemma step_pos_after p p' : step_pos p = Some p' → after p p'.
Proof.
  unfold step_pos, after. destruct (rp_rest p) as [|[x w] t]; [done|].
  intros [= <-] [Hw Ht]%Forall_cons. cbn in *. split_and!; [lia|lia|done].
Qed.

Lemma find_from_after r fuel p a b : find_from r fuel p = Some (a, b) → after p a ∧ after a b.
Proof.
  revert p. induction fuel as [|k IH]; intros p; cbn;
    (destruct (head (ends r p)) as [q|] eqn:Hh;
     [intros [= <- <-]; split; [apply after_refl|];
      pose proof (ends_consuming r p) as He; destruct (ends r p); [done|]; injection Hh as ->;
      by apply Forall_cons in He as [? _]|]); [done|].
  destruct (step_pos p) as [p'|] eqn:Hs; [|done]. intros [H1 H2]%IH.
  split; [|done]. eapply after_trans; [by apply step_pos_after|done].
Qed.

Lemma total_width_nonneg l : widths_pos l → (0 ≤ total_width l)%Z.
Proof.
  induction l as [|[x w] l IH]; [done|]. intros [Hx Hl]%Forall_cons. specialize (IH Hl).
  unfold total_width in *. simpl in *. lia.
Qed.

Lemma all_matches_ordered r fuel p prev n :
  widths_pos (rp_rest p) → (rp_off p + total_width (rp_rest p) = n)%Z →
  ordered_matches n (rp_off p) (all_matches r fuel p prev).
Proof.
  revert p prev. induction fuel as [|k IH]; intros p prev Hw Hn; cbn; [constructor|].
  destruct (find_from r _ p) as [[a b]|] eqn:Hf; [|constructor].
  apply find_from_after in Hf as [Ha Hb].
  destruct (Ha Hw) as (Ha1 & Ha2 & Hwa). destruct (Hb Hwa) as (Hb1 & Hb2 & Hwb).
  pose proof (total_width_nonneg _ Hwb).
  assert (∀ prev', (rp_off b = rp_off p)%Z → ordered_matches n (rp_off b)
            (match step_pos p with Some p' => all_matches r k p' prev' | None => [] end)) as Hrest.
  { intros prev' Heq. destruct (step_pos p) as [p'|] eqn:Hs; [|constructor].
    destruct (step_pos_after _ _ Hs Hw) as (Hs1 & Hs2 & Hw').
    specialize (IH p' prev' Hw' ltac:(lia)). inversion IH; subst; constructor; try done; lia. }
  repeat if_case.
  - rewrite <- Heqb0. apply Hrest. done.
  - constructor; [lia|lia|]. by apply Hrest.
  - constructor; [lia|lia|]. apply IH; [done|lia].
Qed.

Lemma start_pos_ok s :
  widths_pos (rp_rest (start_pos s)) ∧ total_width (rp_rest (start_pos s)) = len s.
Proof.
  assert (∀ l : list (N * gostring), total_width ((λ '(r, bs), (r, len bs)) <$> l) = len (l ≫= snd)) as Ht.
  { induction l as [|[r bs] l IH]; [done|]. csimpl. rewrite len_app, <- IH. done. }
  split.
  - unfold widths_pos, start_pos. cbn [rp_rest]. apply Forall_fmap, Forall_forall.
    intros [r bs] Hin. cbn. revert Hin. unfold decode_all. generalize 0%nat.
    induction s as [|c s IH]; intros n; cbn; [by intros ?%not_elem_of_nil|].
    destruct n as [|n]; [|apply IH]. destruct (decode_rune c s) as [r' w].
    intros [[= -> ->]|Hin]%elem_of_cons; [rewrite len_cons; pose proof (len_nonneg (take (Nat.pred w) s)); lia|].
    by eapply IH.
  - unfold start_pos. cbn [rp_rest]. by rewrite Ht, decode_all_bytes.
Qed.

Lemma re2_find_all_ordered r s : ordered_matches (len s) 0 (re2_find_all r s).
Proof.
  destruct (start_pos_ok s) as [Hw Ht].
  apply (all_matches_ordered r _ (start_pos s) (-1) (len s) Hw). cbn [rp_off start_pos]. lia.
Qed.

(** The engine, as an instance of the interface. *)
Definition re2 : RegexpEngine := {|
  Regexp := re;
  Compile := re2_compile;
  FindAllStringIndex := re2_find_all;
  FindAll_ordered := re2_find_all_ordered;
|}.

Definition re_test (pattern text : string) : option (list (Z * Z)) :=
  (λ r, re2_find_all r (go text)) <$> re2_compile (go pattern).

Example re_ssn :
  re_test "\b\d{3}-\d{2}-\d{4}\b" "x 123-45-6789, 1123-45-6789 999-99-9999" =
  Some [(2, 13); (28, 39)]%Z.
Proof. vm_compute. reflexivity. Qed.
Example re_flags :
  re_test "(?i)(password|pwd)\s*[=:]\s*['x]?[^\s'x]{4,}" "PassWord: hunter2; pwd=12" =
  Some [(0, 18)]%Z.
Proof. vm_compute. reflexivity. Qed.
Example re_lines :
  re_test "(?m)^[A-Z_]+=.+$" "A_B=1
x=2
CD=" = Some [(0, 5)]%Z.
Proof. vm_compute. reflexivity. Qed.
Example re_lazy : re_test "(?s)<.*?>" "<a><b>" = Some [(0, 3); (3, 6)]%Z.
Proof. vm_compute. reflexivity. Qed.
Example re_leftmost_first : re_test "a|ab" "ab ab" = Some [(0, 1); (3, 4)]%Z.
Proof. vm_compute. reflexivity. Qed.
Example re_empty : re_test "a*" "baac" = Some [(0, 0); (1, 3); (4, 4)]%Z.
Proof. vm_compute. reflexivity. Qed.
Example re_lookahead : re2_compile (go "\b(?!1\d{12}(?!\d))x") = None
  ∧ re2_compile (go "(?=[A-Z]*\d)x") = None.
Proof. vm_compute. split; reflexivity. Qed.
