(* ===== verification/Rules.v ===== *)
(** * The rule catalogue — internal/rules

    The catalogue's data (catalog.go), the index built from it and the two
    functions that resolve a user's overrides ([Effective]) and store them
    ([Normalise]), and the derivation of the blocked file extensions. *)
From S2P Require Import Prelude GoStr Utf8.

(** [Tier]: an [int] constant with its [String] method. *)
Inductive Tier := TierUnknown | TierAlwaysOn | TierGoodToHave | TierToBeSafer.
#[export] Instance Tier_eq_dec : EqDecision Tier.
Proof. solve_decision. Defined.

Definition tier_String (t : Tier) : gostring :=
  match t with
  | TierAlwaysOn => go "always_on"
  | TierGoodToHave => go "good_to_have"
  | TierToBeSafer => go "to_be_safer"
  | TierUnknown => go "unknown"
  end.

Record RuleSpec := mkRule {
  rs_id : gostring;
  rs_label : gostring;
  rs_describe : gostring;
  rs_group : gostring;
  rs_tier : Tier;
  rs_layer : gostring;
}.

Record GroupSpec := mkGroup {
  gs_id : gostring;
  gs_label : gostring;
  gs_tier : Tier;
  gs_rules : list gostring;
}.

Definition ResolveDefault (t : Tier) : bool :=
  bool_decide (t = TierAlwaysOn) || bool_decide (t = TierGoodToHave).

Definition dquote : gostring := ["034"%char].

(** ** The catalogue *)

Definition tier1Groups : list GroupSpec := [
  mkGroup (go "cloud_credentials") (go "Cloud credentials") TierAlwaysOn
    [go "aws_access_key"; go "aws_secret_key"; go "gcp_api_key"];
  mkGroup (go "private_keys") (go "Private keys") TierAlwaysOn
    [go "private_key_pem"];
  mkGroup (go "auth_tokens") (go "Auth tokens & secrets") TierAlwaysOn
    [go "jwt"; go "generic_secret_kv"; go "generic_secret_pwd"; go "url_with_token"];
  mkGroup (go "passwords_prose") (go "Passwords (prose)") TierAlwaysOn
    [go "password_prose"];
  mkGroup (go "connection_strings") (go "Database connection strings") TierAlwaysOn
    [go "connection_string"];
  mkGroup (go "payment_cards") (go "Payment cards (full)") TierAlwaysOn
    [go "credit_card_luhn"; go "credit_card_4x4"; go "credit_card_bare"; go "cvv"];
  mkGroup (go "us_ssn") (go "US Social Security Numbers") TierAlwaysOn
    [go "us_ssn_dash"; go "us_ssn_space"];
  mkGroup (go "file_blocking") (go "Sensitive file types (block)") TierAlwaysOn
    [go "file_block_env"; go "file_block_tfstate"; go "file_block_pem"; go "file_block_key"; go "file_block_p12"; go "file_block_pfx"; go "file_block_content_patterns"];
  mkGroup (go "entropy_keyword") (go "Entropy in secret context") TierAlwaysOn
    [go "entropy_keyword_gated"]
].

Definition tier1Rules : list RuleSpec := [
  mkRule (go "aws_access_key") (go "AWS access key")
    (go "AKIA[0-9A-Z]{16}")
    (go "cloud_credentials") TierAlwaysOn (go "presidio");
  mkRule (go "aws_secret_key") (go "AWS secret key")
    (go "aws_secret_access_key=… (40 chars)")
    (go "cloud_credentials") TierAlwaysOn (go "presidio");
  mkRule (go "gcp_api_key") (go "GCP API key")
    (go "AIza[0-9A-Za-z\-_]{35}")
    (go "cloud_credentials") TierAlwaysOn (go "presidio");
  mkRule (go "private_key_pem") (go "Private key (PEM)")
    (go "PEM blocks: RSA / EC / DSA / OPENSSH")
    (go "private_keys") TierAlwaysOn (go "presidio");
  mkRule (go "jwt") (go "JWT")
    (go "eyJ…\.eyJ…\.…")
    (go "auth_tokens") TierAlwaysOn (go "presidio");
  mkRule (go "generic_secret_kv") (go "Generic key=value secret")
    (go "(password|secret|token|api_key)=… ≥8 chars")
    (go "auth_tokens") TierAlwaysOn (go "presidio");
  mkRule (go "generic_secret_pwd") (go "Generic password=value")
    (go "(password|passwd|pwd)=… ≥4 chars (loose)")
    (go "auth_tokens") TierAlwaysOn (go "presidio");
  mkRule (go "url_with_token") (go "URL with auth token")
    (go "https://…?token= / ?access_token= / etc.")
    (go "auth_tokens") TierAlwaysOn (go "presidio");
  mkRule (go "password_prose") (go "Password in prose")
    (dquote ++ go "the password is X" ++ dquote)
    (go "passwords_prose") TierAlwaysOn (go "presidio");
  mkRule (go "connection_string") (go "Database connection string")
    (go "mongodb|postgres|mysql|redis|amqp://…")
    (go "connection_strings") TierAlwaysOn (go "presidio");
  mkRule (go "credit_card_luhn") (go "Credit card (Luhn-validated)")
    (go "Visa/MC/Amex/Discover/Diners with Luhn")
    (go "payment_cards") TierAlwaysOn (go "presidio");
  mkRule (go "credit_card_4x4") (go "Credit card (4×4 separated)")
    (go "\b\d{4}[\s\-]\d{4}[\s\-]\d{4}[\s\-]\d{4}\b")
    (go "payment_cards") TierAlwaysOn (go "presidio");
  mkRule (go "credit_card_bare") (go "Credit card (bare 13–19 digits)")
    (go "13–19 digit unseparated PAN with brand prefix")
    (go "payment_cards") TierAlwaysOn (go "presidio");
  mkRule (go "cvv") (go "CVV / CVC")
    (go "CVV/CVC keyword + value, near payment-card context")
    (go "payment_cards") TierAlwaysOn (go "presidio");
  mkRule (go "us_ssn_dash") (go "US SSN (dash-separated)")
    (go "\b\d{3}-\d{2}-\d{4}\b")
    (go "us_ssn") TierAlwaysOn (go "presidio");
  mkRule (go "us_ssn_space") (go "US SSN (space-separated)")
    (go "\b\d{3}\s\d{2}\s\d{4}\b")
    (go "us_ssn") TierAlwaysOn (go "presidio");
  mkRule (go "file_block_env") (go ".env files")
    (go "Block requests containing .env files")
    (go "file_blocking") TierAlwaysOn (go "fileblock");
  mkRule (go "file_block_tfstate") (go ".tfstate files")
    (go "Block requests containing .tfstate files")
    (go "file_blocking") TierAlwaysOn (go "fileblock");
  mkRule (go "file_block_pem") (go ".pem files")
    (go "Block requests containing .pem files")
    (go "file_blocking") TierAlwaysOn (go "fileblock");
  mkRule (go "file_block_key") (go ".key files")
    (go "Block requests containing .key files")
    (go "file_blocking") TierAlwaysOn (go "fileblock");
  mkRule (go "file_block_p12") (go ".p12 files")
    (go "Block requests containing .p12 files")
    (go "file_blocking") TierAlwaysOn (go "fileblock");
  mkRule (go "file_block_pfx") (go ".pfx files")
    (go "Block requests containing .pfx files")
    (go "file_blocking") TierAlwaysOn (go "fileblock");
  mkRule (go "file_block_content_patterns") (go "Sensitive content patterns")
    (go "Block on PEM headers / TF state markers")
    (go "file_blocking") TierAlwaysOn (go "fileblock");
  mkRule (go "entropy_keyword_gated") (go "Entropy near secret keyword")
    (go "Shannon 3.5–4.5 within ±80 chars of password/token/api_key")
    (go "entropy_keyword") TierAlwaysOn (go "entropy")
].

Definition tier2Groups : list GroupSpec := [
  mkGroup (go "email_addresses") (go "Email addresses") TierGoodToHave
    [go "email_regex"; go "email_gliner"];
  mkGroup (go "phone_numbers") (go "Phone numbers") TierGoodToHave
    [go "phone_parens"; go "phone_dash_dot"; go "phone_intl_plus"; go "phone_leading_zero"; go "phone_double_zero"];
  mkGroup (go "person_names") (go "Person names (ML)") TierGoodToHave
    [go "person_gliner"];
  mkGroup (go "physical_addresses") (go "Physical addresses (ML)") TierGoodToHave
    [go "address_gliner"];
  mkGroup (go "date_of_birth") (go "Date of birth") TierGoodToHave
    [go "dob_mdy"; go "dob_dmy"; go "dob_gliner"];
  mkGroup (go "us_government_ids") (go "US government IDs") TierGoodToHave
    [go "us_passport_alpha"; go "us_passport_numeric"; go "us_driver_license"; go "us_itin_dash"; go "us_itin_bare"];
  mkGroup (go "us_bank_accounts") (go "US bank accounts") TierGoodToHave
    [go "us_bank_number"; go "aba_routing_dashed"; go "aba_routing_bare"];
  mkGroup (go "intl_banking") (go "International banking") TierGoodToHave
    [go "iban_presidio"; go "iban_simple"; go "swift_bic"];
  mkGroup (go "cc_expiry") (go "Credit card expiry") TierGoodToHave
    [go "cc_expiry"];
  mkGroup (go "healthcare_ids") (go "Healthcare identifiers") TierGoodToHave
    [go "dea_license"; go "us_npi_separated"; go "us_npi_bare"; go "us_mbi_separated"; go "us_mbi_bare"; go "medical_record_mrn"; go "health_plan_id"];
  mkGroup (go "biometric_ids") (go "Biometric identifiers") TierGoodToHave
    [go "biometric_id"];
  mkGroup (go "insurance_ids") (go "Insurance / policy IDs") TierGoodToHave
    [go "insurance_id"]
].

Definition tier2Rules : list RuleSpec := [
  mkRule (go "email_regex") (go "Email (regex)")
    (go "RFC-shaped local@domain.tld")
    (go "email_addresses") TierGoodToHave (go "presidio");
  mkRule (go "email_gliner") (go "Email (ML)")
    (go "GLiNER EMAIL ≥0.70")
    (go "email_addresses") TierGoodToHave (go "gliner");
  mkRule (go "phone_parens") (go "Phone (parens)")
    (go "(415) 555-0136")
    (go "phone_numbers") TierGoodToHave (go "presidio");
  mkRule (go "phone_dash_dot") (go "Phone (dash/dot)")
    (go "415-555-0136 / 415.555.0136")
    (go "phone_numbers") TierGoodToHave (go "presidio");
  mkRule (go "phone_intl_plus") (go "Phone (international +)")
    (go "+1 415 555 0136")
    (go "phone_numbers") TierGoodToHave (go "presidio");
  mkRule (go "phone_leading_zero") (go "Phone (leading zero)")
    (go "0xxx xxxxxx — context-required")
    (go "phone_numbers") TierGoodToHave (go "presidio");
  mkRule (go "phone_double_zero") (go "Phone (double zero)")
    (go "00xx xxxxxxxx")
    (go "phone_numbers") TierGoodToHave (go "presidio");
  mkRule (go "person_gliner") (go "Person name (ML)")
    (go "GLiNER PERSON ≥0.80")
    (go "person_names") TierGoodToHave (go "gliner");
  mkRule (go "address_gliner") (go "Address (ML)")
    (go "GLiNER ADDRESS ≥0.75")
    (go "physical_addresses") TierGoodToHave (go "gliner");
  mkRule (go "dob_mdy") (go "DOB MM/DD/YYYY")
    (go "Context-required (born/dob/birthday)")
    (go "date_of_birth") TierGoodToHave (go "presidio");
  mkRule (go "dob_dmy") (go "DOB DD/MM/YYYY")
    (go "Context-required (born/dob/birthday)")
    (go "date_of_birth") TierGoodToHave (go "presidio");
  mkRule (go "dob_gliner") (go "DOB (ML)")
    (go "GLiNER DATE_OF_BIRTH ≥0.75")
    (go "date_of_birth") TierGoodToHave (go "gliner");
  mkRule (go "us_passport_alpha") (go "US passport (alpha)")
    (go "[A-Z]\d{8}")
    (go "us_government_ids") TierGoodToHave (go "presidio");
  mkRule (go "us_passport_numeric") (go "US passport (numeric)")
    (go "\d{9} with passport ctx")
    (go "us_government_ids") TierGoodToHave (go "presidio");
  mkRule (go "us_driver_license") (go "US driver license")
    (go "State-shape alternation, context-required")
    (go "us_government_ids") TierGoodToHave (go "presidio");
  mkRule (go "us_itin_dash") (go "US ITIN (dashed)")
    (go "9XX-7X-XXXX with context")
    (go "us_government_ids") TierGoodToHave (go "presidio");
  mkRule (go "us_itin_bare") (go "US ITIN (bare)")
    (go "9XX7XXXXX context-required")
    (go "us_government_ids") TierGoodToHave (go "presidio");
  mkRule (go "us_bank_number") (go "US bank account")
    (go "10–17 digits with bank context")
    (go "us_bank_accounts") TierGoodToHave (go "presidio");
  mkRule (go "aba_routing_dashed") (go "ABA routing (dashed)")
    (go "XXXX-XXXX-X with checksum")
    (go "us_bank_accounts") TierGoodToHave (go "presidio");
  mkRule (go "aba_routing_bare") (go "ABA routing (bare)")
    (go "9 digits, context-required + checksum")
    (go "us_bank_accounts") TierGoodToHave (go "presidio");
  mkRule (go "iban_presidio") (go "IBAN (Presidio)")
    (go "IBAN with mod-97 checksum (context-boosted)")
    (go "intl_banking") TierGoodToHave (go "presidio");
  mkRule (go "iban_simple") (go "IBAN (simple)")
    (go "Simpler IBAN shape (context-boosted)")
    (go "intl_banking") TierGoodToHave (go "presidio");
  mkRule (go "swift_bic") (go "SWIFT / BIC")
    (go "8/11 alpha SWIFT, context-required")
    (go "intl_banking") TierGoodToHave (go "presidio");
  mkRule (go "cc_expiry") (go "Credit card expiry")
    (go "MM/YY near " ++ dquote ++ go "card" ++ dquote ++ go "/" ++ dquote ++ go "exp" ++ dquote ++ go "/" ++ dquote ++ go "valid" ++ dquote)
    (go "cc_expiry") TierGoodToHave (go "presidio");
  mkRule (go "dea_license") (go "DEA license")
    (go "DEA-shape [A-Z][A-Z]\d{7}")
    (go "healthcare_ids") TierGoodToHave (go "presidio");
  mkRule (go "us_npi_separated") (go "US NPI (separated)")
    (go "1NNN-NNN-NNN with NPI ctx")
    (go "healthcare_ids") TierGoodToHave (go "presidio");
  mkRule (go "us_npi_bare") (go "US NPI (bare)")
    (go "10-digit NPI, context-required")
    (go "healthcare_ids") TierGoodToHave (go "presidio");
  mkRule (go "us_mbi_separated") (go "US MBI (separated)")
    (go "Medicare MBI hyphenated form")
    (go "healthcare_ids") TierGoodToHave (go "presidio");
  mkRule (go "us_mbi_bare") (go "US MBI (bare)")
    (go "MBI no-separator, context-required")
    (go "healthcare_ids") TierGoodToHave (go "presidio");
  mkRule (go "medical_record_mrn") (go "Medical record (MRN)")
    (dquote ++ go "MRN: …" ++ dquote ++ go " / " ++ dquote ++ go "patient id: …" ++ dquote)
    (go "healthcare_ids") TierGoodToHave (go "presidio");
  mkRule (go "health_plan_id") (go "Health plan ID")
    (dquote ++ go "health plan id: …" ++ dquote)
    (go "healthcare_ids") TierGoodToHave (go "presidio");
  mkRule (go "biometric_id") (go "Biometric identifier")
    (dquote ++ go "fingerprint hash: …" ++ dquote ++ go " / " ++ dquote ++ go "face id: …" ++ dquote)
    (go "biometric_ids") TierGoodToHave (go "presidio");
  mkRule (go "insurance_id") (go "Insurance / policy ID")
    (dquote ++ go "policy no: …" ++ dquote ++ go " / " ++ dquote ++ go "member id: …" ++ dquote)
    (go "insurance_ids") TierGoodToHave (go "presidio")
].

Definition tier3Groups : list GroupSpec := [
  mkGroup (go "ip_addresses") (go "IP addresses (v4 + v6)") TierToBeSafer
    [go "ipv4"; go "ipv6"; go "ip_gliner"];
  mkGroup (go "mac_addresses") (go "MAC addresses") TierToBeSafer
    [go "mac_colon_dash"; go "mac_cisco_dot"];
  mkGroup (go "bare_urls") (go "Bare URLs") TierToBeSafer
    [go "url_bare"];
  mkGroup (go "crypto_wallets") (go "Crypto wallet addresses") TierToBeSafer
    [go "crypto_btc"; go "crypto_eth"];
  mkGroup (go "uk_ids") (go "UK identifiers") TierToBeSafer
    [go "uk_nhs"; go "uk_nino"; go "uk_postcode"; go "uk_passport"; go "uk_driving_licence"];
  mkGroup (go "ca_sin") (go "Canada — SIN") TierToBeSafer
    [go "ca_sin"];
  mkGroup (go "au_tfn") (go "Australia — TFN") TierToBeSafer
    [go "au_tfn"];
  mkGroup (go "in_pan") (go "India — PAN") TierToBeSafer
    [go "in_pan"];
  mkGroup (go "es_nif") (go "Spain — NIF") TierToBeSafer
    [go "es_nif"];
  mkGroup (go "de_passport") (go "Germany — Passport") TierToBeSafer
    [go "de_passport"];
  mkGroup (go "sg_nric_fin") (go "Singapore — NRIC/FIN") TierToBeSafer
    [go "sg_nric_fin"];
  mkGroup (go "license_plates") (go "License plates") TierToBeSafer
    [go "license_plate"];
  mkGroup (go "device_ids") (go "Device identifiers (IMEI)") TierToBeSafer
    [go "imei"];
  mkGroup (go "generic_system_ids") (go "Generic system IDs") TierToBeSafer
    [go "person_id_generic"; go "registration_id_generic"];
  mkGroup (go "entropy_unconditional") (go "Entropy unconditional") TierToBeSafer
    [go "entropy_unconditional"];
  mkGroup (go "ml_duplicates") (go "ML duplicates") TierToBeSafer
    [go "gliner_email_dup"; go "gliner_ip_dup"; go "gliner_national_id_dup"; go "gliner_person_dup"]
].

Definition tier3Rules : list RuleSpec := [
  mkRule (go "ipv4") (go "IPv4")
    (go "Dotted-quad IPv4")
    (go "ip_addresses") TierToBeSafer (go "presidio");
  mkRule (go "ipv6") (go "IPv6")
    (go "Full + compressed IPv6")
    (go "ip_addresses") TierToBeSafer (go "presidio");
  mkRule (go "ip_gliner") (go "IP (ML)")
    (go "GLiNER IP ≥0.75 (post-filtered)")
    (go "ip_addresses") TierToBeSafer (go "gliner");
  mkRule (go "mac_colon_dash") (go "MAC (colon/dash)")
    (go "aa:bb:cc:dd:ee:ff / aa-bb-…")
    (go "mac_addresses") TierToBeSafer (go "presidio");
  mkRule (go "mac_cisco_dot") (go "MAC (Cisco dot)")
    (go "aaaa.bbbb.cccc")
    (go "mac_addresses") TierToBeSafer (go "presidio");
  mkRule (go "url_bare") (go "Bare URL")
    (go "Any http(s)://… (with skiplist)")
    (go "bare_urls") TierToBeSafer (go "presidio");
  mkRule (go "crypto_btc") (go "Bitcoin address")
    (go "bc1… / [13]…")
    (go "crypto_wallets") TierToBeSafer (go "presidio");
  mkRule (go "crypto_eth") (go "Ethereum address")
    (go "0x[a-f0-9]{40}")
    (go "crypto_wallets") TierToBeSafer (go "presidio");
  mkRule (go "uk_nhs") (go "UK NHS number")
    (go "NHS number (mod-11)")
    (go "uk_ids") TierToBeSafer (go "presidio");
  mkRule (go "uk_nino") (go "UK NINO")
    (go "National Insurance Number")
    (go "uk_ids") TierToBeSafer (go "presidio");
  mkRule (go "uk_postcode") (go "UK postcode")
    (go "UK postcode")
    (go "uk_ids") TierToBeSafer (go "presidio");
  mkRule (go "uk_passport") (go "UK passport")
    (go "[A-Z]{2}\d{7} with ctx")
    (go "uk_ids") TierToBeSafer (go "presidio");
  mkRule (go "uk_driving_licence") (go "UK driving licence")
    (go "DVLA driving licence shape")
    (go "uk_ids") TierToBeSafer (go "presidio");
  mkRule (go "ca_sin") (go "Canada SIN")
    (go "[1-79]NN-NNN-NNN Luhn")
    (go "ca_sin") TierToBeSafer (go "presidio");
  mkRule (go "au_tfn") (go "Australia TFN")
    (go "NNN NNN NNN mod-11")
    (go "au_tfn") TierToBeSafer (go "presidio");
  mkRule (go "in_pan") (go "India PAN")
    (go "10-char PAN format")
    (go "in_pan") TierToBeSafer (go "presidio");
  mkRule (go "es_nif") (go "Spain NIF")
    (go "8 digits + check letter")
    (go "es_nif") TierToBeSafer (go "presidio");
  mkRule (go "de_passport") (go "Germany passport")
    (go "German passport with German keywords")
    (go "de_passport") TierToBeSafer (go "presidio");
  mkRule (go "sg_nric_fin") (go "Singapore NRIC/FIN")
    (go "[STFGM]\d{7}[A-Z]")
    (go "sg_nric_fin") TierToBeSafer (go "presidio");
  mkRule (go "license_plate") (go "License plate")
    (dquote ++ go "license plate: …" ++ dquote ++ go " / " ++ dquote ++ go "VRN: …" ++ dquote)
    (go "license_plates") TierToBeSafer (go "presidio");
  mkRule (go "imei") (go "IMEI")
    (go "NN-NNNNNN-NNNNNN-N")
    (go "device_ids") TierToBeSafer (go "presidio");
  mkRule (go "person_id_generic") (go "Generic person/customer/order ID")
    (dquote ++ go "customer/employee/order/ticket id: …" ++ dquote)
    (go "generic_system_ids") TierToBeSafer (go "presidio");
  mkRule (go "registration_id_generic") (go "Registration / enrollment ID")
    (dquote ++ go "student/registration/enrollment no: …" ++ dquote)
    (go "generic_system_ids") TierToBeSafer (go "presidio");
  mkRule (go "entropy_unconditional") (go "High-entropy strings (unconditional)")
    (go "Shannon ≥4.5 firing without keyword context")
    (go "entropy_unconditional") TierToBeSafer (go "entropy");
  mkRule (go "gliner_email_dup") (go "ML email (duplicate)")
    (go "GLiNER EMAIL — already covered by email_regex")
    (go "ml_duplicates") TierToBeSafer (go "gliner");
  mkRule (go "gliner_ip_dup") (go "ML IP (duplicate)")
    (go "GLiNER IP — already covered by ipv4")
    (go "ml_duplicates") TierToBeSafer (go "gliner");
  mkRule (go "gliner_national_id_dup") (go "ML NATIONAL_ID")
    (go "GLiNER NATIONAL_ID — vague label, mostly redundant")
    (go "ml_duplicates") TierToBeSafer (go "gliner");
  mkRule (go "gliner_person_dup") (go "ML person (duplicate)")
    (go "GLiNER PERSON — already covered by person_gliner in Tier 2")
    (go "ml_duplicates") TierToBeSafer (go "gliner")
].

Definition catalog : list RuleSpec := tier1Rules ++ tier2Rules ++ tier3Rules.
Definition groups : list GroupSpec := tier1Groups ++ tier2Groups ++ tier3Groups.

Definition AllRules : list RuleSpec := catalog.
Definition AllGroups : list GroupSpec := groups.

(** The index [init] builds: later rules overwrite earlier ones of one id. *)
Definition ruleByID : gmap gostring RuleSpec :=
  foldl (λ m r, <[rs_id r := r]> m) ∅ catalog.

Definition IsKnown (id : gostring) : bool := bool_decide (is_Some (ruleByID !! id)).
Definition ByID (id : gostring) : option RuleSpec := ruleByID !! id.

(** [Effective]; a nil map reads as an empty one. *)
Definition Effective (user : gmap gostring bool) : gmap gostring bool :=
  foldl (λ out r,
    <[rs_id r := match user !! rs_id r with
                 | Some v => v
                 | None => ResolveDefault (rs_tier r)
                 end]> out) ∅ catalog.

(** [Normalise]: [None] is the nil map. *)
Definition normalise_keep (id : gostring) (v : bool) : bool :=
  match ruleByID !! id with
  | None => false
  | Some r => negb (Bool.eqb v (ResolveDefault (rs_tier r)))
  end.
Definition Normalise (user : gmap gostring bool) : option (gmap gostring bool) :=
  let out := filter (λ kv, normalise_keep kv.1 kv.2 = true) user in
  if decide (out = ∅) then None else Some out.

(** [m[k]] on a map of booleans. *)
Definition enabled_in (m : gmap gostring bool) (id : gostring) : bool := default false (m !! id).

(** ** Blocked file extensions *)

Definition fileblock_defaults : list (gostring * gostring) := [
  (go "file_block_env", go ".env");
  (go "file_block_tfstate", go ".tfstate");
  (go "file_block_pem", go ".pem");
  (go "file_block_key", go ".key");
  (go "file_block_p12", go ".p12");
  (go "file_block_pfx", go ".pfx")
].

Definition FileBlockExtensions `{UnicodeData} (userExtensions : list gostring)
    (eff : gmap gostring bool) (contentPatternsConfig : bool) : list gostring * bool :=
  let defaultSet := fileblock_defaults.*2 in
  let out := (filter (λ d, enabled_in eff d.1 = true) fileblock_defaults).*2 in
  let user := filter (λ e, ToLower e ∉ defaultSet) userExtensions in
  (out ++ user, contentPatternsConfig && enabled_in eff (go "file_block_content_patterns")).

(** ** Properties *)

Lemma catalog_ids_nodup : NoDup (rs_id <$> catalog).
Proof. apply (bool_decide_eq_true_1 _). vm_compute. reflexivity. Qed.

Lemma foldl_insert_lookup {V} (key : RuleSpec → gostring) (val : RuleSpec → V) (l : list RuleSpec) (m : gmap gostring V) (k : gostring) :
  NoDup (key <$> l) →
  foldl (λ m r, <[key r := val r]> m) m l !! k =
    match list_find (λ r, key r = k) l with
    | Some (_, r) => Some (val r)
    | None => m !! k
    end.
Proof.
  revert m. induction l as [|r l IH]; intros m Hnd; [done|].
  csimpl in Hnd. apply NoDup_cons in Hnd as [Hni Hnd]. cbn [foldl]. rewrite IH by done.
  cbn [list_find]. destruct (decide (key r = k)) as [<-|Hne].
  - destruct (list_find (λ r0, key r0 = key r) l) as [[i r']|] eqn:Hf.
    + apply list_find_Some in Hf as (Hl & Hk & _). destruct Hni. rewrite <- Hk.
      apply list_elem_of_fmap_2, (list_elem_of_lookup_2 _ _ _ Hl).
    + cbn. apply lookup_insert_eq.
  - destruct (list_find (λ r0, key r0 = k) l) as [[i r']|]; cbn; [done|].
    by apply lookup_insert_ne.
Qed.

Lemma ruleByID_find id : ruleByID !! id = snd <$> list_find (λ r, rs_id r = id) catalog.
Proof.
  unfold ruleByID. rewrite (foldl_insert_lookup rs_id (λ r, r)) by apply catalog_ids_nodup.
  by destruct (list_find _ catalog) as [[]|].
Qed.

Lemma ruleByID_elem r : r ∈ catalog ↔ ruleByID !! rs_id r = Some r.
Proof.
  rewrite ruleByID_find. split.
  - intros [i Hi]%list_elem_of_lookup.
    destruct (list_find (λ r0, rs_id r0 = rs_id r) catalog) as [[j r']|] eqn:Hf.
    + apply list_find_Some in Hf as (Hj & Hk & _). cbn. f_equal.
      assert (j = i) as ->.
      { apply (NoDup_lookup (rs_id <$> catalog) j i (rs_id r)); [apply catalog_ids_nodup|..].
        - rewrite list_lookup_fmap, Hj. cbn. congruence.
        - rewrite list_lookup_fmap, Hi. done. }
      congruence.
    + apply list_find_None in Hf. rewrite Forall_lookup in Hf. by destruct (Hf _ _ Hi).
  - destruct (list_find (λ r0, rs_id r0 = rs_id r) catalog) as [[j r']|] eqn:Hf; [|done].
    cbn. intros [= <-]. apply list_find_Some in Hf as (Hj & _). by eapply list_elem_of_lookup_2.
Qed.

Lemma ruleByID_id id r : ruleByID !! id = Some r → rs_id r = id.
Proof.
  rewrite ruleByID_find. destruct (list_find _ catalog) as [[j r']|] eqn:Hf; [|done].
  cbn. intros [= ->]. by apply list_find_Some in Hf as (_ & ? & _).
Qed.

Lemma Effective_lookup user id :
  Effective user !! id =
    (λ r, default (ResolveDefault (rs_tier r)) (user !! id)) <$> ruleByID !! id.
Proof.
  unfold Effective. rewrite (foldl_insert_lookup rs_id
    (λ r, match user !! rs_id r with Some v => v | None => ResolveDefault (rs_tier r) end))
    by apply catalog_ids_nodup.
  rewrite ruleByID_find. destruct (list_find _ catalog) as [[j r]|] eqn:Hf; [|done].
  apply list_find_Some in Hf as (_ & <- & _). cbn. by destruct (user !! rs_id r).
Qed.

Lemma Normalise_filter user :
  default ∅ (Normalise user) = filter (λ kv, normalise_keep kv.1 kv.2 = true) user.
Proof. unfold Normalise. case_decide as H; [by rewrite H|done]. Qed.

Lemma Normalise_lookup user id :
  default ∅ (Normalise user) !! id =
    match user !! id with
    | Some v => if normalise_keep id v then Some v else None
    | None => None
    end.
Proof.
  rewrite Normalise_filter.
  destruct (user !! id) as [v|] eqn:Hu.
  - destruct (normalise_keep id v) eqn:Hk.
    + apply map_lookup_filter_Some. by split.
    + apply map_lookup_filter_None. right. intros w Hw. cbn. congruence.
  - apply map_lookup_filter_None. by left.
Qed.

(** The catalogue is coherent: rule ids and group ids are unique, every
    rule belongs to one known group of its own tier, and every group lists
    exactly its rules, in catalogue order; looking a rule up by its id finds
    that rule and nothing else is known. *)
Theorem catalog_coherent :
  NoDup (rs_id <$> AllRules) ∧ NoDup (gs_id <$> AllGroups)
  ∧ Forall (λ g, filter (λ r, rs_group r = gs_id g) AllRules = 
        filter (λ r, rs_group r = gs_id g ∧ rs_tier r = gs_tier g) AllRules
      ∧ rs_id <$> filter (λ r, rs_group r = gs_id g) AllRules = gs_rules g) AllGroups
  ∧ Forall (λ r, rs_group r ∈ gs_id <$> AllGroups) AllRules
  ∧ (∀ r, r ∈ AllRules ↔ ByID (rs_id r) = Some r)
  ∧ (∀ id, IsKnown id = true ↔ id ∈ rs_id <$> AllRules).
Proof.
  split_and!.
  - apply catalog_ids_nodup.
  - apply (bool_decide_eq_true_1 _). vm_compute. reflexivity.
  - unfold AllGroups, groups, tier1Groups, tier2Groups, tier3Groups.
    repeat (constructor; [split; vm_compute; reflexivity|]). constructor.
  - apply (bool_decide_eq_true_1 _). vm_compute. reflexivity.
  - apply ruleByID_elem.
  - intros id. unfold IsKnown. rewrite bool_decide_eq_true. split.
    + intros [r Hr]. pose proof (ruleByID_id _ _ Hr) as <-.
      apply list_elem_of_fmap_2, ruleByID_elem, Hr.
    + intros (r & -> & Hr)%list_elem_of_fmap. apply ruleByID_elem in Hr. eauto.
Qed.

(** [Normalise] loses nothing of a user's choice: the effective settings
    computed from the normalised overrides are those computed from the
    overrides themselves, normalising again changes nothing, and the stored
    map is nil or holds only known rules set to the opposite of their
    default. *)
Theorem Normalise_effective user :
  Effective (default ∅ (Normalise user)) = Effective user
  ∧ Normalise (default ∅ (Normalise user)) = Normalise user
  ∧ ∀ id v, default ∅ (Normalise user) !! id = Some v ↔
      user !! id = Some v ∧ ∃ r, ByID id = Some r ∧ v ≠ ResolveDefault (rs_tier r).
Proof.
  split_and!.
  - apply map_eq. intros id. rewrite !Effective_lookup, Normalise_lookup.
    destruct (ruleByID !! id) as [r|] eqn:Hr; [|done]. cbn. f_equal.
    destruct (user !! id) as [v|]; [|done]. unfold normalise_keep. rewrite Hr.
    by destruct v, (ResolveDefault (rs_tier r)).
  - rewrite Normalise_filter. unfold Normalise.
    by rewrite map_filter_filter_l.
  - intros id v. rewrite Normalise_lookup. unfold ByID. destruct (user !! id) as [w|].
    + unfold normalise_keep. generalize (ruleByID !! id). intros [r|].
      * destruct (Bool.eqb w (ResolveDefault (rs_tier r))) eqn:E; cbn.
        -- apply Bool.eqb_prop in E. split; [done|].
           by intros [[= ->] (r0 & [= <-] & Hne)].
        -- apply Bool.eqb_false_iff in E. split; [|by intros [[= ->] _]].
           intros [= <-]. eauto.
      * split; [done|]. by intros [_ (r0 & ? & _)].
    + split; [done|by intros [? _]].
Qed.

Lemma fileblock_ext_unique d d' :
  d ∈ fileblock_defaults → d' ∈ fileblock_defaults → d.2 = d'.2 → d.1 = d'.1.
Proof.
  assert (Forall (λ d, Forall (λ d', d.2 = d'.2 → d.1 = d'.1) fileblock_defaults)
    fileblock_defaults) as Hall by (apply (bool_decide_eq_true_1 _); vm_compute; reflexivity).
  rewrite Forall_forall in Hall. intros Hd. specialize (Hall d Hd).
  rewrite Forall_forall in Hall. auto.
Qed.

Lemma fileblock_ext_lower `{UnicodeData} d : d ∈ fileblock_defaults → ToLower d.2 = d.2.
Proof.
  assert (Forall (λ d, ToLower d.2 = d.2) fileblock_defaults) as Hall
    by (repeat constructor).
  rewrite Forall_forall in Hall. auto.
Qed.

(** A built-in extension is in the list, in some case, exactly when its rule
    is enabled. *)
Lemma FileBlockExtensions_lower `{UnicodeData} user eff cp id ext :
  (id, ext) ∈ fileblock_defaults →
  Exists (λ e, ToLower e = ext) (FileBlockExtensions user eff cp).1 ↔ enabled_in eff id = true.
Proof.
  unfold FileBlockExtensions. cbn [fst]. intros Hin. rewrite Exists_app, !Exists_exists. split.
  - intros [(e & He & Hl)|(e & He & Hl)].
    + apply list_elem_of_fmap in He as ([id' ext'] & -> & [Hen Hd]%list_elem_of_filter).
      cbn [fst snd] in *. pose proof (fileblock_ext_lower _ Hd) as Hlow. cbn [fst snd] in Hlow, Hen.
      assert (ext' = ext) as -> by congruence.
      by rewrite <- (fileblock_ext_unique _ _ Hd Hin eq_refl : id' = id).
    + apply list_elem_of_filter in He as [Hn _]. destruct Hn. rewrite Hl.
      by apply (list_elem_of_fmap_2 snd) in Hin.
  - intros Hen. left. exists ext. split.
    + apply (list_elem_of_fmap_2 snd _ (id, ext)), list_elem_of_filter. by split.
    + exact (fileblock_ext_lower _ Hin).
Qed.

(** The user's other extensions are kept, with their casing. *)
Lemma FileBlockExtensions_user `{UnicodeData} user eff cp e :
  e ∈ user → ToLower e ∉ fileblock_defaults.*2 → e ∈ (FileBlockExtensions user eff cp).1.
Proof. intros He Hn. apply elem_of_app. right. by apply list_elem_of_filter. Qed.

Example effective_ex :
  let user := <[go "jwt" := false]> (<[go "ipv4" := true]> (<[go "bogus" := true]> ∅)) in
  enabled_in (Effective user) (go "jwt") = false
  ∧ enabled_in (Effective user) (go "ipv4") = true
  ∧ enabled_in (Effective user) (go "ipv6") = false
  ∧ enabled_in (Effective user) (go "cvv") = true
  ∧ Effective user !! go "bogus" = None.
Proof. vm_compute. repeat split; reflexivity. Qed.
