(* ===== verification/FileBlock.v ===== *)
(** * Blocking sensitive files — internal/fileblock/fileblock.go

    The state behind the [Blocker]'s atomic pointer and its operations, with
    the functions of package [path/filepath] they call (Unix separators). *)
From S2P Require Import Prelude GoStr Utf8 Regex Rules.
Local Open Scope Z_scope.

(** ** path/filepath *)

(** [filepath.Ext]: from the last dot of the last element on. *)
Definition Ext (path : gostring) : gostring :=
  let base := match LastIndexByte path "/" with Some i => drop (S i) path | None => path end in
  match LastIndexByte base "." with Some i => drop i base | None => [] end.

(** [filepath.Base] *)
Definition Base (path : gostring) : gostring :=
  match path with
  | [] => go "."
  | _ =>
      let p := TrimRight path (go "/") in
      match p with
      | [] => go "/"
      | _ => match LastIndexByte p "/" with Some i => drop (S i) p | None => p end
      end
  end.

(** ** The blocker *)

Section fileblock.
Context `{RegexpEngine} `{UnicodeData}.

(** [regexp.MustCompile]: a pattern that does not compile panics at start
    up; the package's one pattern compiles with every engine that knows
    RE2's syntax. *)
Definition contentPatterns : list gostring := [go "(?m)^[A-Z_]+=.+$"].
Definition contentThreshold : Z := 3.

Record fileblockState := mkFileblock {
  fb_extensions : gset gostring;
  fb_contentPatterns : bool;
}.

Definition replaceState (extensions : list gostring) (cp : bool) : fileblockState :=
  mkFileblock (list_to_set (ToLower <$> extensions)) cp.
Definition NewBlocker : list gostring → bool → fileblockState := replaceState.

Definition IsBlockedFile (state : fileblockState) (path : gostring) : bool :=
  let ext := ToLower (Ext path) in
  let base := ToLower (Base path) in
  bool_decide (ext ∈ fb_extensions state)
  || bool_decide (go "." ++ base ∈ fb_extensions state)
  || bool_decide (base ∈ fb_extensions state).

(** [None] is the start-up panic of [MustCompile]. *)
Definition IsBlockedContent (state : fileblockState) (content : gostring) : option bool :=
  res ← mapM Compile contentPatterns;
  Some (fb_contentPatterns state &&
        existsb (λ re, contentThreshold <=? len (FindAllStringIndex re content)) res).

Definition RedactionLabel (path : gostring) : gostring :=
  go "[REDACTED-FILE-" ++ Ext path ++ go ": " ++ Base path ++ go "]".

Definition SetExtensions (cur : fileblockState) (extensions : list gostring) : fileblockState :=
  replaceState extensions (fb_contentPatterns cur).

Definition FileBlock_Reconfigure (extensions : list gostring) (cp : bool) : fileblockState :=
  replaceState extensions cp.

(** Turning a file rule on blocks its files and turning it off lifts the
    block: after reconfiguring with the extensions derived from the rules, a
    path with one of the six built-in extensions, in any case, is blocked
    when its rule is enabled, and otherwise only if the list names its whole
    base name. *)
Theorem IsBlockedFile_follows_rules user eff cp id ext path :
  (id, ext) ∈ fileblock_defaults → ToLower (Ext path) = ext →
  let '(exts, content) := FileBlockExtensions user eff cp in
  let state := FileBlock_Reconfigure exts content in
  (enabled_in eff id = true → IsBlockedFile state path = true)
  ∧ (enabled_in eff id = false → IsBlockedFile state path = true →
       Exists (λ e, ToLower e = ToLower (Base path) ∨ ToLower e = go "." ++ ToLower (Base path)) exts).
Proof.
  intros Hin Hext. pose proof (FileBlockExtensions_lower user eff cp id ext Hin) as Hf.
  destruct (FileBlockExtensions user eff cp) as [exts content]. cbn [fst] in Hf.
  assert (∀ x, x ∈ fb_extensions (FileBlock_Reconfigure exts content) ↔
    Exists (λ e, ToLower e = x) exts) as Hset.
  { intros x. unfold FileBlock_Reconfigure, replaceState. cbn [fb_extensions].
    rewrite elem_of_list_to_set, list_elem_of_fmap, Exists_exists. naive_solver. }
  unfold IsBlockedFile. rewrite Hext. split.
  - intros Hen. rewrite bool_decide_eq_true_2; [done|]. by apply Hset, Hf.
  - intros Hen. rewrite bool_decide_eq_false_2 by (rewrite Hset, Hf; congruence).
    cbn [orb]. rewrite orb_true_iff, !bool_decide_eq_true, !Hset, !Exists_exists.
    intros [(e & ? & ?)|(e & ? & ?)]; exists e; auto.
Qed.
End fileblock.

(** ** Evaluation *)

Example ext_base_ex :
  Ext (go "/a.d/x.tar.PEM") = go ".PEM" ∧ Base (go "/a.d/.env") = go ".env" ∧ Ext (go "a.d/env") = []
  ∧ Base (go "a/") = go "a".
Proof. repeat split; reflexivity. Qed.

Theorem IsBlockedFile_follows_rules_witness :
  let '(exts, content) :=
    @FileBlockExtensions sample_unicode [go ".PEM"; go ".txt"] (<[go "file_block_pem" := true]> ∅) true in
  @IsBlockedFile sample_unicode (@FileBlock_Reconfigure sample_unicode exts content) (go "k/x.Pem") = true.
Proof.
  exact (proj1 (@IsBlockedFile_follows_rules sample_unicode [go ".PEM"; go ".txt"]
    (<[go "file_block_pem" := true]> ∅) true (go "file_block_pem") (go ".pem") (go "k/x.Pem")
    ltac:(set_solver) eq_refl) eq_refl).
Defined.

(** Three assignment-like lines are blocked, whatever they assign. *)
Example content_ex :
  @IsBlockedContent re2 (@NewBlocker sample_unicode [] true) (go "A=1
B_C=2
D=x") = Some true.
Proof. vm_compute. reflexivity. Qed.
