(* ===== verification/Coordinator.v ===== *)
(** * Scan, filter, redact, cache — internal/coordinator/coordinator.go

    The coordinator ties the pipeline, the redactor, the cache and the file
    blocker together.  [scan_filter_redact] is what a cache miss computes;
    the central property is that the cache is transparent: a hit returns what
    a scan of that text computed under the present rules and words — as long as
    the allowed words do not change behind it.  What one scan of a text computes
    may differ from what the next computes (a timer that fires, a sidecar that is
    down), so the property names the scan. *)
From S2P Require Import Prelude GoStr Utf8 GoFloat GoSort Spans Scanner Redactor Sha256 Cache Regex Rules FileBlock.
Local Open Scope Z_scope.

Record Coordinator := mkCoord {
  co_pipeline : Pipeline;
  co_cache : Cache;
  co_fb : fileblockState;
  co_allowed : gset gostring;
}.

Definition NewCoordinator (p : Pipeline) (cache : Cache) (fb : fileblockState) : Coordinator :=
  mkCoord p cache fb ∅.

(** What [ScanAndRedact] returns: the text, the report and the error. *)
Record ScanOutcome := mkOutcome {
  so_text : gostring;
  so_report : option PipelineReport;
  so_err : option gostring;
}.

Section coordinator.
Context `{UnicodeData} `{GoSort}.

Definition SetAllowedWords (c : Coordinator) (words : list gostring) : Coordinator :=
  mkCoord (co_pipeline c) (co_cache c) (co_fb c) (list_to_set (ToLower <$> words)).

Definition is_allowed (allowed : gset gostring) (f : Finding) : bool :=
  bool_decide (ToLower (f_value f) ∈ allowed).

(** The scan, the allow-list filter and the redaction of a cache miss, made at
    the moment [m].  The report is the one the redactor has reordered the
    findings of. *)
Definition scan_filter_redact (p : Pipeline) (allowed : gset gostring) (m : Moment) (text : gostring)
    : res gostring (gostring * PipelineReport) :=
  report ← Scan p m text;
  let findings :=
    if 0 <? Z.of_nat (size allowed)
    then filter (λ f, is_allowed allowed f = false) (r_findings report)
    else r_findings report in
  '(result, findings') ← Redact text findings;
  Ok (rr_text result, mkReport findings' (r_layers report) (r_ms report)).

Definition ScanAndRedact (c : Coordinator) (m : Moment) (text : gostring)
    : res gostring (Coordinator * ScanOutcome) :=
  '(cache1, hit) ← Get (co_cache c) text;
  match hit with
  | Some (redacted, report) =>
      Ok (mkCoord (co_pipeline c) cache1 (co_fb c) (co_allowed c),
          mkOutcome redacted (Some report) None)
  | None =>
      match scan_filter_redact (co_pipeline c) (co_allowed c) m text with
      | Panic => Panic
      | Err e =>
          Ok (mkCoord (co_pipeline c) cache1 (co_fb c) (co_allowed c),
              mkOutcome text None (Some e))
      | Ok (out, report) =>
          cache2 ← Put cache1 text out report;
          Ok (mkCoord (co_pipeline c) cache2 (co_fb c) (co_allowed c),
              mkOutcome out (Some report) None)
      end
  end.

Definition InvalidateCache (c : Coordinator) : Coordinator :=
  mkCoord (co_pipeline c) (Invalidate (co_cache c)) (co_fb c) (co_allowed c).

Definition CoordinatorStats (c : Coordinator) : CacheStats := Stats (co_cache c).

Definition Coordinator_Reconfigure (c : Coordinator) (enabled : gostring → bool)
    (blockedExtensions : list gostring) (contentPatterns : bool) : Coordinator :=
  mkCoord (Reconfigure (co_pipeline c) enabled) (Invalidate (co_cache c))
    (FileBlock_Reconfigure blockedExtensions contentPatterns) (co_allowed c).

(** ** What a miss computes *)

(** The findings that survive the allow list. *)
Definition surviving (allowed : gset gostring) (fs : list Finding) : list Finding :=
  filter (λ f, is_allowed allowed f = false) fs.

Lemma surviving_empty fs : surviving ∅ fs = fs.
Proof. apply filter_all. intros f _. by apply bool_decide_eq_false_2. Qed.

(** The guard on the size of the set only saves work. *)
Lemma scan_filter_redact_eq p allowed m text :
  scan_filter_redact p allowed m text =
    (report ← Scan p m text;
     '(result, fs) ← Redact text (surviving allowed (r_findings report));
     Ok (rr_text result, mkReport fs (r_layers report) (r_ms report))).
Proof.
  unfold scan_filter_redact. destruct (Scan p m text) as [report|e|]; cbn; [|done..].
  case_match eqn:E; [done|]. bool_hyps.
  assert (allowed = ∅) as -> by (apply leibniz_equiv, size_empty_inv; lia).
  by rewrite surviving_empty.
Qed.

Lemma scan_filter_redact_safe T p allowed m text :
  Forall (layer_ok T) (p_layers p) → tc_text T text →
  ∃ out rep acc, scan_filter_redact p allowed m text = Ok (out, rep)
    ∧ Forall (within (len text)) (r_findings rep)
    ∧ Forall (λ f, is_allowed allowed f = false) (r_findings rep)
    ∧ out = render text 0 (span_of <$> acc) ∧ acc ⊆ r_findings rep
    ∧ spans_le (len text) 0 (span_of <$> acc)
    ∧ (laminar (r_findings rep) →
         ∀ f, f ∈ r_findings rep → Exists (λ g, inside f g = true) acc).
Proof.
  intros Hl Ht. rewrite scan_filter_redact_eq.
  destruct (Scan_report_lemma T p m text Hl Ht) as (rep & -> & Hw & _). cbn.
  set (fs := surviving allowed (r_findings rep)).
  assert (Forall (within (len text)) fs) as Hws.
  { rewrite Forall_forall in Hw |- *. intros f [_ Hf]%list_elem_of_filter. auto. }
  destruct (Redact_spec text fs Hws) as (acc & fs' & -> & Hok & Hsub & Hp & Hlam). cbn.
  do 3 eexists. split; [done|]. cbn. split_and!; [..|done| |done|].
  - by rewrite Hp.
  - rewrite Hp. apply Forall_forall. by intros f [? _]%list_elem_of_filter.
  - intros f Hf%Hsub. by rewrite Hp.
  - intros Hlm f Hf. apply Hlam; [|by rewrite <- Hp].
    intros a b Ha Hb. apply Hlm; by rewrite Hp.
Qed.

(** ** The cache is transparent *)

(** Every entry of the cache is what one of the [past] scans computes under the
    present configuration. *)
Definition coherent (c : Coordinator) (past : list (gostring * Moment)) : Prop :=
  ∃ l, represents (co_cache c) l ∧
    ∀ e, e ∈ l → ∃ text m, (text, m) ∈ past ∧ hash text = ce_key e ∧
      scan_filter_redact (co_pipeline c) (co_allowed c) m text
        = Ok (ce_redacted e, ce_report e).

(** No text of the list has the digest of another one. *)
Definition collision_free (texts : list gostring) : Prop :=
  ∀ t t', t ∈ texts → t' ∈ texts → hash t = hash t' → t = t'.

Lemma coherent_mono c past past' : past ⊆ past' → coherent c past → coherent c past'.
Proof. intros Hs (l & Hr & Hl). exists l. split; [done|]. intros e (t & m & ? & ?)%Hl. eauto. Qed.

Lemma coherent_nil c past : represents (co_cache c) [] → coherent c past.
Proof. intros Hr. exists []. split; [done|]. intros e He. by apply not_elem_of_nil in He. Qed.

Lemma lru_put_coherent (P : cacheEntry → Prop) n e l :
  P e → (∀ x, x ∈ l → P x) → ∀ x, x ∈ lru_put n e l → P x.
Proof. intros He Hl x [->|[? _]]%lru_put_elem; auto. Qed.

Lemma ScanAndRedact_step T c past m text :
  Forall (layer_ok T) (p_layers (co_pipeline c)) → tc_text T text → coherent c past →
  collision_free (text :: past.*1) →
  ∃ c' out rep m',
    ScanAndRedact c m text = Ok (c', mkOutcome out (Some rep) None)
    ∧ (text, m') ∈ (text, m) :: past
    ∧ scan_filter_redact (co_pipeline c) (co_allowed c) m' text = Ok (out, rep)
    ∧ coherent c' ((text, m) :: past)
    ∧ co_pipeline c' = co_pipeline c ∧ co_allowed c' = co_allowed c ∧ co_fb c' = co_fb c.
Proof.
  intros Hl HT (l & Hr & Hl') Hcf. unfold ScanAndRedact.
  destruct (Get_refines _ l text Hr) as (cache1 & -> & Hr1 & Hmax & _).
  destruct (lru_find (hash text) l) as [e|] eqn:Hf; cbn.
  - apply lru_find_Some in Hf as [He Hk].
    destruct (Hl' e He) as (t & m' & Ht & Hh & Hs).
    assert (t = text) as ->.
    { apply Hcf; [|set_solver|congruence]. right. apply list_elem_of_fmap. by exists (t, m'). }
    eexists _, _, _, m'. split; [done|]. split_and!; try done; [set_solver|].
    exists (lru_get (hash text) l). split; [done|].
    intros x Hx%lru_get_elem. destruct (Hl' x Hx) as (t & T' & ? & ? & ?). exists t, T'. set_solver.
  - destruct (scan_filter_redact_safe T (co_pipeline c) (co_allowed c) m text Hl HT)
      as (out & rep & _ & E & _). rewrite E.
    destruct (Put_refines _ _ text out rep Hr1) as (cache2 & -> & Hr2 & _). cbn.
    eexists _, _, _, m. split; [done|]. split_and!; try done; [set_solver|].
    eexists. split; [exact Hr2|]. apply lru_put_coherent.
    + exists text, m. split; [set_solver|]. by split.
    + unfold lru_get. rewrite Hf. intros x Hx.
      destruct (Hl' x Hx) as (t & T' & ? & ? & ?). exists t, T'. set_solver.
Qed.

(** ** Runs *)

Inductive co_op :=
| CoScan (m : Moment) (text : gostring)
| CoAllow (words : list gostring)
| CoReconfigure (enabled : gostring → bool) (exts : list gostring) (cp : bool)
| CoInvalidate.

Definition co_step (c : Coordinator) (o : co_op) : res gostring (Coordinator * list ScanOutcome) :=
  match o with
  | CoScan m text => '(c', r) ← ScanAndRedact c m text; Ok (c', [r])
  | CoAllow words => Ok (SetAllowedWords c words, [])
  | CoReconfigure enabled exts cp => Ok (Coordinator_Reconfigure c enabled exts cp, [])
  | CoInvalidate => Ok (InvalidateCache c, [])
  end.
Fixpoint co_run (c : Coordinator) (ops : list co_op) : res gostring (Coordinator * list ScanOutcome) :=
  match ops with
  | [] => Ok (c, [])
  | o :: ops' => '(c1, r1) ← co_step c o; '(c2, r2) ← co_run c1 ops'; Ok (c2, r1 ++ r2)
  end.

(** The texts scanned, and for each scan the configuration it should see and the
    scans made under that configuration, the present one first. *)
Definition scan_texts (ops : list co_op) : list gostring :=
  ops ≫= λ o, match o with CoScan _ t => [t] | _ => [] end.
Record scan_case := mkCase {
  sk_pipeline : Pipeline;
  sk_allowed : gset gostring;
  sk_scans : list (gostring * Moment);
  sk_text : gostring;
}.
Fixpoint scans (p : Pipeline) (allowed : gset gostring) (past : list (gostring * Moment)) (ops : list co_op)
    : list scan_case :=
  match ops with
  | [] => []
  | CoScan m t :: ops' => mkCase p allowed ((t, m) :: past) t :: scans p allowed ((t, m) :: past) ops'
  | CoAllow words :: ops' => scans p (list_to_set (ToLower <$> words)) [] ops'
  | CoReconfigure enabled _ _ :: ops' => scans (Reconfigure p enabled) allowed [] ops'
  | CoInvalidate :: ops' => scans p allowed [] ops'
  end.

(** The allowed words change only while the cache is empty, or the cache is
    invalidated before the next scan. *)
Fixpoint disciplined (empty stale : bool) (ops : list co_op) : bool :=
  match ops with
  | [] => true
  | CoScan _ _ :: ops' => negb stale && disciplined false false ops'
  | CoAllow _ :: ops' => disciplined empty (stale || negb empty) ops'
  | CoReconfigure _ _ _ :: ops' | CoInvalidate :: ops' => disciplined true false ops'
  end.

(** Layers that stay safe however they are reconfigured: an invariant of the
    layer's state makes its scan safe and survives reconfiguration. *)
Definition always_ok (T : TextClass) (l : Layer) : Prop :=
  ∃ I : l_State l → Prop, I (l_state l)
    ∧ (∀ st, I st → layer_ok T (with_state l st))
    ∧ (∀ r enabled st, l_Reconfigure l = Some r → I st → I (r enabled st)).

Lemma always_ok_layer T l : always_ok T l → layer_ok T l.
Proof. intros (I & Hi & Hok & _). by destruct l; apply (Hok _ Hi). Qed.

Lemma always_ok_Reconfigure T p enabled :
  Forall (always_ok T) (p_layers p) → Forall (always_ok T) (p_layers (Reconfigure p enabled)).
Proof.
  intros Hp. cbn. apply Forall_fmap. eapply Forall_impl; [exact Hp|]. intros l Hl. cbn.
  destruct (l_Reconfigure l) as [r|] eqn:E; [|done].
  destruct Hl as (I & Hi & Hok & Hr). exists I. cbn. split_and!; auto.
Qed.

(** What each reply of a run should be: what scanning the text computes, in this
    call or in an earlier scan of the same text under the same configuration. *)
Definition fresh_reply (o : ScanOutcome) (k : scan_case) : Prop :=
  ∃ out rep m, o = mkOutcome out (Some rep) None ∧ (sk_text k, m) ∈ sk_scans k
    ∧ scan_filter_redact (sk_pipeline k) (sk_allowed k) m (sk_text k) = Ok (out, rep).

Lemma collision_free_sub texts texts' : texts ⊆ texts' → collision_free texts' → collision_free texts.
Proof. intros Hs Hc t t' ? ?. apply Hc; set_solver. Qed.

Lemma co_run_inv T ops c texts past empty stale :
  Forall (always_ok T) (p_layers (co_pipeline c)) → Forall (tc_text T) texts →
  scan_texts ops ⊆ texts → past.*1 ⊆ texts → collision_free texts →
  (∃ l, represents (co_cache c) l ∧ (empty = true → l = [])) →
  (stale = false → coherent c past) →
  disciplined empty stale ops = true →
  ∃ c' outs, co_run c ops = Ok (c', outs)
    ∧ Forall2 fresh_reply outs (scans (co_pipeline c) (co_allowed c) past ops).
Proof.
  intros Hp HT Hin Hpast Hcf. revert c past empty stale Hp Hin Hpast.
  induction ops as [|o ops IH]; intros c past empty stale Hp Hin Hpast Hl Hst Hd; cbn; [eauto|].
  destruct o as [m t|words|enabled exts cp|]; cbn in *.
  - apply andb_true_iff in Hd as [Hs%negb_true_iff Hd].
    assert (t ∈ texts) as Ht by (apply Hin; set_solver).
    destruct (ScanAndRedact_step T c past m t) as (c1 & out & rep & m' & -> & Hm & Hf & Hc1 & Ep & Ea & _).
    { eapply Forall_impl; [exact Hp|]. apply always_ok_layer. }
    { rewrite Forall_forall in HT. by apply HT. }
    { by apply Hst. }
    { eapply collision_free_sub; [|exact Hcf]. set_solver. }
    destruct (IH c1 ((t, m) :: past) false false) as (c2 & outs & E2 & Hf2);
      [by rewrite Ep|set_solver|cbn; set_solver| |done..|].
    { destruct Hc1 as (l & ? & _). exists l. by split. }
    cbn. rewrite E2. cbn. eexists _, _. split; [done|]. cbn. constructor.
    + exists out, rep, m'. by split_and!.
    + by rewrite <- Ep, <- Ea.
  - edestruct (IH (SetAllowedWords c words) []) as (c2 & outs & E2 & Hf2); [done|done|set_solver|exact Hl| |exact Hd|].
    { intros [-> Hem%negb_false_iff]%orb_false_iff. apply coherent_nil. cbn.
      destruct Hl as (l & ? & Hl). by rewrite <- Hl. }
    rewrite E2. cbn. eauto.
  - edestruct (IH (Coordinator_Reconfigure c enabled exts cp) []) as (c2 & outs & E2 & Hf2);
      [by apply always_ok_Reconfigure|done|set_solver| | |exact Hd|].
    { destruct Hl as (l & Hr & _). exists []. split; [by eapply Invalidate_refines|done]. }
    { intros _. destruct Hl as (l & Hr & _). eapply coherent_nil, Invalidate_refines. exact Hr. }
    rewrite E2. cbn. eauto.
  - edestruct (IH (InvalidateCache c) []) as (c2 & outs & E2 & Hf2); [done|done|set_solver| | |exact Hd|].
    { destruct Hl as (l & Hr & _). exists []. split; [by eapply Invalidate_refines|done]. }
    { intros _. destruct Hl as (l & Hr & _). eapply coherent_nil, Invalidate_refines. exact Hr. }
    rewrite E2. cbn. eauto.
Qed.

(** C8: the scan cache is transparent: over any sequence of scans, rule
    changes, invalidations and allow-list changes in which the allow list
    changes only while the cache is empty or before an invalidation, no
    operation panics or fails and every scan returns exactly what scanning that
    text under the rules and words in force computes, in this call or in an
    earlier scan of the same text since they came into force — which may differ,
    since in each call the timers, the clock and the sidecars may answer
    otherwise — provided no two of the scanned texts share a SHA-256 digest. *)
Theorem Coordinator_transparent T p n fb ops :
  Forall (always_ok T) (p_layers p) → Forall (tc_text T) (scan_texts ops) → collision_free (scan_texts ops) →
  disciplined true false ops = true →
  ∃ c outs, co_run (NewCoordinator p (NewCache n) fb) ops = Ok (c, outs)
    ∧ Forall2 fresh_reply outs (scans p ∅ [] ops).
Proof.
  intros Hp HT Hcf Hd.
  apply (co_run_inv T ops (NewCoordinator p (NewCache n) fb) (scan_texts ops) [] true false); try done.
  - set_solver.
  - exists []. split; [apply NewCache_refines|done].
  - intros _. apply coherent_nil, NewCache_refines.
Qed.

(** What reaches the caller on a cache miss is safe: for layers that
    report findings inside the text they are given, scanning, filtering and
    redacting never panics or fails although neither [Redact] nor the
    filter checks an offset; no allowed word is among the findings; the text
    comes back with disjoint findings replaced, and when the findings are
    pairwise disjoint or nested each of them lies within a replaced one. *)
Theorem scan_filter_redact_ok T p allowed m text :
  Forall (layer_ok T) (p_layers p) → tc_text T text →
  ∃ out rep acc, scan_filter_redact p allowed m text = Ok (out, rep)
    ∧ Forall (within (len text)) (r_findings rep)
    ∧ Forall (λ f, is_allowed allowed f = false) (r_findings rep)
    ∧ out = render text 0 (span_of <$> acc) ∧ acc ⊆ r_findings rep
    ∧ spans_le (len text) 0 (span_of <$> acc)
    ∧ (laminar (r_findings rep) →
         ∀ f, f ∈ r_findings rep → Exists (λ g, inside f g = true) acc).
Proof. apply scan_filter_redact_safe. Qed.
End coordinator.

(** ** Evaluation *)

Section evaluation.
Local Existing Instance sample_unicode.
Local Existing Instance insertion_sort.

Definition demo_coordinator : Coordinator :=
  NewCoordinator demo_pipeline (NewCache 4) (replaceState [] false).

Lemma demo_always_ok : Forall (always_ok any_text) (p_layers demo_pipeline).
Proof.
  assert (∀ name label word ready timer, always_ok any_text (literal_layer name label word ready timer)) as Hl.
  { intros name label word ready timer. exists (λ _, True). split_and!; [done| |done].
    intros [] _. exact (proj1 (literal_faithful name label word ready timer)). }
  repeat (constructor; [apply Hl|]). constructor.
Qed.

Definition demo_co_ops : list co_op :=
  [CoAllow [go "K3Y!"]; CoScan (mkMoment 0 7) demo_text; CoScan (mkMoment 1 9) demo_text;
   CoInvalidate; CoAllow []; CoScan (mkMoment 2 1) demo_text].

Theorem Coordinator_transparent_witness :
  ∃ c outs, co_run demo_coordinator demo_co_ops = Ok (c, outs)
    ∧ Forall2 fresh_reply outs (scans demo_pipeline ∅ [] demo_co_ops).
Proof.
  apply (Coordinator_transparent any_text demo_pipeline 4 (replaceState [] false) demo_co_ops demo_always_ok).
  - repeat constructor.
  - intros t t' Ht Ht' _.
    repeat (apply elem_of_cons in Ht as [->|Ht]); [..|by apply not_elem_of_nil in Ht];
    repeat (apply elem_of_cons in Ht' as [->|Ht']); try done; by apply not_elem_of_nil in Ht'.
  - reflexivity.
Defined.

Theorem scan_filter_redact_ok_witness :
  ∃ out rep acc, scan_filter_redact demo_pipeline {[ go "k3y!" ]} (mkMoment 0 0) demo_text = Ok (out, rep)
    ∧ Forall (within (len demo_text)) (r_findings rep)
    ∧ Forall (λ f, is_allowed {[ go "k3y!" ]} f = false) (r_findings rep)
    ∧ out = render demo_text 0 (span_of <$> acc) ∧ acc ⊆ r_findings rep
    ∧ spans_le (len demo_text) 0 (span_of <$> acc)
    ∧ (laminar (r_findings rep) →
         ∀ f, f ∈ r_findings rep → Exists (λ g, inside f g = true) acc).
Proof.
  apply (scan_filter_redact_ok any_text demo_pipeline {[ go "k3y!" ]} (mkMoment 0 0) demo_text); [|done].
  eapply Forall_impl; [exact demo_faithful|]. by intros l [? _].
Defined.

(** The replies' texts of a run. *)
Definition reply_texts (r : res gostring (Coordinator * list ScanOutcome)) : list gostring :=
  match r with Ok (_, outs) => so_text <$> outs | _ => [] end.

(** Changing the allowed words does not invalidate the cache: a text
    scanned before the change keeps being answered with the word redacted (or
    let through) as the old list had it, until something else invalidates the
    cache. *)
Lemma SetAllowedWords_stale :
  reply_texts (co_run demo_coordinator
    [CoScan (mkMoment 0 0) demo_text; CoAllow [go "k3y!"]; CoScan (mkMoment 1 0) demo_text; CoInvalidate;
     CoScan (mkMoment 2 0) demo_text])
  = [go "mail [REDACTED-email] the [REDACTED-key] now";
     go "mail [REDACTED-email] the [REDACTED-key] now";
     go "mail [REDACTED-email] the k3y! now"].
Proof. vm_compute. reflexivity. Qed.

(** A pipeline whose one layer runs past the timeout in the first call only. *)
Definition slow_once : Pipeline :=
  mkPipeline [mkLayer unit tt (go "slow") (λ _ _, true)
    (λ _ _, literal_scan (go "slow") (go "email") (go "bob@x.io")) None (λ _ _, 0) (λ n _, n =? 0)%nat] 500.

(** A scan that a timeout cut short is cached like any other: the text goes out
    with the address in every later call, although the layer would answer, until
    the cache is invalidated. *)
Lemma timeout_replayed :
  reply_texts (co_run (NewCoordinator slow_once (NewCache 4) (replaceState [] false))
    [CoScan (mkMoment 0 0) demo_text; CoScan (mkMoment 1 0) demo_text; CoInvalidate;
     CoScan (mkMoment 2 0) demo_text])
  = [demo_text; demo_text; go "mail [REDACTED-email] the k3y! now"].
Proof. vm_compute. reflexivity. Qed.
End evaluation.
