(* ===== verification/Interleave.v ===== *)
(** * Concurrent scans — internal/coordinator/coordinator.go, pipeline.go

    The proxy and the dashboard call [ScanAndRedact] from many goroutines, and
    the dashboard and the watcher reconfigure the coordinator meanwhile.  No lock
    spans these calls: only the cache and each layer's state are guarded.  A call
    is modelled by its atomic sections — the cache lookup, each layer in turn,
    the filter and the redaction, the cache store — and a run is any
    interleaving of the sections of any number of calls. *)
From S2P Require Import Prelude GoStr Utf8 GoFloat GoSort Spans Scanner Redactor Sha256 Cache Regex Rules FileBlock Coordinator.
Local Open Scope Z_scope.

(** Where one call of [ScanAndRedact] stands. *)
Inductive thread :=
| TGet (text : gostring) (m : Moment)
| TLayers (text : gostring) (m : Moment) (i : nat) (st : ScanState)
| TRedact (text : gostring) (report : PipelineReport)
| TPut (text out : gostring) (report : PipelineReport)
| TDone (text : gostring) (o : ScanOutcome)
| TPanic (text : gostring).

(** The coordinator, the calls under way, and the calls made so far. *)
Record Concurrent := mkConc {
  cn_coord : Coordinator;
  cn_threads : gmap nat thread;
  cn_calls : list (gostring * Moment);
}.

Section interleave.
Context `{UnicodeData} `{GoSort}.

Definition with_cache (c : Coordinator) (cache : Cache) : Coordinator :=
  mkCoord (co_pipeline c) cache (co_fb c) (co_allowed c).

(** The filter and the redaction, between the scan and the cache store. *)
Definition filter_redact (allowed : gset gostring) (text : gostring) (report : PipelineReport)
    : res gostring (gostring * PipelineReport) :=
  let findings :=
    if 0 <? Z.of_nat (size allowed)
    then filter (λ f, is_allowed allowed f = false) (r_findings report)
    else r_findings report in
  '(result, findings') ← Redact text findings;
  Ok (rr_text result, mkReport findings' (r_layers report) (r_ms report)).

(** The next section of a call, and what it leaves. *)
Definition thread_step (c : Coordinator) (t : thread) : option (Coordinator * thread) :=
  match t with
  | TGet text m => Some
      match Get (co_cache c) text with
      | Ok (cache, Some (redacted, report)) =>
          (with_cache c cache, TDone text (mkOutcome redacted (Some report) None))
      | Ok (cache, None) => (with_cache c cache, TLayers text m 0 (mkScan [] [] text []))
      | _ => (c, TPanic text)
      end
  | TLayers text m i st => Some
      match p_layers (co_pipeline c) !! i with
      | Some l =>
          match scan_layer (co_pipeline c) (mo_call m) text st l with
          | Ok st' => (c, TLayers text m (S i) st')
          | _ => (c, TPanic text)
          end
      | None => (c, TRedact text (mkReport (s_findings st) (s_layers st) (mo_ms m)))
      end
  | TRedact text report => Some
      match filter_redact (co_allowed c) text report with
      | Ok (out, report') => (c, TPut text out report')
      | _ => (c, TPanic text)
      end
  | TPut text out report => Some
      match Put (co_cache c) text out report with
      | Ok cache => (with_cache c cache, TDone text (mkOutcome out (Some report) None))
      | _ => (c, TPanic text)
      end
  | TDone _ _ | TPanic _ => None
  end.

(** A new call, or the next section of one. *)
Inductive spawn_step (texts : list gostring) : Concurrent → Concurrent → Prop :=
| Spawn c ts past tid text m :
    ts !! tid = None → text ∈ texts →
    spawn_step texts (mkConc c ts past) (mkConc c (<[tid := TGet text m]> ts) ((text, m) :: past)).
Inductive section_step (tid : nat) : Concurrent → Concurrent → Prop :=
| Section c ts past t c' t' :
    ts !! tid = Some t → thread_step c t = Some (c', t') →
    section_step tid (mkConc c ts past) (mkConc c' (<[tid := t']> ts) past).
Definition scan_step (texts : list gostring) (s s' : Concurrent) : Prop :=
  spawn_step texts s s' ∨ ∃ tid, section_step tid s s'.

(** ** Reconfiguration, section by section *)

(** One layer's [Reconfigure]. *)
Definition reconfigure_layer (enabled : gostring → bool) (l : Layer) : Layer :=
  match l_Reconfigure l with
  | Some r => with_state l (r enabled (l_state l))
  | None => l
  end.
Inductive config_act :=
| AcLayer (i : nat) (enabled : gostring → bool)
| AcBlocker (exts : list gostring) (cp : bool)
| AcInvalidate
| AcAllow (words : list gostring)
| AcTimeout (ms : Z).
Definition config_do (a : config_act) (c : Coordinator) : Coordinator :=
  match a with
  | AcLayer i enabled =>
      mkCoord (mkPipeline (alter (reconfigure_layer enabled) i (p_layers (co_pipeline c)))
                 (p_timeout (co_pipeline c))) (co_cache c) (co_fb c) (co_allowed c)
  | AcBlocker exts cp => mkCoord (co_pipeline c) (co_cache c) (FileBlock_Reconfigure exts cp) (co_allowed c)
  | AcInvalidate => InvalidateCache c
  | AcAllow words => SetAllowedWords c words
  | AcTimeout ms => mkCoord (SetTimeout (co_pipeline c) ms) (co_cache c) (co_fb c) (co_allowed c)
  end.
Definition any_step (texts : list gostring) (s s' : Concurrent) : Prop :=
  scan_step texts s s' ∨ ∃ a, s' = mkConc (config_do a (cn_coord s)) (cn_threads s) (cn_calls s).

(** [Reconfigure]: every layer in order, then the file blocker, then the
    cache. *)
Definition reconfigure_acts (n : nat) (enabled : gostring → bool) (exts : list gostring) (cp : bool)
    : list config_act :=
  ((λ i, AcLayer i enabled) <$> seq 0 n) ++ [AcBlocker exts cp; AcInvalidate].

Lemma alter_app_r {A} (f : A → A) (l1 l2 : list A) x :
  alter f (length l1) (l1 ++ x :: l2) = l1 ++ f x :: l2.
Proof. induction l1 as [|y l1 IH]; cbn; [done|]. by f_equal. Qed.

Lemma layer_acts enabled done_ rest ms cache fb allowed :
  foldl (λ c a, config_do a c) (mkCoord (mkPipeline (done_ ++ rest) ms) cache fb allowed)
    ((λ i, AcLayer i enabled) <$> seq (length done_) (length rest))
  = mkCoord (mkPipeline (done_ ++ (reconfigure_layer enabled <$> rest)) ms) cache fb allowed.
Proof.
  revert done_. induction rest as [|l rest IH]; intros done_; [done|]. cbn [length seq fmap list_fmap foldl].
  cbn [config_do co_pipeline p_layers p_timeout co_cache co_fb co_allowed]. rewrite alter_app_r.
  replace (done_ ++ reconfigure_layer enabled l :: rest)
    with ((done_ ++ [reconfigure_layer enabled l]) ++ rest) by (by rewrite <- app_assoc).
  replace (S (length done_)) with (length (done_ ++ [reconfigure_layer enabled l]))
    by (rewrite length_app; cbn; lia).
  rewrite IH, <- app_assoc. done.
Qed.

(** Run without interruption, the sections are [Coordinator_Reconfigure]. *)
Lemma reconfigure_acts_whole c enabled exts cp :
  foldl (λ c a, config_do a c) c (reconfigure_acts (length (p_layers (co_pipeline c))) enabled exts cp)
  = Coordinator_Reconfigure c enabled exts cp.
Proof.
  destruct c as [[layers ms] cache fb allowed]. unfold reconfigure_acts. rewrite foldl_app.
  cbn [co_pipeline p_layers]. by rewrite (layer_acts enabled [] layers).
Qed.

(** ** Scans under settled settings *)

Lemma scan_filter_redact_filter p allowed m text :
  scan_filter_redact p allowed m text =
    (report ← Scan p m text; filter_redact allowed text report).
Proof. done. Qed.

Lemma Get_coherent c past text :
  coherent c past →
  ∃ cache hit, Get (co_cache c) text = Ok (cache, hit) ∧ coherent (with_cache c cache) past
    ∧ match hit with
      | Some (out, rep) => ∃ t m, (t, m) ∈ past ∧ hash t = hash text
          ∧ scan_filter_redact (co_pipeline c) (co_allowed c) m t = Ok (out, rep)
      | None => True
      end.
Proof.
  intros (l & Hr & Hl). destruct (Get_refines _ l text Hr) as (cache & -> & Hr1 & _).
  do 2 eexists. split; [done|]. split.
  - exists (lru_get (hash text) l). split; [done|]. intros e He%lru_get_elem. by apply Hl.
  - destruct (lru_find (hash text) l) as [e|] eqn:Hf; cbn; [|done].
    apply lru_find_Some in Hf as [He Hk]. destruct (Hl e He) as (t & m & Ht & Hh & Hs).
    exists t, m. split_and!; [done|congruence|done].
Qed.

Lemma Put_coherent c past text m out rep :
  coherent c past → (text, m) ∈ past →
  scan_filter_redact (co_pipeline c) (co_allowed c) m text = Ok (out, rep) →
  ∃ cache, Put (co_cache c) text out rep = Ok cache ∧ coherent (with_cache c cache) past.
Proof.
  intros (l & Hr & Hl) Ht Hs. destruct (Put_refines _ _ text out rep Hr) as (cache & -> & Hr2 & _).
  eexists. split; [done|]. eexists. split; [exact Hr2|]. apply lru_put_coherent.
  - by exists text, m.
  - exact Hl.
Qed.

Section settled.
Context (T : TextClass) (p : Pipeline) (allowed : gset gostring) (texts : list gostring).
Hypothesis layers_ok : Forall (layer_ok T) (p_layers p).
Hypothesis texts_ok : Forall (tc_text T) texts.
Hypothesis no_collision : collision_free texts.

Definition start (text : gostring) : ScanState := mkScan [] [] text [].

(** What a call has computed so far is what a scan alone computes. *)
Definition thread_ok (past : list (gostring * Moment)) (t : thread) : Prop :=
  match t with
  | TGet text m => (text, m) ∈ past
  | TLayers text m i st =>
      (text, m) ∈ past ∧ (i ≤ length (p_layers p))%nat
      ∧ scan_loop p (mo_call m) text (take i (p_layers p)) (start text) = Ok st
  | TRedact text rep => ∃ m, (text, m) ∈ past ∧ Scan p m text = Ok rep
  | TPut text out rep => ∃ m, (text, m) ∈ past ∧ scan_filter_redact p allowed m text = Ok (out, rep)
  | TDone text o => fresh_reply o (mkCase p allowed past text)
  | TPanic _ => False
  end.
Lemma thread_ok_mono past past' t : past ⊆ past' → thread_ok past t → thread_ok past' t.
Proof. intros Hs. destruct t; cbn; unfold fresh_reply; naive_solver. Qed.

Definition settled (c : Coordinator) (past : list (gostring * Moment)) : Prop :=
  co_pipeline c = p ∧ co_allowed c = allowed ∧ coherent c past ∧ past.*1 ⊆ texts.
Definition conc_inv (s : Concurrent) : Prop :=
  settled (cn_coord s) (cn_calls s)
  ∧ ∀ tid t, cn_threads s !! tid = Some t → thread_ok (cn_calls s) t.

Lemma past_text (past : list (gostring * Moment)) text m : past.*1 ⊆ texts → (text, m) ∈ past → text ∈ texts.
Proof. intros Hs Hm. apply Hs, list_elem_of_fmap. by exists (text, m). Qed.

Lemma scan_ok text m : text ∈ texts → ∃ rep, Scan p m text = Ok rep.
Proof.
  intros Ht. rewrite Forall_forall in texts_ok.
  destruct (Scan_report_lemma T p m text layers_ok (texts_ok _ Ht)) as (rep & E & _). eauto.
Qed.

(** A layer's section succeeds when the layers before it have run. *)
Lemma layer_section text n i l st :
  text ∈ texts → p_layers p !! i = Some l →
  scan_loop p n text (take i (p_layers p)) (start text) = Ok st →
  ∃ st', scan_layer p n text st l = Ok st'
    ∧ scan_loop p n text (take (S i) (p_layers p)) (start text) = Ok st'.
Proof.
  intros Ht Hi Hst. destruct (scan_ok text (mkMoment n 0) Ht) as (rep & E).
  unfold Scan in E. fold (start text) in E. cbn [mo_call] in E. apply bind_Ok in E as (st2 & E & _).
  rewrite <- (take_drop_middle _ _ _ Hi), scan_loop_app, Hst in E. cbn in E.
  apply bind_Ok in E as (st' & E & _). exists st'. split; [done|].
  rewrite (take_S_r _ _ _ Hi), scan_loop_app, Hst. cbn. by rewrite E.
Qed.

Lemma thread_step_ok c past t c' t' :
  settled c past → thread_ok past t → thread_step c t = Some (c', t') → settled c' past ∧ thread_ok past t'.
Proof.
  intros (Hp & Ha & Hc & Hpt) Ht.
  destruct t as [text m|text m i st|text rep|text out rep|text o|text];
    cbn [thread_step thread_ok] in *; intros E; [..|done|done]; apply (inj Some) in E; symmetry in E.
  - destruct (Get_coherent c past text Hc) as (cache & hit & Hg & Hc' & Hhit). rewrite Hg in E.
    destruct hit as [[out rep]|]; injection E as -> ->.
    + destruct Hhit as (t & m' & Ht' & Hh & Hs).
      assert (t = text) as -> by (apply no_collision; eauto using past_text).
      rewrite Hp, Ha in Hs. split; [by split_and!|]. cbn. unfold fresh_reply. cbn. eauto 10.
    + split; [by split_and!|]. cbn. split_and!; [done|lia|done].
  - destruct Ht as (Ht & Hi & Hst). pose proof (past_text _ _ _ Hpt Ht) as Htt.
    rewrite Hp in E. destruct (p_layers p !! i) as [l|] eqn:Hl.
    + destruct (layer_section text (mo_call m) i l st Htt Hl Hst) as (st' & E1 & E2). rewrite E1 in E.
      injection E as -> ->. split; [by split_and!|]. split_and!; [done| |done].
      by apply lookup_lt_Some in Hl.
    + injection E as -> ->. split; [by split_and!|]. exists m. split; [done|]. unfold Scan.
      apply lookup_ge_None in Hl. rewrite take_ge in Hst by done. fold (start text). by rewrite Hst.
  - destruct Ht as (m & Ht & Hs). pose proof (past_text _ _ _ Hpt Ht) as Htt.
    rewrite Ha in E. rewrite Forall_forall in texts_ok.
    destruct (scan_filter_redact_safe T p allowed m text layers_ok (texts_ok _ Htt))
      as (out & rep' & _ & E1 & _). pose proof E1 as E2.
    rewrite scan_filter_redact_filter, Hs in E1. cbn [mbind res_bind] in E1.
    rewrite E1 in E. injection E as -> ->. split; [by split_and!|]. by exists m.
  - destruct Ht as (m & Ht & Hs). pose proof Hs as Hs'. rewrite <- Hp, <- Ha in Hs.
    destruct (Put_coherent c past text m out rep Hc Ht Hs) as (cache & Hput & Hc'). rewrite Hput in E.
    injection E as -> ->. split; [by split_and!|]. cbn. unfold fresh_reply. cbn. eauto 10.
Qed.

Lemma section_ok tid s s' : conc_inv s → section_step tid s s' → conc_inv s'.
Proof.
  intros [Hs Ht] Hstep. destruct Hstep as [c ts past t c' t' Hl E]. cbn in *.
  destruct (thread_step_ok c past t c' t' Hs (Ht _ _ Hl) E) as [Hs' Ht'].
  split; [done|]. intros tid2 t2. cbn. intros [[_ <-]|[_ ?]]%lookup_insert_Some; eauto.
Qed.
Lemma scan_steps_ok s s' : rtc (scan_step texts) s s' → conc_inv s → conc_inv s'.
Proof.
  induction 1 as [|s1 s2 s3 Hstep _ IH]; [done|]. intros Hi. apply IH.
  destruct Hstep as [Hstep|(tid & Hstep)]; [|by eapply section_ok].
  destruct Hstep as [c ts past tid text m Hn Hin].
  destruct Hi as [(Hp & Ha & Hc & Hpt) Ht]. cbn in *.
  split; [split_and!; [done|done|by eapply coherent_mono, Hc; set_solver|cbn; set_solver]|].
  intros tid2 t2. cbn.
  intros [[_ <-]|[_ Hl]]%lookup_insert_Some; [cbn; set_solver|].
  eapply thread_ok_mono; [|by apply (Ht tid2)]. set_solver.
Qed.

(** Sections left, at most. *)
Definition remaining (t : thread) : nat :=
  match t with
  | TGet _ _ => length (p_layers p) + 4
  | TLayers _ _ i _ => (length (p_layers p) - i) + 3
  | TRedact _ _ => 2
  | TPut _ _ _ => 1
  | TDone _ _ | TPanic _ => 0
  end.

Lemma thread_step_remaining c t :
  co_pipeline c = p → remaining t ≠ 0%nat →
  ∃ c' t', thread_step c t = Some (c', t') ∧ (remaining t' < remaining t)%nat.
Proof.
  intros Hp Hr. destruct t; cbn [thread_step remaining] in *; try done; rewrite ?Hp.
  - destruct (Get _ _) as [[? [[? ?]|]]| |]; do 2 eexists; (split; [done|]); cbn; lia.
  - destruct (p_layers p !! i) eqn:Hl; [apply lookup_lt_Some in Hl|];
      [destruct (scan_layer _ _ _ _ _)|]; do 2 eexists; (split; [done|]); cbn; lia.
  - destruct (filter_redact _ _ _) as [[? ?]| |]; do 2 eexists; (split; [done|]); cbn; lia.
  - destruct (Put _ _ _ _); do 2 eexists; (split; [done|]); cbn; lia.
Qed.

(** Left to itself, any call finishes within its remaining sections. *)
Lemma call_finishes tid s t :
  conc_inv s → cn_threads s !! tid = Some t →
  ∃ n s' text o, nsteps (section_step tid) n s s' ∧ (n ≤ remaining t)%nat
    ∧ cn_threads s' !! tid = Some (TDone text o).
Proof.
  remember (remaining t) as m eqn:Hm. revert s t Hm. induction m as [m IH] using lt_wf_ind.
  intros s t -> Hi Ht. destruct (decide (remaining t = 0%nat)) as [Hz|Hz].
  - destruct t; cbn in Hz; try lia; [|by destruct (proj2 Hi _ _ Ht)].
    exists 0%nat, s, text, o. split_and!; [constructor|lia|done].
  - destruct s as [c ts past]. pose proof Hi as [[Hp _] _].
    destruct (thread_step_remaining c t Hp Hz) as (c' & t' & E & Hlt).
    assert (section_step tid (mkConc c ts past) (mkConc c' (<[tid:=t']> ts) past)) as Hstep by (by econstructor).
    destruct (IH _ Hlt (mkConc c' (<[tid:=t']> ts) past) t' eq_refl) as (n & s' & text & o & Hn & Hle & Hd).
    + by eapply section_ok.
    + apply lookup_insert_eq.
    + exists (S n), s', text, o. split_and!; [by econstructor|lia|done].
Qed.

End settled.

(** ** Runs from a script *)

Inductive move :=
| MSpawn (tid : nat) (text : gostring) (call : nat)
| MSection (tid : nat)
| MConfig (a : config_act).
Definition do_move (texts : list gostring) (s : Concurrent) (m : move) : option Concurrent :=
  match m with
  | MSpawn tid text n =>
      match cn_threads s !! tid with
      | None => if decide (text ∈ texts)
                then Some (mkConc (cn_coord s) (<[tid := TGet text (mkMoment n 0)]> (cn_threads s))
                             ((text, mkMoment n 0) :: cn_calls s)) else None
      | Some _ => None
      end
  | MSection tid =>
      t ← cn_threads s !! tid;
      '(c', t') ← thread_step (cn_coord s) t;
      Some (mkConc c' (<[tid := t']> (cn_threads s)) (cn_calls s))
  | MConfig a => Some (mkConc (config_do a (cn_coord s)) (cn_threads s) (cn_calls s))
  end.
Definition do_moves (texts : list gostring) (s : Concurrent) (ms : list move) : option Concurrent :=
  foldl (λ os m, os ≫= λ s, do_move texts s m) (Some s) ms.

Definition is_scan (m : move) : bool := match m with MConfig _ => false | _ => true end.

Lemma do_move_step texts s m s' :
  do_move texts s m = Some s' → any_step texts s s' ∧ (is_scan m = true → scan_step texts s s').
Proof.
  assert (∀ X Y Z : Prop, X → (X → Y) → Y ∧ (Z → X)) as Hboth by auto.
  destruct s as [c ts past], m as [tid text n|tid|a]; cbn [do_move cn_threads cn_coord is_scan]; intros E.
  - apply Hboth; [|by left]. destruct (ts !! tid) eqn:Hn; [done|].
    destruct (decide _); [|done]. injection E as <-. left. by constructor.
  - apply Hboth; [|by left]. destruct (ts !! tid) as [t|] eqn:Ht; cbn in E; [|done].
    destruct (thread_step c t) as [[c' t']|] eqn:Hs; cbn in E; [|done]. injection E as <-.
    right. exists tid. by econstructor.
  - split; [|done]. injection E as <-. right. by exists a.
Qed.
Lemma do_moves_from texts os ms s' :
  foldl (λ os m, os ≫= λ s, do_move texts s m) os ms = Some s' →
  ∃ s, os = Some s ∧ rtc (any_step texts) s s' ∧ (forallb is_scan ms = true → rtc (scan_step texts) s s').
Proof.
  revert os. induction ms as [|m ms IH]; intros os E; cbn in E.
  - exists s'. split_and!; [done|constructor|constructor].
  - apply IH in E as (s1 & E & H1 & H2). destruct os as [s|]; [|done]. cbn in E.
    apply do_move_step in E as [E1 E2]. exists s. split_and!; [done|by econstructor|].
    intros [? ?]%andb_true_iff. econstructor; auto.
Qed.
Lemma do_moves_steps texts s ms s' :
  do_moves texts s ms = Some s' →
  rtc (any_step texts) s s' ∧ (forallb is_scan ms = true → rtc (scan_step texts) s s').
Proof. by intros (s1 & [= <-] & H1 & H2)%do_moves_from. Qed.
End interleave.

(** ** Evaluation *)

Section evaluation.
Local Existing Instance sample_unicode.
Local Existing Instance insertion_sort.

(** One layer that reports a word while its rule is on. *)
Definition toggled_layer (on : bool) : Layer :=
  mkLayer bool on (go "toggled") (λ _ _, true)
    (λ _ on t, if on then literal_scan (go "toggled") (go "key") (go "k3y!") t else Ok (mkScanResult [] 0))
    (Some (λ enabled _, enabled (go "key_rule"))) (λ _ _, 0) (λ _ _, false).
Definition toggled_coordinator : Coordinator :=
  NewCoordinator (mkPipeline [toggled_layer false] 500) (NewCache 4) (replaceState [] false).
Definition reply (s : option Concurrent) (tid : nat) : option gostring :=
  s ← s; t ← cn_threads s !! tid; match t with TDone _ o => Some (so_text o) | _ => None end.

(** Two scans of one text, section by section in turn: both miss, both store. *)
Definition demo_moves : list move :=
  [MSpawn 0 demo_text 0; MSection 0; MSpawn 1 demo_text 1; MSection 1]
  ++ concat (replicate 7 [MSection 0; MSection 1]).
Definition demo_conc : Concurrent := mkConc demo_coordinator ∅ [].

Lemma demo_moves_run :
  ∃ s, rtc (scan_step [demo_text]) demo_conc s
    ∧ reply (Some s) 0 = Some (go "mail [REDACTED-email] the [REDACTED-key] now")
    ∧ reply (Some s) 1 = reply (Some s) 0.
Proof.
  assert ((reply (do_moves [demo_text] demo_conc demo_moves) 0,
           reply (do_moves [demo_text] demo_conc demo_moves) 1)
    = (Some (go "mail [REDACTED-email] the [REDACTED-key] now"),
       Some (go "mail [REDACTED-email] the [REDACTED-key] now"))) as E by (vm_compute; reflexivity).
  destruct (do_moves [demo_text] demo_conc demo_moves) as [s|] eqn:Hm; [|done].
  apply do_moves_steps in Hm as [_ Hr]. pose proof (f_equal fst E) as E0.
  pose proof (f_equal snd E) as E1. cbn [fst snd] in E0, E1. exists s.
  split; [by apply Hr|]. split; [exact E0|exact (eq_trans E1 (eq_sym E0))].
Qed.

Lemma demo_settled : settled demo_pipeline ∅ [demo_text] demo_coordinator [].
Proof. split_and!; [done|done|apply coherent_nil, NewCache_refines|set_solver]. Qed.


(** A rule that is turned on while a scan is in flight does not take effect for
    its text: the scan began under the old rules and stores its result after
    [Reconfigure] has invalidated the cache, so the stale reply, with the value in
    the clear, answers every later scan of the text. *)
Definition race_moves : list move :=
  [MSpawn 0 demo_text 0; MSection 0; MSection 0]
  ++ (MConfig <$> reconfigure_acts 1 (λ _, true) [] false)
  ++ [MSection 0; MSection 0; MSection 0; MSpawn 1 demo_text 1; MSection 1].

Lemma Reconfigure_races_scan :
  (∃ s, rtc (any_step [demo_text]) (mkConc toggled_coordinator ∅ []) s
      ∧ reply (Some s) 1 = Some demo_text)
  ∧ (λ r, r.1) <$> scan_filter_redact (Reconfigure (co_pipeline toggled_coordinator) (λ _, true)) ∅ (mkMoment 0 0) demo_text
    = Ok (go "mail bob@x.io the [REDACTED-key] now").
Proof.
  split; [|vm_compute; reflexivity].
  assert (reply (do_moves [demo_text] (mkConc toggled_coordinator ∅ []) race_moves) 1 = Some demo_text) as E
    by (vm_compute; reflexivity).
  destruct (do_moves _ _ _) as [s|] eqn:Hm; [|done]. apply do_moves_steps in Hm as [Hr _]. eauto.
Qed.
End evaluation.
