(* ===== verification/Checksums.v ===== *)
(** * Check digits — internal/scanner/presidio/presidio.go, luhn and below

    The checksum functions, digit stripping, and the validators the pattern
    table attaches to its patterns, with the property that makes a check digit
    useful: changing one digit of a valid number makes it invalid. *)
From S2P Require Import Prelude GoStr Utf8.
Local Open Scope Z_scope.

(** [int(b - '0')] on a byte. *)
Definition digit (c : Ascii.ascii) : Z := (byteZ c - 48) mod 256.

(** The runes ['0'..'9'] of a string; all others are dropped. *)
Definition stripNonDigits (s : gostring) : gostring :=
  runes s ≫= λ r, if between 48 57 r then encode_rune r else [].

(** [luhn]: from the last byte to the first, every second digit doubled. *)
Definition luhn_double (d : Z) : Z := if 9 <? d * 2 then d * 2 - 9 else d * 2.
Fixpoint luhn_loop (alt : bool) (rev_digits : gostring) (sum : Z) : Z :=
  match rev_digits with
  | [] => sum
  | c :: cs =>
      let d := digit c in
      luhn_loop (negb alt) cs (sum + (if alt then luhn_double d else d))
  end.
Definition luhn (digits : gostring) : bool := luhn_loop false (rev digits) 0 mod 10 =? 0.

(** The loops [for i, w := range weights { sum += int(digits[i]-'0') * w }],
    behind a guard on the length. *)
Definition weighted (weights : list Z) (digits : gostring) : Z :=
  foldr Z.add 0 (zip_with (λ w c, digit c * w) weights digits).

Definition aba_weights : list Z := [3; 7; 1; 3; 7; 1; 3; 7; 1].
Definition abaChecksum (digits : gostring) : bool :=
  if negb (len digits =? 9) then false
  else weighted aba_weights digits mod 10 =? 0.

Definition nhs_weights : list Z := [10; 9; 8; 7; 6; 5; 4; 3; 2].
Definition nhsChecksum (digits : gostring) : bool :=
  if negb (len digits =? 10) then false
  else
    let sum := weighted nhs_weights digits in
    let check := 11 - sum mod 11 in
    let check := if check =? 11 then 0 else check in
    if check =? 10 then false
    else match last digits with Some c => check =? digit c | None => false end.

(** [ibanCheckDigit]: the first four bytes moved to the end, letters replaced
    by two digits, the number modulo 97. *)
Fixpoint iban_numeric (rs : list N) (acc : gostring) : option gostring :=
  match rs with
  | [] => Some acc
  | r :: rs' =>
      if between 48 57 r then iban_numeric rs' (acc ++ encode_rune r)
      else if between 65 90 r then
        let n := Z.of_N r - 65 + 10 in
        iban_numeric rs' (acc ++ (if 10 <=? n then [byte_of (n / 10 + 48)] else [])
                            ++ [byte_of (n mod 10 + 48)])
      else None
  end.
Definition mod97 (s : gostring) : Z := foldl (λ rem c, (rem * 10 + digit c) mod 97) 0 s.
Definition ibanCheckDigit `{UnicodeData} (iban : gostring) : bool :=
  if len iban <? 5 then false
  else
    let rearranged := sub iban 4 (len iban) ++ sub iban 0 4 in
    match iban_numeric (runes (ToUpper rearranged)) [] with
    | None => false
    | Some s => mod97 s =? 1
    end.

(** ** The validators of the pattern table *)

Section validators.
Context `{UnicodeData}.

Definition v_credit_card (s : gostring) : bool :=
  let digits := stripNonDigits s in
  if (len digits <? 12) || (19 <? len digits) then false else luhn digits.

Definition drop_runes (p : N → bool) (s : gostring) : gostring :=
  Map (λ r, if p r then None else Some r) s.

Definition v_iban (s : gostring) : bool :=
  let clean := drop_runes (λ r, (r =? 32)%N || (r =? 45)%N) (TrimSpace s) in
  if (len clean <? 15) || (34 <? len clean) then false else ibanCheckDigit clean.

Definition url_nonPII : list gostring := [
  go "w3.org"; go "xml"; go "schema"; go "xmlns"; go "xsd"; go "dtd";
  go "xbrl"; go "spec/"; go "json-schema"; go "openid"; go "oauth";
  go "example.com"; go "example.org"; go "localhost";
  go "fpml.org"; go "iso.org"; go "ietf.org"; go "oasis-open.org"
].
Definition v_url (s : gostring) : bool :=
  let lower := ToLower s in negb (existsb (Contains lower) url_nonPII).

Definition mac_clean (sep : N) (s : gostring) : gostring :=
  Map (λ r, if (r =? sep)%N then None else Some (RuneToUpper r)) s.
Definition v_mac (sep : N) (s : gostring) : bool :=
  let clean := mac_clean sep s in
  negb (bool_decide (clean = go "000000000000")) && negb (bool_decide (clean = go "FFFFFFFFFFFF")).
Definition v_mac_colon : gostring → bool := v_mac 58.
Definition v_mac_dash : gostring → bool := v_mac 45.

Definition v_ssn (s : gostring) : bool :=
  let d := stripNonDigits s in
  if negb (len d =? 9) then false
  else if bool_decide (d ∈ [go "078051120"; go "123456789"; go "219099999"]) then false
  else if bool_decide (sub d 0 3 ∈ [go "000"; go "666"; go "900"]) then false
  else if bool_decide (sub d 3 5 = go "00") || bool_decide (sub d 5 (len d) = go "0000") then false
  else true.

Definition v_aba_dashed (s : gostring) : bool :=
  let d := stripNonDigits s in (len d =? 9) && abaChecksum d.
Definition v_aba_bare (s : gostring) : bool := abaChecksum s.

Definition v_nhs (s : gostring) : bool :=
  let d := stripNonDigits s in if negb (len d =? 10) then false else nhsChecksum d.

Definition v_ca_sin (s : gostring) : bool :=
  let d := stripNonDigits s in (len d =? 9) && luhn d.

Definition tfn_weights : list Z := [1; 4; 3; 7; 5; 8; 6; 9; 10].
Definition v_au_tfn (s : gostring) : bool :=
  let d := stripNonDigits s in
  if negb (len d =? 9) then false else weighted tfn_weights d mod 11 =? 0.

Definition nif_table : gostring := go "TRWAGMYFPDXBNJZSQVHLCKE".
Definition v_es_nif (s : gostring) : bool :=
  if negb (len s =? 9) then false
  else
    let d := stripNonDigits (sub s 0 8) in
    if negb (len d =? 8) then false
    else
      let n := foldl (λ n c, n * 10 + digit c) 0 d in
      bool_decide (s !! 8%nat = nif_table !! Z.to_nat (n mod 23)).

Definition v_swift (s : gostring) : bool := existsb (between 48 57) (runes s).
End validators.

(** ** Single-digit errors *)

(** A decimal digit, and a string of them. *)
Definition is_digits (s : gostring) : Prop := Forall (λ c, 48 ≤ byteZ c ≤ 57) s.

Lemma digit_range c : 48 ≤ byteZ c ≤ 57 → digit c = byteZ c - 48 ∧ 0 ≤ digit c ≤ 9.
Proof. intros. unfold digit. rewrite Z.mod_small by lia. lia. Qed.

Lemma digit_inj a b : 48 ≤ byteZ a ≤ 57 → 48 ≤ byteZ b ≤ 57 → digit a = digit b → a = b.
Proof.
  intros Ha Hb. destruct (digit_range a Ha) as [-> _]. destruct (digit_range b Hb) as [-> _].
  intros. apply byteZ_inj. lia.
Qed.

(** The sum of one function per position over the digits. *)
Fixpoint pos_sum (f : nat → Z → Z) (i : nat) (s : gostring) : Z :=
  match s with [] => 0 | c :: s' => f i (digit c) + pos_sum f (S i) s' end.

Lemma pos_sum_app f i s t : pos_sum f i (s ++ t) = pos_sum f i s + pos_sum f (i + length s) t.
Proof.
  revert i. induction s as [|c s IH]; intros i; cbn; [by rewrite Nat.add_0_r|].
  rewrite IH. replace (S i + length s)%nat with (i + S (length s))%nat by lia. lia.
Qed.

(** [g] tells any two digits apart modulo [m]. *)
Definition separates (m : Z) (g : Z → Z) : Prop :=
  ∀ a b, 0 ≤ a ≤ 9 → 0 ≤ b ≤ 9 → g a mod m = g b mod m → a = b.

Lemma mod_cancel m x y z : (x + y) mod m = (x + z) mod m → y mod m = z mod m.
Proof.
  intros H. replace y with ((x + y) - x) by lia. replace z with ((x + z) - x) by lia.
  rewrite (Zminus_mod (x + y)), (Zminus_mod (x + z)). by rewrite H.
Qed.

(** The sums of two digit strings that differ in one place differ modulo
    [m]. *)
Lemma pos_sum_detects m f pre post a b i :
  separates m (f (i + length pre)%nat) → 48 ≤ byteZ a ≤ 57 → 48 ≤ byteZ b ≤ 57 → a ≠ b →
  pos_sum f i (pre ++ a :: post) mod m ≠ pos_sum f i (pre ++ b :: post) mod m.
Proof.
  intros Hs Ha Hb Hab Heq. apply Hab, digit_inj; [done..|].
  rewrite !pos_sum_app in Heq. cbn in Heq. apply mod_cancel in Heq.
  rewrite !(Z.add_comm (f _ _)) in Heq. apply mod_cancel in Heq.
  eapply Hs; [..|exact Heq]; by apply digit_range.
Qed.

(** Check a digit function at the ten digits. *)
Definition digits_ok (m : Z) (g : Z → Z) : bool :=
  forallb (λ a, forallb (λ b, (Z.of_nat a =? Z.of_nat b) ||
    negb (g (Z.of_nat a) mod m =? g (Z.of_nat b) mod m)) (seq 0 10)) (seq 0 10).

Lemma digits_ok_spec m g : digits_ok m g = true → separates m g.
Proof.
  unfold digits_ok. rewrite forallb_forall. intros H a b Ha Hb Heq.
  specialize (H (Z.to_nat a)). rewrite forallb_forall in H.
  specialize (H ltac:(apply in_seq; lia) (Z.to_nat b) ltac:(apply in_seq; lia)).
  rewrite !Z2Nat.id in H by lia. apply orb_true_iff in H as [H|H]; bool_hyps; [done|congruence].
Qed.

(** *** Luhn *)

Definition luhn_f (i : nat) (d : Z) : Z := if Nat.even i then d else luhn_double d.

Lemma luhn_loop_sum s i sum :
  luhn_loop (negb (Nat.even i)) s sum = sum + pos_sum luhn_f i s.
Proof.
  revert i sum. induction s as [|c s IH]; intros i sum; cbn; [lia|].
  replace (negb (negb (Nat.even i))) with (negb (Nat.even (S i)))
    by (rewrite Nat.even_succ, <- Nat.negb_even; done).
  rewrite IH. unfold luhn_f at 2. destruct (Nat.even i); cbn; lia.
Qed.

Lemma luhn_separates i : separates 10 (luhn_f i).
Proof.
  unfold luhn_f. destruct (Nat.even i);
    [apply (digits_ok_spec 10 (λ d, d))|apply (digits_ok_spec 10 luhn_double)]; reflexivity.
Qed.

Lemma luhn_sum s : luhn s = (pos_sum luhn_f 0 (rev s) mod 10 =? 0).
Proof. unfold luhn. by rewrite (luhn_loop_sum (rev s) 0 0 : luhn_loop false (rev s) 0 = _). Qed.

Lemma luhn_detects pre post a b :
  48 ≤ byteZ a ≤ 57 → 48 ≤ byteZ b ≤ 57 → a ≠ b →
  luhn (pre ++ a :: post) = true → luhn (pre ++ b :: post) = false.
Proof.
  intros Ha Hb Hab. rewrite !luhn_sum, !rev_app_distr. cbn [rev]. rewrite <- !app_assoc. cbn [app].
  pose proof (pos_sum_detects 10 luhn_f (rev post) (rev pre) a b 0 (luhn_separates _) Ha Hb Hab).
  intros H0%Z.eqb_eq. apply Z.eqb_neq. congruence.
Qed.

(** *** Weighted sums *)

Definition weight_f (ws : list Z) (i : nat) (d : Z) : Z := d * nth i ws 0.

Lemma weighted_sum ws s : pos_sum (weight_f ws) 0 s = weighted ws s.
Proof.
  unfold weighted.
  assert (∀ i, pos_sum (weight_f ws) i s = foldr Z.add 0 (zip_with (λ w c, digit c * w) (drop i ws) s)) as Hi.
  { induction s as [|c s IH]; intros i; cbn; [by destruct (drop i ws)|]. rewrite IH.
    unfold weight_f. destruct (drop i ws) as [|w ws'] eqn:E; cbn.
    - assert (length ws ≤ i)%nat as Hl by (apply (f_equal length) in E; rewrite length_drop in E; cbn in E; lia).
      rewrite nth_overflow by done. rewrite (drop_ge ws (S i)) by lia. cbn. lia.
    - assert (nth i ws 0 = w) as ->.
      { rewrite <- (take_drop i ws), E. rewrite app_nth2; rewrite length_take;
          pose proof (f_equal length E) as Hl; rewrite length_drop in Hl; cbn in Hl;
          [|lia]. replace (i - i `min` length ws)%nat with 0%nat by lia. done. }
      assert (drop (S i) ws = ws') as ->; [|done].
      replace (S i) with (i + 1)%nat by lia. by rewrite <- drop_drop, E. }
  by rewrite Hi, drop_0.
Qed.

Lemma weighted_detects m ws pre post a b :
  Forall (λ w, digits_ok m (λ d, d * w) = true) ws → (length pre < length ws)%nat →
  48 ≤ byteZ a ≤ 57 → 48 ≤ byteZ b ≤ 57 → a ≠ b →
  weighted ws (pre ++ a :: post) mod m ≠ weighted ws (pre ++ b :: post) mod m.
Proof.
  intros Hw Hl Ha Hb Hab. rewrite <- !weighted_sum. apply pos_sum_detects; try done.
  apply digits_ok_spec. unfold weight_f. rewrite Forall_forall in Hw. apply Hw.
  apply list_elem_of_In, nth_In. cbn. lia.
Qed.

Lemma weights_separate :
  Forall (λ w, digits_ok 10 (λ d, d * w) = true) aba_weights
  ∧ Forall (λ w, digits_ok 11 (λ d, d * w) = true) tfn_weights
  ∧ Forall (λ w, digits_ok 11 (λ d, d * w) = true) (nhs_weights ++ [1]).
Proof. split_and!; repeat constructor. Qed.

Lemma aba_detects pre post a b :
  48 ≤ byteZ a ≤ 57 → 48 ≤ byteZ b ≤ 57 → a ≠ b →
  abaChecksum (pre ++ a :: post) = true → abaChecksum (pre ++ b :: post) = false.
Proof.
  intros Ha Hb Hab. unfold abaChecksum. rewrite !len_app, !len_cons.
  destruct (len pre + (1 + len post) =? 9) eqn:Hl; cbn [negb]; [|done]. bool_hyps.
  pose proof (weighted_detects 10 aba_weights pre post a b (proj1 weights_separate)
    ltac:(unfold len in Hl; cbn; lia) Ha Hb Hab).
  intros H0%Z.eqb_eq. apply Z.eqb_neq. congruence.
Qed.

(** A valid NHS number is one whose whole weighted sum, the check digit
    weighing one, is divisible by eleven. *)
Lemma weighted_snoc ws w s c :
  length ws = length s → weighted (ws ++ [w]) (s ++ [c]) = weighted ws s + digit c * w.
Proof.
  intros Hl. unfold weighted. rewrite zip_with_app by done. rewrite foldr_app. cbn.
  rewrite Z.add_0_r. generalize (digit c * w) as k. generalize (zip_with (λ w c, digit c * w) ws s).
  induction l as [|x l IH]; intros k; cbn; [lia|]. rewrite IH. lia.
Qed.

Lemma weighted_firstn ws s c : length s = length ws → weighted ws (s ++ [c]) = weighted ws s.
Proof.
  intros Hl. unfold weighted. rewrite <- (app_nil_r ws) at 1.
  rewrite zip_with_app by done. cbn. by rewrite app_nil_r.
Qed.

Lemma nhs_mod11 s : nhsChecksum s = true → weighted (nhs_weights ++ [1]) s mod 11 = 0.
Proof.
  unfold nhsChecksum. destruct (len s =? 10) eqn:Hl; cbn [negb]; [|done]. bool_hyps.
  destruct s as [|c s _] using rev_ind; [done|]. rewrite last_snoc.
  assert (length s = length nhs_weights) as Hs
    by (rewrite len_app in Hl; unfold len in Hl; cbn in *; lia).
  rewrite weighted_snoc by done. rewrite weighted_firstn by done.
  set (w := weighted nhs_weights s). pose proof (Z.mod_pos_bound w 11 ltac:(lia)).
  pose proof (Z.div_mod w 11 ltac:(lia)).
  destruct (11 - w mod 11 =? 11) eqn:E1; cbn zeta.
  - bool_hyps. change (0 =? 10) with false. cbn match. intros Hc%Z.eqb_eq. rewrite <- Hc.
    replace (w + 0 * 1) with w by lia. lia.
  - if_case; [done|]. intros Hc%Z.eqb_eq. rewrite <- Hc. bool_hyps.
    replace (w + (11 - w mod 11) * 1) with ((w / 11 + 1) * 11) by lia. apply Z.mod_mul. lia.
Qed.

Lemma nhs_detects pre post a b :
  48 ≤ byteZ a ≤ 57 → 48 ≤ byteZ b ≤ 57 → a ≠ b →
  nhsChecksum (pre ++ a :: post) = true → nhsChecksum (pre ++ b :: post) = false.
Proof.
  intros Ha Hb Hab Hv. apply not_true_is_false. intros Hv'.
  assert (length pre < 10)%nat as Hl.
  { unfold nhsChecksum in Hv. rewrite len_app, len_cons in Hv.
    destruct (len pre + (1 + len post) =? 10) eqn:E; [|done]. bool_hyps. unfold len in E. lia. }
  apply nhs_mod11 in Hv, Hv'.
  apply (weighted_detects 11 (nhs_weights ++ [1]) pre post a b); try done; [|congruence].
  apply weights_separate.
Qed.

(** *** Modulo 97 *)

Definition pow_f (n : nat) (i : nat) (d : Z) : Z := d * 10 ^ Z.of_nat (n - S i).

Lemma mod97_sum s rem :
  foldl (λ rem c, (rem * 10 + digit c) mod 97) (rem mod 97) s
  = (rem * 10 ^ len s + pos_sum (pow_f (length s)) 0 s) mod 97.
Proof.
  revert rem. induction s as [|c s IH]; intros rem; cbn [foldl pos_sum].
  - rewrite len_nil. f_equal. lia.
  - rewrite <- (Z.add_mod_idemp_l (rem mod 97 * 10)) by lia.
    rewrite Z.mul_mod_idemp_l by lia. rewrite Z.add_mod_idemp_l by lia. rewrite IH. f_equal.
    assert (∀ i, pos_sum (pow_f (length (c :: s))) (S i) s = pos_sum (pow_f (length s)) i s) as Hshift.
    { cbn [length]. generalize (length s) as n. clear. induction s as [|c s IH]; intros n i; [done|].
      cbn [pos_sum]. rewrite IH. unfold pow_f. done. }
    rewrite Hshift. unfold pow_f at 2. cbn [length]. rewrite len_cons.
    replace (S (length s) - 1)%nat with (length s) by lia.
    rewrite Z.pow_add_r by (pose proof (len_nonneg s); lia). unfold len. lia.
Qed.

Lemma pow10_separates k : separates 97 (λ d, d * 10 ^ Z.of_nat k).
Proof.
  induction k as [|k IH].
  - intros a b Ha Hb. rewrite !Z.pow_0_r, !Z.mul_1_r. rewrite !Z.mod_small by lia. done.
  - intros a b Ha Hb Heq. apply IH; [done..|].
    rewrite Nat2Z.inj_succ, Z.pow_succ_r in Heq by lia.
    (* 68 inverts 10 modulo 97 *)
    apply (f_equal (λ x, (68 * x) mod 97)) in Heq.
    rewrite !Z.mul_mod_idemp_r in Heq by lia.
    replace (68 * (a * (10 * 10 ^ Z.of_nat k))) with (a * 10 ^ Z.of_nat k + (7 * a * 10 ^ Z.of_nat k) * 97) in Heq by lia.
    replace (68 * (b * (10 * 10 ^ Z.of_nat k))) with (b * 10 ^ Z.of_nat k + (7 * b * 10 ^ Z.of_nat k) * 97) in Heq by lia.
    by rewrite !Z.mod_add in Heq by lia.
Qed.

Lemma mod97_detects pre post a b :
  48 ≤ byteZ a ≤ 57 → 48 ≤ byteZ b ≤ 57 → a ≠ b →
  mod97 (pre ++ a :: post) ≠ mod97 (pre ++ b :: post).
Proof.
  intros Ha Hb Hab. unfold mod97. change 0 with (0 mod 97). rewrite !mod97_sum, !Z.mul_0_l, !Z.add_0_l.
  rewrite !length_app. cbn [length]. apply pos_sum_detects; try done. apply pow10_separates.
Qed.

(** The check digits do their job: change any one digit of a number that
    passes Luhn, the ABA routing checksum or the NHS checksum and it no longer
    passes, and two IBAN digit strings that differ in one digit have different
    remainders modulo 97, so at most one of them leaves the remainder one. *)
Theorem check_digits_detect_one_error pre post a b :
  48 ≤ byteZ a ≤ 57 → 48 ≤ byteZ b ≤ 57 → a ≠ b →
  (luhn (pre ++ a :: post) = true → luhn (pre ++ b :: post) = false)
  ∧ (abaChecksum (pre ++ a :: post) = true → abaChecksum (pre ++ b :: post) = false)
  ∧ (nhsChecksum (pre ++ a :: post) = true → nhsChecksum (pre ++ b :: post) = false)
  ∧ mod97 (pre ++ a :: post) ≠ mod97 (pre ++ b :: post).
Proof.
  intros Ha Hb Hab. split_and!;
    [by apply luhn_detects|by apply aba_detects|by apply nhs_detects|by apply mod97_detects].
Qed.

Theorem check_digits_detect_one_error_witness :
  luhn (go "453201511283036" ++ "6"%char :: []) = true
  ∧ luhn (go "453201511283036" ++ "7"%char :: []) = false.
Proof.
  split; [reflexivity|].
  refine (proj1 (check_digits_detect_one_error (go "453201511283036") [] "6"%char "7"%char _ _ _)
    eq_refl); [vm_compute; split; discriminate..|discriminate].
Defined.

Example checksum_ex :
  abaChecksum (go "021000021") = true ∧ nhsChecksum (go "9434765919") = true
  ∧ @ibanCheckDigit sample_unicode (go "DE89370400440532013000") = true
  ∧ @ibanCheckDigit sample_unicode (go "DE88370400440532013000") = false
  ∧ v_es_nif (go "12345678Z") = true.
Proof. vm_compute. repeat split; reflexivity. Qed.
