(* ===== verification/Presidio.v ===== *)
(** * The Presidio layer — internal/scanner/presidio/presidio.go

    The pattern table with its rules, scores, context words and validators, its
    compilation for a set of enabled rules, and the scan.  The regular
    expressions are those of the interface [RegexpEngine]; facts about the
    table itself are evaluated with the engine [re2]. *)
From S2P Require Import Prelude GoStr Utf8 GoFloat GoSort Spans Scanner Regex Rules Checksums.
Local Open Scope Z_scope.

(** The local type [raw] of [compilePatterns]. *)
Record rawPattern := mkRaw {
  rw_label : gostring;
  rw_ruleID : gostring;
  rw_pattern : gostring;
  rw_score : float64;
  rw_context : list gostring;
  rw_validate : option (gostring → bool);
  rw_contextReq : bool;
}.

Section presidio.
Context `{RegexpEngine} `{UnicodeData}.

(** ** The pattern table *)

Definition presidio_defs1 : list rawPattern := [
  mkRaw (go "CREDIT_CARD") (go "credit_card_luhn")
    (go "\b(?!1\d{12}(?!\d))((4\d{3})|(5[0-5]\d{2})|(6\d{3})|(1\d{3})|(3\d{3}))[- ]?(\d{3,4})[- ]?(\d{3,4})[- ]?(\d{3,5})\b")
    (f64_lit 3 10) [go "credit"; go "card"; go "visa"; go "mastercard"; go "cc"; go "amex"; go "discover"; go "jcb"; go "diners"; go "maestro"]
    (Some v_credit_card) false;
  mkRaw (go "CRYPTO") (go "crypto_btc")
    (go "\b(bc1|[13])[a-zA-HJ-NP-Z0-9]{25,59}\b")
    (f64_lit 5 10) [go "wallet"; go "btc"; go "bitcoin"; go "crypto"]
    None false;
  mkRaw (go "CRYPTO") (go "crypto_eth")
    (go "\b0x[a-fA-F0-9]{40}\b")
    (f64_lit 5 10) [go "wallet"; go "eth"; go "ethereum"; go "crypto"]
    None false;
  mkRaw (go "EMAIL_ADDRESS") (go "email_regex")
    (go "\b((([!#$%&'*+\-/=?^_`{|}~\w])|([!#$%&'*+\-/=?^_`{|}~\w][!#$%&'*+\-/=?^_`{|}~.\w]{0,}[!#$%&'*+\-/=?^_`{|}~\w]))[@]\w+([-.]\w+)*\.\w+([-.]\w+)*)\b")
    (f64_lit 5 10) [go "email"]
    None false;
  mkRaw (go "IBAN_CODE") (go "iban_presidio")
    (go "(?:[^A-Z0-9]|^)([A-Z]{2}[0-9]{2}(?:[ -]?[A-Z0-9]{4}){2,7}(?:[ -]?[A-Z0-9]{1,4})?)(?:[^A-Z0-9]|$)")
    (f64_lit 5 10) [go "iban"; go "bank"; go "transaction"; go "account"]
    (Some v_iban) false;
  mkRaw (go "IP_ADDRESS") (go "ipv4")
    (go "\b(?:25[0-5]|2[0-4][0-9]|[01]?[0-9][0-9]?)\.(?:25[0-5]|2[0-4][0-9]|[01]?[0-9][0-9]?)\.(?:25[0-5]|2[0-4][0-9]|[01]?[0-9][0-9]?)\.(?:25[0-5]|2[0-4][0-9]|[01]?[0-9][0-9]?)(?:/(?:[0-2]?\d|3[0-2]))?\b")
    (f64_lit 6 10) [go "ip"; go "ipv4"; go "ipv6"; go "address"]
    None false;
  mkRaw (go "IP_ADDRESS") (go "ipv6")
    (go "(?:[^:\w])(?:(?:[0-9A-Fa-f]{1,4}:){7}[0-9A-Fa-f]{1,4}|(?:[0-9A-Fa-f]{1,4}:){1,7}:|:(?::[0-9A-Fa-f]{1,4}){1,7}|(?:[0-9A-Fa-f]{1,4}:){1,6}:[0-9A-Fa-f]{1,4}|(?:[0-9A-Fa-f]{1,4}:){1,5}(?::[0-9A-Fa-f]{1,4}){1,2}|(?:[0-9A-Fa-f]{1,4}:){1,4}(?::[0-9A-Fa-f]{1,4}){1,3}|(?:[0-9A-Fa-f]{1,4}:){1,3}(?::[0-9A-Fa-f]{1,4}){1,4}|(?:[0-9A-Fa-f]{1,4}:){1,2}(?::[0-9A-Fa-f]{1,4}){1,5}|[0-9A-Fa-f]{1,4}:(?::[0-9A-Fa-f]{1,4}){1,6}|:(?::[0-9A-Fa-f]{1,4}){1,6})(?:[^:\w]|$)")
    (f64_lit 6 10) [go "ip"; go "ipv4"; go "ipv6"]
    None false;
  mkRaw (go "URL") (go "url_bare")
    (go "https?://[^\s<>" ++ dquote ++ go "')\]]+")
    (f64_lit 5 10) []
    (Some v_url) false;
  mkRaw (go "DATE_OF_BIRTH") (go "dob_mdy")
    (go "\b(?:0?[1-9]|1[0-2])[/\-.](?:0?[1-9]|[12]\d|3[01])[/\-.](?:\d{4}|\d{2})\b")
    (f64_lit 3 10) [go "birthday"; go "born"; go "dob"; go "date of birth"; go "birth date"; go "birthdate"]
    None true;
  mkRaw (go "DATE_OF_BIRTH") (go "dob_dmy")
    (go "\b(?:0?[1-9]|[12]\d|3[01])[/\-.](?:0?[1-9]|1[0-2])[/\-.](?:\d{4}|\d{2})\b")
    (f64_lit 3 10) [go "birthday"; go "born"; go "dob"; go "date of birth"; go "birth date"; go "birthdate"]
    None true
].

Definition presidio_defs2 : list rawPattern := [
  mkRaw (go "MAC_ADDRESS") (go "mac_colon_dash")
    (go "\b[0-9A-Fa-f]{2}:[0-9A-Fa-f]{2}:[0-9A-Fa-f]{2}:[0-9A-Fa-f]{2}:[0-9A-Fa-f]{2}:[0-9A-Fa-f]{2}\b")
    (f64_lit 6 10) [go "mac"; go "mac address"; go "hardware address"; go "physical address"; go "ethernet"; go "device"]
    (Some v_mac_colon) false;
  mkRaw (go "MAC_ADDRESS") (go "mac_colon_dash")
    (go "\b[0-9A-Fa-f]{2}-[0-9A-Fa-f]{2}-[0-9A-Fa-f]{2}-[0-9A-Fa-f]{2}-[0-9A-Fa-f]{2}-[0-9A-Fa-f]{2}\b")
    (f64_lit 6 10) [go "mac"; go "mac address"; go "hardware address"; go "physical address"; go "ethernet"; go "device"]
    (Some v_mac_dash) false;
  mkRaw (go "MAC_ADDRESS") (go "mac_cisco_dot")
    (go "\b[0-9A-Fa-f]{4}\.[0-9A-Fa-f]{4}\.[0-9A-Fa-f]{4}\b")
    (f64_lit 6 10) [go "mac"; go "mac address"; go "hardware address"; go "cisco"]
    None false;
  mkRaw (go "US_SSN") (go "us_ssn_dash")
    (go "\b([0-9]{3})[- .]([0-9]{2})[- .]([0-9]{4})\b")
    (f64_lit 5 10) [go "social"; go "security"; go "ssn"; go "ssns"]
    (Some v_ssn) false;
  mkRaw (go "US_ITIN") (go "us_itin_dash")
    (go "\b9\d{2}[- ](5\d|6[0-5]|7\d|8[0-8]|9[0-24-9])[- ]\d{4}\b")
    (f64_lit 5 10) [go "individual"; go "taxpayer"; go "itin"; go "tax"; go "payer"; go "tin"]
    None false;
  mkRaw (go "US_ITIN") (go "us_itin_bare")
    (go "\b9\d{2}(5\d|6[0-5]|7\d|8[0-8]|9[0-24-9])\d{4}\b")
    (f64_lit 3 10) [go "individual"; go "taxpayer"; go "itin"; go "tax"; go "payer"; go "tin"]
    None true;
  mkRaw (go "US_PASSPORT") (go "us_passport_numeric")
    (go "\b\d{9}\b")
    (f64_lit 5 100) [go "passport"; go "travel"; go "document"; go "us passport"]
    None true;
  mkRaw (go "US_PASSPORT") (go "us_passport_alpha")
    (go "\b[A-Z]\d{8}\b")
    (f64_lit 1 10) [go "passport"; go "travel"; go "document"; go "us passport"]
    None false;
  mkRaw (go "US_DRIVER_LICENSE") (go "us_driver_license")
    (go "\b(?:[A-Z]\d{3,6}|[A-Z]\d{5,9}|[A-Z]\d{6,8}|[A-Z]\d{4,8}|[A-Z]\d{9,11}|[A-Z]{1,2}\d{5,6}|[A-Z]{2}\d{2,5}|[A-Z]{2}\d{3,7}|\d{2}[A-Z]{3}\d{5,6}|[A-Z]\d{13,14}|[A-Z]\d{18}|[A-Z]\d{6}R|[A-Z]\d{9}|[A-Z]\d{1,12}|\d{9}[A-Z]|[A-Z]{2}\d{6}[A-Z]|\d{8}[A-Z]{2}|\d{3}[A-Z]{2}\d{4}|[A-Z]\d[A-Z]\d[A-Z]|\d{7,8}[A-Z])\b")
    (f64_lit 3 10) [go "driver"; go "license"; go "licence"; go "permit"; go "identification"; go "driving"; go "dl"; go "lic"]
    None true;
  mkRaw (go "US_BANK_NUMBER") (go "us_bank_number")
    (go "\b\d{10,17}\b")
    (f64_lit 5 100) [go "account#"; go "acct"; go "bank account"; go "checking"; go "savings"; go "routing number"]
    None true
].

Definition presidio_defs3 : list rawPattern := [
  mkRaw (go "ABA_ROUTING") (go "aba_routing_dashed")
    (go "\b[0123678]\d{3}-\d{4}-\d\b")
    (f64_lit 3 10) [go "aba"; go "routing"; go "bankrouting"; go "transit"]
    (Some v_aba_dashed) false;
  mkRaw (go "ABA_ROUTING") (go "aba_routing_bare")
    (go "\b[0123678]\d{8}\b")
    (f64_lit 5 100) [go "aba"; go "routing"; go "bankrouting"; go "transit"]
    (Some v_aba_bare) true;
  mkRaw (go "MEDICAL_LICENSE") (go "dea_license")
    (go "\b[ABCDEFGHJKLMPRSTUXabcdefghjklmprstux][a-zA-Z]\d{7}\b")
    (f64_lit 4 10) [go "medical"; go "certificate"; go "dea"; go "license"; go "npi"; go "provider"]
    None false;
  mkRaw (go "US_MBI") (go "us_mbi_separated")
    (go "\b\d[ACDEFGHJKMNPQRTUVWXY][0-9ACDEFGHJKMNPQRTUVWXY]\d-[ACDEFGHJKMNPQRTUVWXY][0-9ACDEFGHJKMNPQRTUVWXY]\d-[ACDEFGHJKMNPQRTUVWXY][ACDEFGHJKMNPQRTUVWXY]\d{2}\b")
    (f64_lit 5 10) [go "medicare"; go "mbi"; go "beneficiary"; go "cms"; go "medicaid"]
    None false;
  mkRaw (go "US_MBI") (go "us_mbi_bare")
    (go "\b\d[ACDEFGHJKMNPQRTUVWXY][0-9ACDEFGHJKMNPQRTUVWXY]\d[ACDEFGHJKMNPQRTUVWXY][0-9ACDEFGHJKMNPQRTUVWXY]\d[ACDEFGHJKMNPQRTUVWXY][ACDEFGHJKMNPQRTUVWXY]\d{2}\b")
    (f64_lit 3 10) [go "medicare"; go "mbi"; go "beneficiary"; go "cms"; go "medicaid"]
    None true;
  mkRaw (go "US_NPI") (go "us_npi_separated")
    (go "\b[12]\d{3}[ -]\d{3}[ -]\d{3}\b")
    (f64_lit 4 10) [go "npi"; go "national provider"; go "provider"; go "provider id"; go "taxonomy"]
    None false;
  mkRaw (go "US_NPI") (go "us_npi_bare")
    (go "\b[12]\d{9}\b")
    (f64_lit 1 10) [go "npi"; go "national provider"; go "provider"; go "provider id"; go "taxonomy"]
    None true;
  mkRaw (go "UK_NHS") (go "uk_nhs")
    (go "\b\d{3}[- ]?\d{3}[- ]?\d{4}\b")
    (f64_lit 3 10) [go "national health service"; go "nhs"; go "health services authority"; go "health authority"]
    (Some v_nhs) true;
  mkRaw (go "UK_NINO") (go "uk_nino")
    (go "(?i)\b(?!BG|GB|NK|KN|NT|TN|ZZ)[A-CEGHJ-PR-TW-Z][A-CEGHJ-NPR-TW-Z] ?\d{2} ?\d{2} ?\d{2} ?[A-D]\b")
    (f64_lit 5 10) [go "national insurance"; go "ni number"; go "nino"]
    None false;
  mkRaw (go "UK_POSTCODE") (go "uk_postcode")
    (go "\b(?:GIR\s?0AA|[A-PR-UWYZ][0-9][ABCDEFGHJKPSTUW]?\s?[0-9][ABD-HJLNP-UW-Z]{2}|[A-PR-UWYZ][0-9]{2}\s?[0-9][ABD-HJLNP-UW-Z]{2}|[A-PR-UWYZ][A-HK-Y][0-9][ABEHMNPRVWXY]?\s?[0-9][ABD-HJLNP-UW-Z]{2}|[A-PR-UWYZ][A-HK-Y][0-9]{2}\s?[0-9][ABD-HJLNP-UW-Z]{2})\b")
    (f64_lit 1 10) [go "postcode"; go "post code"; go "postal code"; go "zip"; go "address"; go "delivery"; go "mailing"]
    None true;
  mkRaw (go "UK_PASSPORT") (go "uk_passport")
    (go "\b[A-Z]{2}\d{7}\b")
    (f64_lit 1 10) [go "passport"; go "travel document"; go "uk passport"; go "british passport"]
    None true;
  mkRaw (go "UK_DRIVING_LICENCE") (go "uk_driving_licence")
    (go "\b[A-Z9]{5}\d(?:0[1-9]|1[0-2]|5[1-9]|6[0-2])(?:0[1-9]|[12]\d|3[01])\d[A-Z9]{2}[A-Z0-9][A-Z]{2}\b")
    (f64_lit 5 10) [go "driving licence"; go "driving license"; go "driver"; go "dvla"; go "licence number"; go "license number"]
    None false
].

Definition presidio_defs4 : list rawPattern := [
  mkRaw (go "CA_SIN") (go "ca_sin")
    (go "\b[1-79]\d{2}-\d{3}-\d{3}\b")
    (f64_lit 5 10) [go "sin"; go "social insurance"; go "canada"]
    (Some v_ca_sin) false;
  mkRaw (go "CA_SIN") (go "ca_sin")
    (go "\b[1-79]\d{2} \d{3} \d{3}\b")
    (f64_lit 5 10) [go "sin"; go "social insurance"; go "canada"]
    (Some v_ca_sin) false;
  mkRaw (go "AU_TFN") (go "au_tfn")
    (go "\b\d{3}\s\d{3}\s\d{3}\b")
    (f64_lit 1 10) [go "tax file number"; go "tfn"]
    (Some v_au_tfn) true;
  mkRaw (go "IN_PAN") (go "in_pan")
    (go "(?i)\b[A-Z]{3}[ABCFGHLJPT][A-Z]\d{4}[A-Z]\b")
    (f64_lit 5 10) [go "permanent account number"; go "pan"; go "income tax"]
    None false;
  mkRaw (go "ES_NIF") (go "es_nif")
    (go "\b\d{8}[A-Z]\b")
    (f64_lit 3 10) [go "dni"; go "nif"; go "identificacion"; go "documento"]
    (Some v_es_nif) false;
  mkRaw (go "DE_PASSPORT") (go "de_passport")
    (go "\b[CFGHJKLMNPRTVWXYZ][CFGHJKLMNPRTVWXYZ0-9]{7}\d\b")
    (f64_lit 4 10) [go "reisepass"; go "passport"; go "passnummer"; go "passport number"]
    None true;
  mkRaw (go "SG_NRIC_FIN") (go "sg_nric_fin")
    (go "(?i)\b[STFGM]\d{7}[A-Z]\b")
    (f64_lit 5 10) [go "fin"; go "nric"; go "singapore"]
    None false;
  mkRaw (go "PERSON_ID") (go "person_id_generic")
    (go "(?i)(?:customer|employee|member|patient|policy|claim|case|ref(?:erence)?|order|invoice|ticket|tracking|confirmation|transaction)\s*(?:id|no|number|num|#|:)\s*[:=#]?\s*[A-Z0-9\-]{4,20}\b")
    (f64_lit 5 10) []
    None false;
  mkRaw (go "SWIFT_BIC") (go "swift_bic")
    (go "\b[A-Z]{4}[A-Z]{2}[A-Z0-9]{2}(?:[A-Z0-9]{3})?\b")
    (f64_lit 3 10) [go "swift"; go "bic"; go "wire"; go "routing"; go "correspondent"]
    (Some v_swift) true
].

Definition presidio_defs5 : list rawPattern := [
  mkRaw (go "CVV") (go "cvv")
    (go "(?i)(?:cvv|cvc|cvv2|cvc2|security\s*code|card\s*verification)\s*[:=]?\s*\d{3,4}\b")
    (f64_lit 6 10) [go "card"; go "credit"; go "visa"; go "mastercard"; go "amex"; go "expir"; go "cardholder"; go "payment"]
    None true;
  mkRaw (go "PHONE_NUMBER") (go "phone_parens")
    (go "\(\d{3}\)[\s.\-]?\d{3}[\s.\-]?\d{4}")
    (f64_lit 7 10) []
    None false;
  mkRaw (go "PHONE_NUMBER") (go "phone_dash_dot")
    (go "\b\d{3}[\-\.]\d{3}[\-\.]\d{4}\b")
    (f64_lit 6 10) []
    None false;
  mkRaw (go "PHONE_NUMBER") (go "phone_intl_plus")
    (go "\+\d{1,4}[\s\-.]?\(?\d{1,5}\)?[\s\-.]?\d{2,5}[\s\-.]?\d{2,5}[\s\-.]?\d{0,5}")
    (f64_lit 6 10) []
    None false;
  mkRaw (go "PHONE_NUMBER") (go "phone_leading_zero")
    (go "\b0\d{2,4}[\s.\-]\d{3,8}[\s.\-]?\d{0,6}\b")
    (f64_lit 5 10) [go "phone"; go "tel"; go "mobile"; go "cell"; go "call"; go "fax"; go "contact"]
    None false;
  mkRaw (go "PHONE_NUMBER") (go "phone_double_zero")
    (go "\b00\d{2,4}[\s.\-]\d{2,5}[\s\-.]?\d{3,5}[\s\-.]?\d{0,5}\b")
    (f64_lit 5 10) []
    None false;
  mkRaw (go "AWS_ACCESS_KEY") (go "aws_access_key")
    (go "AKIA[0-9A-Z]{16}")
    (f64_lit 9 10) []
    None false;
  mkRaw (go "AWS_SECRET_KEY") (go "aws_secret_key")
    (go "(?i)aws_secret_access_key\s*[=:]\s*[A-Za-z0-9/+=]{40}")
    (f64_lit 9 10) []
    None false;
  mkRaw (go "GCP_API_KEY") (go "gcp_api_key")
    (go "AIza[0-9A-Za-z\-_]{35}")
    (f64_lit 9 10) []
    None false;
  mkRaw (go "PRIVATE_KEY") (go "private_key_pem")
    (go "(?s)-----BEGIN\s+(?:RSA |EC |DSA |OPENSSH )?PRIVATE KEY-----.*?-----END\s+(?:RSA |EC |DSA |OPENSSH )?PRIVATE KEY-----")
    (f64_lit 10 10) []
    None false;
  mkRaw (go "JWT") (go "jwt")
    (go "eyJ[A-Za-z0-9_-]+\.eyJ[A-Za-z0-9_-]+\.[A-Za-z0-9_\-]+")
    (f64_lit 9 10) []
    None false;
  mkRaw (go "CONNECTION_STRING") (go "connection_string")
    (go "(?i)(?:mongodb|postgres|mysql|redis|amqp):\/\/[^\s]+")
    (f64_lit 8 10) []
    None false;
  mkRaw (go "GENERIC_SECRET") (go "generic_secret_kv")
    (go "(?i)(?:password|secret|token|api_key|apikey)\s*[=:]\s*['" ++ dquote ++ go "]?[A-Za-z0-9/+=\-_]{8,}['" ++ dquote ++ go "]?")
    (f64_lit 7 10) []
    None false;
  mkRaw (go "GENERIC_SECRET") (go "generic_secret_pwd")
    (go "(?i)(?:password|passwd|pwd)\s*[=:]\s*['" ++ dquote ++ go "]?[^\s'" ++ dquote ++ go "]{4,}['" ++ dquote ++ go "]?")
    (f64_lit 6 10) []
    None false;
  mkRaw (go "PASSWORD") (go "password_prose")
    (go "(?i)(?:password|passwd|pwd|passcode)\s*(?:is|was|:)\s*(?!(?:valid|invalid|temporary|required|optional|incorrect|correct|wrong|right|expired|changed|reset|secure|strong|weak|empty|null|blank|missing|set|enabled|disabled|locked|unlocked)\b)[^\s,;]{4,40}")
    (f64_lit 7 10) []
    None false;
  mkRaw (go "IMEI") (go "imei")
    (go "\b\d{2}-\d{6}-\d{6}-\d{1}\b")
    (f64_lit 7 10) []
    None false;
  mkRaw (go "CC_EXPIRY") (go "cc_expiry")
    (go "\b(?:0[1-9]|1[0-2])\/(?:2[0-9]|3[0-9])\b")
    (f64_lit 4 10) [go "card"; go "credit"; go "expir"; go "exp"; go "valid"]
    None false;
  mkRaw (go "INSURANCE_ID") (go "insurance_id")
    (go "(?i)(?:insurance|policy|health\s*plan|member)\s*(?:no|number|id|#|:)\s*[A-Z]{0,3}\d{6,12}\b")
    (f64_lit 6 10) []
    None false;
  mkRaw (go "REGISTRATION_ID") (go "registration_id_generic")
    (go "(?i)(?:student|registration|reg|enrollment)\s*(?:no|number|id|#|:)\s*(?=[A-Z0-9\-]*\d)[A-Z0-9\-]{5,15}\b")
    (f64_lit 6 10) []
    None false;
  mkRaw (go "IBAN_CODE") (go "iban_simple")
    (go "\b[A-Z]{2}\d{2}[A-Z0-9]{4}\d{7}[A-Z0-9]{0,16}\b")
    (f64_lit 5 10) [go "iban"; go "bank"; go "account"]
    None false;
  mkRaw (go "CREDIT_CARD") (go "credit_card_4x4")
    (go "\b\d{4}[\s\-]\d{4}[\s\-]\d{4}[\s\-]\d{4}\b")
    (f64_lit 7 10) []
    None false;
  mkRaw (go "HEALTH_PLAN_ID") (go "health_plan_id")
    (go "(?i)(?:health\s*plan|beneficiary|hpb|hic|hicn|subscriber)\s*(?:id|no|number|num|#|:)\s*[:=#]?\s*[A-Z0-9\-]{6,15}\b")
    (f64_lit 7 10) []
    None false;
  mkRaw (go "MEDICAL_RECORD") (go "medical_record_mrn")
    (go "(?i)(?:medical\s*record|mrn|chart|patient\s*id|medical\s*id)\s*(?:no|number|num|#|:)?\s*[:=#]?\s*(?=[A-Z0-9\-]*\d)[A-Z0-9\-]{4,15}\b")
    (f64_lit 7 10) []
    None false;
  mkRaw (go "BIOMETRIC_ID") (go "biometric_id")
    (go "(?i)(?:biometric|fingerprint|face\s*id|retina|iris)\s*(?:id|hash|data|scan|template|no|number|#|:)\s*[:=#]?\s*(?=[A-Za-z0-9\-_]*\d)[A-Za-z0-9\-_]{8,64}\b")
    (f64_lit 6 10) []
    None false;
  mkRaw (go "LICENSE_PLATE") (go "license_plate")
    (go "(?i)(?:license\s*plate|plate\s*(?:no|number|#)|vehicle\s*(?:reg|registration)|vrn)\s*[:=#]?\s*[A-Z0-9]{2,3}[\s\-]?[A-Z0-9]{2,4}[\s\-]?[A-Z0-9]{1,4}\b")
    (f64_lit 6 10) []
    None false;
  mkRaw (go "URL_WITH_TOKEN") (go "url_with_token")
    (go "https?://[^\s<>" ++ dquote ++ go "')\]]*[?&](?:token|session|auth|key|api_key|access_token|sid|csrf|jwt)=[^\s<>" ++ dquote ++ go "')\]&]+")
    (f64_lit 8 10) []
    None false;
  mkRaw (go "US_SSN") (go "us_ssn_dash")
    (go "\b\d{3}-\d{2}-\d{4}\b")
    (f64_lit 5 10) [go "social"; go "security"; go "ssn"]
    None false;
  mkRaw (go "US_SSN") (go "us_ssn_space")
    (go "\b\d{3}\s\d{2}\s\d{4}\b")
    (f64_lit 5 10) [go "social"; go "security"; go "ssn"]
    None false
].

Definition presidio_defs : list rawPattern :=
  presidio_defs1 ++ presidio_defs2 ++ presidio_defs3 ++ presidio_defs4 ++ presidio_defs5.

(** ** The scanner *)

Record patternDef := mkPattern {
  pd_label : gostring;
  pd_ruleID : gostring;
  pd_re : Regexp;
  pd_score : float64;
  pd_context : list gostring;
  pd_validate : option (gostring → bool);
  pd_contextReq : bool;
}.

Record presidioState := mkPresidio {
  ps_patterns : list patternDef;
  ps_enabled : gostring → bool;
}.

(** A pattern that does not compile, or whose rule is off, is left out. *)
Definition compile_raw (enabled : gostring → bool) (d : rawPattern) : option patternDef :=
  match Compile (rw_pattern d) with
  | None => None
  | Some re =>
      if negb (bool_decide (rw_ruleID d = [])) && negb (enabled (rw_ruleID d)) then None
      else Some (mkPattern (rw_label d) (rw_ruleID d) re (rw_score d) (rw_context d)
                   (rw_validate d) (rw_contextReq d))
  end.
Definition compilePatterns (enabled : gostring → bool) : list patternDef :=
  omap (compile_raw enabled) presidio_defs.

Definition rebuild (enabled : gostring → bool) : presidioState :=
  mkPresidio (compilePatterns enabled) enabled.
Definition NewWithEnabled (enabled : gostring → bool) : presidioState := rebuild enabled.
Definition NewPresidio : presidioState := NewWithEnabled (λ _, true).
Definition Presidio_Reconfigure (enabled : gostring → bool) : presidioState := rebuild enabled.

Definition f64_035 : float64 := f64_lit 35 100.
Definition f64_one : float64 := f64_of_Z 1.
Definition f64_03 : float64 := f64_lit 3 10.

(** The context window: the bytes of the lower-cased text from 100 before to
    100 after the match. *)
Definition context_window (lower : gostring) (m : Z * Z) : res gostring gostring :=
  let windowStart := if m.1 - 100 <? 0 then 0 else m.1 - 100 in
  let windowEnd := if len lower <? m.2 + 100 then len lower else m.2 + 100 in
  slice lower windowStart windowEnd.

(** The score a match ends with: [None] when a required context is missing. *)
Definition match_score (p : patternDef) (lower : gostring) (m : Z * Z)
    : res gostring (option float64) :=
  match pd_context p with
  | [] => Ok (Some (pd_score p))
  | _ =>
      window ← context_window lower m;
      if existsb (Contains window) (pd_context p) then
        let score := f64_add (pd_score p) f64_035 in
        Ok (Some (if f64_lt f64_one score then f64_one else score))
      else if pd_contextReq p then Ok None
      else Ok (Some (pd_score p))
  end.

(** One iteration of the inner loop: the finding to append, if any. *)
Definition presidio_match (text lower : gostring) (p : patternDef) (m : Z * Z)
    : res gostring (option Finding) :=
  matched ← slice text m.1 m.2;
  if match pd_validate p with Some v => negb (v matched) | None => false end then Ok None
  else
    score ← match_score p lower m;
    match score with
    | None => Ok None
    | Some s =>
        if f64_lt s f64_03 then Ok None
        else Ok (Some (mkFinding (pd_label p) matched m.1 m.2 s (go "presidio")))
    end.

Fixpoint presidio_matches (text lower : gostring) (p : patternDef) (ms : list (Z * Z))
    : res gostring (list Finding) :=
  match ms with
  | [] => Ok []
  | m :: ms' =>
      f ← presidio_match text lower p m;
      fs ← presidio_matches text lower p ms';
      Ok (option_list f ++ fs)
  end.

Fixpoint presidio_patterns (text lower : gostring) (ps : list patternDef)
    : res gostring (list Finding) :=
  match ps with
  | [] => Ok []
  | p :: ps' =>
      fs ← presidio_matches text lower p (FindAllStringIndex (pd_re p) text);
      rest ← presidio_patterns text lower ps';
      Ok (fs ++ rest)
  end.

(** [Scan]; a nil state reports nothing. *)
Definition Presidio_Scan (state : option presidioState) (ms : Z) (text : gostring)
    : res gostring ScanResult :=
  let lower := ToLower text in
  match state with
  | None => Ok (mkScanResult [] ms)
  | Some st => fs ← presidio_patterns text lower (ps_patterns st); Ok (mkScanResult fs ms)
  end.
End presidio.

(** ** What the scan reports *)

Section presidio_props.
Context `{RegexpEngine} `{UnicodeData}.

Lemma len_ToLower_ascii s : is_ascii s → len (ToLower s) = len s.
Proof. intros Hs. unfold len. by rewrite ToLower_ascii_length by (by apply is_ascii_only). Qed.

(** On ASCII text the window is always in range. *)
Definition window_of (lower : gostring) (m : Z * Z) : gostring :=
  sub lower (Z.max 0 (m.1 - 100)) (Z.min (len lower) (m.2 + 100)).

Lemma context_window_ok lower m :
  0 ≤ m.1 ≤ m.2 → m.2 ≤ len lower → context_window lower m = Ok (window_of lower m).
Proof.
  intros H1 H2. unfold context_window, window_of.
  assert ((if m.1 - 100 <? 0 then 0 else m.1 - 100) = Z.max 0 (m.1 - 100)) as -> by (if_case; lia).
  assert ((if len lower <? m.2 + 100 then len lower else m.2 + 100) = Z.min (len lower) (m.2 + 100))
    as -> by (if_case; lia).
  apply slice_Ok; lia.
Qed.

(** The score of a match as a function of the window. *)
Definition score_in (p : patternDef) (window : gostring) : option float64 :=
  match pd_context p with
  | [] => Some (pd_score p)
  | _ =>
      if existsb (Contains window) (pd_context p) then
        let score := f64_add (pd_score p) f64_035 in
        Some (if f64_lt f64_one score then f64_one else score)
      else if pd_contextReq p then None else Some (pd_score p)
  end.

(** The finding a match gives rise to. *)
Definition finding_of (text : gostring) (p : patternDef) (m : Z * Z) : option Finding :=
  let matched := sub text m.1 m.2 in
  if match pd_validate p with Some v => negb (v matched) | None => false end then None
  else
    s ← score_in p (window_of (ToLower text) m);
    if f64_lt s f64_03 then None
    else Some (mkFinding (pd_label p) matched m.1 m.2 s (go "presidio")).

Lemma presidio_match_ok text p m :
  is_ascii text → 0 ≤ m.1 ≤ m.2 → m.2 ≤ len text →
  presidio_match text (ToLower text) p m = Ok (finding_of text p m).
Proof.
  intros Ha H1 H2. unfold presidio_match, finding_of. rewrite slice_Ok by lia. cbn [mbind res_bind].
  case_match; [done|]. unfold match_score, score_in.
  destruct (pd_context p) as [|c cs]; cbn [mbind res_bind option_bind].
  - by destruct (f64_lt (pd_score p) f64_03).
  - rewrite context_window_ok by (rewrite ?len_ToLower_ascii by done; lia). cbn [mbind res_bind].
    destruct (existsb _ (c :: cs)); [|destruct (pd_contextReq p)]; cbn [mbind res_bind option_bind];
      [|done|]; by destruct (f64_lt _ f64_03).
Qed.

Lemma presidio_patterns_ok text ps :
  is_ascii text →
  presidio_patterns text (ToLower text) ps =
    Ok (ps ≫= λ p, FindAllStringIndex (pd_re p) text ≫= λ m, option_list (finding_of text p m)).
Proof.
  intros Ha. induction ps as [|p ps IH]; [done|]. cbn [presidio_patterns].
  pose proof (ordered_matches_bounds _ _ _ (FindAll_ordered (pd_re p) text) ltac:(lia)) as Hb.
  assert (presidio_matches text (ToLower text) p (FindAllStringIndex (pd_re p) text) =
    Ok (FindAllStringIndex (pd_re p) text ≫= λ m, option_list (finding_of text p m))) as ->.
  { induction Hb as [|m ms [? ?] Hms IHm]; [done|]. cbn [presidio_matches].
    rewrite presidio_match_ok by done. cbn [mbind res_bind]. rewrite IHm. done. }
  cbn [mbind res_bind]. rewrite IH. done.
Qed.

(** *** What a row of the table asks for *)

(** The word stands in the lower-cased text within 100 bytes of the match. *)
Definition near (text : gostring) (a b : Z) (w : gostring) : Prop :=
  ∃ i, 0 ≤ i ∧ a - 100 ≤ i ∧ i + len w ≤ b + 100 ∧ i + len w ≤ len text
    ∧ sub (ToLower text) i (i + len w) = w.

(** The score of a match: its row's, raised by 0.35 but not past one when one of
    the row's words is near; a row that requires a word has no score without. *)
Inductive scored (text : gostring) (d : rawPattern) (a b : Z) : float64 → Prop :=
| ScoredPlain :
    Forall (λ w, ¬ near text a b w) (rw_context d) → (rw_context d = [] ∨ rw_contextReq d = false) →
    scored text d a b (rw_score d)
| ScoredNear s :
    Exists (near text a b) (rw_context d) → s = f64_add (rw_score d) (f64_lit 35 100) →
    scored text d a b (if f64_lt (f64_of_Z 1) s then f64_of_Z 1 else s).

(** The row reports the finding: its rule is on, its pattern compiles and matches
    there, its validator accepts the matched text, and the score is 0.3 or more. *)
Definition reports (text : gostring) (d : rawPattern) (enabled : gostring → bool) (f : Finding) : Prop :=
  (rw_ruleID d = [] ∨ enabled (rw_ruleID d) = true)
  ∧ ∃ re a b s, Compile (rw_pattern d) = Some re ∧ (a, b) ∈ FindAllStringIndex re text
    ∧ (∀ valid, rw_validate d = Some valid → valid (sub text a b) = true)
    ∧ scored text d a b s ∧ f64_lt s (f64_lit 3 10) = false
    ∧ f = mkFinding (rw_label d) (sub text a b) a b s (go "presidio").

Lemma compile_raw_Some enabled d p :
  compile_raw enabled d = Some p ↔
  (rw_ruleID d = [] ∨ enabled (rw_ruleID d) = true)
  ∧ ∃ re, Compile (rw_pattern d) = Some re
    ∧ p = mkPattern (rw_label d) (rw_ruleID d) re (rw_score d) (rw_context d) (rw_validate d) (rw_contextReq d).
Proof.
  unfold compile_raw. destruct (Compile (rw_pattern d)) as [re|]; [|naive_solver].
  case_bool_decide; destruct (enabled (rw_ruleID d)); cbn; naive_solver.
Qed.

Lemma near_Contains text a b w :
  is_ascii text → 0 ≤ a ≤ b → b ≤ len text →
  near text a b w ↔ Contains (window_of (ToLower text) (a, b)) w = true.
Proof.
  intros Ha Hab Hb. pose proof (len_ToLower_ascii text Ha) as Hl. pose proof (len_nonneg w).
  rewrite Contains_sub. unfold near, window_of. cbn [fst snd]. rewrite Hl.
  rewrite len_sub by (rewrite ?Hl; lia). split.
  - intros (i & ? & ? & ? & ? & Hs). exists (i - Z.max 0 (a - 100)). split; [lia|].
    rewrite sub_sub by lia. etransitivity; [|exact Hs]. f_equal; lia.
  - intros (i & ? & Hs). exists (Z.max 0 (a - 100) + i). rewrite sub_sub in Hs by lia.
    split_and!; [lia..|]. etransitivity; [|exact Hs]. f_equal; lia.
Qed.

Lemma score_in_scored text d re a b s :
  is_ascii text → 0 ≤ a ≤ b → b ≤ len text →
  score_in (mkPattern (rw_label d) (rw_ruleID d) re (rw_score d) (rw_context d) (rw_validate d) (rw_contextReq d))
    (window_of (ToLower text) (a, b)) = Some s ↔ scored text d a b s.
Proof.
  intros Ha Hab Hb. unfold score_in. cbn [pd_context pd_score pd_contextReq].
  assert (∀ ws, existsb (Contains (window_of (ToLower text) (a, b))) ws = true ↔ Exists (near text a b) ws) as Hex.
  { intros ws. rewrite existsb_exists, Exists_exists.
    split; intros (w & ? & ?); exists w; (split; [by apply list_elem_of_In|by apply near_Contains]). }
  destruct (rw_context d) as [|c cs] eqn:Hc.
  - split; [intros [= <-]; apply ScoredPlain; rewrite Hc; eauto|].
    intros [|? Hn ?]; [done|]. rewrite Hc in Hn. by apply Exists_nil in Hn.
  - specialize (Hex (c :: cs)). destruct (existsb _ (c :: cs)).
    + destruct Hex as [Hex _]. specialize (Hex eq_refl).
      split; [intros [= <-]; eapply ScoredNear; [by rewrite Hc|done]|].
      intros [Hf _|? _ ->]; [|done].
      exfalso. rewrite Hc in Hf. rewrite Forall_forall in Hf. apply Exists_exists in Hex as (w & Hw & ?).
      by apply (Hf w).
    + assert (¬ Exists (near text a b) (c :: cs)) as Hno by (by intros ?%Hex).
      destruct (rw_contextReq d) eqn:Hr.
      * split; [done|]. intros [_ [|]|? Hn _]; [congruence..|]. by rewrite Hc in Hn.
      * split; [intros [= <-]|intros [_ _|? Hn _]; [done|by rewrite Hc in Hn]].
        apply ScoredPlain; [|by right]. rewrite Hc. apply Forall_forall. intros w Hw Hn.
        apply Hno, Exists_exists. eauto.
Qed.

(** The rows of the table ask for what the compiled patterns yield. *)
Lemma reports_code text d enabled f :
  is_ascii text →
  reports text d enabled f ↔
  ∃ p m, compile_raw enabled d = Some p ∧ m ∈ FindAllStringIndex (pd_re p) text ∧ finding_of text p m = Some f.
Proof.
  intros Ha.
  assert (∀ re a b, (a, b) ∈ FindAllStringIndex re text → 0 ≤ a ≤ b ∧ b ≤ len text) as Hb.
  { intros re a b Hm. pose proof (ordered_matches_bounds _ _ _ (FindAll_ordered re text) ltac:(lia)) as Hb.
    rewrite Forall_forall in Hb. by apply (Hb (a, b)). }
  split.
  - intros (Hon & re & a & b & s & Hc & Hm & Hv & Hs & Hlt & ->). destruct (Hb re a b Hm).
    eexists _, (a, b). split; [apply compile_raw_Some; eauto|]. split; [done|].
    unfold finding_of. cbn [pd_validate fst snd].
    assert (match rw_validate d with Some v => negb (v (sub text a b)) | None => false end = false) as ->.
    { destruct (rw_validate d) as [v|]; [|done]. by rewrite (Hv v eq_refl). }
    apply (score_in_scored text d re a b s) in Hs; [|done..]. rewrite Hs. cbn. unfold f64_03. by rewrite Hlt.
  - intros (p & [a b] & (Hon & re & Hc & ->)%compile_raw_Some & Hm & Hf). cbn [pd_re] in Hm.
    destruct (Hb re a b Hm). split; [done|]. unfold finding_of in Hf. cbn [pd_validate fst snd] in Hf.
    case_match eqn:Hv; [done|]. apply bind_Some in Hf as (s & Hs & Hf).
    apply score_in_scored in Hs; [|done..]. destruct (f64_lt s f64_03) eqn:Hlt; [done|].
    injection Hf as <-. exists re, a, b, s. split_and!; try done.
    intros v Hd. rewrite Hd in Hv. by apply negb_false_iff.
Qed.

Lemma Presidio_Scan_spec enabled ms text :
  is_ascii text →
  ∃ fs, Presidio_Scan (Some (rebuild enabled)) ms text = Ok (mkScanResult fs ms)
    ∧ ∀ f, f ∈ fs ↔ ∃ d, d ∈ presidio_defs ∧ reports text d enabled f.
Proof.
  intros Ha. unfold Presidio_Scan. rewrite presidio_patterns_ok by done. cbn [mbind res_bind].
  eexists. split; [done|]. intros f. rewrite list_elem_of_bind. split.
  - intros (p & Hf & Hp). apply list_elem_of_bind in Hf as (m & Hf & Hm).
    apply list_elem_of_omap in Hp as (d & Hd & Hc).
    exists d. split; [done|]. apply reports_code; [done|]. exists p, m. split_and!; [done..|].
    destruct (finding_of text p m); cbn in Hf; [|by apply not_elem_of_nil in Hf].
    by apply list_elem_of_singleton in Hf as ->.
  - intros (d & Hd & (p & m & Hc & Hm & Hf)%reports_code); [|done]. exists p. split.
    + apply list_elem_of_bind. exists m. split; [|done]. rewrite Hf. by apply list_elem_of_singleton.
    + apply list_elem_of_omap. eauto.
Qed.

(** C13: on ASCII text the Presidio scan never panics and reports exactly the
    matches its rules ask for: a finding is in the result if and only if some row
    of the table whose rule is enabled and whose pattern compiles matches there,
    the row's validator accepts the matched text, the finding has the row's label,
    the match's bounds and text, and the row's score — raised by 0.35 up to one
    when one of the row's words stands within 100 bytes of the match in the
    lower-cased text, none when a required word is missing — and that is 0.3 or more. *)
Theorem Presidio_Scan_reports enabled ms text :
  is_ascii text →
  ∃ fs, Presidio_Scan (Some (rebuild enabled)) ms text = Ok (mkScanResult fs ms)
    ∧ ∀ f, f ∈ fs ↔ ∃ d, d ∈ presidio_defs ∧ reports text d enabled f.
Proof. apply Presidio_Scan_spec. Qed.

(** The layer the pipeline runs. *)
Definition presidio_layer (enabled : gostring → bool) (ms : nat → gostring → Z) (timer : nat → gostring → bool)
    : Layer :=
  mkLayer presidioState (NewWithEnabled enabled) (go "presidio") (λ _ _, true)
    (λ n st text, Presidio_Scan (Some st) (ms n text) text)
    (Some (λ enabled _, Presidio_Reconfigure enabled)) ms timer.

Lemma presidio_labels_ascii : Forall (λ d, is_ascii (rw_label d)) presidio_defs.
Proof.
  unfold presidio_defs, presidio_defs1, presidio_defs2, presidio_defs3, presidio_defs4, presidio_defs5.
  repeat (apply Forall_app; split); repeat (apply Forall_cons; split; [|]);
    try apply Forall_nil; try exact I; cbn [rw_label]; vm_compute; repeat constructor.
Qed.

Lemma reports_inv text d enabled f :
  reports text d enabled f →
  within (len text) f ∧ sub text (f_start f) (f_end f) = f_value f ∧ f_label f = rw_label d.
Proof.
  intros (_ & re & a & b & s & _ & Hm & _ & _ & _ & ->).
  pose proof (ordered_matches_bounds _ _ _ (FindAll_ordered re text) ltac:(lia)) as Hb.
  rewrite Forall_forall in Hb. specialize (Hb (a, b) Hm). cbn in Hb.
  unfold within. cbn. split_and!; [lia..|done|done].
Qed.

Lemma presidio_layer_faithful enabled ms timer :
  layer_faithful ascii_text (presidio_layer enabled ms timer).
Proof.
  split.
  - intros n t Ht. destruct (Presidio_Scan_spec enabled (ms n t) t Ht) as (fs & E & Hfs).
    change (l_scan (presidio_layer enabled ms timer) n t)
      with (Presidio_Scan (Some (rebuild enabled)) (ms n t) t).
    rewrite E. split; [done|]. intros r [= <-]. cbn. apply Forall_forall.
    intros f (d & Hd & Hr)%Hfs. apply reports_inv in Hr as (? & _ & ->). split; [done|].
    pose proof presidio_labels_ascii as Hl. rewrite Forall_forall in Hl. by apply Hl.
  - intros n t r Ht. destruct (Presidio_Scan_spec enabled (ms n t) t Ht) as (fs & E & Hfs).
    change (l_scan (presidio_layer enabled ms timer) n t)
      with (Presidio_Scan (Some (rebuild enabled)) (ms n t) t).
    rewrite E. intros [= <-]. cbn. apply Forall_forall.
    intros f (d & Hd & Hr)%Hfs. by apply reports_inv in Hr as (_ & ? & _).
Qed.
End presidio_props.

(** ** The table, evaluated *)

Section table.
Local Existing Instance re2.
Local Existing Instance sample_unicode.

Definition ssn_only (id : gostring) : bool := bool_decide (id = go "us_ssn_dash").

Theorem Presidio_Scan_reports_witness :
  ∃ fs, Presidio_Scan (Some (rebuild ssn_only)) 0 (go "ssn 536-90-4399") = Ok (mkScanResult fs 0)
    ∧ ∀ f, f ∈ fs ↔ ∃ d, d ∈ presidio_defs ∧ reports (go "ssn 536-90-4399") d ssn_only f.
Proof.
  apply (Presidio_Scan_reports ssn_only 0 (go "ssn 536-90-4399")).
  vm_compute. repeat constructor.
Defined.

Definition found (r : res gostring ScanResult) : res gostring (list (gostring * gostring)) :=
  (λ r, (λ f, (f_label f, f_value f)) <$> sr_findings r) <$> r.

Example presidio_ssn :
  found (Presidio_Scan (Some (rebuild ssn_only)) 0 (go "ssn 536-90-4399")) =
  Ok [(go "US_SSN", go "536-90-4399"); (go "US_SSN", go "536-90-4399")].
Proof. vm_compute. reflexivity. Qed.

Example presidio_all :
  found (Presidio_Scan (Some NewPresidio) 0 (go "mail bob@corp.io, card 4111-1111-1111-1111")) =
  Ok [(go "EMAIL_ADDRESS", go "bob@corp.io"); (go "CREDIT_CARD", go "4111-1111-1111-1111")].
Proof. vm_compute. reflexivity. Qed.

(** Seven Presidio rules of the catalogue can never report anything: the
    patterns of six of them use look-ahead, which Go's regexp rejects, and
    [compilePatterns] drops a pattern that does not compile without a word; for
    one the table has no pattern at all.  All other patterns compile, and every
    pattern belongs to a rule of the catalogue. *)
Lemma presidio_dead_rules :
  let live := rw_ruleID <$> filter (λ d, re2_compile (rw_pattern d) ≠ None) presidio_defs in
  (rs_id <$> filter (λ r, rs_layer r = go "presidio" ∧ rs_id r ∉ live) AllRules) =
    [go "password_prose"; go "credit_card_luhn"; go "credit_card_bare"; go "medical_record_mrn";
     go "biometric_id"; go "uk_nino"; go "registration_id_generic"]
  ∧ (rw_ruleID <$> filter (λ d, re2_compile (rw_pattern d) = None) presidio_defs) =
    [go "credit_card_luhn"; go "uk_nino"; go "password_prose"; go "registration_id_generic";
     go "medical_record_mrn"; go "biometric_id"]
  ∧ Forall (λ d, rw_ruleID d ∈ rs_id <$> AllRules) presidio_defs.
Proof.
  split_and!; [vm_compute; reflexivity..|].
  apply Forall_forall. intros d Hd.
  assert (forallb (λ d, bool_decide (rw_ruleID d ∈ rs_id <$> AllRules)) presidio_defs = true) as Hall
    by (vm_compute; reflexivity).
  rewrite forallb_forall in Hall. apply list_elem_of_In in Hd. specialize (Hall d Hd).
  by apply bool_decide_eq_true in Hall.
Qed.

(** A text whose lower case is shorter: capital I with dot, two bytes, becomes
    the one-byte letter i. *)
Definition dotted (n : nat) : gostring := concat (replicate n [chr 196; chr 176]).

(** The context window is cut from the lower-cased text with the offsets of
    the original, so a text that shrinks when lower-cased makes the scan panic:
    an SSN after 120 capital dotted I's (U+0130) does, at a slice expression
    whose start is past its end. *)
Lemma Presidio_Scan_panics_on_shrinking_text :
  Presidio_Scan (Some (rebuild ssn_only)) 0 (dotted 120 ++ go " 536-90-4399") = Panic.
Proof. vm_compute. reflexivity. Qed.
End table.
