(* ===== verification/Entropy.v ===== *)
(** * The entropy layer — internal/scanner/entropy/entropy.go

    Tokens of letters, digits and a few symbols, filtered by heuristics and by
    their Shannon entropy.  [math.Log2] and the order in which Go ranges over a
    map are the class [EntropyEnv]; the arithmetic is float64. *)
From S2P Require Import Prelude GoStr Utf8 GoFloat GoSort Spans Scanner Redactor.
Local Open Scope Z_scope.

Class EntropyEnv := {
  Log2 : float64 → float64;
  (** the order of one [range] over a map of rune counts *)
  map_range : list (N * float64) → list (N * float64);
  map_range_perm : ∀ l, map_range l ≡ₚ l;
}.

Record entropyConfig := mkEntropyConfig { ec_keywordGated : bool; ec_unconditional : bool }.

Record EntropyScanner := mkEntropy {
  es_threshold : float64;
  es_minLength : Z;
  es_config : entropyConfig;
}.

Definition NewEntropy (threshold : float64) (minLength : Z) : EntropyScanner :=
  mkEntropy threshold minLength (mkEntropyConfig true false).

Definition Entropy_SetEnabled (s : EntropyScanner) (keywordGated unconditional : bool) : EntropyScanner :=
  mkEntropy (es_threshold s) (es_minLength s) (mkEntropyConfig keywordGated unconditional).

Definition Entropy_Reconfigure (enabled : gostring → bool) (s : EntropyScanner) : EntropyScanner :=
  Entropy_SetEnabled s (enabled (go "entropy_keyword_gated")) (enabled (go "entropy_unconditional")).

Record token := mkToken { tk_value : gostring; tk_start : Z; tk_end : Z }.

Section entropy.
Context `{UnicodeData}.

Definition isTokenChar (r : N) : bool :=
  IsLetter r || IsDigit r || (r =? 43)%N || (r =? 47)%N || (r =? 61)%N || (r =? 45)%N || (r =? 95)%N.

Definition char_class (r : N) : Z :=
  if IsUpper r then 1 else if IsLower r then 2 else if IsDigit r then 4 else 8.

(** The bits of [classes], counted by shifting; four bits are ever set. *)
Fixpoint count_bits (fuel : nat) (classes : Z) : Z :=
  match fuel with
  | 0%nat => 0
  | S k => if 0 <? classes then Z.land classes 1 + count_bits k (Z.shiftr classes 1) else 0
  end.
Definition hasCharVariety (s : gostring) : bool :=
  2 <=? count_bits 8 (foldl (λ c r, Z.lor c (char_class r)) 0 (runes s)).

(** The longest prefix of token characters, and the rest. *)
Fixpoint span_token (rs : list N) : list N * list N :=
  match rs with
  | r :: rs' => if isTokenChar r then let '(a, b) := span_token rs' in (r :: a, b) else ([], rs)
  | [] => ([], [])
  end.

(** The loop of [extractTokens] at rune index [i]. *)
Fixpoint extract_loop (fuel : nat) (minLen i : Z) (rs : list N) : list token :=
  match fuel, rs with
  | S k, r :: rs' =>
      if isTokenChar r then
        let '(run, rest) := span_token rs in
        let j := i + len run in
        let val := string_of_runes run in
        (if (minLen <=? len val) && hasCharVariety val then [mkToken val i j] else [])
          ++ extract_loop k minLen j rest
      else extract_loop k minLen (i + 1) rs'
  | _, _ => []
  end.
Definition extractTokens (text : gostring) (minLen : Z) : list token :=
  let rs := runes text in extract_loop (length rs) minLen 0 rs.

Definition secretContextWords : list gostring := [
  go "password"; go "passwd"; go "pwd"; go "secret"; go "token"; go "key"; go "api_key";
  go "apikey"; go "credential"; go "private"; go "auth"; go "bearer"; go "access_key";
  go "secret_key"; go "session"; go "cookie"; go "encrypt"; go "decrypt"; go "hash";
  go "salt"; go "cipher"; go "signing"; go "hmac"
].

Definition hasSecretContext (text : gostring) (start end_ : Z) : res gostring bool :=
  let lower := ToLower text in
  let windowStart := if start - 80 <? 0 then 0 else start - 80 in
  let windowEnd := if len lower <? end_ + 80 then len lower else end_ + 80 in
  window ← slice lower windowStart windowEnd;
  Ok (existsb (Contains window) secretContextWords).

Definition isCamelCase (s : gostring) : bool :=
  let rs := runes s in
  existsb IsUpper rs
  && existsb (λ r, negb (IsUpper r) && IsLower r) rs
  && negb (existsb (λ r, negb (IsUpper r) && negb (IsLower r) && negb (IsLetter r)) rs).

Definition pathIndicators : list gostring :=
  [go "org/"; go "com/"; go "xml"; go "schema"; go "xbrl"; go "spec/"; go "http"; go "www"; go "ftp"].

Definition isLikelyNonSecret (s : gostring) : bool :=
  let lower := ToLower s in
  if existsb (Contains lower) pathIndicators then true
  else if 2 <=? CountByte s "/" then true
  else if HasPrefix s (go "/") then true
  else
    let xCount := CountByte (ToUpper s) "X" in
    if (3 <? xCount) && f64_lt (f64_lit 2 10) (f64_div (f64_of_Z xCount) (f64_of_Z (len s))) then true
    else
      let parts := Split s "-" in
      if (2 <=? len parts) && forallb (λ p, forallb IsLetter (runes p)) parts then true
      else if isCamelCase s then true
      else if (2 <=? CountByte s "_") || Contains s (go "__") then true
      else if forallb IsUpper (runes s) && (len s <? 20) then true
      else HasPrefix s (go "REDACTED-").

Context `{EntropyEnv}.

(** The map of rune counts, in order of first occurrence. *)
Fixpoint count_rune (r : N) (freq : list (N * float64)) : list (N * float64) :=
  match freq with
  | [] => [(r, f64_of_Z 1)]
  | (x, n) :: freq' =>
      if (x =? r)%N then (x, f64_add n (f64_of_Z 1)) :: freq' else (x, n) :: count_rune r freq'
  end.
Definition rune_counts (rs : list N) : list (N * float64) :=
  foldl (λ freq r, count_rune r freq) [] rs.

Definition shannonEntropy (s : gostring) : float64 :=
  if len s =? 0 then f64_of_Z 0
  else
    let rs := runes s in
    let length_ := f64_of_Z (len rs) in
    foldl (λ ent '(_, count),
        let p := f64_div count length_ in
        if f64_lt (f64_of_Z 0) p then f64_sub ent (f64_mul p (Log2 p)) else ent)
      (f64_of_Z 0) (map_range (rune_counts rs)).

(** One iteration of the loop of [Scan]. *)
Definition entropy_token (s : EntropyScanner) (text : gostring) (tok : token)
    : res gostring (option Finding) :=
  if isLikelyNonSecret (tk_value tok) then Ok None
  else
    let ent := shannonEntropy (tk_value tok) in
    if f64_lt ent (es_threshold s) then Ok None
    else
      hasContext ← hasSecretContext text (tk_start tok) (tk_end tok);
      let unconditionalFire := f64_le (f64_lit 45 10) ent && ec_unconditional (es_config s) in
      let keywordFire := ec_keywordGated (es_config s) && hasContext in
      if negb unconditionalFire && negb keywordFire then Ok None
      else Ok (Some (mkFinding (go "ENTROPY-SECRET") (tk_value tok) (tk_start tok) (tk_end tok)
                 (f64_min (f64_div ent (f64_of_Z 6)) (f64_of_Z 1)) (go "entropy"))).

Fixpoint entropy_tokens (s : EntropyScanner) (text : gostring) (toks : list token)
    : res gostring (list Finding) :=
  match toks with
  | [] => Ok []
  | tok :: toks' =>
      f ← entropy_token s text tok; fs ← entropy_tokens s text toks'; Ok (option_list f ++ fs)
  end.

Definition Entropy_Scan (s : EntropyScanner) (ms : Z) (text : gostring) : res gostring ScanResult :=
  fs ← entropy_tokens s text (extractTokens text (es_minLength s)); Ok (mkScanResult fs ms).

(** The layer the pipeline runs. *)
Definition entropy_layer (s : EntropyScanner) (ms : nat → gostring → Z) (timer : nat → gostring → bool) : Layer :=
  mkLayer EntropyScanner s (go "entropy") (λ _ _, true) (λ n st text, Entropy_Scan st (ms n text) text)
    (Some Entropy_Reconfigure) ms timer.
End entropy.

(** ** Tokens *)

Section entropy_props.
Context `{UnicodeData} `{EntropyEnv}.

Lemma span_token_app rs : (span_token rs).1 ++ (span_token rs).2 = rs.
Proof.
  induction rs as [|r rs IH]; cbn; [done|]. destruct (isTokenChar r); [|done].
  destruct (span_token rs). cbn in *. by rewrite IH.
Qed.

(** A token is a run of the text's runes, at rune offsets. *)
Definition token_at (i : Z) (rs : list N) (t : token) : Prop :=
  i ≤ tk_start t ≤ tk_end t ∧ tk_end t ≤ i + len rs
  ∧ tk_value t = string_of_runes (sub rs (tk_start t - i) (tk_end t - i)).

Lemma token_at_app i rs rs' t :
  token_at (i + len rs) rs' t → token_at i (rs ++ rs') t.
Proof.
  unfold token_at. rewrite len_app. intros (? & ? & ->). pose proof (len_nonneg rs).
  split_and!; [lia..|].
  rewrite sub_app_r by lia. do 2 f_equal; lia.
Qed.

Lemma extract_loop_at fuel minLen i rs : Forall (token_at i rs) (extract_loop fuel minLen i rs).
Proof.
  revert i rs. induction fuel as [|k IH]; intros i rs; [constructor|].
  destruct rs as [|r rs]; cbn [extract_loop]; [constructor|].
  destruct (isTokenChar r) eqn:Er.
  - pose proof (span_token_app (r :: rs)) as Happ.
    destruct (span_token (r :: rs)) as [run rest]. cbn [fst snd] in Happ. rewrite <- Happ.
    apply Forall_app. split.
    + case_match; [|constructor]. constructor; [|constructor].
      pose proof (len_nonneg run). pose proof (len_nonneg rest). unfold token_at. cbn.
      rewrite len_app. split_and!; [lia..|]. rewrite sub_app_l by lia.
      replace (i - i) with 0 by lia. replace (i + len run - i) with (len run) by lia.
      by rewrite sub_full.
    + eapply Forall_impl; [apply IH|]. intros t. apply token_at_app.
  - eapply Forall_impl; [apply IH|]. intros t Ht. apply (token_at_app i [r] rs).
    by rewrite len_cons, len_nil, Z.add_0_r.
Qed.

(** The window never panics, although it cuts a byte string at rune
    offsets. *)
Lemma hasSecretContext_ok text a b :
  0 ≤ a ≤ b → b ≤ len (runes text) → ∃ r, hasSecretContext text a b = Ok r.
Proof.
  intros Hab Hb. pose proof (length_runes_ToLower text) as Hl. unfold len in Hb.
  unfold hasSecretContext. rewrite slice_Ok; [cbn; eauto|..]; unfold len in *; repeat if_case; lia.
Qed.

Lemma entropy_tokens_ok s text toks :
  Forall (token_at 0 (runes text)) toks →
  ∃ fs, entropy_tokens s text toks = Ok fs
    ∧ Forall (λ f, ∃ t, t ∈ toks ∧ f_start f = tk_start t ∧ f_end f = tk_end t
        ∧ f_value f = tk_value t ∧ f_label f = go "ENTROPY-SECRET") fs.
Proof.
  induction 1 as [|t toks (Ht1 & Ht2 & _) Hts IH]; cbn [entropy_tokens]; [by exists []|].
  destruct IH as (fs & -> & Hfs).
  assert (∃ f, entropy_token s text t = Ok f ∧
    Forall (λ f, f_start f = tk_start t ∧ f_end f = tk_end t ∧ f_value f = tk_value t
      ∧ f_label f = go "ENTROPY-SECRET") (option_list f)) as (f & -> & Hf).
  { destruct (hasSecretContext_ok text (tk_start t) (tk_end t)) as [b Hb]; [lia..|].
    unfold entropy_token. rewrite Hb. cbn [mbind res_bind].
    repeat case_match; eexists; (split; [reflexivity|]); repeat constructor. }
  cbn [mbind res_bind]. eexists. split; [done|]. apply Forall_app. split.
  - eapply Forall_impl; [exact Hf|]. intros g (?&?&?&?). exists t. set_solver.
  - eapply Forall_impl; [exact Hfs|]. intros g (t' & ? & ?). exists t'. set_solver.
Qed.

Lemma Entropy_Scan_ok s ms text :
  ∃ fs, Entropy_Scan s ms text = Ok (mkScanResult fs ms)
    ∧ Forall (λ f, within (len (runes text)) f ∧ f_label f = go "ENTROPY-SECRET"
        ∧ f_value f = string_of_runes (sub (runes text) (f_start f) (f_end f))) fs.
Proof.
  unfold Entropy_Scan, extractTokens.
  set (toks := extract_loop _ _ _ _).
  assert (Forall (token_at 0 (runes text)) toks) as Hat by apply extract_loop_at.
  destruct (entropy_tokens_ok s text toks Hat) as (fs & -> & Hfs). cbn [mbind res_bind].
  exists fs. split; [done|]. eapply Forall_impl; [exact Hfs|].
  intros f (t & Ht & Es & Ee & Ev & El). rewrite Forall_forall in Hat.
  destruct (Hat t Ht) as (? & ? & Hv). unfold within. rewrite Es, Ee, Ev, Hv, !Z.sub_0_r.
  split_and!; [lia..|done|done].
Qed.

(** On ASCII text rune offsets are byte offsets. *)
Lemma ascii_runes_sub text a b :
  ascii_only text = true → string_of_runes (sub (runes text) a b) = sub text a b.
Proof.
  intros Ha. rewrite runes_ascii by done. unfold sub. rewrite <- fmap_drop, <- fmap_take.
  apply string_of_runes_ascii. unfold ascii_only in *. rewrite forallb_forall in *.
  intros c Hc%list_elem_of_In. apply Ha, list_elem_of_In.
  apply elem_of_take in Hc as (i & Hi & _). rewrite lookup_drop in Hi.
  by eapply list_elem_of_lookup_2.
Qed.

Lemma len_runes_le text : len (runes text) ≤ len text.
Proof. unfold len. pose proof (length_runes_le text). lia. Qed.

Lemma entropy_layer_ok s ms timer : layer_ok any_text (entropy_layer s ms timer).
Proof.
  intros n t _. change (l_scan (entropy_layer s ms timer) n t) with (Entropy_Scan s (ms n t) t).
  destruct (Entropy_Scan_ok s (ms n t) t) as (fs & -> & Hfs). split; [done|]. intros r [= <-].
  cbn. eapply Forall_impl; [exact Hfs|]. intros f ([? ?] & _).
  pose proof (len_runes_le t). split; [unfold within; lia|done].
Qed.

Lemma entropy_layer_faithful s ms timer : layer_faithful ascii_text (entropy_layer s ms timer).
Proof.
  split.
  - intros n t Ht. change (l_scan (entropy_layer s ms timer) n t) with (Entropy_Scan s (ms n t) t).
    destruct (Entropy_Scan_ok s (ms n t) t) as (fs & -> & Hfs). split; [done|]. intros r [= <-].
    cbn. eapply Forall_impl; [exact Hfs|]. intros f ([? ?] & -> & _).
    pose proof (len_runes_le t). split; [unfold within; lia|]. vm_compute. repeat constructor.
  - intros n t r Ht. change (l_scan (entropy_layer s ms timer) n t) with (Entropy_Scan s (ms n t) t).
    destruct (Entropy_Scan_ok s (ms n t) t) as (fs & -> & Hfs). intros [= <-].
    cbn. eapply Forall_impl; [exact Hfs|]. intros f (_ & _ & Hv). unfold locates.
    by rewrite Hv, ascii_runes_sub by (by apply is_ascii_only).
Qed.

(** C40: the entropy scan is total: on every byte string, valid UTF-8 or not, it
    returns findings whose offsets lie inside the text, although it cuts the
    lower-cased text at rune offsets; and on ASCII text each finding's value is
    the text at its offsets. *)
Theorem Entropy_Scan_total s ms text :
  ∃ fs, Entropy_Scan s ms text = Ok (mkScanResult fs ms)
    ∧ Forall (within (len text)) fs
    ∧ (is_ascii text → Forall (locates text) fs).
Proof.
  destruct (Entropy_Scan_ok s ms text) as (fs & -> & Hfs). exists fs. split; [done|]. split.
  - eapply Forall_impl; [exact Hfs|]. intros f ([? ?] & _).
    pose proof (len_runes_le text). unfold within; lia.
  - intros Ha. eapply Forall_impl; [exact Hfs|]. intros f (_ & _ & Hv). unfold locates.
    by rewrite Hv, ascii_runes_sub by (by apply is_ascii_only).
Qed.
End entropy_props.

(** ** Evaluation *)

(** A coarse logarithm: the exponent of the float. *)
Definition sample_log2 (x : float64) : float64 :=
  match x with
  | SpecFloat.S754_finite false m e => f64_of_Z (e + Z.of_N (N.size (N.pos m)) - 1)
  | _ => f64_of_Z 0
  end.
Definition sample_entropy : EntropyEnv := {|
  Log2 := sample_log2; map_range l := l; map_range_perm l := reflexivity l;
|}.

Section evaluation.
Local Existing Instance sample_unicode.
Local Existing Instance sample_entropy.
Local Existing Instance insertion_sort.

Definition demo_entropy : EntropyScanner := NewEntropy (f64_lit 35 10) 20.
Definition demo_secret : gostring := go "aB3dE6gH9jK2mN5pQ8sT".

(** Eight two-byte letters before the key. *)
Definition accented : gostring := concat (replicate 8 [chr 195; chr 169]).
Definition demo_accented : gostring := accented ++ go " key " ++ demo_secret.

(** Offsets in runes, used as offsets in bytes: after eight accented
    letters the finding for a 20-byte key is placed eight bytes early, and
    redacting it takes the text before the key away while the key's last eight
    bytes reach the output. *)
Lemma Entropy_offsets_leak :
  ∃ r f out, Entropy_Scan demo_entropy 0 demo_accented = Ok r
    ∧ sr_findings r = [f] ∧ f_value f = demo_secret
    ∧ sub demo_accented (f_start f) (f_end f) ≠ demo_secret
    ∧ Redact demo_accented (sr_findings r) = Ok out
    ∧ HasSuffix (rr_text out.1) (go "pQ8sT") = true.
Proof.
  eexists _, _, _. split; [vm_compute; reflexivity|]. split; [reflexivity|].
  split; [reflexivity|]. split; [vm_compute; discriminate|].
  split; vm_compute; reflexivity.
Qed.
End evaluation.
