(* ===== verification/Json.v ===== *)
(** * JSON (encoding/json)

    Go's parser and printer.  [json] is the syntax tree of a JSON text: an
    object keeps its members in order, a number and a string literal keep their
    text, so the tree stands for a [json.RawMessage] up to white space, which
    the printer drops ([compact]).  [unquote] is the string a literal denotes:
    an invalid UTF-8 byte or a lone surrogate is U+FFFD.  [quote_lit] is the
    literal the printer writes for a string. *)
From Stdlib Require Import ZifyBool.
From S2P Require Import Prelude GoStr Utf8 Sha256.
Local Open Scope N_scope.

Inductive json :=
| JNull
| JBool (b : bool)
| JNum (text : gostring)
| JStr (lit : gostring)
| JArr (l : list json)
| JObj (m : list (gostring * json)).

(** ** Parsing *)

Definition is_ws (c : Ascii.ascii) : bool :=
  let n := byteN c in (n =? 32) || (n =? 9) || (n =? 10) || (n =? 13).
Fixpoint skip_ws (s : gostring) : gostring :=
  match s with c :: s' => if is_ws c then skip_ws s' else s | [] => [] end.

Definition hex4 (s : gostring) : option N :=
  match s with
  | a :: b :: c :: d :: _ =>
      match hex_value a, hex_value b, hex_value c, hex_value d with
      | Some a, Some b, Some c, Some d => Some (a * 4096 + b * 256 + c * 16 + d)
      | _, _, _, _ => None
      end
  | _ => None
  end.

Definition simple_escape (c : Ascii.ascii) : option Ascii.ascii :=
  let n := byteN c in
  if (n =? 34) || (n =? 92) || (n =? 47) then Some c
  else if n =? 98 then Some (chr 8) else if n =? 102 then Some (chr 12)
  else if n =? 110 then Some (chr 10) else if n =? 114 then Some (chr 13)
  else if n =? 116 then Some (chr 9) else None.

Definition is_surrogate (r : N) : bool := between 55296 57343 r.

(** The rune a [\u] escape stands for, and how many bytes after the backslash
    it takes: a high surrogate joins with the low surrogate that follows. *)
Definition low_surrogate (r : N) (s : gostring) : N * nat :=
  match s with
  | b :: u :: s2 =>
      if (byteN b =? 92) && (byteN u =? 117) then
        match hex4 s2 with
        | Some r2 =>
            if between 55296 56319 r && between 56320 57343 r2
            then ((r - 55296) * 1024 + (r2 - 56320) + 65536, 11%nat)
            else (RuneError, 5%nat)
        | None => (RuneError, 5%nat)
        end
      else (RuneError, 5%nat)
  | _ => (RuneError, 5%nat)
  end.
Definition unicode_escape (s : gostring) : option (N * nat) :=
  r ← hex4 s; Some (if is_surrogate r then low_surrogate r (drop 4 s) else (r, 5%nat)).

Definition prepend (p : gostring) (r : option (gostring * gostring)) : option (gostring * gostring) :=
  match r with Some (s, rest) => Some (p ++ s, rest) | None => None end.

(** A string literal after its opening quote: its text, and what follows the
    closing quote. *)
Fixpoint scan_str (s : gostring) : option (gostring * gostring) :=
  match s with
  | [] => None
  | c :: s1 =>
      if byteN c =? 34 then Some ([], s1)
      else if byteN c =? 92 then
        match s1 with
        | [] => None
        | e :: s2 =>
            match simple_escape e with
            | Some _ => prepend [c; e] (scan_str s2)
            | None =>
                if byteN e =? 117 then
                  match s2 with
                  | h1 :: h2 :: h3 :: h4 :: s3 =>
                      match hex4 [h1; h2; h3; h4] with
                      | Some _ => prepend [c; e; h1; h2; h3; h4] (scan_str s3)
                      | None => None
                      end
                  | _ => None
                  end
                else None
            end
        end
      else if byteN c <? 32 then None
      else prepend [c] (scan_str s1)
  end.

(** The string a literal denotes; [skip] bytes are already consumed. *)
Fixpoint unq (skip : nat) (s : gostring) : gostring :=
  match s with
  | [] => []
  | c :: s1 =>
      match skip with
      | S k => unq k s1
      | 0%nat =>
          if byteN c =? 92 then
            match s1 with
            | [] => []
            | e :: s2 =>
                match simple_escape e with
                | Some b => b :: unq 1 s1
                | None =>
                    match unicode_escape s2 with
                    | Some (r, k) => encode_rune r ++ unq k s1
                    | None => []
                    end
                end
            end
          else
            let '(r, w) := decode_rune c s1 in
            encode_rune r ++ unq (Nat.pred w) s1
      end
  end.
Definition unquote (lit : gostring) : gostring := unq 0 lit.

(** A number: the longest prefix of the grammar, as text. *)
Fixpoint take_digits (s : gostring) : gostring * gostring :=
  match s with
  | c :: s' => if is_digit_byte c then let '(a, b) := take_digits s' in (c :: a, b) else ([], s)
  | [] => ([], [])
  end.
Definition parse_frac (s : gostring) : option (gostring * gostring) :=
  match s with
  | c :: s' =>
      if byteN c =? 46 then
        match take_digits s' with ([], _) => None | (ds, t) => Some (c :: ds, t) end
      else Some ([], s)
  | [] => Some ([], [])
  end.
Definition parse_exp (s : gostring) : option (gostring * gostring) :=
  match s with
  | c :: s' =>
      if (byteN c =? 101) || (byteN c =? 69) then
        let '(sign, t) := match s' with
          | g :: t => if (byteN g =? 43) || (byteN g =? 45) then ([g], t) else ([], s')
          | [] => ([], []) end in
        match take_digits t with ([], _) => None | (ds, u) => Some (c :: sign ++ ds, u) end
      else Some ([], s)
  | [] => Some ([], [])
  end.
Definition parse_int (s : gostring) : option (gostring * gostring) :=
  match s with
  | c :: s' => if byteN c =? 48 then Some ([c], s')
               else if is_digit_byte c then Some (take_digits s) else None
  | [] => None
  end.
Definition parse_number (s : gostring) : option (gostring * gostring) :=
  let '(sign, t) := match s with
    | c :: t => if byteN c =? 45 then ([c], t) else ([], s)
    | [] => ([], []) end in
  '(i, t1) ← parse_int t; '(f, t2) ← parse_frac t1; '(e, t3) ← parse_exp t2;
  Some (sign ++ i ++ f ++ e, t3).

(** A value, the rest of an array after an element is due, or the rest of an
    object after a member is due. *)
Inductive pmode :=
| PVal
| PElems (acc : list json)
| PMembers (acc : list (gostring * json)).

Definition max_depth : N := 10000.

Definition parse_literal (word : string) (v : json) (s : gostring) : option (json * gostring) :=
  if HasPrefix s (go word) then Some (v, drop (length (go word)) s) else None.

Fixpoint parse (fuel : nat) (depth : N) (m : pmode) (s : gostring) : option (json * gostring) :=
  match fuel with
  | 0%nat => None
  | S f =>
      match m with
      | PVal =>
          match skip_ws s with
          | [] => None
          | c :: t =>
              let n := byteN c in
              if n =? 34 then '(lit, u) ← scan_str t; Some (JStr lit, u)
              else if n =? 91 then
                if max_depth <=? depth then None
                else match skip_ws t with
                     | d :: u => if byteN d =? 93 then Some (JArr [], u)
                                 else parse f (depth + 1) (PElems []) t
                     | [] => None
                     end
              else if n =? 123 then
                if max_depth <=? depth then None
                else match skip_ws t with
                     | d :: u => if byteN d =? 125 then Some (JObj [], u)
                                 else parse f (depth + 1) (PMembers []) t
                     | [] => None
                     end
              else if n =? 110 then parse_literal "null" JNull (c :: t)
              else if n =? 116 then parse_literal "true" (JBool true) (c :: t)
              else if n =? 102 then parse_literal "false" (JBool false) (c :: t)
              else '(num, u) ← parse_number (c :: t); Some (JNum num, u)
          end
      | PElems acc =>
          '(v, t) ← parse f depth PVal s;
          match skip_ws t with
          | c :: u =>
              if byteN c =? 44 then parse f depth (PElems (acc ++ [v])) u
              else if byteN c =? 93 then Some (JArr (acc ++ [v]), u) else None
          | [] => None
          end
      | PMembers acc =>
          match skip_ws s with
          | q :: t =>
              if byteN q =? 34 then
                '(key, t1) ← scan_str t;
                match skip_ws t1 with
                | c :: t2 =>
                    if byteN c =? 58 then
                      '(v, t3) ← parse f depth PVal t2;
                      match skip_ws t3 with
                      | d :: u =>
                          if byteN d =? 44 then parse f depth (PMembers (acc ++ [(key, v)])) u
                          else if byteN d =? 125 then Some (JObj (acc ++ [(key, v)]), u) else None
                      | [] => None
                      end
                    else None
                | [] => None
                end
              else None
          | [] => None
          end
      end
  end.

Definition parse_fuel (s : gostring) : nat := (2 * length s + 2)%nat.

(** The value [json.Unmarshal] reads: the whole input, with white space around
    it.  [Decoder.Decode] reads the first value and leaves the rest. *)
Definition Unmarshal (s : gostring) : option json :=
  match parse (parse_fuel s) 0 PVal s with
  | Some (v, rest) => match skip_ws rest with [] => Some v | _ => None end
  | None => None
  end.
Definition DecodeFirst (s : gostring) : option json := fst <$> parse (parse_fuel s) 0 PVal s.

(** ** Printing *)

Definition hex_low (n : N) : gostring := [hex_digit (N.shiftr n 4); hex_digit (N.land n 15)].

Definition bslash : Ascii.ascii := chr 92.
Definition quote : Ascii.ascii := chr 34.

(** The characters HTML gives a meaning. *)
Definition is_html (c : Ascii.ascii) : bool :=
  let n := byteN c in (n =? 60) || (n =? 62) || (n =? 38).

(** A rune inside a string literal, as [appendString] with HTML escaping
    writes it. *)
Definition escape_byte (c : Ascii.ascii) : gostring :=
  let n := byteN c in
  if (n =? 34) || (n =? 92) then [bslash; c]
  else if n =? 8 then [bslash; chr 98] else if n =? 12 then [bslash; chr 102]
  else if n =? 10 then [bslash; chr 110] else if n =? 13 then [bslash; chr 114]
  else if n =? 9 then [bslash; chr 116]
  else if (n <? 32) || is_html c then bslash :: go "u00" ++ hex_low n
  else [c].
Definition escape_rune (rb : N * gostring) : gostring :=
  let '(r, bs) := rb in
  match bs with
  | [] => []
  | c :: _ =>
      if byteN c <? 128 then escape_byte c
      else if (r =? RuneError) && (len bs =? 1)%Z then bslash :: go "ufffd"
      else if r =? 8232 then bslash :: go "u2028"
      else if r =? 8233 then bslash :: go "u2029"
      else bs
  end.

(** The literal, without its quotes, that [json.Marshal] writes for a Go
    string. *)
Definition quote_lit (s : gostring) : gostring := decode_all s ≫= escape_rune.

(** What [compact] does to the bytes of a literal: it escapes the characters
    HTML gives a meaning, and the two line separators. *)
Fixpoint html_escape (s : gostring) : gostring :=
  match s with
  | [] => []
  | c :: s1 =>
      if is_html c then bslash :: go "u00" ++ hex_low (byteN c) ++ html_escape s1
      else
        match s1 with
        | d :: e :: s3 =>
            if (byteN c =? 226) && (byteN d =? 128) && ((byteN e =? 168) || (byteN e =? 169))
            then bslash :: go "u202" ++ [hex_digit (N.land (byteN e) 15)] ++ html_escape s3
            else c :: html_escape s1
        | _ => c :: html_escape s1
        end
  end.

Fixpoint canon (v : json) : json :=
  match v with
  | JStr lit => JStr (html_escape lit)
  | JArr l => JArr (canon <$> l)
  | JObj m => JObj ((λ kv, (html_escape kv.1, canon kv.2)) <$> m)
  | _ => v
  end.

(** The text of a tree, without white space. *)
Fixpoint text_of (v : json) : gostring :=
  match v with
  | JNull => go "null"
  | JBool true => go "true"
  | JBool false => go "false"
  | JNum text => text
  | JStr lit => quote :: lit ++ [quote]
  | JArr l => go "[" ++ Join (text_of <$> l) (go ",") ++ go "]"
  | JObj m =>
      go "{" ++ Join ((λ kv, (quote :: kv.1 ++ [quote]) ++ go ":" ++ text_of kv.2) <$> m) (go ",") ++ go "}"
  end.

(** [json.Marshal] of a tree: a raw message is compacted. *)
Definition compact (v : json) : gostring := text_of (canon v).

Example json_ex :
  Unmarshal (go " [1.50e3 , true,{}, [] , null]") =
  Some (JArr [JNum (go "1.50e3"); JBool true; JObj []; JArr []; JNull]).
Proof. vm_compute. reflexivity. Qed.
Example json_bad : Unmarshal (go "[1,]") = None ∧ Unmarshal (go "01") = None ∧ Unmarshal (go "1 x") = None.
Proof. vm_compute. repeat split; reflexivity. Qed.
Example json_escape :
  unquote (go "a\n\u00e9\ud83d\ude00\ud83d") =
  go "a" ++ [chr 10; chr 195; chr 169; chr 240; chr 159; chr 152; chr 128; chr 239; chr 191; chr 189].
Proof. vm_compute. reflexivity. Qed.
Example json_print :
  compact (JObj [(go "a<b", JStr (quote_lit [chr 10; chr 34; chr 1])); (go "x", JArr [JNull; JNum (go "1")])]) =
  go "{" ++ quote :: go "a\u003cb" ++ quote :: go ":" ++ quote :: go "\n\" ++ quote :: go "\u0001" ++ quote
    :: go "," ++ quote :: go "x" ++ quote :: go ":[null,1]}".
Proof. vm_compute. reflexivity. Qed.

(** ** Literals *)

Inductive lit_ok : gostring → Prop :=
| lit_nil : lit_ok []
| lit_plain c s :
    (byteN c =? 34) = false → (byteN c =? 92) = false → (byteN c <? 32) = false →
    lit_ok s → lit_ok (c :: s)
| lit_simple e b s : simple_escape e = Some b → lit_ok s → lit_ok (bslash :: e :: s)
| lit_unicode h1 h2 h3 h4 r s :
    hex4 [h1; h2; h3; h4] = Some r → lit_ok s →
    lit_ok (bslash :: chr 117 :: h1 :: h2 :: h3 :: h4 :: s).

Lemma byteN_inj c d : byteN c = byteN d → c = d.
Proof. intros H. by rewrite <- (chr_byteN c), <- (chr_byteN d), H. Qed.

Lemma scan_str_lit lit rest : lit_ok lit → scan_str (lit ++ quote :: rest) = Some (lit, rest).
Proof.
  induction 1 as [|c s H1 H2 H3 _ IH|e b s He _ IH|h1 h2 h3 h4 r s Hr _ IH]; [done|..];
    cbn [app scan_str].
  - by rewrite H1, H2, H3, IH.
  - change (byteN bslash =? 34) with false. change (byteN bslash =? 92) with true. cbn iota.
    by rewrite He, IH.
  - change (byteN bslash =? 34) with false. change (byteN bslash =? 92) with true. cbn iota.
    change (simple_escape (chr 117)) with (@None Ascii.ascii). cbn iota.
    change (byteN (chr 117) =? 117) with true. cbn iota. by rewrite Hr, IH.
Qed.

Lemma scan_str_inv s lit rest :
  scan_str s = Some (lit, rest) → lit_ok lit ∧ s = lit ++ quote :: rest.
Proof.
  remember (length s) as n eqn:Hn. revert s lit Hn.
  induction (lt_wf n) as [n _ IH]; intros s lit ->. destruct s as [|c s]; [done|]. cbn [scan_str].
  destruct (byteN c =? 34) eqn:H1.
  { intros [= <- <-]. apply N.eqb_eq in H1. split; [constructor|].
    by rewrite (byteN_inj c quote H1). }
  assert (∀ p t, prepend p (scan_str t) = Some (lit, rest) → (length t < S (length s))%nat →
    ∃ lit', lit = p ++ lit' ∧ lit_ok lit' ∧ t = lit' ++ quote :: rest) as Hpre.
  { intros p t Hp Ht. destruct (scan_str t) as [[lit' rest']|] eqn:E; [|done].
    injection Hp as <- <-. destruct (IH _ Ht t lit' eq_refl E). eauto. }
  destruct (byteN c =? 92) eqn:H2.
  - apply N.eqb_eq in H2. rewrite (byteN_inj c bslash H2).
    destruct s as [|e s]; [done|]. destruct (simple_escape e) eqn:He.
    { intros (lit' & -> & Hl & ->)%Hpre; [|cbn; lia]. split; [by econstructor|done]. }
    destruct (byteN e =? 117) eqn:Hu; [|done]. apply N.eqb_eq in Hu.
    rewrite (byteN_inj e (chr 117) Hu).
    destruct s as [|h1 [|h2 [|h3 [|h4 s]]]]; try done.
    destruct (hex4 [h1; h2; h3; h4]) eqn:Hh; [|done].
    intros (lit' & -> & Hl & ->)%Hpre; [|cbn; lia]. split; [by econstructor|done].
  - destruct (byteN c <? 32) eqn:H3; [done|].
    intros (lit' & -> & Hl & ->)%Hpre; [|cbn; lia]. split; [by constructor|done].
Qed.

Lemma unq_skip k s : unq k s = unq 0 (drop k s).
Proof.
  revert k. induction s as [|c s IH]; intros [|k]; try done. cbn [drop]. rewrite <- IH. done.
Qed.

Lemma unq_simple e b s : simple_escape e = Some b → unq 0 (bslash :: e :: s) = b :: unq 0 s.
Proof.
  intros He. cbn [unq]. change (byteN bslash =? 92) with true. cbn iota. by rewrite He.
Qed.

Lemma low_surrogate_width q s : (low_surrogate q s).2 = 5%nat ∨ (low_surrogate q s).2 = 11%nat.
Proof.
  unfold low_surrogate. destruct s as [|b [|u s]]; [by left..|].
  destruct (_ && _); [|by left]. destruct (hex4 s); [|by left]. destruct (_ && _); auto.
Qed.
Lemma unicode_escape_width s r k : unicode_escape s = Some (r, k) → k = 5%nat ∨ k = 11%nat.
Proof.
  unfold unicode_escape. destruct (hex4 s) as [q|]; [|done]. cbn.
  destruct (is_surrogate q); intros [= H]; [|by left].
  pose proof (low_surrogate_width q (drop 4 s)) as Hw. by rewrite H in Hw.
Qed.

Lemma unq_unicode h1 h2 h3 h4 s :
  unq 0 (bslash :: chr 117 :: h1 :: h2 :: h3 :: h4 :: s) =
  match unicode_escape (h1 :: h2 :: h3 :: h4 :: s) with
  | Some (r, k) => encode_rune r ++ unq 0 (drop (k - 5) s)
  | None => []
  end.
Proof.
  cbn [unq]. change (byteN bslash =? 92) with true. cbn iota.
  change (simple_escape (chr 117)) with (@None Ascii.ascii). cbn iota.
  destruct (unicode_escape _) as [[r k]|] eqn:E; [|done].
  apply unicode_escape_width in E as [->| ->]; cbn [unq Nat.sub]; by rewrite unq_skip.
Qed.

(** A line separator starts here: E2 80 A8 or E2 80 A9. *)
Definition line_sep (c : Ascii.ascii) (s : gostring) : bool :=
  match s with
  | d :: e :: _ => (byteN c =? 226) && (byteN d =? 128) && ((byteN e =? 168) || (byteN e =? 169))
  | _ => false
  end.

Lemma html_escape_html c s :
  is_html c = true → html_escape (c :: s) = bslash :: go "u00" ++ hex_low (byteN c) ++ html_escape s.
Proof. intros H. cbn [html_escape]. by rewrite H. Qed.
Lemma html_escape_plain c s :
  is_html c = false → line_sep c s = false → html_escape (c :: s) = c :: html_escape s.
Proof.
  intros H1 H2. cbn [html_escape]. rewrite H1. destruct s as [|d [|e s]]; [done..|].
  unfold line_sep in H2. by rewrite H2.
Qed.
Lemma html_escape_sep c s :
  line_sep c s = true → ∃ e s', s = chr 128 :: e :: s' ∧ c = chr 226 ∧ (e = chr 168 ∨ e = chr 169) ∧
    html_escape (c :: s) = bslash :: go "u202" ++ [hex_digit (N.land (byteN e) 15)] ++ html_escape s'.
Proof.
  destruct s as [|d [|e s]]; [done..|]. cbn [line_sep]. intros Hs. pose proof Hs as Hs'.
  apply andb_true_iff in Hs' as [[Hc%N.eqb_eq Hd%N.eqb_eq]%andb_true_iff He].
  apply (byteN_inj c (chr 226)) in Hc as ->. apply (byteN_inj d (chr 128)) in Hd as ->.
  exists e, s. split_and!; [done|done| |].
  - apply orb_true_iff in He as [He%N.eqb_eq|He%N.eqb_eq]; [left|right]; by apply byteN_inj.
  - cbn [html_escape]. change (is_html (chr 226)) with false. cbn iota. by rewrite Hs.
Qed.

Lemma cont_byte c : is_cont c = true → 128 ≤ byteN c ≤ 191.
Proof. unfold is_cont, in_range. lia. Qed.
Lemma cont_plain c s : is_cont c = true → is_html c = false ∧ line_sep c s = false.
Proof.
  intros Hc%cont_byte. split; [unfold is_html; lia|].
  destruct s as [|d [|e s]]; [done..|]. cbn [line_sep]. lia.
Qed.

Lemma html_escape_cont p t :
  forallb is_cont p = true → html_escape (p ++ t) = p ++ html_escape t.
Proof.
  induction p as [|c p IH]; [done|]. cbn [forallb app]. intros [Hc Hp]%andb_true_iff.
  rewrite html_escape_plain by by apply cont_plain. by rewrite IH.
Qed.

Lemma cont_prefix_html_escape s : cont_prefix (html_escape s) = cont_prefix s.
Proof.
  induction s as [|c s IH]; [done|].
  destruct (is_html c) eqn:Hh.
  { rewrite html_escape_html by done. cbn [cont_prefix].
    assert (is_cont c = false) as ->; [|done].
    destruct (is_cont c) eqn:E; [|done]. apply (cont_plain c []) in E as [? _]. congruence. }
  destruct (line_sep c s) eqn:Hl.
  { apply html_escape_sep in Hl as (e & s' & -> & -> & _ & ->). done. }
  rewrite html_escape_plain by done. cbn [cont_prefix]. by rewrite IH.
Qed.

(** Escaping does not change what a byte decodes to. *)
Lemma decode_rune_html_escape c s : decode_rune c (html_escape s) = decode_rune c s.
Proof.
  by rewrite decode_rune_cont_prefix, cont_prefix_html_escape, <- decode_rune_cont_prefix.
Qed.

Lemma lit_ok_drop_cont p s : forallb is_cont p = true → lit_ok (p ++ s) → lit_ok s.
Proof.
  induction p as [|c p IH]; [done|]. cbn [forallb app]. intros [Hc%cont_byte Hp]%andb_true_iff Hl.
  inversion Hl; subst; [by apply IH|exfalso; revert Hc; vm_compute; tauto..].
Qed.

Lemma lit_ok_plain_tail c s : lit_ok (c :: s) → (byteN c =? 92) = false → lit_ok s.
Proof. by inversion 1; subst. Qed.

Lemma html_escape_ascii c s : byteN c < 128 → is_html c = false → html_escape (c :: s) = c :: html_escape s.
Proof.
  intros Hc Hh. apply html_escape_plain; [done|].
  destruct s as [|d [|e s]]; [done..|]. cbn [line_sep]. lia.
Qed.

Lemma simple_escape_byte e b : simple_escape e = Some b → byteN e < 128 ∧ is_html e = false.
Proof. unfold simple_escape, is_html. intros H. repeat case_match; simplify_eq; lia. Qed.

Lemma hex_value_byte h n : hex_value h = Some n → byteN h < 128 ∧ is_html h = false.
Proof. unfold hex_value, is_html, between. intros H. repeat case_match; simplify_eq; lia. Qed.

Lemma hex4_bytes h1 h2 h3 h4 r :
  hex4 [h1; h2; h3; h4] = Some r → Forall (λ h, byteN h < 128 ∧ is_html h = false) [h1; h2; h3; h4].
Proof.
  cbn [hex4]. destruct (hex_value h1) eqn:E1, (hex_value h2) eqn:E2, (hex_value h3) eqn:E3,
    (hex_value h4) eqn:E4; try done. intros _.
  repeat constructor; eauto using hex_value_byte; eapply hex_value_byte; eassumption.
Qed.

Lemma html_escape_simple e b s :
  simple_escape e = Some b → html_escape (bslash :: e :: s) = bslash :: e :: html_escape s.
Proof.
  intros [He1 He2]%simple_escape_byte.
  by rewrite html_escape_ascii, (html_escape_ascii e) by done.
Qed.

Lemma html_escape_unicode h1 h2 h3 h4 r s :
  hex4 [h1; h2; h3; h4] = Some r →
  html_escape (bslash :: chr 117 :: h1 :: h2 :: h3 :: h4 :: s) =
  bslash :: chr 117 :: h1 :: h2 :: h3 :: h4 :: html_escape s.
Proof.
  intros Hh%hex4_bytes. rewrite !Forall_cons in Hh. destruct Hh as ([] & [] & [] & [] & _).
  by rewrite html_escape_ascii, (html_escape_ascii (chr 117)), (html_escape_ascii h1),
    (html_escape_ascii h2), (html_escape_ascii h3), (html_escape_ascii h4) by done.
Qed.

Lemma is_html_cases c : is_html c = true → c = chr 60 ∨ c = chr 62 ∨ c = chr 38.
Proof.
  unfold is_html. intros H. assert (byteN c = 60 ∨ byteN c = 62 ∨ byteN c = 38) as Hc by lia.
  destruct Hc as [Hc|[Hc|Hc]]; [left|right; left|right; right]; by apply byteN_inj.
Qed.

Lemma lit_ok_html_escape s : lit_ok s → lit_ok (html_escape s).
Proof.
  remember (length s) as n eqn:Hn. revert s Hn.
  induction (lt_wf n) as [n _ IH]; intros s -> Hs.
  destruct Hs as [|c s H1 H2 H3 Hs|e b s He Hs|h1 h2 h3 h4 r s Hh Hs].
  - constructor.
  - destruct (is_html c) eqn:Hh.
    { rewrite html_escape_html by done.
      apply is_html_cases in Hh as [->|[->| ->]]; eapply lit_unicode; try reflexivity;
        apply (IH (length s)); (cbn; lia || done). }
    destruct (line_sep c s) eqn:Hl.
    { apply html_escape_sep in Hl as (e & s' & -> & -> & He & ->).
      apply (lit_ok_drop_cont [chr 128; e]) in Hs; [|by destruct He as [->| ->]].
      destruct He as [->| ->]; eapply lit_unicode; try reflexivity;
        apply (IH (length s')); (cbn; lia || done). }
    rewrite html_escape_plain by done. constructor; try done. apply (IH (length s)); (cbn; lia || done).
  - erewrite html_escape_simple by done. econstructor; [done|]. apply (IH (length s)); (cbn; lia || done).
  - erewrite html_escape_unicode by done. econstructor; [done|]. apply (IH (length s)); (cbn; lia || done).
Qed.

(** A surrogate pair is read the same after escaping. *)
Lemma low_surrogate_plain q c t : byteN c ≠ 92 → low_surrogate q (c :: t) = (RuneError, 5%nat).
Proof. intros Hc%N.eqb_neq. destruct t; [done|]. cbn [low_surrogate]. by rewrite Hc. Qed.
Lemma low_surrogate_escape q h1 h2 h3 h4 x t :
  hex4 [h1; h2; h3; h4] = Some x → between 56320 57343 x = false →
  low_surrogate q (bslash :: chr 117 :: h1 :: h2 :: h3 :: h4 :: t) = (RuneError, 5%nat).
Proof.
  intros Hx Hb. unfold low_surrogate.
  change (hex4 (h1 :: h2 :: h3 :: h4 :: t)) with (hex4 [h1; h2; h3; h4]).
  rewrite Hx, Hb, andb_false_r. by destruct (_ && _).
Qed.

Lemma low_surrogate_html_escape q s :
  lit_ok s → low_surrogate q (html_escape s) = low_surrogate q s ∧
  ((low_surrogate q s).2 = 11%nat → lit_ok (drop 6 s) ∧ drop 6 (html_escape s) = html_escape (drop 6 s)).
Proof.
  intros [|c t H1 H2 H3 Hs|e b t He Hs|x1 x2 x3 x4 r t Hh Hs].
  - done.
  - apply N.eqb_neq in H2. rewrite (low_surrogate_plain q c t H2). split; [|done].
    destruct (is_html c) eqn:Hh.
    { rewrite html_escape_html by done.
      apply is_html_cases in Hh as [->|[->| ->]]; by eapply low_surrogate_escape. }
    destruct (line_sep c t) eqn:Hl.
    { apply html_escape_sep in Hl as (e & s' & -> & -> & He & ->).
      destruct He as [->| ->]; by eapply low_surrogate_escape. }
    rewrite html_escape_plain by done. by apply low_surrogate_plain.
  - erewrite html_escape_simple by done. unfold low_surrogate.
    assert (byteN e =? 117 = false) as He'.
    { unfold simple_escape in He. apply N.eqb_neq. intros E. rewrite E in He. done. }
    by rewrite He', andb_false_r.
  - by erewrite html_escape_unicode by done.
Qed.

Lemma unq_bmp h1 h2 h3 h4 r t :
  hex4 [h1; h2; h3; h4] = Some r → is_surrogate r = false →
  unq 0 (bslash :: chr 117 :: h1 :: h2 :: h3 :: h4 :: t) = encode_rune r ++ unq 0 t.
Proof.
  intros Hr Hs. rewrite unq_unicode. unfold unicode_escape.
  change (hex4 (h1 :: h2 :: h3 :: h4 :: t)) with (hex4 [h1; h2; h3; h4]). rewrite Hr. cbn.
  rewrite Hs. cbn [Nat.sub]. by rewrite drop_0.
Qed.

(** A literal denotes the same string after escaping. *)
Lemma unquote_html_escape s : lit_ok s → unquote (html_escape s) = unquote s.
Proof.
  unfold unquote. remember (length s) as n eqn:Hn. revert s Hn.
  induction (lt_wf n) as [n _ IH]; intros s -> Hs.
  assert (∀ t, (length t < length s)%nat → lit_ok t → unq 0 (html_escape t) = unq 0 t) as IH'
    by (intros t Ht Ht'; by apply (IH (length t))).
  destruct Hs as [|c t H1 H2 H3 Hs|e b t He Hs|h1 h2 h3 h4 r t Hh Hs]; [done|..].
  - destruct (is_html c) eqn:Hh.
    { rewrite html_escape_html by done.
      apply is_html_cases in Hh as [->|[->| ->]]; (etrans; [by eapply (unq_bmp _ _ _ _ _ (html_escape _))|]);
        rewrite IH' by (cbn; lia || done); reflexivity. }
    destruct (line_sep c t) eqn:Hl.
    { apply html_escape_sep in Hl as (e & s' & -> & -> & He & ->).
      apply (lit_ok_drop_cont [chr 128; e]) in Hs; [|by destruct He as [->| ->]].
      destruct He as [->| ->]; (etrans; [by eapply (unq_bmp _ _ _ _ _ (html_escape _))|]);
        rewrite IH' by (cbn; lia || done); reflexivity. }
    rewrite html_escape_plain by done. cbn [unq]. rewrite H2, decode_rune_html_escape.
    destruct (decode_rune c t) as [q w] eqn:Hd. f_equal.
    rewrite !(unq_skip (Nat.pred w)). destruct w as [|[|w]]; cbn [Nat.pred].
    1,2: rewrite !drop_0; apply IH'; [cbn; lia|done].
    destruct (decode_rune_wide _ _ _ _ [] Hd) as (Hlen & Hcont & _).
    rewrite <- (take_drop (S w) t) at 1. rewrite html_escape_cont by done.
    rewrite drop_app_length' by (rewrite length_take; lia).
    apply IH'; [rewrite length_drop; cbn; lia|].
    apply (lit_ok_drop_cont (take (S w) t)); [done|]. by rewrite take_drop.
  - erewrite html_escape_simple by done. erewrite !unq_simple by done.
    f_equal. apply IH'; [cbn; lia|done].
  - erewrite html_escape_unicode by done. rewrite !unq_unicode. unfold unicode_escape.
    change (hex4 (h1 :: h2 :: h3 :: h4 :: html_escape t)) with (hex4 [h1; h2; h3; h4]).
    change (hex4 (h1 :: h2 :: h3 :: h4 :: t)) with (hex4 [h1; h2; h3; h4]).
    rewrite Hh. cbn [mbind option_bind skipn].
    destruct (is_surrogate r); [|cbn [Nat.sub]; rewrite !drop_0, IH' by (cbn; lia || done); done].
    rewrite !drop_0. destruct (low_surrogate_html_escape r t Hs) as [-> H11].
    destruct (low_surrogate_width r t) as [H5|H6]; destruct (low_surrogate r t) as [q k];
      cbn [snd] in *; subst k; cbn [Nat.sub].
    + by rewrite !drop_0, IH' by (cbn; lia || done).
    + destruct (H11 eq_refl) as [Hd ->]. rewrite IH'; [done| |done].
      rewrite length_drop. cbn. lia.
Qed.

(** What one escaped rune contributes to a literal. *)
Definition escapes (r : N) (e : gostring) : Prop :=
  ∀ t, lit_ok t → lit_ok (e ++ t) ∧ unq 0 (e ++ t) = encode_rune r ++ unq 0 t
    ∧ html_escape (e ++ t) = e ++ html_escape t.

Lemma escapes_plain c :
  byteN c < 128 → (byteN c =? 34) = false → (byteN c =? 92) = false → (byteN c <? 32) = false →
  is_html c = false → escapes (byteN c) [c].
Proof.
  intros Hc H1 H2 H3 Hh t Ht. cbn [app]. split_and!; [by constructor| |by apply html_escape_ascii].
  cbn [unq]. rewrite H2, decode_rune_ascii by done. done.
Qed.
Lemma escapes_simple e b r :
  simple_escape e = Some b → encode_rune r = [b] → escapes r [bslash; e].
Proof.
  intros He Hr t Ht. cbn [app]. split_and!; [by econstructor| |by eapply html_escape_simple].
  by rewrite (unq_simple e b), Hr by done.
Qed.
Lemma escapes_unicode h1 h2 h3 h4 r :
  hex4 [h1; h2; h3; h4] = Some r → is_surrogate r = false →
  escapes r [bslash; chr 117; h1; h2; h3; h4].
Proof.
  intros Hr Hs t Ht. cbn [app]. split_and!; [by econstructor|by apply unq_bmp|].
  by eapply html_escape_unicode.
Qed.

Lemma escapes_byte c : byteN c < 128 → escapes (byteN c) (escape_byte c).
Proof.
  intros Hc. destruct c as [[][][][][][][][]]; try (exfalso; revert Hc; vm_compute; discriminate);
    match goal with |- escapes ?r (escape_byte ?c) =>
      let e := eval vm_compute in (escape_byte c) in change (escape_byte c) with e end;
    lazymatch goal with
    | |- escapes _ [_] => apply escapes_plain; vm_compute; reflexivity
    | |- escapes _ [_; _] => eapply escapes_simple; [vm_compute; reflexivity..]
    | _ => apply escapes_unicode; vm_compute; reflexivity
    end.
Qed.

Lemma decode_rune_narrow c s r :
  decode_rune c s = (r, 1%nat) → 128 ≤ byteN c → r = RuneError.
Proof.
  unfold decode_rune, utf8_first. intros H Hc. rewrite (proj2 (N.ltb_ge _ _) Hc) in H.
  repeat case_match; by simplify_eq.
Qed.

(** The literal of a rune above ASCII. *)
Lemma escapes_wide c s r w :
  decode_rune c s = (r, w) → 128 ≤ byteN c → escapes r (escape_rune (r, c :: take (Nat.pred w) s)).
Proof.
  intros Hd Hc. unfold escape_rune. rewrite (proj2 (N.ltb_ge _ _) Hc).
  destruct (_ && _) eqn:E.
  { apply andb_true_iff in E as [->%N.eqb_eq _]. by apply escapes_unicode. }
  destruct (r =? 8232) eqn:E1; [apply N.eqb_eq in E1 as ->; by apply escapes_unicode|].
  destruct (r =? 8233) eqn:E2; [apply N.eqb_eq in E2 as ->; by apply escapes_unicode|].
  destruct w as [|[|w]].
  - pose proof (decode_rune_width c s) as Hw. rewrite Hd in Hw. cbn in Hw. lia.
  - rewrite (decode_rune_narrow _ _ _ Hd Hc) in E. by rewrite take_0 in E.
  - intros t Ht. destruct (decode_rune_wide _ _ _ _ t Hd) as (Hlen & Hcont & _ & Hd').
    cbn [Nat.pred app]. split_and!.
    + constructor; [lia..|]. revert Hcont. generalize (take (S w) s) as p.
      induction p as [|d p IH]; [done|]. cbn [forallb app]. intros [Hd0%cont_byte Hp]%andb_true_iff.
      constructor; [lia..|by apply IH].
    + cbn [unq]. assert (byteN c =? 92 = false) as -> by lia. rewrite Hd'. cbn [Nat.pred].
      by rewrite unq_skip, drop_app_length' by (rewrite length_take; lia).
    + rewrite html_escape_plain, html_escape_cont; [done..| |].
      * unfold is_html. lia.
      * destruct (line_sep c _) eqn:El; [|done].
        apply html_escape_sep in El as (e & s' & El & -> & He & _). rewrite El in Hd'.
        destruct He as [->| ->]; injection Hd' as <- _; done.
Qed.

(** The string the printer writes is well formed, needs no further escaping
    and reads back as the string, with invalid bytes replaced. *)
Lemma quote_lit_spec s :
  lit_ok (quote_lit s) ∧ unquote (quote_lit s) = valid_utf8 s
  ∧ html_escape (quote_lit s) = quote_lit s.
Proof.
  unfold quote_lit, unquote, valid_utf8, runes, decode_all.
  remember (length s) as n eqn:Hn. revert s Hn.
  induction (lt_wf n) as [n _ IH]; intros s ->. destruct s as [|c s]; [by repeat constructor|].
  cbn [decode_from]. pose proof (decode_rune_width c s) as Hw.
  destruct (decode_rune c s) as [r w] eqn:Hd. cbn [snd] in Hw.
  assert (escapes r (escape_rune (r, c :: take (Nat.pred w) s))) as He.
  { destruct (decide (128 ≤ byteN c)); [by apply escapes_wide|].
    assert (byteN c < 128) as Hc by lia. rewrite decode_rune_ascii in Hd by done.
    injection Hd as <- <-. unfold escape_rune. rewrite (proj2 (N.ltb_lt _ _) Hc).
    by apply escapes_byte. }
  rewrite decode_from_skip, bind_cons, fmap_cons. unfold string_of_runes. rewrite bind_cons.
  destruct (IH (length (drop (Nat.pred w) s))) with (s := drop (Nat.pred w) s) as (H1 & H2 & H3);
    [rewrite length_drop; cbn; lia|done|].
  destruct (He _ H1) as (G1 & G2 & G3). split_and!; [done|by rewrite G2, H2|by rewrite G3, H3].
Qed.

Lemma unquote_quote_lit s : unquote (quote_lit s) = valid_utf8 s.
Proof. apply quote_lit_spec. Qed.

Lemma unquote_quote_ascii s : ascii_only s = true → unquote (quote_lit s) = s.
Proof. intros Hs. by rewrite unquote_quote_lit, valid_utf8_ascii. Qed.

(** A literal denotes valid UTF-8. *)
Lemma unq_runes k s : ∃ rs, unq k s = string_of_runes rs.
Proof.
  revert k. induction s as [|c s IH]; intros k; [by exists []|]. cbn [unq].
  destruct k as [|k]; [|apply IH]. destruct (byteN c =? 92).
  - destruct s as [|e s]; [by exists []|]. destruct (simple_escape e) as [b|] eqn:He.
    + destruct (IH 1%nat) as [rs ->]. exists (byteN b :: rs). unfold string_of_runes.
      rewrite bind_cons, encode_rune_ascii, chr_byteN; [done|].
      unfold simple_escape in He. repeat case_match; simplify_eq; try (vm_compute; reflexivity). lia.
    + destruct (unicode_escape s) as [[r k]|]; [|by exists []].
      destruct (IH k) as [rs ->]. by exists (r :: rs).
  - destruct (decode_rune c s) as [r w]. destruct (IH (Nat.pred w)) as [rs ->]. by exists (r :: rs).
Qed.

Lemma valid_utf8_unquote lit : valid_utf8 (unquote lit) = unquote lit.
Proof. unfold unquote. destruct (unq_runes 0 lit) as [rs ->]. apply valid_utf8_string_of_runes. Qed.
