(* ===== verification/JsonRound.v ===== *)
(** * JSON: the round trip

    Printing and reading back gives the tree printed ([Unmarshal_compact]);
    everything the parser returns can be printed ([Unmarshal_ok]); the fuel of
    [Unmarshal] is enough ([parse_enough]). *)
From Stdlib Require Import ZifyBool.
From S2P Require Import Prelude GoStr Utf8 Sha256 Json.
Local Open Scope N_scope.

Section json_induction.
Context (P : json → Prop).
Context (Hnull : P JNull) (Hbool : ∀ b, P (JBool b)) (Hnum : ∀ t, P (JNum t)) (Hstr : ∀ s, P (JStr s)).
Context (Harr : ∀ l, Forall P l → P (JArr l)) (Hobj : ∀ m, Forall (λ kv, P kv.2) m → P (JObj m)).

Fixpoint json_nested_ind (v : json) : P v :=
  match v with
  | JNull => Hnull
  | JBool b => Hbool b
  | JNum t => Hnum t
  | JStr s => Hstr s
  | JArr l => Harr l ((fix go l := match l return Forall P l with
      | [] => Forall_nil_2 P
      | x :: l' => Forall_cons_2 P x l' (json_nested_ind x) (go l') end) l)
  | JObj m => Hobj m ((fix go m := match m return Forall (λ kv, P kv.2) m with
      | [] => Forall_nil_2 _
      | (k, x) :: m' => Forall_cons_2 (λ kv, P kv.2) (k, x) m' (json_nested_ind x) (go m') end) m)
  end.
End json_induction.

(** Trees of JSON texts: well-formed literals and numbers. *)
Fixpoint json_ok (v : json) : Prop :=
  match v with
  | JNull | JBool _ => True
  | JNum t => parse_number t = Some (t, [])
  | JStr lit => lit_ok lit
  | JArr l => foldr (λ x q, json_ok x ∧ q) True l
  | JObj m => foldr (λ kv q, lit_ok kv.1 ∧ json_ok kv.2 ∧ q) True m
  end.

(** Nesting depth, and the number of steps parsing takes. *)
Fixpoint jdepth (v : json) : N :=
  match v with
  | JArr l => 1 + foldr (λ x n, N.max (jdepth x) n) 0 l
  | JObj m => 1 + foldr (λ kv n, N.max (jdepth kv.2) n) 0 m
  | _ => 0
  end.
Fixpoint jsize (v : json) : nat :=
  match v with
  | JArr l => S (foldr (λ x n, (S (jsize x) + n)%nat) 0%nat l)
  | JObj m => S (foldr (λ kv n, (S (jsize kv.2) + n)%nat) 0%nat m)
  | _ => 1%nat
  end.

(** *** Numbers *)

(** What may follow a number. *)
Definition delim (rest : gostring) : Prop :=
  match rest with
  | [] => True
  | c :: _ => is_digit_byte c = false ∧ byteN c ≠ 46 ∧ byteN c ≠ 101 ∧ byteN c ≠ 69
  end.

Lemma take_digits_app s rest :
  delim rest → take_digits (s ++ rest) = ((take_digits s).1, (take_digits s).2 ++ rest).
Proof.
  intros Hd. induction s as [|c s IH]; cbn.
  - destruct rest as [|c rest]; [done|]. cbn. destruct Hd as [-> _]. done.
  - destruct (is_digit_byte c); [|done]. rewrite IH. by destruct (take_digits s).
Qed.

Lemma parse_frac_app s f t rest :
  delim rest → parse_frac s = Some (f, t) → parse_frac (s ++ rest) = Some (f, t ++ rest).
Proof.
  intros Hd. destruct s as [|c s]; cbn.
  - intros [= <- <-]. destruct rest as [|c rest]; [done|]. cbn.
    destruct Hd as (_ & Hne%N.eqb_neq & _). by rewrite Hne.
  - destruct (byteN c =? 46); [|by intros [= <- <-]]. rewrite take_digits_app by done.
    destruct (take_digits s) as [[|d ds] u]; [done|]. by intros [= <- <-].
Qed.

Lemma parse_exp_app s f t rest :
  delim rest → parse_exp s = Some (f, t) → parse_exp (s ++ rest) = Some (f, t ++ rest).
Proof.
  intros Hd. destruct s as [|c s]; cbn.
  - intros [= <- <-]. destruct rest as [|c rest]; [done|]. cbn.
    destruct Hd as (_ & _ & H1%N.eqb_neq & H2%N.eqb_neq). by rewrite H1, H2.
  - destruct ((byteN c =? 101) || (byteN c =? 69)); [|by intros [= <- <-]].
    destruct s as [|g s]; [done|]. cbn [app].
    destruct ((byteN g =? 43) || (byteN g =? 45)).
    + rewrite take_digits_app by done.
      destruct (take_digits s) as [[|d ds] u]; [done|]. by intros [= <- <-].
    + rewrite (take_digits_app (g :: s) rest Hd : take_digits (g :: s ++ rest) = _).
      destruct (take_digits (g :: s)) as [[|d ds] u]; [done|]. by intros [= <- <-].
Qed.

Lemma parse_int_app s f t rest :
  delim rest → parse_int s = Some (f, t) → parse_int (s ++ rest) = Some (f, t ++ rest).
Proof.
  intros Hd. destruct s as [|c s]; [done|]. unfold parse_int. cbn [app].
  destruct (byteN c =? 48); [by intros [= <- <-]|]. destruct (is_digit_byte c); [|done].
  pose proof (take_digits_app (c :: s) rest Hd) as Ht. cbn [app] in Ht. rewrite Ht.
  by destruct (take_digits (c :: s)) as [a b]; intros [= <- <-].
Qed.

Lemma parse_number_app s rest :
  delim rest → parse_number s = Some (s, []) → parse_number (s ++ rest) = Some (s, rest).
Proof.
  intros Hd. destruct s as [|c s]; [done|]. unfold parse_number. cbn [app].
  set (k := if byteN c =? 45 then ([c], s) else ([], c :: s)).
  set (k' := if byteN c =? 45 then ([c], s ++ rest) else ([], c :: s ++ rest)).
  assert (k' = (k.1, k.2 ++ rest)) as -> by (unfold k, k'; by destruct (byteN c =? 45)).
  clearbody k. destruct k as [sign t]. cbn [fst snd].
  destruct (parse_int t) as [[i t1]|] eqn:Ei; cbn [mbind option_bind]; [|done].
  rewrite (parse_int_app _ _ _ _ Hd Ei). cbn [mbind option_bind].
  destruct (parse_frac t1) as [[f t2]|] eqn:Ef; cbn [mbind option_bind]; [|done].
  rewrite (parse_frac_app _ _ _ _ Hd Ef). cbn [mbind option_bind].
  destruct (parse_exp t2) as [[e t3]|] eqn:Ee; cbn [mbind option_bind]; [|done].
  rewrite (parse_exp_app _ _ _ _ Hd Ee). cbn [mbind option_bind].
  intros [= Hs ->]. by rewrite Hs.
Qed.

(** A number starts with a digit or a minus sign. *)
Lemma parse_number_head s r :
  parse_number s = Some r → ∃ c t, s = c :: t ∧ (byteN c = 45 ∨ is_digit_byte c = true).
Proof.
  destruct s as [|c s]; [done|]. intros H. exists c, s. split; [done|].
  unfold parse_number in H. destruct (byteN c =? 45) eqn:E; [left; by apply N.eqb_eq|right].
  unfold parse_int in H. destruct (byteN c =? 48) eqn:E0.
  - apply N.eqb_eq in E0. unfold is_digit_byte, byteZ. unfold byteN in E0. rewrite E0. done.
  - by destruct (is_digit_byte c).
Qed.

(** *** Values *)

Lemma skip_ws_ink c t : is_ws c = false → skip_ws (c :: t) = c :: t.
Proof. intros Hc. cbn [skip_ws]. by rewrite Hc. Qed.

Lemma number_head_ink c :
  byteN c = 45 ∨ is_digit_byte c = true →
  is_ws c = false ∧ (byteN c =? 93) = false ∧ (byteN c =? 34) = false ∧ (byteN c =? 91) = false ∧
  (byteN c =? 123) = false ∧ (byteN c =? 110) = false ∧ (byteN c =? 116) = false ∧ (byteN c =? 102) = false.
Proof.
  intros H. assert (byteN c = 45 ∨ 48 ≤ byteN c ≤ 57) as H'.
  { destruct H as [H|H]; [by left|right]. unfold is_digit_byte, byteZ in H. unfold byteN. lia. }
  clear H. unfold is_ws. split_and!; lia.
Qed.

(** The printed form of a value starts with a byte that is neither white space
    nor a closing bracket. *)
Lemma text_head v :
  json_ok v → ∃ c t, text_of v = c :: t ∧ is_ws c = false ∧ (byteN c =? 93) = false.
Proof.
  destruct v as [|[]|text|s|l|m]; intros Hok; try (eexists _, _; split; [reflexivity|by vm_compute]).
  apply parse_number_head in Hok as (c & t & -> & Hc). exists c, t. split; [done|].
  apply number_head_ink in Hc. naive_solver.
Qed.

(** What the parser promises of one value, at any position. *)
Definition parses (v : json) : Prop :=
  ∀ fuel depth rest,
    (jsize v ≤ fuel)%nat → depth + jdepth v ≤ max_depth → delim rest →
    parse fuel depth PVal (text_of v ++ rest) = Some (v, rest).

Lemma delim_byte n rest :
  n = 44 ∨ n = 93 ∨ n = 125 → delim (chr n :: rest).
Proof. intros [->|[->| ->]]; by vm_compute. Qed.

(** The tail of an array, from an element on. *)
Lemma parse_elems l :
  Forall parses l → Forall json_ok l → l ≠ [] →
  ∀ fuel depth acc rest,
    (foldr (λ x n, (S (jsize x) + n)%nat) 0%nat l ≤ fuel)%nat →
    Forall (λ x, depth + jdepth x ≤ max_depth) l →
    parse fuel depth (PElems acc) (Join (text_of <$> l) (go ",") ++ go "]" ++ rest) =
    Some (JArr (acc ++ l), rest).
Proof.
  induction 1 as [|x l Hx _ IH]; intros Hok Hne fuel depth acc rest Hfuel Hdepth; [done|].
  inversion Hok as [|?? Hxo Hlo]; inversion Hdepth as [|?? Hxd Hld]; subst. cbn [foldr] in Hfuel.
  destruct fuel as [|fuel]; [lia|]. cbn [parse].
  destruct l as [|y l].
  - cbn [fmap list_fmap Join]. change (go "]" ++ rest) with (chr 93 :: rest).
    rewrite Hx by (lia || done || (apply delim_byte; auto)). done.
  - rewrite fmap_cons, Join_cons by done. rewrite <- !app_assoc.
    change (go "," ++ ?r) with (chr 44 :: r).
    rewrite Hx by (lia || done || (apply delim_byte; auto)).
    cbn [mbind option_bind]. rewrite skip_ws_ink by done. change (byteN (chr 44) =? 44) with true.
    cbn iota. rewrite IH by (done || lia). by rewrite <- app_assoc.
Qed.

Definition print_member (kv : gostring * json) : gostring :=
  (quote :: kv.1 ++ [quote]) ++ go ":" ++ text_of kv.2.

(** The tail of an object, from a member on. *)
Lemma parse_members m :
  Forall (λ kv, parses kv.2) m → Forall (λ kv, lit_ok kv.1 ∧ json_ok kv.2) m → m ≠ [] →
  ∀ fuel depth acc rest,
    (foldr (λ kv n, (S (jsize kv.2) + n)%nat) 0%nat m ≤ fuel)%nat →
    Forall (λ kv, depth + jdepth kv.2 ≤ max_depth) m →
    parse fuel depth (PMembers acc) (Join (print_member <$> m) (go ",") ++ go "}" ++ rest) =
    Some (JObj (acc ++ m), rest).
Proof.
  induction 1 as [|[k x] m Hx _ IH]; intros Hok Hne fuel depth acc rest Hfuel Hdepth; [done|].
  inversion Hok as [|?? [Hk Hxo] Hlo]; inversion Hdepth as [|?? Hxd Hld]; subst.
  cbn [foldr fst snd] in *.
  destruct fuel as [|fuel]; [lia|]. cbn [parse].
  assert (∀ t, print_member (k, x) ++ t =
    quote :: k ++ quote :: chr 58 :: text_of x ++ t) as Hp.
  { intros t. unfold print_member. cbn [fst snd]. rewrite <- !app_assoc. cbn [app].
    by rewrite <- !app_assoc. }
  assert (∀ t, skip_ws (quote :: t) = quote :: t ∧ skip_ws (chr 58 :: t) = chr 58 :: t ∧
    skip_ws (chr 44 :: t) = chr 44 :: t ∧ skip_ws (chr 125 :: t) = chr 125 :: t) as Hs
    by (intros; split_and!; by apply skip_ws_ink).
  destruct m as [|y m].
  - cbn [fmap list_fmap Join]. change (go "}" ++ rest) with (chr 125 :: rest).
    rewrite Hp, (proj1 (Hs _)). change (byteN quote =? 34) with true. cbn iota.
    rewrite scan_str_lit by done. cbn [mbind option_bind].
    rewrite (proj1 (proj2 (Hs _))). change (byteN (chr 58) =? 58) with true. cbn iota.
    rewrite Hx by (lia || done || (apply delim_byte; auto)). done.
  - rewrite fmap_cons, Join_cons by done. rewrite <- !app_assoc.
    change (go "," ++ ?r) with (chr 44 :: r).
    rewrite Hp, (proj1 (Hs _)). change (byteN quote =? 34) with true. cbn iota.
    rewrite scan_str_lit by done. cbn [mbind option_bind].
    rewrite (proj1 (proj2 (Hs _))). change (byteN (chr 58) =? 58) with true. cbn iota.
    rewrite Hx by (lia || done || (apply delim_byte; auto)). cbn [mbind option_bind].
    rewrite (proj1 (proj2 (proj2 (Hs _)))). change (byteN (chr 44) =? 44) with true.
    cbn iota. rewrite IH by (done || lia). by rewrite <- app_assoc.
Qed.

Lemma foldr_Forall {A} (P : A → Prop) l : foldr (λ x q, P x ∧ q) True l ↔ Forall P l.
Proof.
  induction l as [|x l IH]; cbn [foldr]; [by split; intros|].
  rewrite Forall_cons. tauto.
Qed.
Lemma json_ok_arr l : json_ok (JArr l) ↔ Forall json_ok l.
Proof. apply foldr_Forall. Qed.
Lemma json_ok_obj m : json_ok (JObj m) ↔ Forall (λ kv, lit_ok kv.1 ∧ json_ok kv.2) m.
Proof.
  rewrite <- foldr_Forall. cbn [json_ok]. induction m as [|kv m IH]; cbn [foldr]; [done|]. tauto.
Qed.
Lemma foldr_max_Forall {A} (f : A → N) l d b :
  d + (1 + foldr (λ x n, N.max (f x) n) 0 l) ≤ b → Forall (λ x, (d + 1) + f x ≤ b) l.
Proof.
  induction l as [|x l IH]; intros H; [constructor|]. cbn [foldr] in H.
  constructor; [lia|apply IH; lia].
Qed.

Lemma parse_literal_app word v rest : parse_literal word v (go word ++ rest) = Some (v, rest).
Proof.
  unfold parse_literal. assert (HasPrefix (go word ++ rest) (go word) = true) as ->
    by (apply HasPrefix_spec; eauto).
  by rewrite drop_app_length.
Qed.

Lemma parse_text v : json_ok v → parses v.
Proof.
  induction v as [|b|text|s|l IH|m IH] using json_nested_ind; intros Hok [|fuel] depth rest Hf Hd Hr;
    try (cbn in Hf; lia).
  - apply (parse_literal_app "null").
  - destruct b; [apply (parse_literal_app "true")|apply (parse_literal_app "false")].
  - pose proof (parse_number_head _ _ Hok) as (c & t & -> & Hc).
    apply number_head_ink in Hc as (Hw & _ & H1 & H2 & H3 & H4 & H5 & H6).
    cbn [parse text_of app]. rewrite skip_ws_ink, H1, H2, H3, H4, H5, H6 by done.
    change (c :: t ++ rest) with ((c :: t) ++ rest). by rewrite parse_number_app.
  - cbn [parse text_of]. cbn [app]. rewrite skip_ws_ink by done.
    change (byteN quote =? 34) with true. cbn iota.
    rewrite <- app_assoc. cbn [app]. by rewrite scan_str_lit.
  - apply json_ok_arr in Hok. cbn [jsize jdepth] in Hf, Hd.
    cbn [text_of]. change (go "[") with [chr 91]. rewrite <- !app_assoc. cbn [app parse].
    rewrite skip_ws_ink by done. change (byteN (chr 91) =? 34) with false.
    change (byteN (chr 91) =? 91) with true. cbn iota.
    assert (max_depth <=? depth = false) as -> by (apply N.leb_gt; lia).
    destruct l as [|x l]; [done|].
    assert (∃ c t, Join (text_of <$> x :: l) (go ",") ++ go "]" ++ rest = c :: t ∧
      is_ws c = false ∧ (byteN c =? 93) = false) as (c & t & Ht & Hc & Hc').
    { inversion Hok as [|?? Hx _]; subst. apply text_head in Hx as (c & t & Hx & Hc).
      rewrite fmap_cons, Hx. destruct l; cbn [fmap list_fmap Join]; naive_solver. }
    rewrite Ht, skip_ws_ink, Hc', <- Ht by done.
    apply parse_elems; [|done|done|lia|by apply foldr_max_Forall].
    clear -IH Hok. induction IH; inversion Hok; subst; constructor; auto.
  - apply json_ok_obj in Hok. cbn [jsize jdepth] in Hf, Hd.
    cbn [text_of]. change (go "{") with [chr 123]. rewrite <- !app_assoc. cbn [app parse].
    rewrite skip_ws_ink by done. change (byteN (chr 123) =? 34) with false.
    change (byteN (chr 123) =? 91) with false. change (byteN (chr 123) =? 123) with true. cbn iota.
    assert (max_depth <=? depth = false) as -> by (apply N.leb_gt; lia).
    destruct m as [|x m]; [done|]. change (λ kv, _) with print_member.
    assert (∃ t, Join (print_member <$> x :: m) (go ",") ++ go "}" ++ rest = quote :: t) as (t & Ht).
    { rewrite fmap_cons. destruct m; cbn [fmap list_fmap Join]; unfold print_member at 1;
        cbn [app]; eauto. }
    rewrite Ht, skip_ws_ink by done. change (byteN quote =? 125) with false. cbn iota. rewrite <- Ht.
    apply parse_members; [|done|done|lia|by apply foldr_max_Forall].
    clear -IH Hok. induction IH; inversion Hok as [|?? []]; subst; constructor; auto.
Qed.

Lemma length_Join l sep :
  (foldr (λ x n, length x + n) 0 l ≤ length (Join l sep))%nat.
Proof.
  induction l as [|x [|y l] IH]; [done|cbn; lia|].
  rewrite Join_cons by done. rewrite !length_app. cbn [foldr] in *. lia.
Qed.

Lemma jsize_text v : json_ok v → (jsize v + 1 ≤ 2 * length (text_of v))%nat.
Proof.
  induction v as [|b|text|s|l IH|m IH] using json_nested_ind; intros Hok.
  - vm_compute; lia.
  - destruct b; vm_compute; lia.
  - apply parse_number_head in Hok as (c & t & -> & _). cbn. lia.
  - cbn [jsize text_of]. cbn [length]. lia.
  - apply json_ok_arr in Hok. cbn [jsize text_of]. rewrite !length_app.
    pose proof (length_Join (text_of <$> l) (go ",")) as HJ.
    change (length (go "[")) with 1%nat. change (length (go "]")) with 1%nat.
    enough (foldr (λ x n, (S (jsize x) + n)%nat) 0%nat l ≤
      2 * foldr (λ x n, (length x + n)%nat) 0%nat (text_of <$> l))%nat by lia.
    clear HJ. induction IH as [|x l Hx _ IHl]; [done|].
    inversion Hok; subst. rewrite fmap_cons. cbn [foldr].
    specialize (Hx ltac:(done)). specialize (IHl ltac:(done)). lia.
  - apply json_ok_obj in Hok. cbn [jsize text_of]. rewrite !length_app.
    change (λ kv, (quote :: kv.1 ++ [quote]) ++ _) with print_member.
    pose proof (length_Join (print_member <$> m) (go ",")) as HJ.
    change (length (go "{")) with 1%nat. change (length (go "}")) with 1%nat.
    enough (foldr (λ kv n, (S (jsize kv.2) + n)%nat) 0%nat m ≤
      2 * foldr (λ x n, (length x + n)%nat) 0%nat (print_member <$> m))%nat by lia.
    clear HJ. induction IH as [|x m Hx _ IHl]; [done|].
    inversion Hok as [|?? []]; subst. rewrite fmap_cons. cbn [foldr].
    specialize (Hx ltac:(done)). specialize (IHl ltac:(done)).
    unfold print_member at 1. rewrite !length_app. lia.
Qed.

Lemma Unmarshal_text v :
  json_ok v → jdepth v ≤ max_depth →
  Unmarshal (text_of v) = Some v ∧ DecodeFirst (text_of v) = Some v.
Proof.
  intros Hok Hd. pose proof (jsize_text v Hok).
  pose proof (parse_text v Hok (parse_fuel (text_of v)) 0 []) as Hp.
  rewrite app_nil_r in Hp. unfold Unmarshal, DecodeFirst.
  rewrite Hp; [done|unfold parse_fuel; lia|lia|done].
Qed.

(** A reader that stops after the first value ignores what follows it. *)
Lemma DecodeFirst_text v rest :
  json_ok v → jdepth v ≤ max_depth → delim rest → DecodeFirst (text_of v ++ rest) = Some v.
Proof.
  intros Hok Hd Hr. pose proof (jsize_text v Hok). unfold DecodeFirst.
  rewrite (parse_text v Hok); [done| |lia|done]. unfold parse_fuel. rewrite length_app. lia.
Qed.

Lemma canon_ok v : json_ok v → json_ok (canon v).
Proof.
  induction v as [|b|text|s|l IH|m IH] using json_nested_ind; intros Hok; try done.
  - by apply lit_ok_html_escape.
  - apply json_ok_arr in Hok. cbn [canon]. apply json_ok_arr, Forall_fmap.
    induction IH; inversion Hok; subst; constructor; auto.
  - apply json_ok_obj in Hok. cbn [canon]. apply json_ok_obj, Forall_fmap.
    induction IH; inversion Hok as [|?? []]; subst; constructor; auto.
    split; [by apply lit_ok_html_escape|auto].
Qed.

Lemma jdepth_canon v : jdepth (canon v) = jdepth v.
Proof.
  induction v as [|b|text|s|l IH|m IH] using json_nested_ind; try done; cbn [canon jdepth]; f_equal.
  - induction IH as [|x l Hx _ IHl]; [done|]. rewrite fmap_cons. cbn [foldr]. by rewrite Hx, IHl.
  - induction IH as [|x m Hx _ IHm]; [done|]. rewrite fmap_cons. cbn [foldr snd]. by rewrite Hx, IHm.
Qed.

(** Reading back what was printed gives the tree printed, up to the escaping
    of its literals, with nothing left over. *)
Lemma Unmarshal_compact v :
  json_ok v → jdepth v ≤ max_depth →
  Unmarshal (compact v) = Some (canon v) ∧ DecodeFirst (compact v) = Some (canon v).
Proof. intros Hok Hd. apply Unmarshal_text; [by apply canon_ok|by rewrite jdepth_canon]. Qed.

(** ** What the parser returns *)

(** A text that continues a token the same way, or ends it. *)
Definition same_head (b b' : gostring) : Prop := b' = [] ∨ head b' = head b.

Lemma same_head_app x b : same_head (x ++ b) x.
Proof. destruct x; [by left|by right]. Qed.
Lemma same_head_app_r x b b' : same_head b b' → same_head (x ++ b) (x ++ b').
Proof. by destruct x; [|right]. Qed.

Lemma take_digits_split s a b :
  take_digits s = (a, b) → s = a ++ b ∧ ∀ b', same_head b b' → take_digits (a ++ b') = (a, b').
Proof.
  revert a. induction s as [|c s IH]; intros a; cbn [take_digits].
  - intros [= <- <-]. split; [done|]. intros [|c b'] [|]; done.
  - destruct (is_digit_byte c) eqn:Ec.
    + destruct (take_digits s) as [a0 b0]. intros [= <- <-]. destruct (IH a0 eq_refl) as [-> Hb].
      split; [done|]. intros b' Hb'. cbn [app take_digits]. by rewrite Ec, Hb.
    + intros [= <- <-]. split; [done|]. intros [|d b'] [|Hh]; try done.
      injection Hh as ->. cbn [app take_digits]. by rewrite Ec.
Qed.

Definition splits (p : gostring → option (gostring * gostring)) : Prop :=
  ∀ s a b, p s = Some (a, b) → s = a ++ b ∧ ∀ b', same_head b b' → p (a ++ b') = Some (a, b').

Lemma parse_int_splits_cons s a b :
  parse_int s = Some (a, b) →
  s = a ++ b ∧ a ≠ [] ∧ ∀ b', same_head b b' → parse_int (a ++ b') = Some (a, b').
Proof.
  destruct s as [|c s]; [done|]. unfold parse_int at 1. destruct (byteN c =? 48) eqn:E0.
  - intros [= <- <-]. split_and!; [done..|]. intros b' _. cbn [app parse_int]. by rewrite E0.
  - destruct (is_digit_byte c) eqn:Ec; [|done]. intros Ht%Some_inj. change (take_digits (c :: s) = (a, b)) in Ht.
    destruct (take_digits_split _ _ _ Ht) as [Hs Hb]. destruct a as [|d a].
    { cbn [take_digits] in Ht. rewrite Ec in Ht. by destruct (take_digits s). }
    injection Hs as <- ->. split_and!; [done..|]. intros b' Hb'. cbn [app parse_int].
    rewrite E0, Ec. f_equal. by apply Hb.
Qed.

Lemma parse_frac_splits : splits parse_frac.
Proof.
  intros [|c s] a b; cbn [parse_frac].
  - intros [= <- <-]. split; [done|]. intros [|d b'] [|]; done.
  - destruct (byteN c =? 46) eqn:Ec.
    + destruct (take_digits s) as [[|d ds] t] eqn:Et; [done|]. intros [= <- <-].
      destruct (take_digits_split _ _ _ Et) as [-> Hb]. split; [done|]. intros b' Hb'.
      cbn [app parse_frac]. rewrite Ec. by rewrite (Hb b' Hb' : take_digits (d :: ds ++ b') = _).
    + intros [= <- <-]. split; [done|]. intros [|d b'] [|Hh]; try done. injection Hh as ->.
      cbn [app parse_frac]. by rewrite Ec.
Qed.

Lemma parse_exp_splits : splits parse_exp.
Proof.
  intros [|c s] a b; cbn [parse_exp].
  - intros [= <- <-]. split; [done|]. intros [|d b'] [|]; done.
  - destruct ((byteN c =? 101) || (byteN c =? 69)) eqn:Ec.
    + destruct s as [|g s]; [done|]. destruct ((byteN g =? 43) || (byteN g =? 45)) eqn:Eg.
      * destruct (take_digits s) as [[|d ds] t] eqn:Et; [done|]. intros [= <- <-].
        destruct (take_digits_split _ _ _ Et) as [-> Hb]. split; [done|]. intros b' Hb'.
        cbn [app parse_exp]. rewrite Ec, Eg. by rewrite (Hb b' Hb' : take_digits (d :: ds ++ b') = _).
      * destruct (take_digits (g :: s)) as [[|d ds] t] eqn:Et; [done|]. intros [= <- <-].
        destruct (take_digits_split _ _ _ Et) as [Hs Hb]. injection Hs as <- ->.
        split; [done|]. intros b' Hb'.
        cbn [app parse_exp]. rewrite Ec, Eg. by rewrite (Hb b' Hb' : take_digits (g :: ds ++ b') = _).
    + intros [= <- <-]. split; [done|]. intros [|d b'] [|Hh]; try done. injection Hh as ->.
      cbn [app parse_exp]. by rewrite Ec.
Qed.

(** The text of a number is itself a number. *)
Lemma parse_number_split s n rest :
  parse_number s = Some (n, rest) → s = n ++ rest ∧ n ≠ [] ∧ parse_number n = Some (n, []).
Proof.
  intros H. assert (∃ sign t i t1 f t2 e, s = sign ++ t ∧ n = sign ++ i ++ f ++ e ∧
    (sign = [] ∧ (∀ c u, t = c :: u → byteN c =? 45 = false) ∨ ∃ c, sign = [c] ∧ byteN c =? 45 = true) ∧
    parse_int t = Some (i, t1) ∧ parse_frac t1 = Some (f, t2) ∧ parse_exp t2 = Some (e, rest))
    as (sign & t & i & t1 & f & t2 & e & -> & -> & Hsign & Hi & Hf & He).
  { unfold parse_number in H. destruct s as [|c s]; [done|].
    destruct (byteN c =? 45) eqn:Ec.
    - destruct (parse_int s) as [[i t1]|] eqn:Hi; [|done].
      destruct (parse_frac t1) as [[f t2]|] eqn:Hf; cbn in H; rewrite ?Hf in H; [|done]. cbn in H.
      destruct (parse_exp t2) as [[e t3]|] eqn:He; [|done]. injection H as <- <-.
      exists [c], s, i, t1, f, t2, e. split_and!; eauto.
    - destruct (parse_int (c :: s)) as [[i t1]|] eqn:Hi; [|done].
      destruct (parse_frac t1) as [[f t2]|] eqn:Hf; cbn in H; rewrite ?Hf in H; [|done]. cbn in H.
      destruct (parse_exp t2) as [[e t3]|] eqn:He; [|done]. injection H as <- <-.
      exists [], (c :: s), i, t1, f, t2, e. split_and!; eauto. left. split; [done|].
      by intros ?? [= <- <-]. }
  destruct (parse_int_splits_cons _ _ _ Hi) as (-> & Hine & Hi').
  destruct (parse_frac_splits _ _ _ Hf) as [-> Hf'].
  destruct (parse_exp_splits _ _ _ He) as [-> He'].
  specialize (Hi' (f ++ e)). specialize (Hf' e). specialize (He' []).
  rewrite app_nil_r in He'. split_and!; [by rewrite <- !app_assoc| |].
  { destruct i; [done|]. by destruct sign. }
  assert (∀ sg, parse_int (i ++ f ++ e) ≫= (λ '(i, t1), parse_frac t1 ≫= λ '(f, t2),
    parse_exp t2 ≫= λ '(e, t3), Some (sg ++ i ++ f ++ e, t3)) = Some (sg ++ i ++ f ++ e, [])) as Hgo.
  { intros sg. rewrite Hi' by (rewrite app_assoc; apply same_head_app). cbn [mbind option_bind].
    rewrite Hf' by apply same_head_app. cbn [mbind option_bind]. by rewrite He' by by left. }
  unfold parse_number. destruct Hsign as [[-> Hs]|(c & -> & Hc)].
  - destruct i as [|d i]; [done|]. cbn [app]. cbn [app] in Hs. rewrite (Hs _ _ eq_refl). apply (Hgo []).
  - cbn [app]. rewrite Hc. apply (Hgo [c]).
Qed.

Definition mode_ok (d : N) (m : pmode) : Prop :=
  d ≤ max_depth ∧
  match m with
  | PVal => True
  | PElems acc => 1 ≤ d ∧ Forall (λ x, json_ok x ∧ d + jdepth x ≤ max_depth) acc
  | PMembers acc =>
      1 ≤ d ∧ Forall (λ kv, lit_ok kv.1 ∧ json_ok kv.2 ∧ d + jdepth kv.2 ≤ max_depth) acc
  end.
Definition mode_depth (d : N) (m : pmode) : N := match m with PVal => d | _ => d - 1 end.

Lemma skip_ws_length s : (length (skip_ws s) ≤ length s)%nat.
Proof. induction s as [|c s IH]; [done|]. cbn [skip_ws]. destruct (is_ws c); cbn; lia. Qed.
Lemma skip_ws_cons s c t : skip_ws s = c :: t → (length t < length s)%nat.
Proof. intros H. pose proof (skip_ws_length s) as Hl. rewrite H in Hl. cbn in Hl. lia. Qed.
Lemma scan_str_length s lit rest : scan_str s = Some (lit, rest) → (length rest < length s)%nat.
Proof. intros [_ ->]%scan_str_inv. rewrite length_app. cbn. lia. Qed.

Lemma parse_literal_inv word v s w rest :
  word ≠ EmptyString → parse_literal word v s = Some (w, rest) → w = v ∧ (length rest < length s)%nat.
Proof.
  unfold parse_literal. intros Hw. if_case; [|done]. intros [= <- <-]. split; [done|].
  match goal with H : HasPrefix _ _ = true |- _ => apply HasPrefix_spec in H as [t ->] end.
  rewrite drop_app_length, length_app. destruct word as [|a word]; [done|]. change (go (String a word)) with (a :: go word). cbn [length]. lia.
Qed.

Lemma foldr_max_le {A} (f : A → N) l d b :
  Forall (λ x, (d + f x ≤ b)) l → d ≤ b → d + foldr (λ x n, N.max (f x) n) 0 l ≤ b.
Proof. induction 1 as [|x l Hx _ IH]; intros Hd; cbn [foldr]; [lia|]. specialize (IH Hd). lia. Qed.

Lemma arr_depth d l : Forall (λ x, d + jdepth x ≤ max_depth) l → 1 ≤ d ≤ max_depth →
  d - 1 + jdepth (JArr l) ≤ max_depth.
Proof. intros Hl Hd. apply foldr_max_le in Hl; [|lia]. cbn [jdepth]. lia. Qed.
Lemma obj_depth d (m : list (gostring * json)) :
  Forall (λ kv, d + jdepth kv.2 ≤ max_depth) m → 1 ≤ d ≤ max_depth →
  d - 1 + jdepth (JObj m) ≤ max_depth.
Proof.
  intros Hl Hd. apply (foldr_max_le (λ kv, jdepth kv.2)) in Hl; [|lia]. cbn [jdepth]. lia.
Qed.

(** Every tree the parser returns can be printed, and stays within the nesting
    limit; the parser consumes something. *)
Lemma parse_sound fuel depth m s v rest :
  mode_ok depth m → parse fuel depth m s = Some (v, rest) →
  json_ok v ∧ mode_depth depth m + jdepth v ≤ max_depth ∧ (length rest < length s)%nat.
Proof.
  revert depth m s v rest. induction fuel as [|fuel IH]; intros depth m s v rest [Hd Hm]; [done|].
  destruct m as [|acc|acc]; cbn [parse mode_depth].
  - destruct (skip_ws s) as [|c t] eqn:Hs; [done|]. apply skip_ws_cons in Hs.
    destruct (byteN c =? 34).
    { destruct (scan_str t) as [[lit u]|] eqn:Hl; [|done]. intros [= <- <-].
      pose proof (scan_str_length _ _ _ Hl). apply scan_str_inv in Hl as [? _].
      cbn [jdepth]. split_and!; [done|lia..]. }
    destruct (byteN c =? 91).
    { destruct (max_depth <=? depth) eqn:Hmax; [done|]. destruct (skip_ws t) as [|d u] eqn:Ht; [done|].
      apply skip_ws_cons in Ht. destruct (byteN d =? 93).
      - intros [= <- <-]. cbn. split_and!; [done|lia..].
      - intros (? & Hdep & ?)%IH; [|split; [lia|split; [lia|constructor]]].
        cbn [mode_depth] in Hdep. split_and!; [done|lia..]. }
    destruct (byteN c =? 123).
    { destruct (max_depth <=? depth) eqn:Hmax; [done|]. destruct (skip_ws t) as [|d u] eqn:Ht; [done|].
      apply skip_ws_cons in Ht. destruct (byteN d =? 125).
      - intros [= <- <-]. cbn. split_and!; [done|lia..].
      - intros (? & Hdep & ?)%IH; [|split; [lia|split; [lia|constructor]]].
        cbn [mode_depth] in Hdep. split_and!; [done|lia..]. }
    do 3 (if_case; [intros [-> Hl]%parse_literal_inv; [|done]; cbn in Hl |- *; split_and!; [done|lia..]|]).
    destruct (parse_number (c :: t)) as [[num u]|] eqn:Hn; [|done]. intros [= <- <-].
    apply parse_number_split in Hn as (Hn & Hne & Hnum). cbn [jdepth]. split_and!; [done|lia|].
    destruct num as [|x num]; [done|]. injection Hn as -> ->. rewrite length_app in Hs. lia.
  - destruct Hm as [Hd1 Hacc].
    destruct (parse fuel depth PVal s) as [[x t]|] eqn:Hp; [|done]. cbn [mbind option_bind].
    apply IH in Hp as (Hx & Hxd & Ht); [|done]. cbn [mode_depth] in Hxd.
    assert (Forall (λ x, json_ok x ∧ depth + jdepth x ≤ max_depth) (acc ++ [x])) as Hall
      by (apply Forall_app; split; [done|by repeat constructor]).
    destruct (skip_ws t) as [|c u] eqn:Hu; [done|]. apply skip_ws_cons in Hu.
    destruct (byteN c =? 44).
    { intros (? & ? & ?)%IH; [|done]. split_and!; [done|done|lia]. }
    destruct (byteN c =? 93); [|done]. intros [= <- <-]. split_and!; [|apply arr_depth|lia].
    + apply json_ok_arr. eapply Forall_impl; [exact Hall|]. naive_solver.
    + eapply Forall_impl; [exact Hall|]. naive_solver.
    + lia.
  - destruct Hm as [Hd1 Hacc].
    destruct (skip_ws s) as [|q t] eqn:Hs; [done|]. apply skip_ws_cons in Hs.
    destruct (byteN q =? 34); [|done].
    destruct (scan_str t) as [[key t1]|] eqn:Hk; [|done]. cbn [mbind option_bind].
    pose proof (scan_str_length _ _ _ Hk). apply scan_str_inv in Hk as [Hk _].
    destruct (skip_ws t1) as [|c t2] eqn:Ht1; [done|]. apply skip_ws_cons in Ht1.
    destruct (byteN c =? 58); [|done].
    destruct (parse fuel depth PVal t2) as [[x t3]|] eqn:Hp; [|done]. cbn [mbind option_bind].
    apply IH in Hp as (Hx & Hxd & Ht); [|done]. cbn [mode_depth] in Hxd.
    assert (Forall (λ kv, lit_ok kv.1 ∧ json_ok kv.2 ∧ depth + jdepth kv.2 ≤ max_depth)
      (acc ++ [(key, x)])) as Hall by (apply Forall_app; split; [done|by repeat constructor]).
    destruct (skip_ws t3) as [|d u] eqn:Hu; [done|]. apply skip_ws_cons in Hu.
    destruct (byteN d =? 44).
    { intros (? & ? & ?)%IH; [|done]. split_and!; [done|done|lia]. }
    destruct (byteN d =? 125); [|done]. intros [= <- <-]. split_and!; [|apply obj_depth|lia].
    + apply json_ok_obj. eapply Forall_impl; [exact Hall|]. naive_solver.
    + eapply Forall_impl; [exact Hall|]. naive_solver.
    + lia.
Qed.

Lemma Unmarshal_ok s v : Unmarshal s = Some v → json_ok v ∧ jdepth v ≤ max_depth.
Proof.
  unfold Unmarshal. destruct (parse _ _ _ _) as [[w rest]|] eqn:Hp; [|done].
  destruct (skip_ws rest); [|done]. intros [= ->].
  apply parse_sound in Hp as (? & Hd & _); [done|split; [lia|done]].
Qed.

Definition parse_need (m : pmode) (s : gostring) : nat :=
  match m with PVal => 2 * length s + 1 | _ => 2 * length s + 2 end.

Lemma mode_ok_elems d acc x :
  mode_ok d (PElems acc) → json_ok x → d + jdepth x ≤ max_depth → mode_ok d (PElems (acc ++ [x])).
Proof.
  intros (? & ? & Hacc) ? ?. do 2 (split; [done|]). apply Forall_app. by split; [|repeat constructor].
Qed.
Lemma mode_ok_members d acc k x :
  mode_ok d (PMembers acc) → lit_ok k → json_ok x → d + jdepth x ≤ max_depth →
  mode_ok d (PMembers (acc ++ [(k, x)])).
Proof.
  intros (? & ? & Hacc) ???. do 2 (split; [done|]). apply Forall_app. by split; [|repeat constructor].
Qed.

(** More fuel than the length of the text asks for changes nothing. *)
Lemma parse_enough fuel fuel' depth m s :
  mode_ok depth m → (parse_need m s ≤ fuel)%nat → (parse_need m s ≤ fuel')%nat →
  parse fuel depth m s = parse fuel' depth m s.
Proof.
  revert fuel' depth m s. induction fuel as [|fuel IH]; intros [|fuel'] depth m s Hm H1 H2;
    try (destruct m; cbn in *; lia).
  destruct m as [|acc|acc]; cbn [parse parse_need] in *.
  - destruct (skip_ws s) as [|c t] eqn:Hs; [done|]. apply skip_ws_cons in Hs.
    destruct Hm as [Hd _]. destruct (byteN c =? 34); [done|].
    destruct (max_depth <=? depth) eqn:Hmax; [done|]. apply N.leb_gt in Hmax.
    assert (∀ m, mode_ok (depth + 1) m → m ≠ PVal →
      parse fuel (depth + 1) m t = parse fuel' (depth + 1) m t) as Hrec.
    { intros m Hm Hne. apply IH; [done|destruct m; cbn; (done || lia)..]. }
    rewrite (Hrec (PElems [])), (Hrec (PMembers []));
      [done|(split; [lia|split; [lia|constructor]])|done|(split; [lia|split; [lia|constructor]])|done].
  - rewrite (IH fuel' depth PVal s) by (split_and!; [apply Hm|done] || (cbn; lia)).
    destruct (parse fuel' depth PVal s) as [[x t]|] eqn:Hp; [|done]. cbn [mbind option_bind].
    apply parse_sound in Hp as (Hx & Hxd & Ht); [|split; [apply Hm|done]].
    destruct (skip_ws t) as [|c u] eqn:Hu; [done|]. apply skip_ws_cons in Hu.
    if_case; [|done]. apply IH; [by apply mode_ok_elems|cbn; lia..].
  - destruct (skip_ws s) as [|q t] eqn:Hs; [done|]. apply skip_ws_cons in Hs. if_case; [|done].
    destruct (scan_str t) as [[key t1]|] eqn:Hk; [|done]. cbn [mbind option_bind].
    pose proof (scan_str_length _ _ _ Hk). apply scan_str_inv in Hk as [Hk _].
    destruct (skip_ws t1) as [|c t2] eqn:Ht1; [done|]. apply skip_ws_cons in Ht1. if_case; [|done].
    rewrite (IH fuel' depth PVal t2) by (split_and!; [apply Hm|done] || (cbn; lia)).
    destruct (parse fuel' depth PVal t2) as [[x t3]|] eqn:Hp; [|done]. cbn [mbind option_bind].
    apply parse_sound in Hp as (Hx & Hxd & Ht); [|split; [apply Hm|done]].
    destruct (skip_ws t3) as [|d u] eqn:Hu; [done|]. apply skip_ws_cons in Hu.
    if_case; [|done]. apply IH; [by apply mode_ok_members|cbn; lia..].
Qed.
