(* ===== verification/JsonDecode.v ===== *)
(** * Reading Go values from JSON (encoding/json)

    A decoder takes the current value of a variable and the tree to store into
    it: [null] leaves most variables as they are, an object sets the struct
    fields its members name and keeps the others, and a value of the wrong kind
    is an error.  A member names a field by its exact name or, failing that, by
    its name up to case.  Where an object repeats a member, the last one
    wins. *)
From S2P Require Import Prelude GoStr Utf8 GoFloat Json.
Local Open Scope N_scope.

Definition decoder (A : Type) : Type := A → json → option A.

Definition dec_string : decoder gostring := λ cur v,
  match v with JNull => Some cur | JStr lit => Some (unquote lit) | _ => None end.
Definition dec_bool : decoder bool := λ cur v,
  match v with JNull => Some cur | JBool b => Some b | _ => None end.
(** An [int] takes a number without fraction or exponent that fits 64 bits. *)
Definition dec_int : decoder Z := λ cur v,
  match v with JNull => Some cur | JNum t => Atoi t | _ => None end.
(** A [json.RawMessage] takes any value as it is. *)
Definition dec_raw : decoder (option json) := λ _ v, Some (Some v).

(** [strconv.ParseFloat] on the text of a number; overflow is an error. *)
Definition exp_value (e : gostring) : Z :=
  match e with
  | _ :: g :: ds =>
      if byteN g =? 45 then (- dec_value ds)%Z
      else if byteN g =? 43 then dec_value ds else dec_value (g :: ds)
  | _ => 0%Z
  end.
Definition ParseFloat (t : gostring) : option float64 :=
  let '(neg, u) := match t with
    | c :: u => if byteN c =? 45 then (true, u) else (false, t)
    | [] => (false, []) end in
  '(i, t1) ← parse_int u; '(f, t2) ← parse_frac t1; '(e, _) ← parse_exp t2;
  let r := f64_of_decimal neg (dec_value (i ++ drop 1 f)) (exp_value e - len (drop 1 f)) in
  match r with S754_infinity _ => None | _ => Some r end.
Definition dec_float : decoder float64 := λ cur v,
  match v with JNull => Some cur | JNum t => ParseFloat t | _ => None end.

(** A slice, its elements decoded into fresh zero values. *)
Definition dec_slice {A} (zero : A) (dec : decoder A) : decoder (list A) := λ _ v,
  match v with JNull => Some [] | JArr l => mapM (dec zero) l | _ => None end.

(** A map with string keys: members are added to the map there is. *)
Definition dec_map {A} (zero : A) (dec : decoder A) : decoder (gmap gostring A) := λ cur v,
  match v with
  | JNull => Some ∅
  | JObj ms => foldl (λ acc kv, m ← acc; x ← dec zero kv.2; Some (<[unquote kv.1 := x]> m)) (Some cur) ms
  | _ => None
  end.

(** A pointer: [null] is nil. *)
Definition dec_ptr {A} (zero : A) (dec : decoder A) : decoder (option A) := λ cur v,
  match v with JNull => Some None | _ => Some <$> dec (default zero cur) v end.

Section structs.
Context `{UnicodeData} {A : Type}.

Definition find_field (fields : list (gostring * decoder A)) (key : gostring) : option (decoder A) :=
  match list_find (λ f, f.1 = key) fields with
  | Some (_, (_, d)) => Some d
  | None =>
      match list_find (λ f, EqualFold f.1 key = true) fields with
      | Some (_, (_, d)) => Some d
      | None => None
      end
  end.

Definition dec_member (fields : list (gostring * decoder A)) (acc : option A) (kv : gostring * json)
    : option A :=
  cur ← acc;
  match find_field fields (unquote kv.1) with Some d => d cur kv.2 | None => Some cur end.
Definition dec_struct (fields : list (gostring * decoder A)) : decoder A := λ cur v,
  match v with
  | JNull => Some cur
  | JObj ms => foldl (dec_member fields) (Some cur) ms
  | _ => None
  end.

(** What every field decoder preserves, decoding the struct preserves. *)
Lemma dec_struct_inv (I : A → Prop) fields cur v r :
  Forall (λ fd : gostring * decoder A, ∀ c w q, I c → fd.2 c w = Some q → I q) fields →
  I cur → dec_struct fields cur v = Some r → I r.
Proof.
  intros Hf Hi. destruct v as [| | | | |ms]; try done; cbn [dec_struct]; [by intros [= <-]|].
  assert (∀ key d, find_field fields key = Some d → ∀ c w q, I c → d c w = Some q → I q) as Hfind.
  { intros key d. rewrite Forall_forall in Hf. unfold find_field.
    destruct (list_find (λ f, f.1 = key) fields) as [[i [n d1]]|] eqn:E1;
      [|destruct (list_find (λ f, EqualFold f.1 key = true) fields) as [[i [n d1]]|] eqn:E2; [|done]];
      intros [= <-]; apply (Hf (n, d1)).
    - apply list_find_Some in E1 as (E1 & _). by eapply list_elem_of_lookup_2.
    - apply list_find_Some in E2 as (E2 & _). by eapply list_elem_of_lookup_2. }
  revert cur Hi. induction ms as [|kv ms IH]; intros cur Hi; cbn [foldl]; [by intros [= <-]|].
  unfold dec_member at 2. cbn [mbind option_bind].
  destruct (find_field fields (unquote kv.1)) as [d|] eqn:Hd; [|by apply IH].
  destruct (d cur kv.2) as [q|] eqn:Hq; [by apply IH, (Hfind _ _ Hd _ _ _ Hi Hq)|].
  clear. induction ms; [done|exact IHms].
Qed.
End structs.

Definition quoted (s : gostring) : json := JStr (quote_lit s).

(** Decoding a repeated member, a member in another case and a null. *)
Example dec_struct_ex :
  (dec ← Unmarshal (go "{" ++ quote :: go "A" ++ quote :: go ":1," ++ quote :: go "b" ++ quote :: go ":2,"
     ++ quote :: go "x" ++ quote :: go ":[],  " ++ quote :: go "a" ++ quote :: go ":null}");
   @dec_struct sample_unicode (Z * Z) [(go "a", λ p v, (λ n, (n, p.2)) <$> dec_int p.1 v);
               (go "b", λ p v, (λ n, (p.1, n)) <$> dec_int p.2 v)] (0%Z, 0%Z) dec) = Some (1%Z, 2%Z).
Proof. vm_compute. reflexivity. Qed.
Example parse_float_ex :
  ParseFloat (go "-12.50e1") = Some (f64_of_Z (-125)) ∧ ParseFloat (go "0.85") = Some (f64_lit 85 100)
  ∧ ParseFloat (go "1e999") = None.
Proof. vm_compute. repeat split; reflexivity. Qed.
