(* ===== verification/JsonStruct.v ===== *)
(** * JSON: Go structs on the wire

    What the clients and the server share about the objects [json.Marshal] writes
    for a struct of strings, integers and lists of strings, and about decoding
    them field by field. *)
From S2P Require Import Prelude GoStr Utf8 Json JsonRound JsonDecode.
Local Open Scope N_scope.

(** A member name that needs no escaping. *)
Lemma lit_ok_text s : scan_str (s ++ [quote]) = Some (s, []) → lit_ok s.
Proof. intros Hs. by apply scan_str_inv in Hs as [? _]. Qed.

Lemma quoted_ok s : json_ok (quoted s).
Proof. apply quote_lit_spec. Qed.

(** ** Numbers *)

Lemma byteN_digit c : is_digit_byte c = true → 48 ≤ byteN c ≤ 57.
Proof. intros Hc%is_digit_byte_range. unfold byteZ, byteN in *. lia. Qed.

Lemma take_digits_all ds : forallb is_digit_byte ds = true → take_digits ds = (ds, []).
Proof.
  induction ds as [|c ds IH]; [done|]. cbn [forallb take_digits]. intros [-> Hds]%andb_true_iff.
  by rewrite IH.
Qed.

Lemma parse_number_decimal n ds : decimal_of n ds → parse_number ds = Some (ds, []).
Proof.
  intros (Hne & Hall & _ & Hz). destruct ds as [|c t]; [done|].
  pose proof Hall as [Hc _]%andb_true_iff. pose proof (byteN_digit c Hc) as Hr.
  unfold parse_number. rewrite (proj2 (N.eqb_neq (byteN c) 45)) by lia. unfold parse_int.
  destruct (N.eqb_spec (byteN c) 48) as [H48|_].
  - rewrite (Hz c t eq_refl); [done|]. unfold byteZ, byteN in *. lia.
  - rewrite Hc, take_digits_all by done. cbn [mbind option_bind parse_frac parse_exp]. by rewrite !app_nil_r.
Qed.

Lemma int_ok n : (0 ≤ n < 2 ^ 63)%Z → json_ok (JNum (Itoa n)).
Proof. intros Hn. by eapply parse_number_decimal, Itoa_decimal. Qed.

(** ** Reading back *)

Lemma canon_quoted s : canon (quoted s) = quoted s.
Proof. unfold quoted. cbn [canon]. by destruct (quote_lit_spec s) as (_ & _ & ->). Qed.

Lemma dec_string_quoted cur s : dec_string cur (canon (quoted s)) = Some (valid_utf8 s).
Proof. rewrite canon_quoted. cbn. by rewrite unquote_quote_lit. Qed.
Lemma dec_int_Itoa cur n : (0 ≤ n < 2 ^ 63)%Z → dec_int cur (canon (JNum (Itoa n))) = Some n.
Proof. apply Atoi_Itoa. Qed.

(** A [[]string] that is not nil. *)
Definition strings_json (l : list gostring) : json := JArr (quoted <$> l).
Lemma strings_ok l : json_ok (strings_json l) ∧ jdepth (strings_json l) ≤ 1.
Proof.
  unfold strings_json. split.
  - apply json_ok_arr, Forall_fmap, Forall_true. apply quoted_ok.
  - cbn [jdepth]. induction l as [|s l IH]; [done|]. rewrite fmap_cons. cbn [foldr]. cbn [jdepth quoted]. lia.
Qed.
Lemma dec_strings cur l : dec_slice [] dec_string cur (canon (strings_json l)) = Some (valid_utf8 <$> l).
Proof.
  unfold strings_json. cbn [canon dec_slice]. induction l as [|s l IH]; [done|].
  rewrite !fmap_cons. cbn [mapM]. rewrite dec_string_quoted, IH. done.
Qed.

(** ** Members *)

(** A member the encoder writes: a plain name and a shallow value. *)
Definition wire_member (kv : gostring * json) : Prop :=
  scan_str (kv.1 ++ [quote]) = Some (kv.1, []) ∧ json_ok kv.2 ∧ jdepth kv.2 ≤ 2.

Lemma wire_quoted k s : scan_str (k ++ [quote]) = Some (k, []) → wire_member (k, quoted s).
Proof. intros Hk. split_and!; [done|apply quoted_ok|done]. Qed.
Lemma wire_int k n : scan_str (k ++ [quote]) = Some (k, []) → (0 ≤ n < 2 ^ 63)%Z → wire_member (k, JNum (Itoa n)).
Proof. intros Hk Hn. split_and!; [done|by apply int_ok|done]. Qed.
Lemma wire_bool k b : scan_str (k ++ [quote]) = Some (k, []) → wire_member (k, JBool b).
Proof. done. Qed.
Lemma wire_strings k l : scan_str (k ++ [quote]) = Some (k, []) → wire_member (k, strings_json l).
Proof. intros Hk. destruct (strings_ok l). split_and!; [done..|cbn [snd]; lia]. Qed.

Lemma members_ok ms : Forall wire_member ms → json_ok (JObj ms) ∧ jdepth (JObj ms) ≤ max_depth.
Proof.
  intros Hms. split.
  - apply json_ok_obj. eapply Forall_impl; [exact Hms|]. intros kv (Hk & Hv & _). by split; [apply lit_ok_text|].
  - cbn [jdepth]. assert (foldr (λ kv n, N.max (jdepth kv.2) n) 0 ms ≤ 2) as Hd; [|unfold max_depth; lia].
    induction Hms as [|kv ms (_ & _ & Hv) _ IH]; cbn [foldr]; [done|lia].
Qed.
Lemma Unmarshal_members ms :
  Forall wire_member ms → Unmarshal (compact (JObj ms)) = Some (canon (JObj ms)).
Proof. intros [Hok Hd]%members_ok. by apply Unmarshal_compact. Qed.
(** What [json.NewEncoder] writes ends with a line feed. *)
Lemma DecodeFirst_members ms :
  Forall wire_member ms → DecodeFirst (compact (JObj ms) ++ [byte_of 10]) = Some (canon (JObj ms)).
Proof.
  intros [Hok Hd]%members_ok. apply DecodeFirst_text; [by apply canon_ok|by rewrite jdepth_canon|].
  by vm_compute.
Qed.

Section decode.
Context `{UnicodeData} {A : Type} (fields : list (gostring * decoder A)).

Lemma dec_struct_nil cur : dec_struct fields cur (canon (JObj [])) = Some cur.
Proof. done. Qed.
(** One member whose name is that of a field. *)
Lemma dec_struct_member k v ms cur cur' d :
  find_field fields (unquote (html_escape k)) = Some d → d cur (canon v) = Some cur' →
  dec_struct fields cur (canon (JObj ((k, v) :: ms))) = dec_struct fields cur' (canon (JObj ms)).
Proof.
  intros Hd Hv. cbn [canon dec_struct]. rewrite fmap_cons. cbn [foldl fst snd].
  unfold dec_member at 2. cbn [mbind option_bind fst snd]. by rewrite Hd, Hv.
Qed.

(** The field of an exact name, by its position. *)
Lemma find_field_at i k d : NoDup fields.*1 → fields !! i = Some (k, d) → unquote (html_escape k) = k →
  find_field fields (unquote (html_escape k)) = Some d.
Proof.
  intros Hn Hi ->. unfold find_field.
  assert (list_find (λ f, f.1 = k) fields = Some (i, (k, d))) as ->; [|done].
  apply list_find_Some. split_and!; [done..|]. intros j [k' d'] Hj Hlt Hk. cbn in Hk. subst k'.
  assert (j = i); [|lia]. apply (NoDup_lookup _ j i k Hn); by rewrite list_lookup_fmap, ?Hj, ?Hi.
Qed.
End decode.

(** Members of a struct are written as the wire wants them. *)
Ltac wire :=
  repeat first [apply Forall_nil_2 | apply Forall_cons_2];
  try first [ by apply wire_quoted | by apply wire_int | by apply wire_bool | by apply wire_strings ].

(** Read the next member; the field is found by its exact name. *)
Ltac read_member :=
  erewrite dec_struct_member;
  [|reflexivity|cbv beta; by rewrite ?dec_string_quoted, ?dec_int_Itoa, ?dec_strings].
(** The same for a struct of many fields: the field's position, how its value decodes, and how
    the projections of the struct so far are reduced. *)
Ltac read_member_at i Hnodup value reduce :=
  erewrite dec_struct_member;
  [|eapply (find_field_at _ i _ _ Hnodup); [reflexivity|vm_compute; reflexivity]
   |cbv beta; reduce; value; cbn [fmap option_fmap option_map]; reflexivity].
