(* ===== verification/Indent.v ===== *)
(** * JSON: indented text

    [json.MarshalIndent] with no prefix and two spaces, with which the program
    writes its files, and that it reads back as the tree it prints. *)
From S2P Require Import Prelude GoStr Utf8 Json JsonRound JsonDecode JsonStruct.
Local Open Scope N_scope.

(** A new line at depth [d]. *)
Definition line_at (d : nat) : gostring := byte_of 10 :: replicate (2 * d) (byte_of 32).
(** [json.Indent]: empty arrays and objects stay on their line. *)
Fixpoint indent_text (d : nat) (v : json) : gostring :=
  match v with
  | JArr (x :: l) =>
      go "[" ++ Join ((λ x, line_at (S d) ++ indent_text (S d) x) <$> x :: l) (go ",") ++ line_at d ++ go "]"
  | JObj (kv :: m) =>
      go "{" ++ Join ((λ kv, line_at (S d) ++ (quote :: kv.1 ++ [quote]) ++ go ": " ++ indent_text (S d) kv.2) <$> kv :: m) (go ",")
        ++ line_at d ++ go "}"
  | _ => text_of v
  end.
Definition MarshalIndent (v : json) : gostring := indent_text 0 (canon v).

Example indent_ex : MarshalIndent (JObj [(go "a", JArr [JNum (go "1"); JNull]); (go "b", JObj []); (go "c", JArr [])]) =
  Join [go "{"; go "  'a': ["; go "    1,"; go "    null"; go "  ],"; go "  'b': {},"; go "  'c': []"; go "}"] [byte_of 10]
  ≫= λ c, if bool_decide (c = byte_of 39) then [quote] else [c].
Proof. vm_compute. reflexivity. Qed.

Definition blank (ws : gostring) : Prop := Forall (λ c, is_ws c = true) ws.
Lemma skip_blank ws s : blank ws → skip_ws (ws ++ s) = skip_ws s.
Proof. induction 1 as [|c ws Hc _ IH]; [done|]. cbn [app skip_ws]. by rewrite Hc. Qed.
Lemma blank_line_at d : blank (line_at d).
Proof. constructor; [done|]. by apply Forall_replicate. Qed.
Lemma blank_nil : blank [].
Proof. constructor. Qed.
Lemma blank_space : blank [byte_of 32].
Proof. by repeat constructor. Qed.
Lemma delim_line_at d rest : delim (line_at d ++ rest).
Proof. by vm_compute. Qed.

(** White space before a value is skipped. *)
Lemma parse_blank fuel depth ws s : blank ws → parse fuel depth PVal (ws ++ s) = parse fuel depth PVal s.
Proof. intros Hws. destruct fuel as [|fuel]; [done|]. cbn [parse]. by rewrite skip_blank. Qed.

(** [parses] for the indented text. *)
Definition parses_indented (v : json) : Prop :=
  ∀ d fuel depth rest, (jsize v ≤ fuel)%nat → depth + jdepth v ≤ max_depth → delim rest →
    parse fuel depth PVal (indent_text d v ++ rest) = Some (v, rest).

Definition indent_elem (d : nat) (x : json) : gostring := line_at d ++ indent_text d x.
Definition indent_member (d : nat) (kv : gostring * json) : gostring :=
  line_at d ++ (quote :: kv.1 ++ [quote]) ++ go ": " ++ indent_text d kv.2.

Lemma indent_elems_parse d l : Forall parses_indented l → l ≠ [] →
  ∀ fuel depth acc rest,
    (foldr (λ x n, (S (jsize x) + n)%nat) 0%nat l ≤ fuel)%nat → Forall (λ x, depth + jdepth x ≤ max_depth) l →
    parse fuel depth (PElems acc) (Join (indent_elem (S d) <$> l) (go ",") ++ line_at d ++ go "]" ++ rest) = Some (JArr (acc ++ l), rest).
Proof.
  induction 1 as [|x l Hx _ IH]; intros Hne fuel depth acc rest Hfuel Hdepth; [done|].
  inversion Hdepth as [|?? Hxd Hld]; subst. cbn [foldr] in Hfuel. destruct fuel as [|fuel]; [lia|]. cbn [parse].
  destruct l as [|y l].
  - cbn [fmap list_fmap Join]. unfold indent_elem. rewrite <- app_assoc, parse_blank by apply blank_line_at.
    rewrite Hx by (lia || done || apply delim_line_at). cbn [mbind option_bind]. rewrite skip_blank by apply blank_line_at.
    by change (go "]" ++ rest) with (chr 93 :: rest).
  - rewrite fmap_cons, Join_cons by done. unfold indent_elem at 1. rewrite <- !app_assoc, parse_blank by apply blank_line_at.
    change (go "," ++ ?r) with (chr 44 :: r). rewrite Hx by (lia || done || (apply delim_byte; auto)).
    cbn [mbind option_bind]. rewrite skip_ws_ink by done. change (byteN (chr 44) =? 44) with true. cbn iota.
    rewrite IH by (done || lia). by rewrite <- app_assoc.
Qed.
Lemma indent_members_parse d m : Forall (λ kv, parses_indented kv.2) m → Forall (λ kv, lit_ok kv.1) m → m ≠ [] →
  ∀ fuel depth acc rest,
    (foldr (λ kv n, (S (jsize kv.2) + n)%nat) 0%nat m ≤ fuel)%nat → Forall (λ kv, depth + jdepth kv.2 ≤ max_depth) m →
    parse fuel depth (PMembers acc) (Join (indent_member (S d) <$> m) (go ",") ++ line_at d ++ go "}" ++ rest) = Some (JObj (acc ++ m), rest).
Proof.
  induction 1 as [|[k x] m Hx _ IH]; intros Hok Hne fuel depth acc rest Hfuel Hdepth; [done|].
  inversion Hok as [|?? Hk Hlo]; inversion Hdepth as [|?? Hxd Hld]; subst. cbn [foldr fst snd] in *.
  destruct fuel as [|fuel]; [lia|]. cbn [parse].
  assert (∀ t, skip_ws (indent_member (S d) (k, x) ++ t) = quote :: k ++ quote :: chr 58 :: byte_of 32 :: indent_text (S d) x ++ t) as Hp.
  { intros t. unfold indent_member. cbn [fst snd]. rewrite <- !app_assoc, skip_blank by apply blank_line_at.
    cbn [app]. by rewrite <- !app_assoc. }
  assert (∀ t, parse fuel depth PVal (byte_of 32 :: indent_text (S d) x ++ t) = parse fuel depth PVal (indent_text (S d) x ++ t)) as Hsp
    by (intros t; exact (parse_blank fuel depth [byte_of 32] _ blank_space)).
  destruct m as [|y m].
  - cbn [fmap list_fmap Join]. rewrite Hp. change (byteN quote =? 34) with true. cbn iota.
    rewrite scan_str_lit by done. cbn [mbind option_bind]. rewrite skip_ws_ink by done. change (byteN (chr 58) =? 58) with true. cbn iota.
    rewrite Hsp, Hx by (lia || done || apply delim_line_at). cbn [mbind option_bind]. rewrite skip_blank by apply blank_line_at.
    by change (go "}" ++ rest) with (chr 125 :: rest).
  - rewrite fmap_cons, Join_cons by done. rewrite <- !app_assoc, Hp. change (byteN quote =? 34) with true. cbn iota.
    rewrite scan_str_lit by done. cbn [mbind option_bind]. rewrite skip_ws_ink by done. change (byteN (chr 58) =? 58) with true. cbn iota.
    change (go "," ++ ?r) with (chr 44 :: r). rewrite Hsp, Hx by (lia || done || (apply delim_byte; auto)).
    cbn [mbind option_bind]. rewrite skip_ws_ink by done. change (byteN (chr 44) =? 44) with true. cbn iota.
    rewrite IH by (done || lia). by rewrite <- app_assoc.
Qed.

(** The first byte of an indented value. *)
Lemma indent_head d v : json_ok v → ∃ c t, indent_text d v = c :: t ∧ is_ws c = false ∧ (byteN c =? 93) = false.
Proof. intros Hok. destruct v as [| | | |[|x l]|[|kv m]]; try by apply text_head. all: eexists _, _; split; [reflexivity|by vm_compute]. Qed.

Lemma parse_indent v : json_ok v → parses_indented v.
Proof.
  induction v as [|b|text|s|l IH|m IH] using json_nested_ind; intros Hok d fuel depth rest Hf Hd Hr; try by apply parse_text.
  - destruct l as [|x l]; [by apply parse_text|]. destruct fuel as [|fuel]; [cbn in Hf; lia|].
    apply json_ok_arr in Hok. cbn [jsize jdepth] in Hf, Hd. cbn [indent_text].
    change (go "[") with [chr 91]. rewrite <- !app_assoc. cbn [app parse].
    rewrite skip_ws_ink by done. change (byteN (chr 91) =? 34) with false. change (byteN (chr 91) =? 91) with true. cbn iota.
    assert (max_depth <=? depth = false) as -> by (apply N.leb_gt; lia).
    change (λ x, line_at (S d) ++ _) with (indent_elem (S d)).
    assert (∃ c t, skip_ws (Join (indent_elem (S d) <$> x :: l) (go ",") ++ line_at d ++ go "]" ++ rest) = c :: t ∧ (byteN c =? 93) = false)
      as (c & t & -> & ->).
    { inversion Hok as [|?? Hx _]; subst. destruct (indent_head (S d) x Hx) as (c & t & Hx' & Hws & Hne). exists c.
      assert (∃ u, Join (indent_elem (S d) <$> x :: l) (go ",") ++ line_at d ++ go "]" ++ rest = line_at (S d) ++ c :: u) as [u ->].
      { rewrite fmap_cons. unfold indent_elem at 1. rewrite Hx'. destruct l as [|y l].
        - cbn [fmap list_fmap Join]. rewrite <- app_assoc. by eexists.
        - rewrite fmap_cons, Join_cons by done. rewrite <- !app_assoc. by eexists. }
      exists u. rewrite skip_blank by apply blank_line_at. by rewrite skip_ws_ink. }
    apply indent_elems_parse; [|done|lia|by apply foldr_max_Forall].
    clear -IH Hok. induction IH; inversion Hok; subst; constructor; auto.
  - destruct m as [|kv m]; [by apply parse_text|]. destruct fuel as [|fuel]; [cbn in Hf; lia|].
    apply json_ok_obj in Hok. cbn [jsize jdepth] in Hf, Hd. cbn [indent_text].
    change (go "{") with [chr 123]. rewrite <- !app_assoc. cbn [app parse].
    rewrite skip_ws_ink by done. change (byteN (chr 123) =? 34) with false.
    change (byteN (chr 123) =? 91) with false. change (byteN (chr 123) =? 123) with true. cbn iota.
    assert (max_depth <=? depth = false) as -> by (apply N.leb_gt; lia).
    change (λ kv, line_at (S d) ++ _) with (indent_member (S d)).
    assert (∃ t, skip_ws (Join (indent_member (S d) <$> kv :: m) (go ",") ++ line_at d ++ go "}" ++ rest) = quote :: t) as (t & ->).
    { rewrite fmap_cons. destruct m as [|y m].
      - cbn [fmap list_fmap Join]. unfold indent_member. rewrite <- !app_assoc, skip_blank by apply blank_line_at. by eexists.
      - rewrite fmap_cons, Join_cons by done. unfold indent_member at 1. rewrite <- !app_assoc, skip_blank by apply blank_line_at. by eexists. }
    change (byteN quote =? 125) with false. cbn iota.
    apply indent_members_parse; [| |done|lia|by apply foldr_max_Forall].
    + clear -IH Hok. induction IH; inversion Hok as [|?? []]; subst; constructor; auto.
    + eapply Forall_impl; [exact Hok|]. by intros ? [? _].
Qed.

Lemma Join_length_le (l k : list gostring) sep : Forall2 (λ a b, (length a ≤ length b)%nat) l k →
  (length (Join l sep) ≤ length (Join k sep))%nat.
Proof.
  induction 1 as [|a b l k Hab Hlk IH]; [done|]. destruct Hlk as [|a' b' l k Hab' Hlk]; [cbn; lia|].
  rewrite (Join_cons a), (Join_cons b) by done. rewrite !length_app. lia.
Qed.
Lemma Forall2_fmap_both {A B} (R : B → B → Prop) (P : A → Prop) (f g : A → B) l :
  Forall P l → (∀ x, P x → R (f x) (g x)) → Forall2 R (f <$> l) (g <$> l).
Proof. intros Hl Hfg. induction Hl; constructor; auto. Qed.
Lemma indent_length v d : (length (text_of v) ≤ length (indent_text d v))%nat.
Proof.
  revert d. induction v as [|b|text|s|l IH|m IH] using json_nested_ind; intros d; try done.
  - destruct l as [|x l]; [done|]. cbn [indent_text text_of]. rewrite !length_app.
    enough (length (Join (text_of <$> x :: l) (go ",")) ≤ length (Join ((λ x, line_at (S d) ++ indent_text (S d) x) <$> x :: l) (go ",")))%nat by lia.
    eapply Join_length_le, Forall2_fmap_both; [exact IH|]. intros y Hy. cbv beta. rewrite length_app. specialize (Hy (S d)). lia.
  - destruct m as [|kv m]; [done|]. cbn [indent_text text_of]. rewrite !length_app.
    enough (length (Join ((λ kv, (quote :: kv.1 ++ [quote]) ++ go ":" ++ text_of kv.2) <$> kv :: m) (go ","))
      ≤ length (Join ((λ kv, line_at (S d) ++ (quote :: kv.1 ++ [quote]) ++ go ": " ++ indent_text (S d) kv.2) <$> kv :: m) (go ",")))%nat by lia.
    eapply Join_length_le, Forall2_fmap_both; [exact IH|]. intros y Hy. cbv beta. rewrite !length_app. specialize (Hy (S d)).
    change (length (go ":")) with 1%nat. change (length (go ": ")) with 2%nat. lia.
Qed.

Lemma Unmarshal_MarshalIndent v : json_ok v → jdepth v ≤ max_depth → Unmarshal (MarshalIndent v) = Some (canon v).
Proof.
  intros Hok Hd. unfold Unmarshal, MarshalIndent. pose proof (canon_ok v Hok) as Hc. pose proof (jsize_text _ Hc).
  pose proof (indent_length (canon v) 0).
  pose proof (parse_indent _ Hc 0%nat (parse_fuel (indent_text 0 (canon v))) 0 []) as Hp. rewrite app_nil_r in Hp.
  rewrite Hp; [done|unfold parse_fuel; lia|by rewrite jdepth_canon|done].
Qed.
Lemma Unmarshal_indented_members ms : Forall wire_member ms → Unmarshal (MarshalIndent (JObj ms)) = Some (canon (JObj ms)).
Proof. intros [Hok Hd]%members_ok. by apply Unmarshal_MarshalIndent. Qed.
