(* ===== verification/JsonAny.v ===== *)
(** * JSON: values of type [interface{}]

    What [json.Unmarshal] stores in an empty interface and what [json.Marshal]
    prints of it: numbers become float64, printed with the fewest digits that read
    back, and objects become maps, printed in the order of their keys. *)
From S2P Require Import Prelude GoStr Utf8 GoFloat Json JsonRound JsonDecode JsonStruct Indent.
Local Open Scope Z_scope.

(** ** Numbers *)

(** [strconv.FormatFloat] with precision -1 finds the shortest decimal [q * 10^s] that is read
    back as [f], the nearer of two: of [p] digits, the ones on either side of [num/den]. *)
Definition reads_back (f : float64) (neg : bool) (q s : Z) : bool := bool_decide (f64_of_decimal neg q s = f).
Definition floor_scaled (num den s : Z) : Z :=
  if 0 <=? s then num / (den * 10 ^ s) else num * 10 ^ (- s) / den.
(** Whether [num/den] lies above the middle of [q * 10^s] and [(q+1) * 10^s]. *)
Definition nearer_above (num den q s : Z) : bool :=
  if 0 <=? s then (2 * q + 1) * 10 ^ s * den <? 2 * num else (2 * q + 1) * den <? 2 * num * 10 ^ (- s).
Definition digits_at (f : float64) (neg : bool) (num den s : Z) : option Z :=
  let q := floor_scaled num den s in
  match reads_back f neg q s, reads_back f neg (q + 1) s with
  | true, true => Some (if nearer_above num den q s then q + 1 else q)
  | true, false => Some q
  | false, true => Some (q + 1)
  | false, false => None
  end.
(** The number [k] with [10^(k-1) <= num/den < 10^k]. *)
Fixpoint decimal_point (fuel : nat) (num den k : Z) : Z :=
  match fuel with
  | O => k
  | S fuel =>
      if den <=? num then decimal_point fuel num (den * 10) (k + 1)
      else if num * 10 <? den then decimal_point fuel (num * 10) den (k - 1) else k
  end.
Fixpoint shortest (fuel : nat) (f : float64) (neg : bool) (num den k p : Z) : option (Z * Z) :=
  match fuel with
  | O => None
  | S fuel =>
      match digits_at f neg num den (k - p) with
      | Some q => Some (q, k - p)
      | None => shortest fuel f neg num den k (p + 1)
      end
  end.
(** The digits without trailing zeros, and where the point stands in front of or behind them. *)
Fixpoint strip_zeros (fuel : nat) (q s : Z) : Z * Z :=
  match fuel with
  | O => (q, s)
  | S fuel => if q mod 10 =? 0 then strip_zeros fuel (q / 10) (s + 1) else (q, s)
  end.
Definition zeros (n : Z) : gostring := replicate (Z.to_nat n) (chr 48).
Definition plain_text (ds : gostring) (k : Z) : gostring :=
  if k <=? 0 then go "0." ++ zeros (- k) ++ ds
  else if len ds <=? k then ds ++ zeros (k - len ds)
  else take (Z.to_nat k) ds ++ go "." ++ drop (Z.to_nat k) ds.
(** [e-09] is shortened to [e-9]. *)
Definition exp_text (ds : gostring) (k : Z) : gostring :=
  take 1 ds ++ (if len ds <=? 1 then [] else go "." ++ drop 1 ds)
    ++ go "e" ++ (if k - 1 <? 0 then go "-" else go "+") ++ Itoa (Z.abs (k - 1)).

(** [floatEncoder]; NaN and the infinities are an error of [Marshal]. *)
Definition float_text (f : float64) : option gostring :=
  match f with
  | S754_zero neg => Some (if neg then go "-0" else go "0")
  | S754_finite neg m e =>
      let num := if 0 <=? e then Zpos m * 2 ^ e else Zpos m in
      let den := if 0 <=? e then 1 else 2 ^ (- e) in
      let k := decimal_point 400 num den 0 in
      '(q, s) ← shortest 17 f neg num den k 1;
      let '(q, s) := strip_zeros 18 q s in
      let ds := Itoa q in
      let k := len ds + s in
      Some ((if neg then go "-" else [])
        ++ (if f64_lt (SFabs f) (f64_lit 1 1000000) || f64_le (f64_of_Z (10 ^ 21)) (SFabs f) then exp_text ds k else plain_text ds k))
  | _ => None
  end.

Example float_text_ex :
  (λ t, default [] (f ← ParseFloat t; float_text f)) <$>
    [go "1.50e3"; go "0.1"; go "-0"; go "1e21"; go "1e20"; go "1e-7"; go "5e-324"; go "1.7976931348623157e308";
     go "123456789.25"; go "5.684341886080802e-14"; go "0.000001"; go "9007199254740993"]
  = [go "1500"; go "0.1"; go "-0"; go "1e+21"; go "100000000000000000000"; go "1e-7"; go "5e-324"; go "1.7976931348623157e+308";
     go "123456789.25"; go "5.684341886080802e-14"; go "0.000001"; go "9007199254740992"].
Proof. vm_compute. reflexivity. Qed.

(** ** Values *)

Inductive anyval :=
| ANil
| ABool (b : bool)
| ANum (f : float64)
| AStr (s : gostring)
| AArr (l : list anyval)
| AObj (m : list (gostring * anyval)).

(** The order of the keys. *)
Fixpoint key_leb (s t : gostring) : bool :=
  match s, t with
  | [], _ => true
  | _ :: _, [] => false
  | a :: s', b :: t' => (byteZ a <? byteZ b) || ((byteZ a =? byteZ b) && key_leb s' t')
  end.
(** A map is the list of its members in the order of their keys. *)
Fixpoint obj_set (k : gostring) (v : anyval) (m : list (gostring * anyval)) : list (gostring * anyval) :=
  match m with
  | [] => [(k, v)]
  | kv :: m' =>
      if bool_decide (kv.1 = k) then (k, v) :: m'
      else if key_leb k kv.1 then (k, v) :: kv :: m' else kv :: obj_set k v m'
  end.
Definition obj_get (k : gostring) (m : list (gostring * anyval)) : option anyval :=
  snd <$> find (λ kv, bool_decide (kv.1 = k)) m.
Definition obj_delete (k : gostring) (m : list (gostring * anyval)) : list (gostring * anyval) :=
  filter (λ kv, kv.1 ≠ k) m.

(** What [Unmarshal] stores in an empty interface; a number out of range is an error reported
    at the end, and stores nil. *)
Fixpoint any_of (v : json) : anyval :=
  match v with
  | JNull => ANil
  | JBool b => ABool b
  | JNum t => match ParseFloat t with Some f => ANum f | None => ANil end
  | JStr lit => AStr (unquote lit)
  | JArr l => AArr (any_of <$> l)
  | JObj ms => AObj (foldl (λ m kv, obj_set kv.1 kv.2 m) [] ((λ kv, (unquote kv.1, any_of kv.2)) <$> ms))
  end.
Fixpoint json_of (a : anyval) : json :=
  match a with
  | ANil => JNull
  | ABool b => JBool b
  | ANum f => JNum (default [] (float_text f))
  | AStr s => quoted s
  | AArr l => JArr (json_of <$> l)
  | AObj m => JObj ((λ kv, (quote_lit kv.1, json_of kv.2)) <$> m)
  end.

Section any_induction.
Context (P : anyval → Prop).
Context (Pnil : P ANil) (Pbool : ∀ b, P (ABool b)) (Pnum : ∀ f, P (ANum f)) (Pstr : ∀ s, P (AStr s)).
Context (Parr : ∀ l, Forall P l → P (AArr l)) (Pobj : ∀ m, Forall (λ kv, P kv.2) m → P (AObj m)).
Fixpoint any_nested_ind (a : anyval) : P a :=
  match a with
  | ANil => Pnil
  | ABool b => Pbool b
  | ANum f => Pnum f
  | AStr s => Pstr s
  | AArr l => Parr l ((fix go l : Forall P l := match l with [] => Forall_nil_2 _ | x :: l' => Forall_cons_2 P x l' (any_nested_ind x) (go l') end) l)
  | AObj m => Pobj m ((fix go m : Forall (λ kv, P kv.2) m :=
      match m with [] => Forall_nil_2 _ | kv :: m' => Forall_cons_2 (λ kv, P kv.2) kv m' (any_nested_ind kv.2) (go m') end) m)
  end.
End any_induction.

(** ** Maps *)

Lemma obj_get_set k k' v m : obj_get k (obj_set k' v m) = if bool_decide (k = k') then Some v else obj_get k m.
Proof.
  assert (∀ k0 v0 m, obj_get k ((k0, v0) :: m) = if bool_decide (k = k0) then Some v0 else obj_get k m) as Hc.
  { intros k0 v0 m0. unfold obj_get. cbn [find fst]. rewrite (bool_decide_ext (k0 = k) (k = k0)) by done. by case_bool_decide. }
  induction m as [|[k0 v0] m IH]; cbn [obj_set]; [by rewrite Hc|]. cbn [fst]. destruct (decide (k0 = k')) as [->|H0].
  - rewrite (bool_decide_true (k' = k')), !Hc by done. by case_bool_decide.
  - rewrite (bool_decide_false (k0 = k')) by done. destruct (key_leb k' k0); rewrite !Hc; [done|]. rewrite IH. do 2 case_bool_decide; congruence.
Qed.
Lemma obj_get_delete k k' m : obj_get k (obj_delete k' m) = if bool_decide (k = k') then None else obj_get k m.
Proof.
  unfold obj_get, obj_delete. induction m as [|[k0 v0] m IH]; [by case_bool_decide|].
  rewrite filter_cons. cbn [fst]. destruct (decide (k0 ≠ k')) as [H0|H0]; cbn [find fst].
  - destruct (decide (k0 = k)) as [->|H1]; [by rewrite (bool_decide_true (k = k)), bool_decide_false|].
    rewrite (bool_decide_false (k0 = k)) by done. exact IH.
  - apply dec_stable in H0 as ->. rewrite IH. destruct (decide (k = k')) as [->|H1]; [by rewrite bool_decide_true|].
    by rewrite (bool_decide_false (k = k')), (bool_decide_false (k' = k)) by congruence.
Qed.
Lemma obj_delete_keys k m : obj_delete k m = [] → ∀ k', k' ≠ k → obj_get k' m = None.
Proof.
  intros He k' Hne. pose proof (obj_get_delete k' k m) as Hg. rewrite He, bool_decide_false in Hg by done. by rewrite <- Hg.
Qed.

(** ** What is printed is read back *)

Definition number_settled (f : float64) : bool :=
  match float_text f with
  | Some t => bool_decide (parse_number t = Some (t, [])) && bool_decide (ParseFloat t = Some f)
  | None => false
  end.
Fixpoint keys_sorted (m : list (gostring * anyval)) : bool :=
  match m with [] => true | kv :: m' => forallb (λ kv', negb (key_leb kv'.1 kv.1)) m' && keys_sorted m' end.
(** Strings are UTF-8, numbers have a text that reads back, maps are in order: what [any_of] builds. *)
Fixpoint any_settled (a : anyval) : bool :=
  match a with
  | ANil | ABool _ => true
  | ANum f => number_settled f
  | AStr s => bool_decide (valid_utf8 s = s)
  | AArr l => forallb any_settled l
  | AObj m => keys_sorted m && forallb (λ kv, bool_decide (valid_utf8 kv.1 = kv.1) && any_settled kv.2) m
  end.

Lemma key_leb_refl s : key_leb s s = true.
Proof. induction s as [|c s IH]; [done|]. cbn [key_leb]. by rewrite Z.eqb_refl, IH, orb_true_r. Qed.
Lemma obj_set_last k v m : forallb (λ kv, negb (key_leb k kv.1)) m = true → obj_set k v m = m ++ [(k, v)].
Proof.
  induction m as [|[k0 v0] m IH]; [done|]. cbn [forallb obj_set fst app]. intros [Hk Hm]%andb_true_iff.
  apply negb_true_iff in Hk. rewrite bool_decide_false by (intros ->; by rewrite key_leb_refl in Hk). by rewrite Hk, IH.
Qed.
Lemma keys_sorted_app_cons m kv m' : keys_sorted (m ++ kv :: m') = true → forallb (λ kv', negb (key_leb kv.1 kv'.1)) m = true.
Proof.
  induction m as [|kv0 m IH]; [done|]. cbn [app keys_sorted forallb]. rewrite forallb_app. cbn [forallb].
  intros [[_ [Hk _]%andb_true_iff]%andb_true_iff Hm]%andb_true_iff.
  by rewrite Hk, IH.
Qed.
Lemma foldl_obj_set acc m : keys_sorted (acc ++ m) = true → foldl (λ m kv, obj_set kv.1 kv.2 m) acc m = acc ++ m.
Proof.
  revert acc. induction m as [|[k v] m IH]; intros acc Hs; cbn [foldl]; [by rewrite app_nil_r|]. cbn [fst snd].
  rewrite obj_set_last by exact (keys_sorted_app_cons _ _ _ Hs). rewrite IH; rewrite <- app_assoc; done.
Qed.

Lemma any_round a : any_settled a = true → json_ok (json_of a) ∧ any_of (canon (json_of a)) = a.
Proof.
  induction a as [|b|f|s|l IH|m IH] using any_nested_ind; cbn [any_settled]; intros Hs; [by split..| | | |].
  - unfold number_settled in Hs. cbn [json_of canon any_of json_ok]. destruct (float_text f) as [t|]; [|done].
    apply andb_true_iff in Hs as [Hp%bool_decide_eq_true Hf%bool_decide_eq_true]. cbn [from_option]. unfold id. by rewrite Hf.
  - apply bool_decide_eq_true in Hs. split; [apply quoted_ok|]. cbn [json_of]. rewrite canon_quoted. unfold quoted. cbn [any_of].
    by rewrite unquote_quote_lit, Hs.
  - cbn [json_of]. rewrite json_ok_arr. cbn [canon any_of]. induction IH as [|x l Hx _ IHl]; [by split; [constructor|]|].
    cbn [forallb] in Hs. apply andb_true_iff in Hs as [Hsx Hsl]. destruct (Hx Hsx) as [Hok Hr]. destruct (IHl Hsl) as [Hoks Hrs].
    rewrite !fmap_cons. split; [by constructor|]. rewrite Hr. by injection Hrs as ->.
  - apply andb_true_iff in Hs as [Hsort Hm]. cbn [json_of]. rewrite json_ok_obj. cbn [canon any_of].
    assert (Forall (λ kv, lit_ok kv.1 ∧ json_ok kv.2) ((λ kv, (quote_lit kv.1, json_of kv.2)) <$> m) ∧
      (λ kv, (unquote kv.1, any_of kv.2)) <$> ((λ kv, (html_escape kv.1, canon kv.2)) <$> ((λ kv, (quote_lit kv.1, json_of kv.2)) <$> m)) = m)
      as [Hok Hr].
    { clear Hsort. induction IH as [|[k x] m Hx _ IHm]; [by split; [constructor|]|]. cbn [forallb fst snd] in *.
      apply andb_true_iff in Hm as [[Hk%bool_decide_eq_true Hsx]%andb_true_iff Hsm]. destruct (Hx Hsx) as [Hok Hr].
      destruct (IHm Hsm) as [Hoks Hrs]. rewrite !fmap_cons. cbn [fst snd]. destruct (quote_lit_spec k) as (Hlit & _ & ->).
      split; [by constructor|]. by rewrite Hrs, Hr, unquote_quote_lit, Hk. }
    split; [done|]. rewrite Hr. by rewrite (foldl_obj_set [] m).
Qed.
Lemma MarshalIndent_any a : any_settled a = true → (jdepth (json_of a) ≤ max_depth)%N →
  any_of <$> Unmarshal (MarshalIndent (json_of a)) = Some a.
Proof. intros Hs Hd. destruct (any_round a Hs) as [Hok Hr]. rewrite Unmarshal_MarshalIndent by done. cbn. by rewrite Hr. Qed.
