(* ===== verification/Gliner.v ===== *)
(** * The GLiNER sidecar client — internal/scanner/gliner/client.go

    The layer posts the text to a detector process and turns the entities of
    the reply into findings.  The process behind the HTTP client is the class
    [HttpClient]; the client's filters, label suppression and error paths are
    here. *)
From S2P Require Import Prelude GoStr Utf8 GoFloat GoSort Spans Scanner Redactor Cache FileBlock Coordinator Json JsonRound JsonDecode.
Local Open Scope Z_scope.

(** What one request to a sidecar yields: the text of a transport error, or a
    status and a body.  Requests are numbered: the process may answer the same
    request differently another time. *)
Inductive http_reply :=
| HttpError (err : gostring)
| HttpReply (status : Z) (body : gostring).

Class HttpClient := {
  http_post : nat → gostring → gostring → http_reply;
  http_get : nat → gostring → http_reply;
  (** the message of a decoding error *)
  decode_error : gostring → gostring;
}.

Record Entity := mkEntity {
  e_text : gostring;
  e_label : gostring;
  e_start : Z;
  e_end : Z;
  e_score : float64;
}.

Section gliner.
Context `{UnicodeData}.

Definition dec_entity : decoder Entity := dec_struct [
  (go "text", λ e v, (λ x, mkEntity x (e_label e) (e_start e) (e_end e) (e_score e)) <$> dec_string (e_text e) v);
  (go "label", λ e v, (λ x, mkEntity (e_text e) x (e_start e) (e_end e) (e_score e)) <$> dec_string (e_label e) v);
  (go "start", λ e v, (λ x, mkEntity (e_text e) (e_label e) x (e_end e) (e_score e)) <$> dec_int (e_start e) v);
  (go "end", λ e v, (λ x, mkEntity (e_text e) (e_label e) (e_start e) x (e_score e)) <$> dec_int (e_end e) v);
  (go "score", λ e v, (λ x, mkEntity (e_text e) (e_label e) (e_start e) (e_end e) x) <$> dec_float (e_score e) v)
].
Definition zero_entity : Entity := mkEntity [] [] 0 0 (S754_zero false).
Definition dec_detect : decoder (list Entity) := dec_struct [
  (go "entities", dec_slice zero_entity dec_entity)
].

(** [DetectRequest] and [DetectResponse] *)
Definition detect_request (text : gostring) : gostring :=
  compact (JObj [(go "text", quoted text)]).
Definition detect_response (body : gostring) : option (list Entity) :=
  v ← DecodeFirst body; dec_detect [] v.

(** ** The filters *)

Definition genericRoles : list gostring := [
  go "patient"; go "donor"; go "inspector"; go "insured"; go "applicant"; go "employee";
  go "customer"; go "client"; go "user"; go "owner"; go "holder"; go "member"; go "resident";
  go "caller"; go "driver"; go "traveler"; go "buyer"; go "seller"; go "you"; go "your";
  go "tenant"; go "landlord"; go "borrower"; go "lender"; go "claimant"; go "beneficiary";
  go "subscriber"; go "vendor"; go "contractor"; go "debtor"; go "creditor"; go "policyholder";
  go "insurer"; go "underwriter"; go "guarantor"; go "mortgagor"; go "mortgagee"; go "plaintiff";
  go "defendant"; go "petitioner"; go "respondent"; go "assignee"; go "assignor"; go "guest";
  go "investors"; go "investor"; go "advisor"; go "manager"; go "analyst"; go "officer";
  go "director"; go "administrator"; go "coordinator"; go "specialist"; go "supervisor";
  go "consultant"; go "representative"; go "agent"; go "broker"; go "examiner"; go "reviewer";
  go "healthcare provider"; go "provider"; go "intruder"; go "project manager";
  go "clinical trial coordinator"; go "licensee"; go "licensor"; go "licensees"; go "payor";
  go "payee"; go "registrant"
].

Definition commonWords : list gostring := [
  go "temporary"; go "password"; go "default"; go "admin"; go "test"; go "temp"; go "root";
  go "null"; go "none"; go "empty"; go "blank"; go "invalid"; go "expired"; go "reset"; go "new";
  go "old"; go "current"; go "temporary password"; go "bm"
].

Definition descriptiveTerms : list gostring := [
  go "password"; go "pin"; go "passcode"; go "medical history"; go "vitals"; go "medical report";
  go "vaccination record"; go "immunization records"; go "immunization record";
  go "unknown account"; go "primary account"; go "bank account"; go "follow-up appointment";
  go "detailed report"; go "hepatitis a"; go "hepatitis b"; go "hepatitis c";
  go "account number"; go "social security"; go "credit card"; go "debit card";
  go "health insurance"; go "life insurance"; go "date of birth"; go "place of birth";
  go "tax return"; go "tax id"
].

Definition in_words (words : list gostring) (w : gostring) : bool := bool_decide (w ∈ words).

Definition isCommonWord (text : gostring) : bool := in_words commonWords (ToLower (TrimSpace text)).
Definition isGenericRole (text : gostring) : bool := in_words genericRoles (ToLower (TrimSpace text)).

Definition isDottedQuad (text : gostring) : bool :=
  let parts := Split (TrimSpace text) "." in
  (len parts =? 4)
  && forallb (λ p, negb ((len p =? 0) || (3 <? len p))
       && forallb (λ r, negb ((r <? 48)%N || (57 <? r)%N)) (runes p)) parts.

Definition containsDigit (text : gostring) : bool :=
  existsb (λ r, (48 <=? r)%N && (r <=? 57)%N) (runes text).

Definition isPlaceholder (text : gostring) : bool :=
  let t := TrimSpace text in
  if HasPrefix t (go "[") || HasPrefix t (go "<") || HasPrefix t (go "{") then true
  else if Contains t (go "[") || Contains t (go "]") then true
  else
    let lower := ToLower t in
    if in_words descriptiveTerms lower then true
    else HasPrefix lower (go "your ") || HasSuffix lower (go " name")
         || HasSuffix lower (go " address") || HasSuffix lower (go " number").

(** ** The client *)

(** Whether a sidecar's health reply says it is ready. *)
Definition health_ready (r : http_reply) : bool :=
  match r with
  | HttpError _ => false
  | HttpReply _ body =>
      match v ← DecodeFirst body; dec_map [] dec_string ∅ v with
      | Some m => bool_decide (m !! go "status" = Some (go "ready"))
      | None => false
      end
  end.

Record GlinerClient := mkGliner {
  gc_baseURL : gostring;
  gc_ready : bool;
  gc_minConfidence : float64;
  gc_minLength : Z;
  gc_suppressLabels : gmap gostring bool;
  gc_labelMinConfidence : gmap gostring float64;
}.

Definition gliner_labelMinConfidence : gmap gostring float64 := list_to_map [
  (go "PERSON", f64_lit 80 100); (go "PASSWORD", f64_lit 85 100); (go "CREDIT_CARD", f64_lit 80 100);
  (go "ADDRESS", f64_lit 75 100); (go "NATIONAL_ID", f64_lit 80 100); (go "IP_ADDRESS", f64_lit 75 100);
  (go "DATE_OF_BIRTH", f64_lit 75 100); (go "EMAIL", f64_lit 70 100); (go "BANK_ACCOUNT", f64_lit 75 100)
].
Definition gliner_suppressed : gmap gostring bool := list_to_map [
  (go "ORGANIZATION", true); (go "FINANCIAL_ACCOUNT", true); (go "USERNAME", true);
  (go "LOCATION", true); (go "TAX_ID", true); (go "LICENSE_PLATE", true)
].

Definition GlinerOption : Type := GlinerClient → GlinerClient.
Definition WithMinConfidence (v : float64) : GlinerOption := λ c,
  mkGliner (gc_baseURL c) (gc_ready c) v (gc_minLength c) (gc_suppressLabels c) (gc_labelMinConfidence c).
Definition WithMinLength (v : Z) : GlinerOption := λ c,
  mkGliner (gc_baseURL c) (gc_ready c) (gc_minConfidence c) v (gc_suppressLabels c) (gc_labelMinConfidence c).
Definition with_suppressed (m : gmap gostring bool) : GlinerOption := λ c,
  mkGliner (gc_baseURL c) (gc_ready c) (gc_minConfidence c) (gc_minLength c) m (gc_labelMinConfidence c).
Definition WithSuppressLabels (labels : list gostring) : GlinerOption :=
  with_suppressed (foldl (λ m l, <[l := true]> m) ∅ labels).
Definition NewGliner (baseURL : gostring) (opts : list GlinerOption) : GlinerClient :=
  foldl (λ c opt, opt c)
    (mkGliner baseURL false (f64_lit 5 10) 2 gliner_suppressed gliner_labelMinConfidence) opts.

Definition Gliner_SetBaseURL (c : GlinerClient) (url : gostring) : GlinerClient :=
  mkGliner url (gc_ready c) (gc_minConfidence c) (gc_minLength c) (gc_suppressLabels c) (gc_labelMinConfidence c).
Definition Gliner_SetReady (c : GlinerClient) (ready : bool) : GlinerClient :=
  mkGliner (gc_baseURL c) ready (gc_minConfidence c) (gc_minLength c) (gc_suppressLabels c) (gc_labelMinConfidence c).

(** One label of [SetEnabled]; the labels are different keys of a Go map, so
    the order in which they are visited does not matter. *)
Definition set_label (next : gmap gostring bool) (lo : gostring * bool) : gmap gostring bool :=
  if lo.2 then delete lo.1 next else <[lo.1 := true]> next.
Definition Gliner_SetEnabled (byLabel : list (gostring * bool)) : GlinerOption := λ c,
  with_suppressed (foldl set_label (gc_suppressLabels c) byLabel) c.

Definition gliner_rules : list (gostring * gostring) := [
  (go "EMAIL", go "email_gliner"); (go "PERSON", go "person_gliner"); (go "ADDRESS", go "address_gliner");
  (go "DATE_OF_BIRTH", go "dob_gliner"); (go "IP_ADDRESS", go "ip_gliner");
  (go "NATIONAL_ID", go "gliner_national_id_dup")
].
Definition Gliner_Reconfigure (enabled : gostring → bool) (c : GlinerClient) : GlinerClient :=
  Gliner_SetEnabled ((λ lr, (lr.1, enabled lr.2)) <$> gliner_rules) c.

Definition Gliner_HealthCheck `{HttpClient} (n : nat) (c : GlinerClient) : bool :=
  health_ready (http_get n (gc_baseURL c ++ go "/health")).

(** Whether [Scan] skips an entity. *)
Definition gliner_skip (c : GlinerClient) (e : Entity) : bool :=
  let minConf := default (gc_minConfidence c) (gc_labelMinConfidence c !! e_label e) in
  let has l := bool_decide (e_label e = go l) in
  f64_lt (e_score e) minConf
  || (len (e_text e) <? gc_minLength c)
  || default false (gc_suppressLabels c !! e_label e)
  || (has "PERSON" && isGenericRole (e_text e))
  || isPlaceholder (e_text e)
  || (has "MEDICAL_RECORD" && negb (containsDigit (e_text e)))
  || (has "PASSWORD" && (len (e_text e) <? 8))
  || (has "PASSWORD" && isCommonWord (e_text e))
  || (has "IP_ADDRESS" && negb (isDottedQuad (e_text e)))
  || (has "NATIONAL_ID" && negb (containsDigit (e_text e)))
  || (has "EMAIL" && negb (Contains (e_text e) (go "@")))
  || Contains (e_text e) (go "__")
  || (has "IBAN" && negb (containsDigit (e_text e))).

Definition gliner_finding (e : Entity) : Finding :=
  mkFinding (e_label e) (e_text e) (e_start e) (e_end e) (e_score e) (go "gliner").

(** What a sidecar request yields, before filtering. *)
Definition detect `{HttpClient} (n : nat) (name : string) (baseURL text : gostring)
    : res gostring (list Entity) :=
  match http_post n (baseURL ++ go "/detect") (detect_request text) with
  | HttpError err => Err (go name ++ go " sidecar request failed: " ++ err)
  | HttpReply status body =>
      if negb (status =? 200) then Err (go name ++ go " sidecar returned status " ++ Itoa status)
      else match detect_response body with
           | Some es => Ok es
           | None => Err (decode_error body)
           end
  end.

Definition Gliner_Scan `{HttpClient} (n : nat) (c : GlinerClient) (ms : Z) (text : gostring) : res gostring ScanResult :=
  if negb (gc_ready c) then Ok (mkScanResult [] 0)
  else
    es ← detect n "gliner" (gc_baseURL c) text;
    Ok (mkScanResult (gliner_finding <$> filter (λ e, gliner_skip c e = false) es) ms).

Definition gliner_layer `{HttpClient} (c : GlinerClient) (ms : nat → gostring → Z) (timer : nat → gostring → bool) : Layer :=
  mkLayer GlinerClient c (go "gliner") (λ _, gc_ready) (λ n st text, Gliner_Scan n st (ms n text) text)
    (Some Gliner_Reconfigure) ms timer.
End gliner.

(** ** Label suppression *)

Section gliner_props.
Context `{UnicodeData}.

Lemma set_labels_lookup byLabel m l :
  NoDup byLabel.*1 →
  foldl set_label m byLabel !! l =
  match list_to_map (M := gmap gostring bool) byLabel !! l with
  | Some true => None
  | Some false => Some true
  | None => m !! l
  end.
Proof.
  revert m. induction byLabel as [|[k on] byLabel IH]; intros m Hnd; [done|].
  apply NoDup_cons in Hnd as [Hk Hnd]. cbn [foldl]. rewrite IH by done.
  cbn [list_to_map foldr curry]. destruct (decide (l = k)) as [->|Hne].
  - rewrite (not_elem_of_list_to_map_1 byLabel k Hk). cbn.
    rewrite lookup_insert_eq. destruct on; cbn; [by rewrite lookup_delete_eq|by rewrite lookup_insert_eq].
  - cbn. rewrite lookup_insert_ne by done.
    destruct (list_to_map byLabel !! l) as [[]|]; [done..|].
    destruct on; cbn; [by rewrite lookup_delete_ne|by rewrite lookup_insert_ne].
Qed.

(** The rule that controls a label. *)
Definition gliner_rule (l : gostring) : option gostring :=
  list_to_map (M := gmap gostring gostring) gliner_rules !! l.

Lemma gliner_rules_lookup (enabled : gostring → bool) l :
  list_to_map (M := gmap gostring bool) ((λ lr, (lr.1, enabled lr.2)) <$> gliner_rules) !! l =
  enabled <$> gliner_rule l.
Proof.
  unfold gliner_rule. rewrite <- lookup_fmap. generalize gliner_rules as rs. intros rs. f_equal.
  induction rs as [|[k r] rs IH]; [done|].
  rewrite fmap_cons. cbn [list_to_map foldr curry fst snd]. by rewrite IH, fmap_insert.
Qed.

Lemma gliner_labels_NoDup (enabled : gostring → bool) :
  NoDup ((λ lr, (lr.1, enabled lr.2)) <$> gliner_rules).*1.
Proof.
  assert (((λ lr, (lr.1, enabled lr.2)) <$> gliner_rules).*1 = gliner_rules.*1) as -> by done.
  vm_compute. repeat (constructor; [set_solver|]). constructor.
Qed.

Lemma Reconfigure_suppressed enabled c l :
  gc_suppressLabels (Gliner_Reconfigure enabled c) !! l =
  match gliner_rule l with
  | Some r => if enabled r then None else Some true
  | None => gc_suppressLabels c !! l
  end.
Proof.
  unfold Gliner_Reconfigure, Gliner_SetEnabled. cbn [gc_suppressLabels with_suppressed].
  rewrite set_labels_lookup by apply gliner_labels_NoDup. rewrite gliner_rules_lookup.
  destruct (gliner_rule l) as [r|]; cbn; [by destruct (enabled r)|done].
Qed.

(** The rule settings determine label suppression.  After [Reconfigure] a
    label that a rule controls is suppressed exactly when the rule is off, every
    other label keeps its state, no other setting of the client changes, and the
    last reconfiguration alone decides: reconfiguring twice is reconfiguring
    with the second setting. *)
Theorem Gliner_Reconfigure_spec enabled1 enabled2 c :
  (∀ l, default false (gc_suppressLabels (Gliner_Reconfigure enabled1 c) !! l) =
        match gliner_rule l with
        | Some r => negb (enabled1 r)
        | None => default false (gc_suppressLabels c !! l)
        end)
  ∧ Gliner_Reconfigure enabled2 (Gliner_Reconfigure enabled1 c) = Gliner_Reconfigure enabled2 c
  ∧ with_suppressed (gc_suppressLabels c) (Gliner_Reconfigure enabled1 c) = c.
Proof.
  split_and!.
  - intros l. rewrite Reconfigure_suppressed. destruct (gliner_rule l) as [r|]; [|done].
    by destruct (enabled1 r).
  - assert (∀ e c0, Gliner_Reconfigure e c0 = mkGliner (gc_baseURL c0) (gc_ready c0) (gc_minConfidence c0)
      (gc_minLength c0) (gc_suppressLabels (Gliner_Reconfigure e c0)) (gc_labelMinConfidence c0)) as Heq by done.
    rewrite (Heq enabled2 (Gliner_Reconfigure enabled1 c)), (Heq enabled2 c). f_equal.
    apply map_eq. intros l. rewrite !Reconfigure_suppressed. by destruct (gliner_rule l).
  - by destruct c.
Qed.
End gliner_props.
