(* ===== verification/Opf.v ===== *)
(** * The OPF sidecar client — internal/scanner/opf/client.go

    The second sidecar layer: its filters on the entities of the reply and its
    label names.  Below it, what both sidecar layers promise the pipeline and
    what they leave unchecked. *)
From S2P Require Import Prelude GoStr Utf8 GoFloat GoSort Spans Scanner Redactor Cache FileBlock Coordinator Json JsonRound JsonDecode Gliner.
Local Open Scope Z_scope.

Definition labelMap : list (gostring * gostring) := [
  (go "PRIVATE_PERSON", go "PERSON"); (go "PRIVATE_EMAIL", go "EMAIL"); (go "PRIVATE_PHONE", go "PHONE");
  (go "PRIVATE_ADDRESS", go "ADDRESS"); (go "PRIVATE_URL", go "URL"); (go "PRIVATE_DATE", go "DATE_OF_BIRTH");
  (go "ACCOUNT_NUMBER", go "ACCOUNT_NUMBER"); (go "SECRET", go "SECRET")
].

Record OpfClient := mkOpf { oc_baseURL : gostring; oc_ready : bool }.

Definition NewOpf (baseURL : gostring) : OpfClient := mkOpf baseURL false.
Definition Opf_SetBaseURL (c : OpfClient) (url : gostring) : OpfClient := mkOpf url (oc_ready c).
Definition Opf_SetReady (c : OpfClient) (ready : bool) : OpfClient := mkOpf (oc_baseURL c) ready.

Section opf.
Context `{UnicodeData} `{HttpClient}.

Definition Opf_HealthCheck (n : nat) (c : OpfClient) : bool :=
  health_ready (http_get n (oc_baseURL c ++ go "/health")).

Definition name_rune (r : N) : bool :=
  IsLetter r || (r =? 32)%N || (r =? 45)%N || (r =? 46)%N || (r =? 39)%N.
Definition looksLikeName (s0 : gostring) : bool :=
  let s := TrimSpace s0 in
  if len s <? 2 then false
  else if Contains s (go "<") || Contains s (go ">") || Contains s (go "{") then false
  else match runes s with
       | r0 :: _ => IsUpper r0 && forallb name_rune (runes s)
       | [] => false
       end.

Definition is_vowel (r : N) : bool := bool_decide (r ∈ [97; 101; 105; 111; 117]%N).
Definition isNonsenseToken (s0 : gostring) : bool :=
  let s := TrimSpace s0 in
  if len s <? 4 then true
  else
    let letters := len (filter (λ r, IsLetter r = true) (runes s)) in
    let vowels := len (filter (λ r, IsLetter r && is_vowel (RuneToLower r) = true) (runes s)) in
    if (3 <? letters) && (vowels =? 0) then true
    else (5 <? letters) && f64_lt (f64_div (f64_of_Z vowels) (f64_of_Z letters)) (f64_lit 1 10).

(** Whether [Scan] skips an entity. *)
Definition opf_skip (e : Entity) : bool :=
  let t := e_text e in
  let upper l := bool_decide (ToUpper (e_label e) = go l) in
  (len t <? 3)
  || Contains t (go "REDACTED")
  || HasPrefix t (go "[") || HasPrefix t (go "<")
  || HasPrefix t (go "$.") || HasPrefix t (go "/")
  || isNonsenseToken t
  || (upper "PRIVATE_PERSON" && negb (looksLikeName t))
  || (upper "SECRET" && (len t <? 8))
  || (upper "PRIVATE_ADDRESS" && (len t <? 8))
  || (upper "PRIVATE_DATE" && (len t <? 6))
  || (upper "ACCOUNT_NUMBER" && (len t <? 5)).

Definition opf_label (label : gostring) : gostring :=
  default label (list_to_map (M := gmap gostring gostring) labelMap !! label).
Definition opf_finding (e : Entity) : Finding :=
  mkFinding (opf_label (e_label e)) (e_text e) (e_start e) (e_end e) (e_score e) (go "opf").

Definition Opf_Scan (n : nat) (c : OpfClient) (ms : Z) (text : gostring) : res gostring ScanResult :=
  if negb (oc_ready c) then Ok (mkScanResult [] 0)
  else
    es ← detect n "opf" (oc_baseURL c) text;
    Ok (mkScanResult (opf_finding <$> filter (λ e, opf_skip e = false) es) ms).

Definition opf_layer (c : OpfClient) (ms : nat → gostring → Z) (timer : nat → gostring → bool) : Layer :=
  mkLayer OpfClient c (go "opf") (λ _, oc_ready) (λ n st text, Opf_Scan n st (ms n text) text) None ms timer.
End opf.

(** ** What the pipeline relies on *)

Section sidecar_props.
Context `{UnicodeData} `{HttpClient} (T : TextClass).

(** A detector process whose replies stay inside the text of the request, with
    labels of the class, whatever its URL. *)
Definition sidecar_in_bounds : Prop :=
  ∀ n url text status body es,
    tc_text T text → http_post n url (detect_request text) = HttpReply status body →
    detect_response body = Some es →
    Forall (λ e, 0 ≤ e_start e ≤ e_end e ∧ e_end e ≤ len text ∧ tc_label T (e_label e)
                 ∧ tc_label T (opf_label (e_label e))) es.

Lemma detect_not_panic n name url text : detect n name url text ≠ Panic.
Proof. unfold detect. repeat case_match; done. Qed.

Lemma detect_in_bounds n name url text es :
  sidecar_in_bounds → tc_text T text → detect n name url text = Ok es →
  Forall (λ e, 0 ≤ e_start e ≤ e_end e ∧ e_end e ≤ len text ∧ tc_label T (e_label e)
               ∧ tc_label T (opf_label (e_label e))) es.
Proof.
  intros Hs Ht. unfold detect. destruct (http_post _ _ _) as [|st body] eqn:Hp; [done|].
  if_case; [done|]. destruct (detect_response body) as [es'|] eqn:Hd; [|done].
  intros [= <-]. by eapply Hs.
Qed.

(** The body both clients share: ask, filter, convert. *)
Lemma detect_scan_ok n name url text (ms : Z) (skip : Entity → bool) (conv : Entity → Finding) :
  sidecar_in_bounds → tc_text T text →
  (∀ e, f_start (conv e) = e_start e ∧ f_end (conv e) = e_end e ∧
        (f_label (conv e) = e_label e ∨ f_label (conv e) = opf_label (e_label e))) →
  let r := es ← detect n name url text;
           Ok (mkScanResult (conv <$> filter (λ e, skip e = false) es) ms) in
  r ≠ Panic ∧
  ∀ sr, r = Ok sr → Forall (λ f, within (len text) f ∧ tc_label T (f_label f)) (sr_findings sr).
Proof.
  intros Hs Ht Hconv r. subst r. destruct (detect n name url text) as [es|e|] eqn:Hd; cbn [mbind res_bind].
  - split; [done|]. intros sr [= <-]. cbn [sr_findings]. apply Forall_fmap, Forall_filter_1.
    eapply Forall_impl; [by eapply detect_in_bounds|]. intros e (? & ? & ? & ?).
    destruct (Hconv e) as (Hb & He & Hl). unfold within. cbn. rewrite Hb, He. split; [lia|].
    by destruct Hl as [->| ->].
  - split; [done|by intros].
  - by apply detect_not_panic in Hd.
Qed.

Lemma gliner_always_ok c ms timer : sidecar_in_bounds → always_ok T (gliner_layer c ms timer).
Proof.
  intros Hs. exists (λ _, True). split_and!; [done| |done]. intros st _ n t Ht.
  unfold l_scan. cbn [l_Scan l_state with_state gliner_layer]. unfold Gliner_Scan.
  destruct (gc_ready st); cbn [negb]; [|split; [done|intros r [= <-]; constructor]].
  eapply detect_scan_ok; [done..|]. intros e. cbn. auto.
Qed.

Lemma opf_always_ok c ms timer : sidecar_in_bounds → always_ok T (opf_layer c ms timer).
Proof.
  intros Hs. exists (λ _, True). split_and!; [done| |done]. intros st _ n t Ht.
  unfold l_scan. cbn [l_Scan l_state with_state opf_layer]. unfold Opf_Scan.
  destruct (oc_ready st); cbn [negb]; [|split; [done|intros r [= <-]; constructor]].
  eapply detect_scan_ok; [done..|]. intros e. cbn [f_start f_end f_label opf_finding]. auto.
Qed.

(** When the detector processes keep their spans inside the text, both
    sidecar layers are safe: neither panics, an unreachable or confused sidecar
    yields an error or no findings, and every finding lies inside the text, in
    every state of readiness and after every reconfiguration. *)
Theorem sidecar_layers_safe gc oc ms timer :
  sidecar_in_bounds →
  always_ok T (gliner_layer gc ms timer) ∧ always_ok T (opf_layer oc ms timer).
Proof. intros Hs. split; [by apply gliner_always_ok|by apply opf_always_ok]. Qed.
End sidecar_props.

(** ** Concrete sidecars *)

Section evaluation.
Local Existing Instance sample_unicode.
Local Existing Instance insertion_sort.

(** A sidecar that knows one text. *)
Definition one_text_sidecar (text reply : gostring) : HttpClient := {|
  http_post _ _ body := HttpReply 200 (if bool_decide (body = detect_request text) then reply else go "{}");
  http_get _ _ := HttpReply 200 (go "{}");
  decode_error _ := go "invalid JSON";
|}.

(** The reply with one entity. *)
Definition entity_reply (text label : gostring) (start end_ : Z) (score : string) : gostring :=
  compact (JObj [(go "entities", JArr [JObj [(go "text", quoted text); (go "label", quoted label);
    (go "start", JNum (Itoa start)); (go "end", JNum (Itoa end_)); (go "score", JNum (go score))]])]).

Lemma detect_request_inj t t' :
  is_ascii t → is_ascii t' → detect_request t = detect_request t' → t = t'.
Proof.
  intros Ht%is_ascii_only Ht'%is_ascii_only Heq.
  assert (∀ u, Unmarshal (detect_request u) = Some (JObj [(go "text", quoted u)])) as Hu.
  { intros u. unfold detect_request, quoted. destruct (quote_lit_spec u) as (Hl & _ & He).
    destruct (Unmarshal_compact (JObj [(go "text", JStr (quote_lit u))])) as [-> _].
    - split; [apply quote_lit_spec with (s := go "text")|done].
    - vm_compute. discriminate.
    - cbn [canon fmap list_fmap fst snd]. by rewrite He. }
  pose proof (Hu t) as H1. rewrite Heq, Hu in H1. injection H1 as H1.
  apply (f_equal unquote) in H1. by rewrite !unquote_quote_ascii in H1 by done.
Qed.

Definition sidecar_text : gostring := go "call John Smith at 5".
Definition good_sidecar : HttpClient :=
  one_text_sidecar sidecar_text (entity_reply (go "John Smith") (go "PERSON") 5 15 "0.95").

Lemma good_sidecar_in_bounds : @sidecar_in_bounds _ good_sidecar ascii_text.
Proof.
  intros n url text status body es Ht. cbn [http_post good_sidecar one_text_sidecar].
  case_bool_decide as Heq; intros [= <- <-].
  - apply detect_request_inj in Heq as ->; [|done|vm_compute; repeat constructor].
    intros Hd. vm_compute in Hd. injection Hd as <-. vm_compute. repeat constructor; discriminate.
  - intros Hd. vm_compute in Hd. injection Hd as <-. constructor.
Qed.

Theorem sidecar_layers_safe_witness :
  always_ok ascii_text (@gliner_layer _ good_sidecar (NewGliner [] []) (λ _ _, 0) (λ _ _, false))
  ∧ always_ok ascii_text (@opf_layer _ good_sidecar (NewOpf []) (λ _ _, 0) (λ _ _, false))
  ∧ (@Gliner_Scan _ good_sidecar 0 (Gliner_SetReady (NewGliner [] []) true) 3 sidecar_text
       = Ok (mkScanResult [mkFinding (go "PERSON") (go "John Smith") 5 15 (f64_lit 95 100) (go "gliner")] 3)).
Proof.
  destruct (@sidecar_layers_safe _ good_sidecar ascii_text (NewGliner [] []) (NewOpf []) (λ _ _, 0)
    (λ _ _, false) good_sidecar_in_bounds). split_and!; [done|done|vm_compute; reflexivity].
Defined.

Definition with_gliner (sidecar : HttpClient) : Coordinator :=
  NewCoordinator (mkPipeline [@gliner_layer _ sidecar (Gliner_SetReady (NewGliner [] []) true) (λ _ _, 0) (λ _ _, false)] 0)
    (NewCache 4) (replaceState [] false).
Definition outcome_text (r : res gostring (Coordinator * ScanOutcome)) : res gostring gostring :=
  match r with Ok (_, o) => Ok (so_text o) | Err e => Err e | Panic => Panic end.

Definition email : gostring := go "john@x.io".
(** Eleven letters of two bytes each, then the address. *)
Definition accented_text : gostring := concat (replicate 11 [chr 195; chr 169]) ++ go " " ++ email.

(** The offsets of a sidecar are used as byte offsets and are not checked.
    A reply that points past the end of the text makes the whole scan panic; and
    a reply that is right in code points, as the Python sidecars count, redacts
    other bytes of a text with accented letters and leaves the address it found
    in the output. *)
Lemma sidecar_offsets_unchecked :
  outcome_text (ScanAndRedact (with_gliner (one_text_sidecar sidecar_text
    (entity_reply (go "John Smith") (go "PERSON") 5 21 "0.95"))) (mkMoment 0 0) sidecar_text) = Panic
  ∧ string_of_runes (sub (runes accented_text) 12 21) = email
  ∧ match outcome_text (ScanAndRedact (with_gliner (one_text_sidecar accented_text
      (entity_reply email (go "EMAIL") 12 21 "0.95"))) (mkMoment 0 0) accented_text) with
    | Ok out => Contains out email = true
    | _ => False
    end.
Proof. vm_compute. repeat split; reflexivity. Qed.
End evaluation.
