(* ===== verification/RegexScanner.v ===== *)
(** * The regex layer — internal/scanner/regex/regex.go

    Named patterns, the program's own and the user's; a pattern that does not
    compile is dropped.  The regular expressions are those of the interface
    [RegexpEngine]. *)
From S2P Require Import Prelude GoStr Utf8 GoFloat GoSort Spans Scanner Redactor Regex Rules.
Local Open Scope Z_scope.

Record PatternDef := mkPattern { pd_name : gostring; pd_pattern : gostring }.

Definition DefaultPatterns : list PatternDef := [
  mkPattern (go "EMAIL")
    (go "[a-zA-Z0-9._%+\-]+@[a-zA-Z0-9.\-]+\.[a-zA-Z]{2,}");
  mkPattern (go "SSN")
    (go "\b\d{3}-\d{2}-\d{4}\b");
  mkPattern (go "SSN")
    (go "\b\d{3}\s\d{2}\s\d{4}\b");
  mkPattern (go "CREDIT-CARD")
    (go "\b\d{4}[\s\-]\d{4}[\s\-]\d{4}[\s\-]\d{4}\b");
  mkPattern (go "PHONE")
    (go "\(\d{3}\)[\s.\-]?\d{3}[\s.\-]?\d{4}");
  mkPattern (go "PHONE")
    (go "\b\d{3}[\-\.]\d{3}[\-\.]\d{4}\b");
  mkPattern (go "PHONE")
    (go "\+\d{1,4}[\s\-.]?\(?\d{1,5}\)?[\s\-.]?\d{2,5}[\s\-.]?\d{2,5}[\s\-.]?\d{0,5}");
  mkPattern (go "PHONE")
    (go "\b0\d{2,4}[\s.\-]\d{3,8}[\s.\-]?\d{0,6}\b");
  mkPattern (go "PHONE")
    (go "\b00\d{2,4}[\s.\-]\d{2,5}[\s\-.]?\d{3,5}[\s\-.]?\d{0,5}\b");
  mkPattern (go "AWS-ACCESS-KEY")
    (go "AKIA[0-9A-Z]{16}");
  mkPattern (go "AWS-SECRET-KEY")
    (go "(?i)aws_secret_access_key\s*[=:]\s*[A-Za-z0-9/+=]{40}");
  mkPattern (go "GCP-API-KEY")
    (go "AIza[0-9A-Za-z\-_]{35}");
  mkPattern (go "PRIVATE-KEY")
    (go "(?s)-----BEGIN\s+(RSA |EC |DSA |OPENSSH )?PRIVATE KEY-----.*?-----END\s+(RSA |EC |DSA |OPENSSH )?PRIVATE KEY-----");
  mkPattern (go "JWT")
    (go "eyJ[A-Za-z0-9_-]+\.eyJ[A-Za-z0-9_-]+\.[A-Za-z0-9_\-]+");
  mkPattern (go "CONNECTION-STRING")
    (go "(?i)(mongodb|postgres|mysql|redis|amqp):\/\/[^\s]+");
  mkPattern (go "GENERIC-SECRET")
    (go "(?i)(password|secret|token|api_key|apikey)\s*[=:]\s*['" ++ dquote ++ go "]?[A-Za-z0-9/+=\-_]{8,}['" ++ dquote ++ go "]?");
  mkPattern (go "GENERIC-SECRET")
    (go "(?i)(password|passwd|pwd)\s*[=:]\s*['" ++ dquote ++ go "]?[^\s'" ++ dquote ++ go "]{4,}['" ++ dquote ++ go "]?");
  mkPattern (go "IP-ADDRESS")
    (go "\b(?:\d{1,3}\.){3}\d{1,3}\b");
  mkPattern (go "IPV6-ADDRESS")
    (go "\b[0-9a-fA-F]{1,4}(?::[0-9a-fA-F]{1,4}){7}\b");
  mkPattern (go "IPV6-ADDRESS")
    (go "\b[0-9a-fA-F]{1,4}(?::[0-9a-fA-F]{1,4}){2,7}::[0-9a-fA-F:]*\b");
  mkPattern (go "PASSPORT")
    (go "(?i)(?:passport|travel\s+doc(?:ument)?)\s*(?:no|number|#|:)\s*[A-Z]{0,2}\d{6,9}\b");
  mkPattern (go "DRIVER-LICENSE")
    (go "(?i)(?:driver'?s?\s*(?:license|licence|lic)|DL|DMV)\s*(?:no|number|#|:)\s*[A-Z0-9][\-.]?[A-Z0-9]{5,12}\b");
  mkPattern (go "IBAN")
    (go "\b[A-Z]{2}\d{2}[A-Z0-9]{4}\d{7}[A-Z0-9]{0,16}\b");
  mkPattern (go "MAC-ADDRESS")
    (go "\b[0-9a-fA-F]{2}[:\-\s][0-9a-fA-F]{2}[:\-\s][0-9a-fA-F]{2}[:\-\s][0-9a-fA-F]{2}[:\-\s][0-9a-fA-F]{2}[:\-\s][0-9a-fA-F]{2}\b");
  mkPattern (go "IMEI")
    (go "\b\d{2}-\d{6}-\d{6}-\d{1}\b");
  mkPattern (go "CREDIT-CARD")
    (go "\b(?:4\d{12}(?:\d{3})?|5[1-5]\d{14}|3[47]\d{13}|6(?:011|5\d{2})\d{12})\b");
  mkPattern (go "PASSWORD")
    (go "(?i)(?:password|passwd|pwd|passcode)\s*(?:is|was|:)\s*(?!(?:valid|invalid|temporary|required|optional|incorrect|correct|wrong|right|expired|changed|reset|secure|strong|weak|empty|null|blank|missing|set|enabled|disabled|locked|unlocked)\b)[^\s,;]{4,40}");
  mkPattern (go "CC-EXPIRY")
    (go "\b(?:0[1-9]|1[0-2])\/(?:2[0-9]|3[0-9])\b");
  mkPattern (go "URL")
    (go "https?://(?!(?:www\.)?(?:w3\.org|xbrl\.org|fpml\.org|xmlsoap\.org|schemas\.xmlsoap\.org|xml\.org))[^\s<>" ++ dquote ++ go "')\]]+");
  mkPattern (go "BANK-ACCOUNT")
    (go "(?i)(?:account|acct|routing)\s*(?:no|number|num|#|:)\s*[A-Z]{0,4}\d{6,18}\b");
  mkPattern (go "INSURANCE-ID")
    (go "(?i)(?:insurance|policy|health\s*plan|member)\s*(?:no|number|id|#|:)\s*[A-Z]{0,3}\d{6,12}\b");
  mkPattern (go "REGISTRATION-ID")
    (go "(?i)(?:student|registration|reg|enrollment)\s*(?:no|number|id|#|:)\s*(?=[A-Z0-9\-]*\d)[A-Z0-9\-]{5,15}\b")
].

Section regex_scanner.
Context `{RegexpEngine}.

Record compiledPattern := mkCompiled { cp_name : gostring; cp_re : Regexp }.
Record RegexScanner := mkRegexScanner { rs_patterns : list compiledPattern }.

Definition compile_def (p : PatternDef) : option compiledPattern :=
  mkCompiled (pd_name p) <$> Compile (pd_pattern p).
Definition NewRegexScanner (defaults custom : list PatternDef) : RegexScanner :=
  mkRegexScanner (omap compile_def (defaults ++ custom)).

Definition regex_finding (text : gostring) (p : compiledPattern) (m : Z * Z) : res gostring Finding :=
  value ← slice text m.1 m.2;
  Ok (mkFinding (cp_name p) value m.1 m.2 (f64_of_Z 1) (go "regex")).

Fixpoint regex_matches (text : gostring) (p : compiledPattern) (ms : list (Z * Z))
    : res gostring (list Finding) :=
  match ms with
  | [] => Ok []
  | m :: ms' => f ← regex_finding text p m; fs ← regex_matches text p ms'; Ok (f :: fs)
  end.
Fixpoint regex_patterns (text : gostring) (ps : list compiledPattern) : res gostring (list Finding) :=
  match ps with
  | [] => Ok []
  | p :: ps' =>
      fs ← regex_matches text p (FindAllStringIndex (cp_re p) text);
      gs ← regex_patterns text ps'; Ok (fs ++ gs)
  end.
Definition Regex_Scan (s : RegexScanner) (ms : Z) (text : gostring) : res gostring ScanResult :=
  fs ← regex_patterns text (rs_patterns s); Ok (mkScanResult fs ms).

Definition regex_layer (s : RegexScanner) (ms : nat → gostring → Z) (timer : nat → gostring → bool) : Layer :=
  mkLayer RegexScanner s (go "regex") (λ _ _, true) (λ n st text, Regex_Scan st (ms n text) text) None ms timer.

(** ** What a scan reports *)

(** A pattern's matches, as findings. *)
Definition pattern_findings (text : gostring) (p : compiledPattern) : list Finding :=
  (λ m, mkFinding (cp_name p) (sub text m.1 m.2) m.1 m.2 (f64_of_Z 1) (go "regex"))
    <$> FindAllStringIndex (cp_re p) text.

Lemma regex_matches_spec text p ms :
  Forall (λ m, 0 ≤ m.1 ≤ m.2 ∧ m.2 ≤ len text) ms →
  regex_matches text p ms =
  Ok ((λ m, mkFinding (cp_name p) (sub text m.1 m.2) m.1 m.2 (f64_of_Z 1) (go "regex")) <$> ms).
Proof.
  induction 1 as [|m ms [? ?] _ IH]; [done|]. cbn [regex_matches]. unfold regex_finding.
  rewrite slice_Ok by lia. cbn [mbind res_bind]. by rewrite IH.
Qed.

Lemma regex_patterns_spec text ps :
  regex_patterns text ps = Ok (ps ≫= pattern_findings text).
Proof.
  induction ps as [|p ps IH]; [done|]. cbn [regex_patterns].
  rewrite regex_matches_spec by (eapply ordered_matches_bounds; [apply FindAll_ordered|lia]).
  cbn [mbind res_bind]. by rewrite IH.
Qed.

(** The regex layer never fails: on every text it reports, pattern by
    pattern in the order of the table, exactly the matches of the patterns that
    compile, each with the text at its place, inside the text and without
    overlap within a pattern. *)
Lemma Regex_Scan_reports defaults custom ms text :
  let s := NewRegexScanner defaults custom in
  Regex_Scan s ms text = Ok (mkScanResult (rs_patterns s ≫= pattern_findings text) ms)
  ∧ Forall (λ f, within (len text) f ∧ locates text f ∧
      ∃ p, p ∈ defaults ++ custom ∧ f_label f = pd_name p ∧ is_Some (Compile (pd_pattern p)))
      (rs_patterns s ≫= pattern_findings text)
  ∧ Forall (λ p, ordered_matches (len text) 0 ((λ f, (f_start f, f_end f)) <$> pattern_findings text p))
      (rs_patterns s).
Proof.
  intros s. unfold Regex_Scan. rewrite regex_patterns_spec. split_and!; [done| |].
  - apply Forall_forall. intros f (p & Hf & Hp)%list_elem_of_bind.
    apply list_elem_of_fmap in Hf as (m & -> & Hm).
    pose proof (ordered_matches_bounds _ _ _ (FindAll_ordered (cp_re p) text) ltac:(done)) as Hb.
    rewrite Forall_forall in Hb. specialize (Hb m Hm). cbn.
    split; [unfold within; cbn; lia|]. split; [done|].
    apply list_elem_of_omap in Hp as (d & Hd & Hc). unfold compile_def in Hc.
    destruct (Compile (pd_pattern d)) as [r|] eqn:Er; [|done]. injection Hc as <-.
    exists d. rewrite Er. eauto.
  - apply Forall_true. intros p. unfold pattern_findings. rewrite <- list_fmap_compose.
    assert ((λ m : Z * Z, (m.1, m.2)) <$> FindAllStringIndex (cp_re p) text =
      FindAllStringIndex (cp_re p) text) as Heq.
    { rewrite <- (list_fmap_id (FindAllStringIndex (cp_re p) text)) at 2.
      apply list_fmap_ext. by intros _ [] _. }
    cbn [compose f_start f_end]. unfold compose. cbn [f_start f_end]. rewrite Heq.
    apply FindAll_ordered.
Qed.

Lemma regex_layer_faithful s ms timer : layer_faithful any_text (regex_layer s ms timer).
Proof.
  assert (∀ text f, f ∈ rs_patterns s ≫= pattern_findings text → within (len text) f ∧ locates text f) as Hf.
  { intros text f (p & Hf & Hp)%list_elem_of_bind. apply list_elem_of_fmap in Hf as (m & -> & Hm).
    pose proof (ordered_matches_bounds _ _ _ (FindAll_ordered (cp_re p) text) ltac:(done)) as Hb.
    rewrite Forall_forall in Hb. specialize (Hb m Hm). split; [unfold within; cbn; lia|done]. }
  split.
  - intros n t _. unfold l_scan. cbn [l_Scan regex_layer l_state]. unfold Regex_Scan.
    rewrite regex_patterns_spec. split; [done|]. intros r [= <-]. cbn [sr_findings].
    apply Forall_forall. intros f Hin. split; [by apply Hf|done].
  - intros n t r _. unfold l_scan. cbn [l_Scan regex_layer l_state]. unfold Regex_Scan.
    rewrite regex_patterns_spec. intros [= <-]. apply Forall_forall. intros f Hin. by apply Hf.
Qed.
End regex_scanner.

(** Three of the default patterns use look-ahead, which Go's syntax does
    not have: they never compile, so the labels PASSWORD, URL and
    REGISTRATION-ID are never reported by the regex layer; the other patterns
    all compile. *)
Lemma regex_dead_patterns :
  pd_name <$> filter (λ p, @Compile re2 (pd_pattern p) = None) DefaultPatterns =
    [go "PASSWORD"; go "URL"; go "REGISTRATION-ID"]
  ∧ length (rs_patterns (@NewRegexScanner re2 DefaultPatterns [])) = (length DefaultPatterns - 3)%nat.
Proof. split; vm_compute; reflexivity. Qed.
