(* ===== verification/Domain.v ===== *)
(** * Domain filter — internal/domain/domain.go

    Which hosts the proxy intercepts and which it blocks.  [net.SplitHostPort]
    separates the port. *)
From S2P Require Import Prelude GoStr Utf8.

Definition colon : Ascii.ascii := ":"%char.
Definition lbracket : Ascii.ascii := "["%char.
Definition rbracket : Ascii.ascii := "]"%char.

(** [net.SplitHostPort]: [None] for any of its errors. *)
Definition SplitHostPort (hostport : gostring) : option (gostring * gostring) :=
  match LastIndexByte hostport colon with
  | None => None
  | Some i =>
      let port := drop (S i) hostport in
      let finish (host : gostring) (j k : nat) :=
        if bool_decide (is_Some (IndexByte (drop j hostport) lbracket)) then None
        else if bool_decide (is_Some (IndexByte (drop k hostport) rbracket)) then None
        else Some (host, port) in
      if bool_decide (head hostport = Some lbracket) then
        match IndexByte hostport rbracket with
        | None => None
        | Some end_ =>
            if bool_decide (S end_ = i) then finish (drop 1 (take end_ hostport)) 1 (S end_) else None
        end
      else
        let host := take i hostport in
        if bool_decide (is_Some (IndexByte host colon)) then None else finish host 0 0
  end.

Section domain.
Context `{UnicodeData}.

Record Filter := mkFilter {
  interceptDomains : gset gostring;
  blockedDomains : gset gostring;
}.

Definition domain_set (domains : list gostring) : gset gostring := list_to_set (ToLower <$> domains).
Definition NewFilter (intercept blocked : list gostring) : Filter :=
  mkFilter (domain_set intercept) (domain_set blocked).
Definition SetInterceptDomains (f : Filter) (domains : list gostring) : Filter :=
  mkFilter (domain_set domains) (blockedDomains f).
Definition SetBlockedDomains (f : Filter) (domains : list gostring) : Filter :=
  mkFilter (interceptDomains f) (domain_set domains).

Definition stripPort (host : gostring) : gostring :=
  match SplitHostPort host with
  | None => ToLower host
  | Some (h, _) => ToLower h
  end.
Definition ShouldIntercept (f : Filter) (host : gostring) : bool :=
  bool_decide (stripPort host ∈ interceptDomains f).
Definition IsBlocked (f : Filter) (host : gostring) : bool :=
  bool_decide (stripPort host ∈ blockedDomains f).

(** ** Host names *)

(** A name or IPv4 address, and a port: no colon and no bracket. *)
Definition plain_host (s : gostring) : Prop := colon ∉ s ∧ lbracket ∉ s ∧ rbracket ∉ s.

Lemma SplitHostPort_plain h p :
  plain_host h → plain_host p → SplitHostPort (h ++ colon :: p) = Some (h, p).
Proof.
  intros (Hc & Hl & Hr) (Pc & Pl & Pr). unfold SplitHostPort.
  rewrite LastIndexByte_app_plain by done.
  rewrite bool_decide_eq_false_2; cycle 1.
  { destruct h; cbn; [done|]. intros [= ->]. set_solver. }
  rewrite take_app_length.
  assert (∀ c s, c ∉ s → bool_decide (is_Some (IndexByte s c)) = false) as Hnone.
  { intros c s Hs. apply IndexByte_None in Hs as ->. apply bool_decide_eq_false_2. by intros []. }
  rewrite !Hnone; [|rewrite drop_0; set_solver..|done].
  change (h ++ colon :: p) with (h ++ [colon] ++ p). rewrite app_assoc.
  replace (S (length h)) with (length (h ++ [colon])) by (rewrite length_app; cbn; lia).
  by rewrite drop_app_length.
Qed.

(** Interception and blocking depend on the host name alone, up to case: a
    name is intercepted, with or without a port, exactly when some configured
    domain equals it in lower case; updating one list does not change the
    other. *)
Theorem domain_filter_spec f domains h p :
  plain_host h → plain_host p →
  ShouldIntercept (SetInterceptDomains f domains) h =
    bool_decide (ToLower h ∈ ToLower <$> domains)
  ∧ ShouldIntercept (SetInterceptDomains f domains) (h ++ colon :: p) =
      ShouldIntercept (SetInterceptDomains f domains) h
  ∧ IsBlocked (SetBlockedDomains f domains) (h ++ colon :: p) =
      bool_decide (ToLower h ∈ ToLower <$> domains)
  ∧ IsBlocked (SetInterceptDomains f domains) h = IsBlocked f h
  ∧ ShouldIntercept (SetBlockedDomains f domains) h = ShouldIntercept f h.
Proof.
  intros Hh Hp. assert (stripPort h = ToLower h) as E1.
  { unfold stripPort, SplitHostPort. destruct Hh as (Hc & _). by rewrite LastIndexByte_plain. }
  assert (stripPort (h ++ colon :: p) = ToLower h) as E2 by (unfold stripPort; by rewrite SplitHostPort_plain).
  unfold ShouldIntercept, IsBlocked. rewrite E1, E2.
  cbn [SetInterceptDomains SetBlockedDomains interceptDomains blockedDomains]. unfold domain_set.
  split_and!; try done; apply bool_decide_ext; set_solver.
Qed.
End domain.

Definition demo_domain : gostring := go "API.Anthropic.com".

Theorem domain_filter_spec_witness :
  @ShouldIntercept sample_unicode (@NewFilter sample_unicode [demo_domain] []) (go "api.anthropic.COM:443") = true
  ∧ @ShouldIntercept sample_unicode (@NewFilter sample_unicode [demo_domain] []) (go "api.anthropic.com") = true.
Proof.
  destruct (@domain_filter_spec sample_unicode (@NewFilter sample_unicode [] []) [demo_domain]
    (go "api.anthropic.COM") (go "443")) as (H1 & H2 & _).
  - repeat split; apply (bool_decide_eq_false_1 _); reflexivity.
  - repeat split; apply (bool_decide_eq_false_1 _); reflexivity.
  - split; [|reflexivity]. etrans; [exact H2|]. etrans; [exact H1|]. reflexivity.
Defined.
