(* ===== verification/Extract.v ===== *)
(** * Extracting and rewriting the user message — internal/proxy/extract.go

    The text of the last user message of a chat request, and the request with
    that message replaced.  Raw messages are the syntax trees of [Json]. *)
From S2P Require Import Prelude GoStr Utf8 Json JsonRound JsonDecode JsonStruct.
Local Open Scope Z_scope.

Record ContentPart := mkPart {
  cp_type : gostring;
  cp_text : gostring;
  cp_content : gostring;
  cp_toolUseID : gostring;
}.
Definition zero_part : ContentPart := mkPart [] [] [] [].

Record ExtractedMessage := mkExtracted {
  em_text : gostring;
  em_index : nat;
  em_parts : list ContentPart;
  em_isArray : bool;
}.

Record apiMessage := mkMessage { am_role : gostring; am_content : option json }.
Definition zero_message : apiMessage := mkMessage [] None.

Section extract.
Context `{UnicodeData}.

(** ** Decoding *)

Definition dec_part : decoder ContentPart := dec_struct [
  (go "type", λ p v, (λ x, mkPart x (cp_text p) (cp_content p) (cp_toolUseID p)) <$> dec_string (cp_type p) v);
  (go "text", λ p v, (λ x, mkPart (cp_type p) x (cp_content p) (cp_toolUseID p)) <$> dec_string (cp_text p) v);
  (go "content", λ p v, (λ x, mkPart (cp_type p) (cp_text p) x (cp_toolUseID p)) <$> dec_string (cp_content p) v);
  (go "tool_use_id", λ p v, (λ x, mkPart (cp_type p) (cp_text p) (cp_content p) x) <$> dec_string (cp_toolUseID p) v)
].
Definition message_fields : list (gostring * decoder apiMessage) := [
  (go "role", λ m v, (λ x, mkMessage x (am_content m)) <$> dec_string (am_role m) v);
  (go "content", λ m v, (λ x, mkMessage (am_role m) x) <$> dec_raw (am_content m) v)
].
Definition dec_message : decoder apiMessage := dec_struct message_fields.
Definition request_fields : list (gostring * decoder (list apiMessage)) :=
  [(go "messages", dec_slice zero_message dec_message)].
Definition dec_request : decoder (list apiMessage) := dec_struct request_fields.

(** [json.Unmarshal] of a raw message that may be absent. *)
Definition unmarshal_raw {A} (dec : decoder A) (zero : A) (raw : option json) : option A :=
  v ← raw; dec zero v.

(** ** ExtractLastUserMessage *)

Definition part_texts (p : ContentPart) : list gostring :=
  if bool_decide (cp_type p = go "text") then [cp_text p]
  else if bool_decide (cp_type p = go "tool_result") then
    (if bool_decide (cp_content p = []) then [] else [cp_content p])
  else [].
Definition newline : gostring := [chr 10].

Definition extract_content (i : nat) (content : option json) : res gostring ExtractedMessage :=
  match unmarshal_raw dec_string [] content with
  | Some text => Ok (mkExtracted text i [] false)
  | None =>
      match unmarshal_raw (dec_slice zero_part dec_part) [] content with
      | Some parts => Ok (mkExtracted (Join (parts ≫= part_texts) newline) i parts true)
      | None => Err (go "unsupported content format at message " ++ Itoa (Z.of_nat i))
      end
  end.

(** The loop over the messages from the last one; [rms] is the reversed list
    and [length rms - 1] the index of its first element. *)
Fixpoint last_user_loop (rms : list apiMessage) : res gostring ExtractedMessage :=
  match rms with
  | [] => Err (go "no user message found")
  | m :: rms' =>
      if bool_decide (am_role m = go "user") then extract_content (length rms') (am_content m)
      else last_user_loop rms'
  end.

Definition ExtractLastUserMessage (body : gostring) : res gostring ExtractedMessage :=
  match v ← Unmarshal body; dec_request [] v with
  | None => Err (go "parse request body")
  | Some ms => last_user_loop (rev ms)
  end.

(** ** ReplaceLastUserMessage *)

Definition opt_member (k : string) (s : gostring) : list (gostring * json) :=
  if bool_decide (s = []) then [] else [(go k, quoted s)].
Definition part_json (p : ContentPart) : json :=
  JObj ((go "type", quoted (cp_type p)) :: opt_member "text" (cp_text p)
        ++ opt_member "content" (cp_content p) ++ opt_member "tool_use_id" (cp_toolUseID p)).

(** The loop that hands out the lines of the redacted text, one to each part
    it has a line for. *)
Fixpoint replace_parts (parts : list ContentPart) (texts : list gostring) : list ContentPart :=
  match parts with
  | [] => []
  | p :: parts' =>
      if bool_decide (cp_type p = go "text") then
        match texts with
        | t :: texts' => mkPart (cp_type p) t (cp_content p) (cp_toolUseID p) :: replace_parts parts' texts'
        | [] => p :: replace_parts parts' []
        end
      else if bool_decide (cp_type p = go "tool_result") then
        match texts with
        | t :: texts' => mkPart (cp_type p) (cp_text p) t (cp_toolUseID p) :: replace_parts parts' texts'
        | [] => p :: replace_parts parts' []
        end
      else p :: replace_parts parts' texts
  end.

Definition new_content (msg : ExtractedMessage) (redacted : gostring) : json :=
  if em_isArray msg
  then JArr (part_json <$> replace_parts (em_parts msg) (Split redacted (chr 10)))
  else quoted redacted.
(** The keys of a Go map are written in order. *)
Definition new_message (msg : ExtractedMessage) (redacted : gostring) : json :=
  JObj [(go "content", new_content msg redacted); (go "role", quoted (go "user"))].

(** Byte-wise string order. *)
Fixpoint str_ltb (s t : gostring) : bool :=
  match s, t with
  | _, [] => false
  | [], _ :: _ => true
  | a :: s', b :: t' => (byteN a <? byteN b)%N || ((byteN a =? byteN b)%N && str_ltb s' t')
  end.
Fixpoint insert_member (kv : gostring * json) (l : list (gostring * json)) : list (gostring * json) :=
  match l with
  | [] => [kv]
  | kv' :: l' => if str_ltb kv'.1 kv.1 then kv' :: insert_member kv l' else kv :: l
  end.
Definition sorted_members (m : gmap gostring json) : list (gostring * json) :=
  foldr insert_member [] (map_to_list m).
(** [json.Marshal] of a [map[string]json.RawMessage] *)
Definition map_json (m : gmap gostring json) : json :=
  JObj ((λ kv, (quote_lit kv.1, kv.2)) <$> sorted_members m).

(** The top-level members of a body, as a [map[string]json.RawMessage]. *)
Definition dec_raw_map : decoder (gmap gostring json) := dec_map JNull (λ _ v, Some v).
Definition raw_of (body : gostring) : option (gmap gostring json) :=
  v ← Unmarshal body; dec_raw_map ∅ v.

Definition json_error : gostring := go "json".
Definition ReplaceLastUserMessage (body : gostring) (msg : ExtractedMessage) (redacted : gostring)
    : res gostring gostring :=
  match raw_of body with
  | None => Err json_error
  | Some raw =>
      match unmarshal_raw (dec_slice JNull (λ _ v, Some v)) [] (raw !! go "messages") with
      | None => Err json_error
      | Some messages =>
          if bool_decide (em_index msg < length messages)%nat then
            Ok (compact (map_json (<[go "messages" :=
              JArr (<[em_index msg := new_message msg redacted]> messages)]> raw)))
          else Panic
      end
  end.
End extract.

Section evaluation.
Local Existing Instance sample_unicode.

(** JSON texts for the examples: an apostrophe stands for a quote. *)
Definition js (s : string) : gostring := (λ c, if bool_decide (c = "'"%char) then quote else c) <$> go s.

Example extract_string :
  ExtractLastUserMessage (js "{'model':'m','messages':[{'role':'user','content':'a'},{'role':'user','content':'hi <b>'},{'role':'assistant','content':'x'}]}")
  = Ok (mkExtracted (go "hi <b>") 1 [] false).
Proof. vm_compute. reflexivity. Qed.
Example replace_string :
  ReplaceLastUserMessage (js "{ 'z':1, 'messages':[{'role':'user','content':'hi <b>','x':1}], 'model' : 'a>b'}")
    (mkExtracted (go "hi <b>") 0 [] false) (go "hi")
  = Ok (js "{'messages':[{'content':'hi','role':'user'}],'model':'a\u003eb','z':1}").
Proof. vm_compute. reflexivity. Qed.
Example extract_array :
  ExtractLastUserMessage (js "{'messages':[{'role':'user','content':[{'type':'text','text':'a'},{'type':'tool_result','tool_use_id':'t','content':'b'},{'type':'image'}]}]}")
  = Ok (mkExtracted (go "a" ++ newline ++ go "b") 0
      [mkPart (go "text") (go "a") [] []; mkPart (go "tool_result") [] (go "b") (go "t"); mkPart (go "image") [] [] []] true).
Proof. vm_compute. reflexivity. Qed.
End evaluation.

(** ** Printing a map and reading it back *)

Lemma insert_member_perm kv l : insert_member kv l ≡ₚ kv :: l.
Proof.
  induction l as [|kv' l IH]; [done|]. cbn [insert_member]. destruct (str_ltb _ _); [|done].
  rewrite IH. constructor.
Qed.
Lemma sorted_members_perm m : sorted_members m ≡ₚ map_to_list m.
Proof.
  unfold sorted_members. induction (map_to_list m) as [|kv l IH]; [done|]. cbn [foldr].
  by rewrite insert_member_perm, IH.
Qed.

Definition raw_insert (m : gmap gostring json) (kv : gostring * json) : gmap gostring json :=
  <[unquote kv.1 := kv.2]> m.
Lemma dec_raw_map_obj m ms : dec_raw_map m (JObj ms) = Some (foldl raw_insert m ms).
Proof.
  unfold dec_raw_map, dec_map. revert m. induction ms as [|kv ms IH]; intros m; [done|].
  cbn [foldl]. by rewrite <- IH.
Qed.

Lemma raw_insert_list m ms :
  NoDup (unquote <$> ms.*1) →
  (∀ k, k ∈ unquote <$> ms.*1 → m !! k = None) →
  foldl raw_insert m ms = list_to_map ((λ kv, (unquote kv.1, kv.2)) <$> ms) ∪ m.
Proof.
  revert m. induction ms as [|[k v] ms IH]; intros m Hnd Hm; cbn [foldl].
  { symmetry. apply map_empty_union. }
  rewrite !fmap_cons in Hnd. cbn [fst] in Hnd. apply NoDup_cons in Hnd as [Hk Hnd].
  rewrite IH; [|done|].
  - unfold raw_insert. rewrite fmap_cons. cbn [fst snd]. rewrite list_to_map_cons.
    rewrite <- insert_union_r; [by rewrite insert_union_l|].
    apply not_elem_of_list_to_map_1. rewrite <- list_fmap_compose.
    rewrite <- list_fmap_compose in Hk. exact Hk.
  - intros k' Hk'. unfold raw_insert. cbn [fst snd]. rewrite lookup_insert_ne by set_solver.
    apply Hm. rewrite !fmap_cons. cbn [fst]. set_solver.
Qed.

(** Values within the nesting limit, and keys that are valid UTF-8. *)
Definition raw_ok (m : gmap gostring json) : Prop :=
  map_Forall (λ k v, valid_utf8 k = k ∧ json_ok v ∧ (1 + jdepth v ≤ max_depth)%N) m.

Lemma json_ok_obj_depth ms d :
  json_ok (JObj ms) → (d + jdepth (JObj ms) ≤ max_depth)%N →
  Forall (λ kv, lit_ok kv.1 ∧ json_ok kv.2 ∧ (d + 1 + jdepth kv.2 ≤ max_depth)%N) ms.
Proof.
  intros Hok%json_ok_obj Hd. cbn [jdepth] in Hd.
  apply (foldr_max_Forall (λ kv : gostring * json, jdepth kv.2)) in Hd.
  rewrite !Forall_forall in *. intros kv Hkv. specialize (Hok kv Hkv). specialize (Hd kv Hkv). naive_solver.
Qed.

Lemma foldl_raw_insert_ok m ms :
  Forall (λ kv, lit_ok kv.1 ∧ json_ok kv.2 ∧ (0 + 1 + jdepth kv.2 ≤ max_depth)%N) ms →
  raw_ok m → raw_ok (foldl raw_insert m ms).
Proof.
  intros Hms. revert m. induction Hms as [|[k v] ms (Hk & Hv & Hd) _ IH]; intros m Hm; [done|].
  cbn [foldl]. apply IH. unfold raw_insert. cbn [fst snd] in *.
  apply map_Forall_insert_2; [|done]. split_and!; [apply valid_utf8_unquote|done|lia].
Qed.

Lemma raw_of_ok body raw : raw_of body = Some raw → raw_ok raw.
Proof.
  unfold raw_of. destruct (Unmarshal body) as [v|] eqn:Hv; [|done]. cbn [mbind option_bind].
  apply Unmarshal_ok in Hv as [Hok Hd].
  destruct v as [| | | | |ms]; try done.
  - intros [= <-]. apply map_Forall_empty.
  - rewrite dec_raw_map_obj. intros [= <-]. apply foldl_raw_insert_ok; [|apply map_Forall_empty].
    apply json_ok_obj_depth; [done|]. lia.
Qed.

Lemma sorted_members_elem m k v : (k, v) ∈ sorted_members m ↔ m !! k = Some v.
Proof. rewrite sorted_members_perm. apply elem_of_map_to_list. Qed.
Lemma sorted_members_NoDup m : NoDup (sorted_members m).*1.
Proof. rewrite sorted_members_perm. apply NoDup_fst_map_to_list. Qed.
Lemma sorted_members_map m : list_to_map (sorted_members m) = m.
Proof.
  rewrite <- (list_to_map_to_list m) at 2. apply list_to_map_proper; [apply sorted_members_NoDup|].
  apply sorted_members_perm.
Qed.

Lemma map_json_ok m : raw_ok m → json_ok (map_json m) ∧ (jdepth (map_json m) ≤ max_depth)%N.
Proof.
  intros Hm. split.
  - unfold map_json. apply json_ok_obj, Forall_fmap, Forall_forall. intros [k v] Hkv%sorted_members_elem.
    destruct (Hm k v Hkv) as (_ & Hv & _). split; [apply quote_lit_spec|done].
  - cbn [map_json jdepth]. rewrite (foldr_fmap _ _ _ _). cbn [fst snd].
    assert (Forall (λ kv : gostring * json, (1 + jdepth kv.2 ≤ max_depth)%N) (sorted_members m)) as Hall.
    { apply Forall_forall. intros [k v] Hkv%sorted_members_elem. by destruct (Hm k v Hkv) as (_ & _ & ?). }
    apply foldr_max_le in Hall; [|vm_compute; discriminate]. exact Hall.
Qed.

(** A map with valid keys survives printing and reading, value by value up to
    the escaping of literals. *)
Lemma raw_of_map_json m : raw_ok m → raw_of (compact (map_json m)) = Some (canon <$> m).
Proof.
  intros Hm. destruct (map_json_ok m Hm) as [Hok Hd]. unfold raw_of.
  destruct (Unmarshal_compact _ Hok Hd) as [-> _]. cbn [mbind option_bind].
  unfold map_json. cbn [canon]. rewrite dec_raw_map_obj, <- list_fmap_compose. f_equal.
  set (ms := _ <$> sorted_members m).
  assert ((λ kv, (unquote kv.1, kv.2)) <$> ms = prod_map id canon <$> sorted_members m) as Hms.
  { unfold ms. rewrite <- list_fmap_compose. apply list_fmap_ext.
    intros i [k v] Hkv%list_elem_of_lookup_2%sorted_members_elem. destruct (Hm k v Hkv) as (Hk & _). unfold compose, prod_map, id. cbn [fst snd].
    destruct (quote_lit_spec k) as (_ & Hu & ->). by rewrite Hu, Hk. }
  assert (unquote <$> ms.*1 = (sorted_members m).*1) as Hfst.
  { rewrite <- (list_fmap_compose fst unquote).
    transitivity (((λ kv : gostring * json, (unquote kv.1, kv.2)) <$> ms).*1);
      [by rewrite <- list_fmap_compose|]. rewrite Hms, <- list_fmap_compose. done. }
  rewrite raw_insert_list.
  - rewrite Hms, list_to_map_fmap, sorted_members_map. apply map_union_empty.
  - rewrite Hfst. apply sorted_members_NoDup.
  - intros k _. apply lookup_empty.
Qed.

(** ** Decoding an escaped tree *)

(** Escaping a tree before decoding it changes the result only by [f]. *)
Definition canon_commutes {A} (f : A → A) (dec : decoder A) : Prop :=
  ∀ cur v, json_ok v → dec (f cur) (canon v) = f <$> dec cur v.

Lemma dec_string_canon cur v : json_ok v → dec_string cur (canon v) = dec_string cur v.
Proof.
  destruct v as [| | |lit| |]; intros Hok; try done. cbn [canon dec_string].
  by rewrite unquote_html_escape.
Qed.

Section struct_canon.
Context `{UnicodeData} {A : Type} (f : A → A) (fields : list (gostring * decoder A)).
Context (Hfields : Forall (λ fd, canon_commutes f fd.2) fields).

Lemma find_field_commutes key d : find_field fields key = Some d → canon_commutes f d.
Proof.
  unfold find_field. rewrite Forall_forall in Hfields.
  destruct (list_find (λ g, g.1 = key) fields) as [[i [n d1]]|] eqn:E1.
  - intros [= <-]. apply list_find_Some in E1 as (E1 & _). apply (Hfields (n, d1)).
    by eapply list_elem_of_lookup_2.
  - destruct (list_find (λ g, EqualFold g.1 key = true) fields) as [[i [n d2]]|] eqn:E2; [|done].
    intros [= <-]. apply list_find_Some in E2 as (E2 & _). apply (Hfields (n, d2)).
    by eapply list_elem_of_lookup_2.
Qed.

Lemma dec_struct_canon : canon_commutes f (dec_struct fields).
Proof.
  intros cur v Hok. destruct v as [| | | | |ms]; try done. apply json_ok_obj in Hok.
  cbn [canon dec_struct].
  assert (∀ acc, foldl (dec_member fields) (f <$> acc) ((λ kv, (html_escape kv.1, canon kv.2)) <$> ms) =
    f <$> foldl (dec_member fields) acc ms) as Hgo; [|exact (Hgo (Some cur))].
  induction Hok as [|[k v] ms [Hk Hv] _ IH]; intros acc; [done|]. rewrite fmap_cons. cbn [foldl].
  rewrite <- IH. f_equal. unfold dec_member. cbn [fst snd] in *. rewrite unquote_html_escape by done.
  destruct acc as [a|]; [|done]. cbn [fmap option_fmap option_map mbind option_bind].
  destruct (find_field fields (unquote k)) as [d|] eqn:Hd; [|done].
  exact (find_field_commutes _ _ Hd a v Hv).
Qed.
End struct_canon.

Lemma dec_slice_canon {A} (f : A → A) zero (dec : decoder A) :
  canon_commutes f dec → f zero = zero → canon_commutes (fmap f) (dec_slice zero dec).
Proof.
  intros Hdec Hz cur v Hok. destruct v as [| | | |l|]; try done. apply json_ok_arr in Hok.
  cbn [canon dec_slice]. induction Hok as [|x l Hx _ IH]; [done|]. rewrite fmap_cons. cbn [mapM].
  rewrite <- Hz at 1. rewrite (Hdec zero x Hx). destruct (dec zero x); [|done].
  cbn [fmap option_fmap option_map mbind option_bind]. rewrite IH. by destruct (mapM (dec zero) l).
Qed.

Section extract_props.
Context `{UnicodeData}.

Definition canon_message (m : apiMessage) : apiMessage := mkMessage (am_role m) (canon <$> am_content m).

Lemma dec_part_canon : canon_commutes id dec_part.
Proof.
  apply dec_struct_canon. rewrite !Forall_cons. split_and!; [..|by apply Forall_nil]; intros cur v Hok; cbn [snd];
    rewrite dec_string_canon by done; unfold id; by destruct (dec_string _ v).
Qed.
Lemma dec_message_canon : canon_commutes canon_message dec_message.
Proof.
  apply dec_struct_canon. unfold message_fields. rewrite !Forall_cons. split_and!; [..|by apply Forall_nil];
    intros cur v Hok; cbn [snd]; [|done].
  cbn [canon_message am_role am_content].
  rewrite dec_string_canon by done. by destruct (dec_string _ v).
Qed.

(** No member other than [messages] is read as the message list. *)
Definition alias_free (raw : gmap gostring json) : Prop :=
  ∀ k, is_Some (raw !! k) → EqualFold (go "messages") k = true → k = go "messages".

Definition messages_value (v : json) : option (list apiMessage) := dec_slice zero_message dec_message [] v.
(** The decoded message list is that of the last [messages] member. *)
Definition reads (m : gmap gostring json) (r : list apiMessage) : Prop :=
  match m !! go "messages" with None => r = [] | Some v => messages_value v = Some r end.

Lemma request_member cur kv :
  (EqualFold (go "messages") (unquote kv.1) = true → unquote kv.1 = go "messages") →
  dec_member request_fields (Some cur) kv =
  if decide (unquote kv.1 = go "messages") then messages_value kv.2 else Some cur.
Proof.
  intros Hal. unfold dec_member. cbn [mbind option_bind]. unfold find_field, request_fields.
  destruct (decide (unquote kv.1 = go "messages")) as [->|Hne]; [done|].
  cbn [list_find]. cbn [fst]. destruct (decide (go "messages" = unquote kv.1)); [congruence|].
  cbn [fmap option_fmap option_map].
  destruct (decide (EqualFold (go "messages") (unquote kv.1) = true)); [|done].
  by rewrite Hal in Hne.
Qed.

Lemma foldl_member_None {A} (fields : list (gostring * decoder A)) ms :
  foldl (dec_member fields) None ms = None.
Proof. induction ms as [|kv ms IH]; [done|exact IH]. Qed.

Lemma request_reads ms m cur r :
  Forall (λ kv, EqualFold (go "messages") (unquote kv.1) = true → unquote kv.1 = go "messages") ms →
  reads m cur → foldl (dec_member request_fields) (Some cur) ms = Some r →
  reads (foldl raw_insert m ms) r.
Proof.
  intros Hms. revert m cur. induction Hms as [|kv ms Hkv _ IH]; intros m cur Hm; cbn [foldl].
  { by intros [= <-]. }
  rewrite request_member by done. destruct (decide _) as [Hk|Hk].
  - destruct (messages_value kv.2) as [cur'|] eqn:Hv; [|by rewrite foldl_member_None].
    apply IH. unfold reads, raw_insert. by rewrite Hk, lookup_insert_eq.
  - apply IH. unfold reads, raw_insert. by rewrite lookup_insert_ne.
Qed.

Lemma request_total ms cur :
  Forall (λ kv, (EqualFold (go "messages") (unquote kv.1) = true → unquote kv.1 = go "messages") ∧
    (unquote kv.1 = go "messages" → is_Some (messages_value kv.2))) ms →
  is_Some (foldl (dec_member request_fields) (Some cur) ms).
Proof.
  intros Hms. revert cur. induction Hms as [|kv ms [Hkv Hv] _ IH]; intros cur; cbn [foldl]; [done|].
  rewrite request_member by done. destruct (decide _) as [Hk|Hk]; [|apply IH].
  destruct (Hv Hk) as [r ->]. apply IH.
Qed.

Lemma foldl_raw_insert_dom m ms k :
  k ∈ unquote <$> ms.*1 ∨ is_Some (m !! k) ↔ is_Some (foldl raw_insert m ms !! k).
Proof.
  revert m. induction ms as [|kv ms IH]; intros m; cbn [foldl].
  { split; [intros [Hk%not_elem_of_nil|?]; done|by right]. }
  rewrite <- IH. rewrite !fmap_cons. unfold raw_insert. rewrite elem_of_cons, lookup_insert_is_Some'.
  naive_solver.
Qed.

(** What the extractor reads from a body whose members have no alias. *)
Lemma extract_reads body raw ms :
  raw_of body = Some raw → alias_free raw →
  (v ← Unmarshal body; dec_request [] v) = Some ms → reads raw ms.
Proof.
  unfold raw_of. destruct (Unmarshal body) as [v|]; [|done]. cbn [mbind option_bind].
  destruct v as [| | | | |l]; try done.
  - intros [= <-] _ [= <-]. done.
  - rewrite dec_raw_map_obj. intros [= <-] Hal. apply request_reads; [|done].
    apply Forall_forall. intros kv Hkv. apply Hal, foldl_raw_insert_dom. left.
    by apply list_elem_of_fmap_2, list_elem_of_fmap_2.
Qed.

(** *** The last user message *)

Lemma extract_content_index i c msg : extract_content i c = Ok msg → em_index msg = i.
Proof. unfold extract_content. intros Hm. repeat case_match; by simplify_eq. Qed.

Definition is_user (m : apiMessage) : Prop := am_role m = go "user".

(** The message at [i] is a user message and none after it is. *)
Definition last_user (ms : list apiMessage) (i : nat) (m : apiMessage) : Prop :=
  ms !! i = Some m ∧ is_user m ∧ ∀ j m', (i < j)%nat → ms !! j = Some m' → ¬ is_user m'.

Lemma last_user_loop_intro ms i m :
  last_user ms i m → last_user_loop (rev ms) = extract_content i (am_content m).
Proof.
  revert i. induction ms as [|x ms IH] using rev_ind; intros i (Hi & Hu & Hlast); [done|].
  rewrite rev_unit. cbn [last_user_loop]. rewrite length_rev.
  destruct (decide (i = length ms)) as [->|Hne].
  - rewrite list_lookup_middle in Hi by done. injection Hi as ->. by rewrite bool_decide_eq_true_2.
  - assert (i < length ms)%nat as Hlt.
    { apply lookup_lt_Some in Hi. rewrite length_app in Hi. cbn in Hi. lia. }
    rewrite bool_decide_eq_false_2.
    + apply IH. rewrite lookup_app_l in Hi by done. split_and!; [done..|].
      intros j m' Hj Hm'. apply (Hlast j); [done|]. by apply lookup_app_l_Some.
    + apply (Hlast (length ms) x Hlt). by apply list_lookup_middle.
Qed.

Lemma last_user_loop_inv ms msg :
  last_user_loop (rev ms) = Ok msg →
  ∃ m, last_user ms (em_index msg) m ∧ extract_content (em_index msg) (am_content m) = Ok msg.
Proof.
  induction ms as [|x ms IH] using rev_ind; [done|].
  rewrite rev_unit. cbn [last_user_loop]. rewrite length_rev. case_bool_decide as Hx.
  - intros Hc. rewrite (extract_content_index _ _ _ Hc). exists x. split; [|done].
    split_and!; [by apply list_lookup_middle|done|]. intros j m' Hj Hm'%lookup_lt_Some.
    rewrite length_app in Hm'. cbn in Hm'. lia.
  - intros (m & (Hi & Hu & Hlast) & Hc)%IH. exists m. split; [|done].
    split_and!; [by apply lookup_app_l_Some|done|]. intros j m' Hj Hm'.
    apply lookup_app_Some in Hm' as [Hm'|[Hge Hm']]; [by eapply Hlast|].
    apply list_lookup_singleton_Some in Hm' as [_ <-]. done.
Qed.

(** *** The rewritten message *)

Lemma opt_member_ok k s :
  lit_ok (go k) → Forall (λ kv, lit_ok kv.1 ∧ json_ok kv.2) (opt_member k s).
Proof. intros Hk. unfold opt_member. case_bool_decide; [by apply Forall_nil|].
  apply Forall_singleton. split; [done|apply quoted_ok]. Qed.
Lemma part_json_ok p : json_ok (part_json p) ∧ jdepth (part_json p) = 1%N.
Proof.
  split.
  - apply json_ok_obj. constructor; [split; [by apply lit_ok_text|apply quoted_ok]|].
    rewrite !Forall_app. split_and!; by apply opt_member_ok, lit_ok_text.
  - unfold part_json, opt_member. by repeat case_bool_decide.
Qed.

Lemma new_content_ok msg red : json_ok (new_content msg red) ∧ (jdepth (new_content msg red) ≤ 2)%N.
Proof.
  unfold new_content. destruct (em_isArray msg); [|split; [apply quoted_ok|done]].
  split.
  - apply json_ok_arr, Forall_fmap, Forall_true. intros p. apply part_json_ok.
  - cbn [jdepth]. generalize (replace_parts (em_parts msg) (Split red (chr 10))) as ps. intros ps.
    enough (foldr (λ x n, N.max (jdepth x) n) 0 (part_json <$> ps) ≤ 1)%N by lia.
    induction ps as [|p ps IH]; [done|]. rewrite fmap_cons. cbn [foldr].
    rewrite (proj2 (part_json_ok p)). lia.
Qed.
Lemma new_message_ok msg red : json_ok (new_message msg red) ∧ (jdepth (new_message msg red) ≤ 3)%N.
Proof.
  destruct (new_content_ok msg red) as [Hok Hd]. split.
  - apply json_ok_obj. rewrite !Forall_cons. split_and!; [by apply lit_ok_text|done|by apply lit_ok_text| |].
    + apply quoted_ok.
    + by apply Forall_nil.
  - cbn [new_message jdepth foldr snd quoted]. lia.
Qed.

Lemma dec_new_message msg red :
  dec_message zero_message (new_message msg red) = Some (mkMessage (go "user") (Some (new_content msg red))).
Proof. reflexivity. Qed.

Lemma mapM_insert {A B} (f : A → option B) l k i x y :
  mapM f l = Some k → f x = Some y → mapM f (<[i := x]> l) = Some (<[i := y]> k).
Proof. rewrite !mapM_Some. intros Hl Hx. by apply Forall2_insert. Qed.

(** *** Replacing *)

Lemma new_messages_ok raw l msg red :
  raw_ok raw → raw !! go "messages" = Some (JArr l) →
  raw_ok (<[go "messages" := JArr (<[em_index msg := new_message msg red]> l)]> raw).
Proof.
  intros Hraw Hl. apply map_Forall_insert_2; [|done].
  destruct (Hraw _ _ Hl) as (Hk & Hok%json_ok_arr & Hd). destruct (new_message_ok msg red) as [Hn Hnd].
  split_and!; [done| |].
  - apply json_ok_arr. by apply Forall_insert.
  - cbn [jdepth] in *. apply (foldr_max_Forall jdepth) in Hd.
    assert (Forall (λ x, (1 + 1) + jdepth x ≤ max_depth)%N (<[em_index msg := new_message msg red]> l)) as Hall.
    { apply Forall_insert; [done|]. unfold max_depth. lia. }
    apply foldr_max_le in Hall; [|by vm_compute]. lia.
Qed.

(** The rewritten body has the members of the old one, with one message
    replaced and literals escaped. *)
Lemma Replace_raw body raw l msg red :
  raw_of body = Some raw → raw !! go "messages" = Some (JArr l) → (em_index msg < length l)%nat →
  ∃ body', ReplaceLastUserMessage body msg red = Ok body' ∧
    raw_of body' = Some (canon <$> <[go "messages" := JArr (<[em_index msg := new_message msg red]> l)]> raw) ∧
    Unmarshal body' = Some (canon (map_json (<[go "messages" := JArr (<[em_index msg := new_message msg red]> l)]> raw))).
Proof.
  intros Hraw Hl Hi. unfold ReplaceLastUserMessage. rewrite Hraw, Hl.
  assert (mapM (λ v : json, Some v) l = Some l) as Hid.
  { apply mapM_Some. by apply Forall2_same_length_lookup_2; [|intros ??? Hx Hy; simplify_eq]. }
  cbn [unmarshal_raw mbind option_bind dec_slice]. rewrite Hid, bool_decide_eq_true_2 by done.
  eexists. split; [done|]. pose proof (new_messages_ok raw l msg red (raw_of_ok _ _ Hraw) Hl) as Hok.
  split; [by apply raw_of_map_json|]. destruct (map_json_ok _ Hok) as [Hj Hd].
  apply Unmarshal_compact; done.
Qed.

Lemma messages_value_canon v :
  json_ok v → messages_value (canon v) = (λ ms : list apiMessage, canon_message <$> ms) <$> messages_value v.
Proof. apply (dec_slice_canon canon_message zero_message dec_message dec_message_canon eq_refl []). Qed.

(** Reading the message list of a printed map. *)
Lemma dec_request_map_json m v ms :
  raw_ok m → alias_free m → m !! go "messages" = Some v → messages_value v = Some ms →
  dec_request [] (canon (map_json m)) = Some (canon_message <$> ms).
Proof.
  intros Hok Hal Hv Hms. pose proof (raw_of_map_json m Hok) as Hraw.
  destruct (map_json_ok m Hok) as [Hj Hd]. destruct (Unmarshal_compact _ Hj Hd) as [Hu _].
  assert (messages_value (canon v) = Some (canon_message <$> ms)) as Hms'.
  { rewrite messages_value_canon by apply (Hok _ _ Hv). by rewrite Hms. }
  assert (alias_free (canon <$> m)) as Hal'.
  { intros k. rewrite lookup_fmap, fmap_is_Some. apply Hal. }
  assert (is_Some (dec_request [] (canon (map_json m)))) as [r Hr].
  { unfold raw_of in Hraw. rewrite Hu in Hraw. cbn [mbind option_bind] in Hraw.
    unfold map_json in *. cbn [canon] in *. rewrite dec_raw_map_obj in Hraw. injection Hraw as Hraw.
    apply request_total. rewrite <- list_fmap_compose. apply Forall_fmap, Forall_forall.
    intros [k x] Hkx%sorted_members_elem. unfold compose. cbn [fst snd].
    destruct (Hok k x Hkx) as (Hk & _). destruct (quote_lit_spec k) as (_ & Hq & ->).
    rewrite Hq, Hk. split; [intros; apply Hal; eauto|]. intros ->. rewrite Hkx in Hv. injection Hv as ->.
    by rewrite Hms'. }
  rewrite Hr. f_equal. pose proof (extract_reads _ _ r Hraw Hal') as Hreads.
  rewrite Hu in Hreads. specialize (Hreads Hr). unfold reads in Hreads.
  rewrite lookup_fmap, Hv in Hreads. cbn [fmap option_fmap option_map] in Hreads. congruence.
Qed.

Definition valid_part (p : ContentPart) : ContentPart :=
  mkPart (valid_utf8 (cp_type p)) (valid_utf8 (cp_text p)) (valid_utf8 (cp_content p)) (valid_utf8 (cp_toolUseID p)).

Lemma dec_part_json p : dec_part zero_part (part_json p) = Some (valid_part p).
Proof.
  destruct p as [ty text content tool]. unfold part_json, opt_member, valid_part.
  cbn [cp_type cp_text cp_content cp_toolUseID].
  rewrite <- (unquote_quote_lit ty).
  repeat case_bool_decide; subst; rewrite <- ?(unquote_quote_lit text), <- ?(unquote_quote_lit content),
    <- ?(unquote_quote_lit tool); reflexivity.
Qed.

Lemma dec_parts_json ps :
  dec_slice zero_part dec_part [] (canon (JArr (part_json <$> ps))) = Some (valid_part <$> ps).
Proof.
  assert (canon_commutes (λ l : list ContentPart, id <$> l) (dec_slice zero_part dec_part)) as Hc.
  { apply dec_slice_canon; [apply dec_part_canon|done]. }
  etrans; [apply (Hc [] (JArr (part_json <$> ps)))|].
  { apply json_ok_arr, Forall_fmap, Forall_true. intros p. apply part_json_ok. }
  cbn [dec_slice]. assert (mapM (dec_part zero_part) (part_json <$> ps) = Some (valid_part <$> ps)) as ->.
  { apply mapM_Some, Forall2_fmap_l, Forall2_fmap_r, Forall_Forall2_diag, Forall_true, dec_part_json. }
  cbn. by rewrite list_fmap_id.
Qed.

(** What the rewritten message reads as. *)
Definition rewritten (msg : ExtractedMessage) (redacted : gostring) : ExtractedMessage :=
  if em_isArray msg then
    let parts := valid_part <$> replace_parts (em_parts msg) (Split redacted (chr 10)) in
    mkExtracted (Join (parts ≫= part_texts) newline) (em_index msg) parts true
  else mkExtracted (valid_utf8 redacted) (em_index msg) [] false.

Lemma extract_new_content msg red :
  extract_content (em_index msg) (Some (canon (new_content msg red))) = Ok (rewritten msg red).
Proof.
  unfold extract_content, new_content, rewritten, unmarshal_raw. cbn [mbind option_bind].
  destruct (em_isArray msg).
  - by rewrite dec_parts_json.
  - cbn [quoted canon dec_string]. destruct (quote_lit_spec red) as (_ & Hu & ->). by rewrite Hu.
Qed.

Lemma extract_replaced body raw msg red :
  raw_of body = Some raw → alias_free raw → ExtractLastUserMessage body = Ok msg →
  ∃ l body', raw !! go "messages" = Some (JArr l) ∧ ReplaceLastUserMessage body msg red = Ok body'
    ∧ ExtractLastUserMessage body' = Ok (rewritten msg red)
    ∧ raw_of body' = Some (canon <$> <[go "messages" := JArr (<[em_index msg := new_message msg red]> l)]> raw).
Proof.
  intros Hraw Hal Hext. unfold ExtractLastUserMessage in Hext.
  destruct (v ← Unmarshal body; dec_request [] v) as [ms|] eqn:Hms; [|done].
  pose proof (extract_reads _ _ _ Hraw Hal Hms) as Hreads.
  apply last_user_loop_inv in Hext as (m & (Hi & Hu & Hlast) & Hc). unfold reads in Hreads.
  destruct (raw !! go "messages") as [v|] eqn:Hv; [|by subst].
  destruct v as [| | | |l|]; try done; [by injection Hreads as <-|].
  assert (length l = length ms) as Hlen by by eapply Forall2_length, mapM_Some_1, Hreads.
  destruct (Replace_raw body raw l msg red Hraw Hv) as (body' & Hrep & Hraw' & Hu').
  { apply lookup_lt_Some in Hi. lia. }
  exists l, body'. split_and!; [done|done| |done]. unfold ExtractLastUserMessage. rewrite Hu'.
  cbn [mbind option_bind].
  assert (messages_value (JArr (<[em_index msg := new_message msg red]> l)) =
    Some (<[em_index msg := mkMessage (go "user") (Some (new_content msg red))]> ms)) as Hms'
    by (apply mapM_insert; [exact Hreads|apply dec_new_message]).
  rewrite (dec_request_map_json _ _ _ (new_messages_ok _ _ _ _ (raw_of_ok _ _ Hraw) Hv)
    ltac:(intros k [->|[_ Hk]]%lookup_insert_is_Some; [done|by apply Hal])
    (lookup_insert_eq _ _ _) Hms').
  rewrite list_fmap_insert. rewrite (last_user_loop_intro _ (em_index msg)
    (mkMessage (go "user") (Some (canon (new_content msg red))))).
  - apply extract_new_content.
  - split_and!; [apply list_lookup_insert_eq; rewrite length_fmap; by eapply lookup_lt_Some|done|].
    intros j m' Hj. rewrite list_lookup_insert_ne by lia. rewrite list_lookup_fmap.
    destruct (ms !! j) as [mj|] eqn:Hmj; [|done]. intros [= <-]. by apply (Hlast j mj).
Qed.

(** *** Array content *)

Definition is_slot (p : ContentPart) : bool :=
  bool_decide (cp_type p = go "text") || bool_decide (cp_type p = go "tool_result").
(** The text a part contributes, for a part that is given a line back. *)
Definition slot_text (p : ContentPart) : gostring :=
  if bool_decide (cp_type p = go "text") then cp_text p else cp_content p.
(** Every part that is given a line contributes exactly one. *)
Definition single_line (p : ContentPart) : Prop :=
  is_slot p = true → chr 10 ∉ slot_text p ∧ (cp_type p = go "tool_result" → cp_content p ≠ []).

Lemma part_texts_slot p :
  (cp_type p = go "tool_result" → cp_content p ≠ []) →
  part_texts p = if is_slot p then [slot_text p] else [].
Proof.
  intros Hc. unfold part_texts, is_slot, slot_text. case_bool_decide as H1; [done|].
  case_bool_decide as H2; [|done]. rewrite bool_decide_eq_false_2 by by apply Hc. done.
Qed.

Lemma single_line_texts parts :
  Forall single_line parts → parts ≫= part_texts = slot_text <$> filter (λ p, is_slot p = true) parts.
Proof.
  induction 1 as [|p parts Hp _ IH]; [done|]. rewrite bind_cons, IH. destruct (is_slot p) eqn:Hs.
  - destruct (Hp Hs) as [_ Hc]. rewrite part_texts_slot, Hs, filter_cons_True by done. done.
  - rewrite filter_cons_False by congruence. rewrite part_texts_slot, Hs; [done|].
    intros Hc. unfold is_slot in Hs. rewrite Hc in Hs. done.
Qed.

(** Handing out as many non-empty lines as there are slots puts them back in
    order. *)
Lemma replace_parts_texts parts lines :
  Forall (λ p, valid_utf8 (cp_type p) = cp_type p) parts →
  length lines = length (filter (λ p, is_slot p = true) parts) →
  Forall (λ t, valid_utf8 t = t ∧ t ≠ []) lines →
  (valid_part <$> replace_parts parts lines) ≫= part_texts = lines.
Proof.
  intros Hv. revert lines. induction Hv as [|p parts Hp _ IH]; intros lines Hlen Hl.
  { by destruct lines. }
  cbn [replace_parts]. unfold is_slot in *.
  destruct (bool_decide (cp_type p = go "text")) eqn:E1; cbn [orb] in *.
  - apply bool_decide_eq_true in E1. rewrite filter_cons_True in Hlen by (by rewrite bool_decide_eq_true_2).
    destruct lines as [|t lines]; [done|]. injection Hlen as Hlen. inversion Hl as [|?? [Ht ?] Hl']; subst.
    rewrite fmap_cons, bind_cons, IH by done. unfold part_texts, valid_part.
    cbn [cp_type cp_text]. rewrite Hp, E1, bool_decide_eq_true_2, Ht by done. done.
  - apply bool_decide_eq_false in E1. destruct (bool_decide (cp_type p = go "tool_result")) eqn:E2.
    + apply bool_decide_eq_true in E2.
      rewrite filter_cons_True in Hlen by (by rewrite E2).
      destruct lines as [|t lines]; [done|]. injection Hlen as Hlen. inversion Hl as [|?? [Ht Hne] Hl']; subst.
      rewrite fmap_cons, bind_cons, IH by done. unfold part_texts, valid_part.
      cbn [cp_type cp_content]. by rewrite Hp, E2, Ht, (bool_decide_eq_false_2 (t = [])).
    + apply bool_decide_eq_false in E2.
      rewrite filter_cons_False in Hlen by (by rewrite !bool_decide_eq_false_2).
      rewrite fmap_cons, bind_cons, IH by done. unfold part_texts, valid_part. cbn [cp_type].
      by rewrite Hp, !bool_decide_eq_false_2.
Qed.

(** The strings of extracted parts are valid UTF-8. *)
Lemma extracted_parts_valid body msg :
  ExtractLastUserMessage body = Ok msg → Forall (λ p, valid_part p = p) (em_parts msg).
Proof.
  unfold ExtractLastUserMessage. destruct (v ← _; _) as [ms|]; [|done].
  intros (m & _ & Hc)%last_user_loop_inv. unfold extract_content in Hc.
  destruct (unmarshal_raw dec_string _ _); [injection Hc as <-; constructor|].
  destruct (unmarshal_raw (dec_slice _ _) _ _) as [parts|] eqn:Hp; [|done]. injection Hc as <-.
  cbn [em_parts]. unfold unmarshal_raw in Hp. destruct (am_content m) as [v|]; [|done].
  cbn [mbind option_bind] in Hp. destruct v as [| | | |l|]; try done; [injection Hp as <-; constructor|].
  cbn [dec_slice] in Hp. apply mapM_Some_1 in Hp. clear -Hp.
  induction Hp as [|x p l parts Hx _ IH]; constructor; [|done].
  apply (dec_struct_inv (λ p, valid_part p = p) _ zero_part _ _) in Hx; [done| |done].
  rewrite !Forall_cons. split_and!; [..|by apply Forall_nil]; intros [c1 c2 c3 c4] w q Hcw; cbn [snd];
    unfold valid_part in *; cbn [cp_type cp_text cp_content cp_toolUseID] in *; injection Hcw as V1 V2 V3 V4;
    destruct w as [| | |lit| |]; try done; intros [= <-]; cbn [cp_type cp_text cp_content cp_toolUseID];
    rewrite ?V1, ?V2, ?V3, ?V4, ?valid_utf8_unquote; done.
Qed.

Lemma extracted_array_text body msg :
  ExtractLastUserMessage body = Ok msg → em_isArray msg = true →
  em_text msg = Join (em_parts msg ≫= part_texts) newline.
Proof.
  unfold ExtractLastUserMessage. destruct (v ← _; _) as [ms|]; [|done].
  intros (m & _ & Hc)%last_user_loop_inv. revert Hc. unfold extract_content.
  generalize (em_index msg) as i. intros i Hc. repeat case_match; by simplify_eq.
Qed.

(** *** What a rewritten message carries *)

(** How many parts before the [i]-th are given a line. *)
Definition slots_before (parts : list ContentPart) (i : nat) : nat :=
  length (filter (λ p, is_slot p = true) (take i parts)).

(** The part [p] given a line back, if there is one for it: a text part in its
    text, a tool result in its content; all else stays. *)
Record given_line (line : option gostring) (p p' : ContentPart) : Prop := {
  gl_type : cp_type p' = cp_type p;
  gl_tool : cp_toolUseID p' = cp_toolUseID p;
  gl_text : cp_type p = go "text" → cp_text p' = default (cp_text p) (valid_utf8 <$> line);
  gl_result : cp_type p = go "tool_result" → cp_content p' = default (cp_content p) (valid_utf8 <$> line);
  gl_other_text : cp_type p ≠ go "text" → cp_text p' = cp_text p;
  gl_other_content : cp_type p ≠ go "tool_result" → cp_content p' = cp_content p;
}.

(** The redacted text has one line, not empty, for every part that is given one. *)
Definition line_shaped (msg : ExtractedMessage) (red : gostring) : Prop :=
  length (Split red (chr 10)) = length (filter (λ p, is_slot p = true) (em_parts msg))
  ∧ Forall (λ t, valid_utf8 t = t ∧ t ≠ []) (Split red (chr 10)).

(** [msg'] is [msg] with the redacted text in the place of its own: string content
    is the redacted text; of array content the text and tool-result parts are given
    the lines of the redacted text in order, as far as they go, and when the text
    is line-shaped the message reads as exactly the redacted text. *)
Record carries (msg : ExtractedMessage) (red : gostring) (msg' : ExtractedMessage) : Prop := {
  ca_index : em_index msg' = em_index msg;
  ca_array : em_isArray msg' = em_isArray msg;
  ca_string : em_isArray msg = false → em_text msg' = valid_utf8 red;
  ca_length : em_isArray msg = true → length (em_parts msg') = length (em_parts msg);
  ca_parts : em_isArray msg = true → ∀ i p p', em_parts msg !! i = Some p → em_parts msg' !! i = Some p' →
    given_line (Split red (chr 10) !! slots_before (em_parts msg) i) p p';
  ca_exact : em_isArray msg = true → line_shaped msg red → em_text msg' = red;
}.

Lemma length_replace_parts parts lines : length (replace_parts parts lines) = length parts.
Proof.
  revert lines. induction parts as [|p parts IH]; intros lines; [done|]. cbn [replace_parts].
  repeat case_match; cbn; by rewrite IH.
Qed.

Lemma replace_parts_nil parts : replace_parts parts [] = parts.
Proof. induction parts as [|p parts IH]; [done|]. cbn. rewrite IH. by repeat case_bool_decide. Qed.

Lemma valid_text_ne : go "text" ≠ go "tool_result".
Proof. intros E. apply (bool_decide_eq_true_2 _) in E. vm_compute in E. discriminate. Qed.

Lemma replace_parts_given parts lines i p p' :
  Forall (λ p, valid_part p = p) parts → parts !! i = Some p →
  (valid_part <$> replace_parts parts lines) !! i = Some p' →
  given_line (lines !! slots_before parts i) p p'.
Proof.
  rewrite list_lookup_fmap. intros Hv. revert lines i.
  induction Hv as [|q parts Hq Hv IH]; intros lines i; [done|]. pose proof valid_text_ne as Hne.
  assert (valid_utf8 (cp_type q) = cp_type q ∧ valid_utf8 (cp_text q) = cp_text q
    ∧ valid_utf8 (cp_content q) = cp_content q ∧ valid_utf8 (cp_toolUseID q) = cp_toolUseID q) as (V1 & V2 & V3 & V4).
  { split_and!; [exact (f_equal cp_type Hq)|exact (f_equal cp_text Hq)|exact (f_equal cp_content Hq)
      |exact (f_equal cp_toolUseID Hq)]. }
  destruct i as [|i].
  - intros [= <-] Hp'. cbn [replace_parts] in Hp'. unfold slots_before. cbn [take filter length].
    repeat case_bool_decide; destruct lines as [|t lines]; cbn in Hp'; injection Hp' as <-;
      split; cbn; (done || congruence).
  - cbn [lookup list_lookup]. unfold slots_before. cbn [take].
    destruct (is_slot q) eqn:Hs.
    + rewrite filter_cons_True by done. cbn [length]. fold (slots_before parts i).
      intros Hp Hp'. destruct lines as [|t lines].
      * rewrite replace_parts_nil in Hp'. cbn in Hp'. rewrite lookup_nil.
        rewrite <- (lookup_nil (slots_before parts i)). apply IH; [done|]. by rewrite replace_parts_nil.
      * cbn [lookup list_lookup]. apply IH; [done|]. cbn [replace_parts] in Hp'.
        unfold is_slot in Hs. repeat case_bool_decide; done.
    + rewrite filter_cons_False by congruence. fold (slots_before parts i).
      intros Hp Hp'. apply IH; [done|]. cbn [replace_parts] in Hp'. unfold is_slot in Hs.
      repeat case_bool_decide; done.
Qed.

Lemma rewritten_carries body msg red :
  ExtractLastUserMessage body = Ok msg → carries msg red (rewritten msg red).
Proof.
  intros Hext. pose proof (extracted_parts_valid _ _ Hext) as Hv. unfold rewritten.
  destruct (em_isArray msg) eqn:Ha; split; rewrite ?Ha; cbn; try done.
  - intros _. etransitivity; [apply length_fmap|apply length_replace_parts].
  - intros _ i p p'. by apply replace_parts_given.
  - intros _ [Hlen Hl]. rewrite replace_parts_texts; [apply Join_Split|..|done|done].
    eapply Forall_impl; [exact Hv|]. intros p Hp. exact (f_equal cp_type Hp).
Qed.

(** ** Theorems *)


(** Array content is rewritten exactly when it is line-shaped.  If every
    text and tool-result part of the message holds one non-missing line, the
    extracted text has one line per such part; and a redacted text with as many
    lines, none empty, is handed back line by line: the rewritten message reads
    as the redacted text, each part carrying its own line. *)
Theorem Replace_array_exact body msg red :
  ExtractLastUserMessage body = Ok msg → em_isArray msg = true →
  Forall single_line (em_parts msg) →
  filter (λ p, is_slot p = true) (em_parts msg) ≠ [] →
  Split (em_text msg) (chr 10) = slot_text <$> filter (λ p, is_slot p = true) (em_parts msg)
  ∧ (length (Split red (chr 10)) = length (filter (λ p, is_slot p = true) (em_parts msg)) →
     Forall (λ t, valid_utf8 t = t ∧ t ≠ []) (Split red (chr 10)) →
     em_text (rewritten msg red) = red
     ∧ em_parts (rewritten msg red) ≫= part_texts = Split red (chr 10)).
Proof.
  intros Hext Ha Hsl Hne. split.
  - rewrite (extracted_array_text _ _ Hext Ha), single_line_texts by done. apply Split_Join.
    + intros Hnil%fmap_nil_inv. by apply Hne.
    + apply Forall_fmap, Forall_forall. intros p [Hp Hin]%list_elem_of_filter.
      rewrite Forall_forall in Hsl. by apply Hsl.
  - intros Hlen Hlines. unfold rewritten. rewrite Ha. cbn [em_text em_parts].
    rewrite replace_parts_texts; [|eapply Forall_impl; [by eapply extracted_parts_valid|];
      intros p Hp; exact (f_equal cp_type Hp)|done|done].
    split; [apply Join_Split|done].
Qed.
End extract_props.

Section evaluation.
Local Existing Instance sample_unicode.

Definition demo_body : gostring :=
  js "{'model':'m','messages':[{'role':'user','content':'key k3y!'},{'role':'assistant','content':'<ok>'}]}".
Definition demo_array_body : gostring :=
  js "{'messages':[{'role':'user','content':[{'type':'text','text':'key k3y!'},{'type':'image'},{'type':'tool_result','content':'out'}]}]}".

(** A check for [alias_free]. *)
Definition alias_freeb (body : gostring) : bool :=
  match Unmarshal body with
  | Some (JObj ms) => forallb (λ kv, negb (EqualFold (go "messages") (unquote kv.1))
                                     || bool_decide (unquote kv.1 = go "messages")) ms
  | _ => false
  end.
Lemma alias_freeb_sound body raw : alias_freeb body = true → raw_of body = Some raw → alias_free raw.
Proof.
  unfold alias_freeb, raw_of. destruct (Unmarshal body) as [[| | | | |ms]|]; try done.
  cbn [mbind option_bind]. rewrite dec_raw_map_obj. intros Hall [= <-] k Hk He.
  apply foldl_raw_insert_dom in Hk as [Hk|[? Hk]]; [|by rewrite lookup_empty in Hk].
  apply list_elem_of_fmap in Hk as (lit & -> & Hk). apply list_elem_of_fmap in Hk as (kv & -> & Hk).
  rewrite forallb_forall in Hall. specialize (Hall kv (proj1 (list_elem_of_In _ _) Hk)).
  rewrite He in Hall. by apply bool_decide_eq_true in Hall.
Qed.

Definition demo_msg : ExtractedMessage := mkExtracted (go "key k3y!") 0 [] false.
Lemma demo_alias_freeb : alias_freeb demo_body = true.
Proof. vm_compute. reflexivity. Qed.
Lemma demo_extract : ExtractLastUserMessage demo_body = Ok demo_msg.
Proof. vm_compute. reflexivity. Qed.
Lemma demo_raw : ∃ raw, raw_of demo_body = Some raw.
Proof.
  unfold raw_of. pose proof demo_alias_freeb as Hf. unfold alias_freeb in Hf.
  destruct (Unmarshal demo_body) as [[| | | | |ms]|]; try discriminate Hf. cbn [mbind option_bind].
  rewrite dec_raw_map_obj. eauto.
Qed.
Lemma demo_rewritten : rewritten demo_msg (go "key [R]") = mkExtracted (go "key [R]") 0 [] false.
Proof. vm_compute. reflexivity. Qed.

Definition demo_array_msg : ExtractedMessage :=
  mkExtracted (go "key k3y!" ++ newline ++ go "out") 0
    [mkPart (go "text") (go "key k3y!") [] []; mkPart (go "image") [] [] []; mkPart (go "tool_result") [] (go "out") []] true.
Lemma demo_array_extract : ExtractLastUserMessage demo_array_body = Ok demo_array_msg.
Proof. vm_compute. reflexivity. Qed.
Lemma demo_array_alias_freeb : alias_freeb demo_array_body = true.
Proof. vm_compute. reflexivity. Qed.
Lemma demo_array_raw : ∃ raw, raw_of demo_array_body = Some raw.
Proof.
  unfold raw_of. pose proof demo_array_alias_freeb as Hf. unfold alias_freeb in Hf.
  destruct (Unmarshal demo_array_body) as [[| | | | |ms]|]; try discriminate Hf. cbn [mbind option_bind].
  rewrite dec_raw_map_obj. eauto.
Qed.


Theorem Replace_array_exact_witness :
  ∃ msg, ExtractLastUserMessage demo_array_body = Ok msg
    ∧ em_text msg = go "key k3y!" ++ newline ++ go "out"
    ∧ em_text (rewritten msg (go "key [R]" ++ newline ++ go "out")) = go "key [R]" ++ newline ++ go "out".
Proof.
  eexists. split; [vm_compute; reflexivity|]. split; [vm_compute; reflexivity|].
  apply (Replace_array_exact demo_array_body _ (go "key [R]" ++ newline ++ go "out"));
    [vm_compute; reflexivity|reflexivity| |vm_compute; discriminate|vm_compute; reflexivity|].
  - repeat (apply Forall_cons; split); [..|by apply Forall_nil]; intros Hs; try discriminate Hs;
      (split; [apply (bool_decide_eq_true_1 _); vm_compute; reflexivity|intros Ht; try discriminate Ht; discriminate]).
  - do 2 (apply Forall_cons; split; [split; [vm_compute; reflexivity|discriminate]|]). apply Forall_nil. done.
Defined.

(** The text the rewritten body of a request is extracted to. *)
Definition forwarded_text (body redacted : gostring) : res gostring gostring :=
  msg ← ExtractLastUserMessage body; body' ← ReplaceLastUserMessage body msg redacted;
  em_text <$> ExtractLastUserMessage body'.

(** Array content that is not line-shaped goes wrong.  An empty tool result
    takes the line of the text part after it, which keeps its original text, the
    secret included; a text part of two lines keeps only the first, and the
    second part is dropped in favour of it; a tool result whose content is a
    list of blocks makes the extraction fail, and with it the redaction of the
    whole message. *)
Lemma Replace_array_misplaces :
  (∃ msg, ExtractLastUserMessage (js "{'messages':[{'role':'user','content':[{'type':'tool_result','content':''},{'type':'text','text':'my k3y!'}]}]}") = Ok msg
     ∧ em_text msg = go "my k3y!")
  ∧ forwarded_text (js "{'messages':[{'role':'user','content':[{'type':'tool_result','content':''},{'type':'text','text':'my k3y!'}]}]}")
      (go "my [R]") = Ok (go "my [R]" ++ newline ++ go "my k3y!")
  ∧ forwarded_text (js "{'messages':[{'role':'user','content':[{'type':'text','text':'a\nk3y!'},{'type':'text','text':'b'}]}]}")
      (go "a" ++ newline ++ go "[R]" ++ newline ++ go "b") = Ok (go "a" ++ newline ++ go "[R]")
  ∧ ExtractLastUserMessage (js "{'messages':[{'role':'user','content':[{'type':'tool_result','content':[{'type':'text','text':'k3y!'}]}]}]}")
      = Err (go "unsupported content format at message 0").
Proof.
  split_and!; [eexists; split; [vm_compute; reflexivity|reflexivity]|vm_compute; reflexivity..].
Qed.
End evaluation.
