(* ===== verification/Proxy.v ===== *)
(** * The proxy's request handler — internal/proxy/proxy.go, bypass.go

    What happens to one intercepted request: the filters, the extraction, the
    scan, the rewrite, and the metrics and report that record it.  goproxy
    calls [handle_connect] for every CONNECT, [handle_request] for every request
    and [handle_response] for every response.  The scanner is the interface
    [ScanPipeline] of rewrite.go; the coordinator implements it. *)
From S2P Require Import Prelude GoStr Utf8 GoFloat GoSort Spans Scanner Redactor Cache FileBlock Coordinator Json JsonRound JsonDecode Domain Extract.
Local Open Scope Z_scope.

(** ** bypass.go *)

Record BypassRule := mkBypass { br_path : gostring; br_prefix : gostring; br_method : gostring }.

Section proxy.
Context `{UnicodeData}.

Definition bypass_rule (method path : gostring) (r : BypassRule) : option gostring :=
  if negb (bool_decide (br_method r = [])) && EqualFold (br_method r) method then Some (go "method_match")
  else if negb (bool_decide (br_path r = [])) && bool_decide (br_path r = path) then Some (go "exact_match")
  else if negb (bool_decide (br_prefix r = [])) && HasPrefix path (br_prefix r) then Some (go "prefix_match")
  else None.
(** [Match]: the reason of the first rule that matches. *)
Fixpoint BypassMatch (rules : list BypassRule) (method path : gostring) : option gostring :=
  match rules with
  | [] => None
  | r :: rules' =>
      match bypass_rule method path r with
      | Some reason => Some reason
      | None => BypassMatch rules' method path
      end
  end.

(** ** rewrite.go *)

Class ScanPipeline := {
  sp_State : Type;
  sp_ScanAndRedact : Moment → sp_State → gostring → res gostring (sp_State * ScanOutcome);
}.

(** ** proxy.go *)

(** A request body: what reading it returns, and whether reading fails. *)
Record Request := mkRequest {
  rq_method : gostring;
  rq_host : gostring;
  rq_path : gostring;
  rq_body : option (gostring * bool);
  rq_length : Z;
}.

Record Redaction := mkRedaction {
  rd_label : gostring; rd_original : gostring; rd_start : Z; rd_end : Z; rd_layer : gostring;
}.
Record LayerResult := mkLayerResult { lr_name : gostring; lr_count : Z; lr_ms : Z }.
Record ScanReport := mkScanReport {
  sc_id : gostring;
  sc_time : Z;
  sc_provider : gostring;
  sc_source : gostring;
  sc_ms : Z;
  sc_redactions : list Redaction;
  sc_layers : list LayerResult;
  sc_blocked : bool;
  sc_reason : gostring;
}.

(** What the handler does besides answering: metrics and the report. *)
Inductive proxy_event :=
| RequestsTotal (upstream status : gostring)
| RequestDuration (upstream : gostring) (ms : Z)
| EntitiesRedacted (entity_type layer : gostring)
| DetectionDuration (layer : gostring) (ms : Z)
| ErrorsTotal (layer error_type : gostring)
| OnScan (report : ScanReport).

Inductive connect_action := RejectConnect | MitmConnect.
(** goproxy's [OkConnect] is replaced by a man-in-the-middle action too. *)
Definition handle_connect (domains : Filter) (host : gostring) : connect_action :=
  if IsBlocked domains host then RejectConnect
  else if ShouldIntercept domains host then MitmConnect else MitmConnect.

(** The status of a report, from the layers that were skipped. *)
Definition report_status (r : PipelineReport) : gostring :=
  let skipped := existsb li_skipped (r_layers r) in
  let allSkipped := forallb li_skipped (r_layers r) in
  let status := if allSkipped then go "passthrough" else if skipped then go "partial" else go "full" in
  if bool_decide (status = go "full") && (len (r_findings r) =? 0) then go "clean" else status.

Definition report_events (host status : gostring) (totalMs : Z) (r : PipelineReport) : list proxy_event :=
  RequestsTotal host status :: RequestDuration host totalMs
    :: ((λ f, EntitiesRedacted (f_label f) (f_layer f)) <$> r_findings r)
    ++ (r_layers r ≫= λ lr,
         DetectionDuration (li_name lr) (li_ms lr)
         :: (if li_skipped lr then [ErrorsTotal (li_name lr) (go "skipped")] else [])).

Definition scan_report (now totalMs : Z) (host : gostring) (r : PipelineReport) : ScanReport :=
  mkScanReport [] now host (go "proxy") totalMs
    ((λ f, mkRedaction (f_label f) (f_value f) (f_start f) (f_end f) (f_layer f)) <$> r_findings r)
    ((λ lr, mkLayerResult (li_name lr) (li_count lr) (li_ms lr)) <$> r_layers r) false [].

Definition with_body (req : Request) (body : gostring) : Request :=
  mkRequest (rq_method req) (rq_host req) (rq_path req) (Some (body, false)) (rq_length req).
Definition with_new_body (req : Request) (body : gostring) : Request :=
  mkRequest (rq_method req) (rq_host req) (rq_path req) (Some (body, false)) (len body).

Record Handled := mkHandled {
  h_request : Request;
  h_userData : option gostring;
  h_events : list proxy_event;
}.
Definition pass (req : Request) : Handled := mkHandled req None [].

Context `{ScanPipeline}.

Record ProxyConfig := mkProxy {
  px_domains : Filter;
  px_bypass : option (list BypassRule);
  px_onScan : bool;
}.

(** After the scan: the request that goes out, or an error of the rewrite. *)
Definition forward (req : Request) (body : gostring) (msg : ExtractedMessage) (redacted : gostring)
    : res gostring Request :=
  if bool_decide (redacted = em_text msg) then Ok (with_body req body)
  else
    newBody ← ReplaceLastUserMessage body msg redacted;
    Ok (with_new_body req newBody).

Definition handle_scanned (p : ProxyConfig) (now totalMs : Z) (req : Request) (body : gostring)
    (msg : ExtractedMessage) (o : ScanOutcome) : res gostring Handled :=
  match so_err o with
  | Some _ =>
      Ok (mkHandled (with_body req body) (Some (go "passthrough"))
            [RequestsTotal (rq_host req) (go "passthrough"); ErrorsTotal (go "pipeline") (go "scan_error")])
  | None =>
      match forward req body msg (so_text o) with
      | Panic => Panic
      | Err _ => Ok (pass (with_body req body))
      | Ok req' =>
          match so_report o with
          | None => Ok (pass req')
          | Some r =>
              let status := report_status r in
              Ok (mkHandled req' (Some status)
                    (report_events (rq_host req) status totalMs r
                     ++ (if px_onScan p then [OnScan (scan_report now totalMs (rq_host req) r)] else [])))
          end
      end
  end.

(** [m] is the moment of the scan, [now] and [totalMs] the handler's own clock. *)
Definition handle_request (p : ProxyConfig) (now totalMs : Z) (m : Moment) (st : sp_State) (req : Request)
    : res gostring (sp_State * Handled) :=
  if negb (ShouldIntercept (px_domains p) (rq_host req)) then Ok (st, pass req)
  else if match px_bypass p with
          | Some rules => bool_decide (is_Some (BypassMatch rules (rq_method req) (rq_path req)))
          | None => false
          end
  then Ok (st, pass req)
  else
    match rq_body req with
    | None => Ok (st, mkHandled req (Some (go "passthrough")) [])
    | Some (body, true) => Ok (st, pass (with_body req body))
    | Some (body, false) =>
        match ExtractLastUserMessage body with
        | Panic => Panic
        | Err _ => Ok (st, pass (with_body req body))
        | Ok msg =>
            '(st', o) ← sp_ScanAndRedact m st (em_text msg);
            h ← handle_scanned p now totalMs req body msg o;
            Ok (st', h)
        end
    end.

(** The header [X-Redactr-Status] of the response, if one is set. *)
Definition handle_response (userData : option gostring) (header : option gostring) : option gostring :=
  match userData with Some status => Some status | None => header end.
End proxy.

(** The coordinator is a scan pipeline. *)
Definition coordinator_pipeline `{UnicodeData} `{GoSort} : ScanPipeline := {|
  sp_State := Coordinator;
  sp_ScanAndRedact m c text := ScanAndRedact c m text;
|}.

(** The labels the events of a scan count are those of its findings. *)
Section events.
Context `{UnicodeData}.

Lemma handle_scanned_events p now ms req body msg o h label layer :
  handle_scanned p now ms req body msg o = Ok h → EntitiesRedacted label layer ∈ h_events h →
  ∃ rep f, so_report o = Some rep ∧ f ∈ r_findings rep ∧ f_label f = label ∧ f_layer f = layer.
Proof.
  unfold handle_scanned. destruct (so_err o).
  { intros Hh. apply (inj Ok) in Hh. subst h. cbn. set_solver. }
  destruct (forward _ _ _ _) as [req'|e|]; [|intros Hh; injection Hh as <-; cbn; intros Hin; by apply not_elem_of_nil in Hin|done].
  destruct (so_report o) as [rep|]; [|intros Hh; injection Hh as <-; cbn; intros Hin; by apply not_elem_of_nil in Hin].
  intros Hh. apply (inj Ok) in Hh. subst h. cbn [h_events]. unfold report_events.
  rewrite elem_of_app, !elem_of_cons, elem_of_app, list_elem_of_fmap, list_elem_of_bind.
  intros [[?|[?|[(f & Ef & Hf)|(lr & Hlr & _)]]]|Hin]; [done|done| | |].
  - injection Ef as -> ->. eauto 6.
  - destruct (li_skipped lr); set_solver.
  - destruct (px_onScan p); set_solver.
Qed.
End events.

(** ** What the handler promises *)

Section proxy_props.
Context `{UnicodeData} `{ScanPipeline}.

(** What the proxy asks of the scanner: on an acceptable text, in a good state,
    it answers with a report and a text that stands in [sc_redacts] to the
    original, and stays in a good state. *)
Class ScanContract := {
  sc_inv : sp_State → Prop;
  sc_text : gostring → Prop;
  sc_redacts : gostring → ScanOutcome → Prop;
  sc_ok : ∀ m st text, sc_inv st → sc_text text →
    ∃ st' o, sp_ScanAndRedact m st text = Ok (st', o) ∧ sc_inv st'
      ∧ so_err o = None ∧ is_Some (so_report o) ∧ sc_redacts text o;
}.

Definition bypassed (p : ProxyConfig) (req : Request) : bool :=
  match px_bypass p with
  | Some rules => bool_decide (is_Some (BypassMatch rules (rq_method req) (rq_path req)))
  | None => false
  end.
Definition scanned (p : ProxyConfig) (req : Request) : Prop :=
  ShouldIntercept (px_domains p) (rq_host req) = true ∧ bypassed p req = false.

Lemma handle_request_scanned p now totalMs m st req body msg :
  scanned p req → rq_body req = Some (body, false) → ExtractLastUserMessage body = Ok msg →
  handle_request p now totalMs m st req =
    ('(st', o) ← sp_ScanAndRedact m st (em_text msg);
     h ← handle_scanned p now totalMs req body msg o; Ok (st', h)).
Proof.
  intros [Hi Hb] Hbody Hext. unfold handle_request. rewrite Hi. cbn [negb].
  unfold bypassed in Hb. rewrite Hb, Hbody, Hext. done.
Qed.

Lemma forward_redacted req body raw msg redacted :
  raw_of body = Some raw → alias_free raw → ExtractLastUserMessage body = Ok msg →
  ∃ req', forward req body msg redacted = Ok req'
    ∧ (redacted = em_text msg → req' = with_body req body)
    ∧ (redacted ≠ em_text msg → ∃ body' msg', req' = with_new_body req body'
         ∧ ExtractLastUserMessage body' = Ok msg' ∧ carries msg redacted msg').
Proof.
  intros Hraw Hal Hext. unfold forward. case_bool_decide as Heq.
  { exists (with_body req body). split_and!; [done|done|]. intros Hne. by destruct Hne. }
  destruct (extract_replaced body raw msg redacted Hraw Hal Hext) as (l & body' & _ & -> & Hext' & _).
  eexists. split; [done|]. split; [done|]. intros _.
  exists body', (rewritten msg redacted). split_and!; [done..|by eapply rewritten_carries].
Qed.


(** Nothing is forwarded but the original or the rewrite, and every failure
    forwards the original.  Whatever the scanner does, when the handler answers,
    the request keeps its method, host and path; its body is the original, or
    the rewrite of the extracted message with the text the scan returned; and a
    body that goes out unchanged from a scanned request means that it could not
    be read, that no message could be extracted, that the scan failed or changed
    nothing, or that the rewrite failed. *)
Theorem handle_request_fails_open p now totalMs m st req st' h :
  handle_request p now totalMs m st req = Ok (st', h) →
  rq_method (h_request h) = rq_method req ∧ rq_host (h_request h) = rq_host req
  ∧ rq_path (h_request h) = rq_path req
  ∧ (fst <$> rq_body (h_request h) = fst <$> rq_body req
     ∨ ∃ body msg o body', rq_body req = Some (body, false) ∧ ExtractLastUserMessage body = Ok msg
         ∧ sp_ScanAndRedact m st (em_text msg) = Ok (st', o) ∧ so_err o = None
         ∧ ReplaceLastUserMessage body msg (so_text o) = Ok body'
         ∧ h_request h = with_new_body req body')
  ∧ (scanned p req → fst <$> rq_body (h_request h) = fst <$> rq_body req →
     ∀ body msg o, rq_body req = Some (body, false) → ExtractLastUserMessage body = Ok msg →
       sp_ScanAndRedact m st (em_text msg) = Ok (st', o) →
       so_err o ≠ None ∨ so_text o = em_text msg
       ∨ ReplaceLastUserMessage body msg (so_text o) = Ok body
       ∨ ∃ e, ReplaceLastUserMessage body msg (so_text o) = Err e).
Proof.
  intros Hh. unfold handle_request in Hh.
  destruct (negb (ShouldIntercept (px_domains p) (rq_host req))) eqn:Hi.
  { injection Hh as <- <-. split_and!; try done; [by left|]. intros [Hs _]. by rewrite Hs in Hi. }
  change (match px_bypass p with Some rules => _ | None => false end) with (bypassed p req) in Hh.
  destruct (bypassed p req) eqn:Hb.
  { injection Hh as <- <-. split_and!; try done; [by left|]. by intros [_ Hs]; rewrite Hs in Hb. }
  destruct (rq_body req) as [[body []]|] eqn:Hbody.
  { injection Hh as <- <-. split_and!; try done; by left. }
  2:{ injection Hh as <- <-. cbn [h_request]. rewrite Hbody. split_and!; try done; by left. }
  destruct (ExtractLastUserMessage body) as [msg|e|] eqn:Hext; [|injection Hh as <- <-|done].
  2:{ split_and!; try done; [by left|]. intros _ _ body' msg' o [= <-]. by rewrite Hext. }
  destruct (sp_ScanAndRedact m st (em_text msg)) as [[st1 o]|e|] eqn:Hscan; [|done..].
  cbn [mbind res_bind] in Hh. destruct (handle_scanned p now totalMs req body msg o) as [h1|e|] eqn:Hs;
    [|done..]. injection Hh as <- <-. unfold handle_scanned in Hs.
  assert (∀ b x o', Some (body, false) = Some (b, false) → ExtractLastUserMessage b = Ok x →
    sp_ScanAndRedact m st (em_text x) = Ok (st1, o') → b = body ∧ x = msg ∧ o' = o) as Hinj
    by (intros ??? [= <-]; rewrite Hext; intros [= <-]; rewrite Hscan; intros [= <-]; done).
  destruct (so_err o) as [err|] eqn:Herr.
  { injection Hs as <-. split_and!; try done; [by left|].
    intros _ _ b x o' Hb' Hm Ho. destruct (Hinj b x o' Hb' Hm Ho) as (-> & -> & ->). left. congruence. }
  unfold forward in Hs. case_bool_decide as Heq.
  { assert (h_request h1 = with_body req body) as -> by (by destruct (so_report o); simplify_eq/=).
    split_and!; try done; [by left|]. intros _ _ b x o' Hb' Hm Ho.
    destruct (Hinj b x o' Hb' Hm Ho) as (-> & -> & ->). auto. }
  destruct (ReplaceLastUserMessage body msg (so_text o)) as [nb|e|] eqn:Hrep; cbn [mbind res_bind] in Hs; [| |done].
  - assert (h_request h1 = with_new_body req nb) as -> by (by destruct (so_report o); simplify_eq/=).
    split_and!; try done.
    + right. exists body, msg, o, nb. by split_and!.
    + intros _ [= ->] b x o' Hb' Hm Ho. destruct (Hinj b x o' Hb' Hm Ho) as (-> & -> & ->). auto.
  - injection Hs as <-. split_and!; try done; [by left|].
    intros _ _ b x o' Hb' Hm Ho. destruct (Hinj b x o' Hb' Hm Ho) as (-> & -> & ->). eauto.
Qed.
End proxy_props.

(** ** The coordinator keeps the contract *)

Section coordinator_contract.
Context `{UnicodeData} `{GoSort}.
Context (T : TextClass) (p : Pipeline) (allowed : gset gostring) (texts : list gostring).
Context (Hlayers : Forall (layer_ok T) (p_layers p)) (Hcf : collision_free texts).

(** The outcome is that of a scan of the text: disjoint findings of the text are
    replaced, none of them allowed, and every finding is covered when they are
    disjoint or nested. *)
Definition redacted_outcome (text : gostring) (o : ScanOutcome) : Prop :=
  ∃ out rep acc m, o = mkOutcome out (Some rep) None
    ∧ scan_filter_redact p allowed m text = Ok (out, rep)
    ∧ Forall (within (len text)) (r_findings rep)
    ∧ Forall (λ f, is_allowed allowed f = false) (r_findings rep)
    ∧ out = render text 0 (span_of <$> acc) ∧ acc ⊆ r_findings rep
    ∧ spans_le (len text) 0 (span_of <$> acc)
    ∧ (laminar (r_findings rep) → ∀ f, f ∈ r_findings rep → Exists (λ g, inside f g = true) acc).

Definition coordinator_inv (c : Coordinator) : Prop :=
  co_pipeline c = p ∧ co_allowed c = allowed ∧ ∃ past, past.*1 ⊆ texts ∧ coherent c past.

Lemma coordinator_keeps m c text :
  coordinator_inv c → tc_text T text ∧ text ∈ texts →
  ∃ c' o, ScanAndRedact c m text = Ok (c', o) ∧ coordinator_inv c'
    ∧ so_err o = None ∧ is_Some (so_report o) ∧ redacted_outcome text o.
Proof.
  intros (Hp & Ha & past & Hpast & Hc) [Ht Hin].
  assert (text :: past.*1 ⊆ texts) as Hsub by set_solver.
  destruct (ScanAndRedact_step T c past m text)
    as (c' & out & rep & m' & E & _ & Hs & Hc' & Hp' & Ha' & _);
    [by rewrite Hp|done|done|by eapply collision_free_sub|].
  exists c', (mkOutcome out (Some rep) None). split_and!; [done| |done|by eexists|].
  - split_and!; [congruence|congruence|]. by exists ((text, m) :: past).
  - rewrite Hp, Ha in Hs.
    destruct (scan_filter_redact_safe T p allowed m' text Hlayers Ht) as (out' & rep' & acc & E' & Hrest).
    rewrite Hs in E'. injection E' as <- <-. exists out, rep, acc, m'. split; [done|]. split; [exact Hs|exact Hrest].
Qed.

Definition coordinator_contract : @ScanContract coordinator_pipeline := {|
  sc_inv := coordinator_inv : @sp_State coordinator_pipeline → Prop;
  sc_text t := tc_text T t ∧ t ∈ texts;
  sc_redacts := redacted_outcome;
  sc_ok := coordinator_keeps;
|}.

Lemma coordinator_inv_new n fb :
  allowed = ∅ → coordinator_inv (NewCoordinator p (NewCache n) fb).
Proof.
  intros ->. split_and!; [done..|]. exists []. split; [apply list_subseteq_nil|]. apply coherent_nil, NewCache_refines.
Qed.
End coordinator_contract.

(** ** Evaluation *)

Section evaluation.
Local Existing Instance sample_unicode.
Local Existing Instance insertion_sort.
Local Existing Instance coordinator_pipeline.

Definition demo_proxy : ProxyConfig :=
  mkProxy (NewFilter [go "api.anthropic.com"] [go "evil.com"]) (Some [mkBypass (go "/health") [] []]) true.
Definition demo_request_body : gostring :=
  js "{'messages':[{'role':'user','content':'mail bob@x.io the k3y! now'}]}".
Definition demo_request : Request :=
  mkRequest (go "POST") (go "api.anthropic.com:443") (go "/v1/messages") (Some (demo_request_body, false)) 67.

Definition demo_request_msg : ExtractedMessage := mkExtracted demo_text 0 [] false.
Lemma demo_request_extract : ExtractLastUserMessage demo_request_body = Ok demo_request_msg.
Proof. vm_compute. reflexivity. Qed.
Lemma demo_request_alias : alias_freeb demo_request_body = true.
Proof. vm_compute. reflexivity. Qed.
Lemma demo_request_scanned : scanned demo_proxy demo_request.
Proof. split; vm_compute; reflexivity. Qed.
Lemma demo_request_raw : ∃ raw, raw_of demo_request_body = Some raw.
Proof.
  pose proof demo_request_alias as Hf. unfold alias_freeb in Hf. unfold raw_of.
  destruct (Unmarshal demo_request_body) as [[| | | | |ms]|]; try discriminate Hf.
  cbn [mbind option_bind]. rewrite dec_raw_map_obj. eauto.
Qed.
Lemma demo_layers_ok : Forall (layer_ok any_text) (p_layers demo_pipeline).
Proof. eapply Forall_impl; [exact demo_always_ok|]. apply always_ok_layer. Qed.
Lemma demo_collision_free : collision_free [demo_text].
Proof. intros t t' Ht%list_elem_of_singleton Ht'%list_elem_of_singleton _. congruence. Qed.


(** The whole request, evaluated: the forwarded body and the status. *)
Example demo_request_forwarded :
  match handle_request demo_proxy 0 0 (mkMoment 0 0) demo_coordinator demo_request with
  | Ok (_, h) => (fst <$> rq_body (h_request h), h_userData h)
  | _ => (None, None)
  end = (Some (js "{'messages':[{'content':'mail [REDACTED-email] the [REDACTED-key] now','role':'user'}]}"),
         Some (go "partial")).
Proof. vm_compute. reflexivity. Qed.

(** A request that is not intercepted. *)
Definition other_request : Request :=
  mkRequest (go "GET") (go "example.com") (go "/") None 0.
Theorem handle_request_fails_open_witness :
  rq_host (h_request (pass other_request)) = go "example.com"
  ∧ (fst <$> rq_body (h_request (pass other_request)) = None
     ∨ ∃ body msg o body', rq_body other_request = Some (body, false)
         ∧ ExtractLastUserMessage body = Ok msg
         ∧ sp_ScanAndRedact (mkMoment 0 0) demo_coordinator (em_text msg) = Ok (demo_coordinator, o) ∧ so_err o = None
         ∧ ReplaceLastUserMessage body msg (so_text o) = Ok body'
         ∧ h_request (pass other_request) = with_new_body other_request body').
Proof.
  destruct (@handle_request_fails_open _ coordinator_pipeline demo_proxy 0 0 (mkMoment 0 0) demo_coordinator other_request demo_coordinator
    (pass other_request) eq_refl) as (_ & H1 & _ & H2 & _).
  exact (conj H1 H2).
Defined.
End evaluation.
