(* ===== verification/Config.v ===== *)
(** * Configuration — internal/config/config.go, defaults.go, migrate.go

    The configuration record, its manager with the file behind it, and the
    one-time migration of the old per-layer flags into rule settings.  The text of
    the file is known to the YAML library only, so texts, encoding and decoding
    are the class [Yaml]. *)
From S2P Require Import Prelude GoStr Utf8 GoFloat GoSort Spans Scanner Redactor Cache Regex Rules FileBlock Coordinator Json JsonDecode Domain Extract Proxy.
Local Open Scope Z_scope.

(** ** config.go *)

Record ProxySection := mkProxySection {
  pr_Enabled : bool; pr_InterceptedDomains : list gostring; pr_BlockedDomains : list gostring;
}.
Record CustomPattern := mkCustomPattern { cu_Name : gostring; cu_Pattern : gostring }.
Record ScanningConfig := mkScanning {
  sn_InferenceTimeoutMs : Z;
  sn_EntropyThreshold : float64;
  sn_CustomPatterns : list CustomPattern;
  sn_CustomBlockedWords : list gostring;
  sn_AllowedWords : list gostring;
  sn_Bypass : list BypassRule;
  sn_CacheMaxSize : Z;
  sn_Rules : gmap gostring bool;
  sn_Migrated : bool;
}.
Record FileBlockingConfig := mkFileBlocking { fl_Extensions : list gostring; fl_ContentPatterns : bool }.
Record HooksConfig := mkHooks {
  hk_Enabled : bool; hk_ClaudeCode : bool; hk_Added : list gostring; hk_Removed : list gostring;
}.
Record MCPServerEntry := mkMCPServer {
  mc_Command : gostring; mc_Args : list gostring; mc_Wrapped : bool;
}.
Record LoggingConfig := mkLogging { lg_Level : gostring; lg_Output : gostring }.
Record Config := mkConfig {
  cf_Proxy : ProxySection;
  cf_Scanning : ScanningConfig;
  cf_FileBlocking : FileBlockingConfig;
  cf_Hooks : HooksConfig;
  cf_MCP : gmap gostring MCPServerEntry;
  cf_Logging : LoggingConfig;
  cf_AdminPort : Z;
  cf_LicenseKey : gostring;
}.

(** ** defaults.go *)

Definition DefaultConfig : Config := mkConfig
  (mkProxySection false
     [go "api.anthropic.com"; go "api.openai.com"; go "api.githubcopilot.com";
      go "copilot-proxy.githubusercontent.com"] [])
  (mkScanning 5000 (f64_lit 45 10) [] [] []
     [mkBypass (go "/v1/models") [] []; mkBypass [] (go "/.well-known/") []; mkBypass [] [] (go "OPTIONS")]
     10000 ∅ false)
  (mkFileBlocking [go ".env"; go ".tfstate"; go ".pem"; go ".key"; go ".p12"; go ".pfx"] true)
  (mkHooks false false [] []) ∅ (mkLogging (go "info") (go "stdout")) 9090 [].

(** Field updates. *)
Definition set_scanning (s : ScanningConfig) (c : Config) : Config :=
  mkConfig (cf_Proxy c) s (cf_FileBlocking c) (cf_Hooks c) (cf_MCP c) (cf_Logging c)
    (cf_AdminPort c) (cf_LicenseKey c).
Definition set_rules (rules : gmap gostring bool) (s : ScanningConfig) : ScanningConfig :=
  mkScanning (sn_InferenceTimeoutMs s) (sn_EntropyThreshold s) (sn_CustomPatterns s)
    (sn_CustomBlockedWords s) (sn_AllowedWords s) (sn_Bypass s) (sn_CacheMaxSize s) rules (sn_Migrated s).
Definition set_migrated (s : ScanningConfig) : ScanningConfig :=
  mkScanning (sn_InferenceTimeoutMs s) (sn_EntropyThreshold s) (sn_CustomPatterns s)
    (sn_CustomBlockedWords s) (sn_AllowedWords s) (sn_Bypass s) (sn_CacheMaxSize s) (sn_Rules s) true.
Definition set_proxy_enabled (on : bool) (c : Config) : Config :=
  mkConfig (mkProxySection on (pr_InterceptedDomains (cf_Proxy c)) (pr_BlockedDomains (cf_Proxy c)))
    (cf_Scanning c) (cf_FileBlocking c) (cf_Hooks c) (cf_MCP c) (cf_Logging c)
    (cf_AdminPort c) (cf_LicenseKey c).

(** ** The file *)

(** The deprecated layer flags of migrate.go; [None] is an absent flag. *)
Record legacyScan := mkLegacy {
  ls_regex : option bool; ls_entropy : option bool; ls_gliner : option bool;
}.

(** gopkg.in/yaml.v3: the texts of files, [Marshal] of a configuration,
    [Unmarshal] into a configuration and into the legacy flags. *)
Class Yaml := {
  yaml_Text : Type;
  yaml_Marshal : Config → gostring + yaml_Text;
  yaml_Unmarshal : yaml_Text → Config → gostring + Config;
  yaml_legacy : yaml_Text → gostring + legacyScan;
}.

(** What the library documents of a text it has written itself: reading it back
    into the defaults gives the configuration, and it holds no other keys. *)
Class YamlLaws `{Yaml} : Prop := {
  yaml_reads_back c t : yaml_Marshal c = inr t → yaml_Unmarshal t DefaultConfig = inr c;
  yaml_no_legacy c t : yaml_Marshal c = inr t → yaml_legacy t = inr (mkLegacy None None None);
}.

Section config.
Context `{Yaml}.

(** What becomes of a write: a failed one may leave anything in the file. *)
Inductive write_fate := Written | NotWritten (e : gostring) (left_ : option yaml_Text).
Definition Save (w : write_fate) (c : Config) (file : option yaml_Text)
    : option yaml_Text * option gostring :=
  match yaml_Marshal c with
  | inl e => (file, Some e)
  | inr t => match w with Written => (Some t, None) | NotWritten e left_ => (left_, Some e) end
  end.

(** The file as [os.ReadFile] sees it. *)
Definition ReadFile (rd : option gostring) (file : option yaml_Text) : gostring + yaml_Text :=
  match rd, file with
  | Some e, _ => inl e
  | None, None => inl (go "no such file or directory")
  | None, Some t => inr t
  end.

Definition Load (rd : option gostring) (mkdir : option gostring) (w : write_fate) (file : option yaml_Text)
    : option yaml_Text * (gostring + Config) :=
  match file with
  | None =>
      match mkdir with
      | Some e => (file, inl e)
      | None =>
          match Save w DefaultConfig file with
          | (file', Some e) => (file', inl e)
          | (file', None) => (file', inr DefaultConfig)
          end
      end
  | Some _ =>
      match ReadFile rd file with
      | inl e => (file, inl e)
      | inr t => (file, yaml_Unmarshal t DefaultConfig)
      end
  end.

(** The manager, with the file it manages. *)
Record Manager := mkManager { mg_cfg : Config; mg_file : option yaml_Text }.

(** [Update] changes the configuration in memory even when saving it fails. *)
Definition Update (w : write_fate) (fn : Config → Config) (m : Manager) : Manager * option gostring :=
  let cfg := fn (mg_cfg m) in
  let '(file, err) := Save w cfg (mg_file m) in
  (mkManager cfg file, err).

Definition Reload (rd : option gostring) (m : Manager) : Manager * (gostring + Config) :=
  match ReadFile rd (mg_file m) with
  | inl e => (m, inl e)
  | inr t =>
      match yaml_Unmarshal t DefaultConfig with
      | inl e => (m, inl e)
      | inr cfg => (mkManager cfg (mg_file m), inr cfg)
      end
  end.

(** ** migrate.go *)

(** The closure [apply]: an explicit [false] turns the layer's rules off. *)
Definition apply_flag (layer : gostring) (flag : option bool) (rules : gmap gostring bool)
    : gmap gostring bool :=
  match flag with
  | Some false =>
      foldl (λ m r, if bool_decide (rs_layer r = layer) then <[rs_id r := false]> m else m) rules AllRules
  | _ => rules
  end.
Definition MigrateLegacyLayerFlagsFromFile (rd : option gostring) (file : option yaml_Text)
    (c : ScanningConfig) : ScanningConfig :=
  if sn_Migrated c then c
  else
    match ReadFile rd file with
    | inl _ => set_migrated c
    | inr data =>
        match yaml_legacy data with
        | inl _ => set_migrated c
        | inr legacy =>
            let rules := apply_flag (go "presidio") (ls_regex legacy) (sn_Rules c) in
            let rules := apply_flag (go "entropy") (ls_entropy legacy) rules in
            let rules := apply_flag (go "gliner") (ls_gliner legacy) rules in
            set_migrated (set_rules rules c)
        end
    end.
End config.

(** ** What the migration does *)

Section migration.
Context `{Yaml}.

Definition legacy_flag (legacy : legacyScan) (layer : gostring) : option bool :=
  if bool_decide (layer = go "presidio") then ls_regex legacy
  else if bool_decide (layer = go "entropy") then ls_entropy legacy
  else if bool_decide (layer = go "gliner") then ls_gliner legacy else None.

Lemma foldl_off_lookup (layer : gostring) (rs : list RuleSpec) (m : gmap gostring bool) (id : gostring) :
  foldl (λ m r, if bool_decide (rs_layer r = layer) then <[rs_id r := false]> m else m) m rs !! id
  = if existsb (λ r, bool_decide (rs_id r = id) && bool_decide (rs_layer r = layer)) rs
    then Some false else m !! id.
Proof.
  revert m. induction rs as [|r rs IH]; intros m; [done|]. cbn [foldl existsb]. rewrite IH.
  destruct (existsb _ rs); [by rewrite orb_true_r|]. rewrite orb_false_r.
  case_bool_decide as Hl; [|by rewrite andb_false_r].
  rewrite andb_true_r. case_bool_decide as Hi; [subst; by rewrite lookup_insert_eq|by rewrite lookup_insert_ne].
Qed.

Lemma layer_of_rule (id : gostring) r (layer : gostring) :
  ruleByID !! id = Some r →
  existsb (λ r, bool_decide (rs_id r = id) && bool_decide (rs_layer r = layer)) AllRules
  = bool_decide (rs_layer r = layer).
Proof.
  intros Hr. apply eq_bool_prop_intro. rewrite !Is_true_true, existsb_exists, bool_decide_eq_true.
  split.
  - intros (r' & Hin & [Hi Hl]%andb_true_iff). apply bool_decide_eq_true in Hi, Hl.
    apply list_elem_of_In, ruleByID_elem in Hin. congruence.
  - intros Hl. exists r. pose proof (ruleByID_id _ _ Hr) as <-.
    split; [by apply list_elem_of_In, ruleByID_elem|]. by rewrite !bool_decide_eq_true_2.
Qed.

Lemma apply_flag_lookup layer flag rules id r :
  ruleByID !! id = Some r →
  apply_flag layer flag rules !! id =
    if bool_decide (rs_layer r = layer ∧ flag = Some false) then Some false else rules !! id.
Proof.
  intros Hr. unfold apply_flag. destruct flag as [[]|];
    [by rewrite bool_decide_eq_false_2 by naive_solver| |by rewrite bool_decide_eq_false_2 by naive_solver].
  rewrite foldl_off_lookup, (layer_of_rule id r) by done.
  repeat case_bool_decide; naive_solver.
Qed.

(** The migration of the old layer flags.  When the file of a configuration
    that was never migrated can be read, every rule whose layer the file turns off
    explicitly is off afterwards, every other rule keeps its effective setting,
    and nothing else changes but the mark; and a second migration, of any file,
    changes nothing. *)
Theorem migrate_effective t legacy c :
  sn_Migrated c = false → yaml_legacy t = inr legacy →
  let c' := MigrateLegacyLayerFlagsFromFile None (Some t) c in
  (∀ r, r ∈ AllRules →
     enabled_in (Effective (sn_Rules c')) (rs_id r) =
       if bool_decide (legacy_flag legacy (rs_layer r) = Some false) then false
       else enabled_in (Effective (sn_Rules c)) (rs_id r))
  ∧ (∀ rd file, MigrateLegacyLayerFlagsFromFile rd file c' = c')
  ∧ set_rules (sn_Rules c) c' = set_migrated c.
Proof.
  intros Hm Hl c'.
  assert (c' = set_migrated (set_rules (apply_flag (go "gliner") (ls_gliner legacy)
    (apply_flag (go "entropy") (ls_entropy legacy)
       (apply_flag (go "presidio") (ls_regex legacy) (sn_Rules c)))) c)) as ->.
  { unfold c', MigrateLegacyLayerFlagsFromFile. rewrite Hm. cbn [ReadFile]. by rewrite Hl. }
  split_and!; [|done|done]. intros r Hr%ruleByID_elem.
  unfold enabled_in. rewrite !Effective_lookup, Hr. cbn [fmap option_fmap option_map].
  cbn [sn_Rules set_migrated set_rules]. rewrite !(apply_flag_lookup _ _ _ _ r) by exact Hr.
  unfold legacy_flag. clear.
  assert (go "presidio" ≠ go "entropy" ∧ go "presidio" ≠ go "gliner" ∧ go "entropy" ≠ go "gliner")
    as (? & ? & ?) by (split_and!; by vm_compute).
  repeat case_bool_decide; destruct_and?; try done; exfalso; first [congruence | naive_solver].
Qed.
End migration.

(** ** Evaluation *)

(** A library whose texts are the configuration and the old flags themselves. *)
Definition toy_yaml : Yaml := {|
  yaml_Text := option (Config * legacyScan);
  yaml_Marshal c := inr (Some (c, mkLegacy None None None));
  yaml_Unmarshal t _ := match t with Some (c, _) => inr c | None => inl (go "yaml") end;
  yaml_legacy t := match t with Some (_, l) => inr l | None => inl (go "yaml") end;
|}.
Lemma toy_yaml_laws : @YamlLaws toy_yaml.
Proof. split; intros c t; cbn; by intros [= <-]. Qed.

Definition old_file : option (Config * legacyScan) :=
  Some (DefaultConfig, mkLegacy (Some true) (Some false) (Some false)).
Definition migrated : ScanningConfig :=
  @MigrateLegacyLayerFlagsFromFile toy_yaml None (Some old_file) (cf_Scanning DefaultConfig).

(** The file turns entropy and GLiNER off: their rules are off, an email rule
    of the Presidio layer stays on. *)
Theorem migrate_effective_witness :
  enabled_in (Effective (sn_Rules migrated)) (go "entropy_keyword_gated") = false
  ∧ enabled_in (Effective (sn_Rules (cf_Scanning DefaultConfig))) (go "entropy_keyword_gated") = true
  ∧ ∀ r, r ∈ AllRules →
      enabled_in (Effective (sn_Rules migrated)) (rs_id r) =
        if bool_decide (legacy_flag (mkLegacy (Some true) (Some false) (Some false)) (rs_layer r) = Some false)
        then false else enabled_in (Effective ∅) (rs_id r).
Proof.
  split; [vm_compute; reflexivity|]. split; [vm_compute; reflexivity|].
  exact (proj1 (@migrate_effective toy_yaml old_file (mkLegacy (Some true) (Some false) (Some false))
    (cf_Scanning DefaultConfig) eq_refl eq_refl)).
Defined.
