(* ===== verification/Sandbox.v ===== *)
(** * Container launches — internal/sandbox, internal/devcontainer, cli/agent.go, redactr-mcp-wrap

    The argument vectors and the devcontainer file with which AI tools are run in
    containers, and what a container runtime reads in them. *)
From S2P Require Import Prelude GoStr Utf8 Json JsonDecode Extract.
Local Open Scope Z_scope.

(** ** hardening.go *)

Definition HardeningArgs (runtime : gostring) : list gostring :=
  [go "--cap-drop"; go "ALL"; go "--cap-add"; go "NET_ADMIN"; go "--cap-add"; go "NET_RAW";
   go "--security-opt"; go "no-new-privileges"; go "--read-only"; go "--tmpfs"; go "/tmp";
   go "--tmpfs"; go "/home/redactr:uid=1000,mode=0700"; go "--pids-limit"; go "512"; go "--memory"; go "4g"]
  ++ (if bool_decide (runtime = go "podman") then [go "--userns"; go "keep-id"] else []).

(** ** spec.go *)

Inductive Mode := ModeEphemeralTTY | ModeStdioAttached | ModeWorkspaceRemote | ModeOther (m : gostring).
#[export] Instance Mode_eq_dec : EqDecision Mode.
Proof. solve_decision. Defined.
Record Spec := mkSpec {
  sp_Mode : Mode; sp_Image : gostring; sp_ProjectDir : gostring; sp_Entrypoint : list gostring;
  sp_ProxyAddr : gostring; sp_CACertPath : gostring; sp_HostAlias : gostring;
}.
(** The errors of this package and of its callers. *)
Inductive LaunchError :=
  | ModeNotImplemented (m : Mode) | ImageRequired | ProjectDirRequired | EntrypointRequired
  | NotEphemeral (m : Mode) | ProxyNotRunning | PidFileEmpty | CANotFound (path : gostring)
  | UnknownAgent (tool : gostring) | MountModeUnsupported (mode : gostring)
  | MissingImageReference | MissingServerCommand | NoRuntime.
Definition Validate (s : Spec) : option LaunchError :=
  if negb (bool_decide (sp_Mode s = ModeEphemeralTTY)) && negb (bool_decide (sp_Mode s = ModeStdioAttached))
  then Some (ModeNotImplemented (sp_Mode s))
  else if bool_decide (sp_Image s = []) then Some ImageRequired
  else if bool_decide (sp_ProjectDir s = []) then Some ProjectDirRequired
  else if bool_decide (sp_Entrypoint s = []) then Some EntrypointRequired
  else None.

(** ** inject.go *)

Definition workMount : gostring := go "/work".
Definition CAInContainer : gostring := go "/etc/redactr/ca.crt".
Definition dockerHostAlias : gostring := go "host.docker.internal".
Definition podmanHostAlias : gostring := go "host.containers.internal".

Definition ProxyEnv (alias port : gostring) : list (gostring * gostring) :=
  let proxyURL := go "http://" ++ alias ++ go ":" ++ port in [
  (go "HTTPS_PROXY", proxyURL); (go "HTTP_PROXY", proxyURL);
  (go "https_proxy", proxyURL); (go "http_proxy", proxyURL);
  (go "NODE_EXTRA_CA_CERTS", CAInContainer); (go "REQUESTS_CA_BUNDLE", CAInContainer);
  (go "SSL_CERT_FILE", CAInContainer); (go "REDACTR_BOUND", go "1");
  (go "REDACTR_PROXY_HOST", alias); (go "REDACTR_PROXY_PORT", port)].
Definition hostAliasFor (runtime : gostring) : gostring :=
  if bool_decide (runtime = go "podman") then podmanHostAlias else dockerHostAlias.
Definition PortOf (hostPort : gostring) : gostring :=
  match LastIndexByte hostPort ":"%char with Some i => drop (S i) hostPort | None => hostPort end.
Definition env_flag (kv : gostring * gostring) : list gostring := [go "-e"; kv.1 ++ go "=" ++ kv.2].
Definition InjectionArgs (s : Spec) : list gostring :=
  let alias := if bool_decide (sp_HostAlias s = []) then dockerHostAlias else sp_HostAlias s in
  [go "--add-host"; alias ++ go ":host-gateway";
   go "-v"; sp_ProjectDir s ++ go ":" ++ workMount; go "-w"; workMount;
   go "-v"; sp_CACertPath s ++ go ":" ++ CAInContainer ++ go ":ro"]
  ++ (ProxyEnv alias (PortOf (sp_ProxyAddr s)) ≫= env_flag).

(** ** runtime.go, engine.go *)

(** [cliRuntime]: the binary. *)
Definition RunArgs (bin : gostring) (flags : list gostring) (image : gostring) (entrypoint : list gostring)
    : list gostring :=
  [bin; go "run"] ++ flags ++ [image] ++ entrypoint.
Definition preferredRuntimes : list gostring := [go "docker"; go "podman"].
(** [lookPath] says which binaries there are. *)
Definition Detect (lookPath : gostring → bool) : LaunchError + gostring :=
  match filter (λ bin, lookPath bin = true) preferredRuntimes with bin :: _ => inr bin | [] => inl NoRuntime end.

Definition set_alias (alias : gostring) (s : Spec) : Spec :=
  mkSpec (sp_Mode s) (sp_Image s) (sp_ProjectDir s) (sp_Entrypoint s) (sp_ProxyAddr s) (sp_CACertPath s) alias.
Definition composeArgs (runtime : gostring) (s : Spec) (runFlags : list gostring) : list gostring :=
  let flags := runFlags ++ HardeningArgs runtime in
  let s := set_alias (hostAliasFor runtime) s in
  RunArgs runtime (flags ++ InjectionArgs s) (sp_Image s) (sp_Entrypoint s).
Definition StdioRunArgs (runtime : gostring) (s : Spec) : LaunchError + list gostring :=
  match Validate s with
  | Some e => inl e
  | None => inr (composeArgs runtime s [go "--rm"; go "-i"])
  end.
(** The argument vector [Launch] runs, or its error. *)
Definition Launch (runtime : gostring) (s : Spec) : LaunchError + list gostring :=
  match Validate s with
  | Some e => inl e
  | None =>
      if negb (bool_decide (sp_Mode s = ModeEphemeralTTY))
      then inl (NotEphemeral (sp_Mode s))
      else inr (composeArgs runtime s [go "--rm"; go "-it"])
  end.

(** ** discover.go *)

Fixpoint strip_loopback (prefixes : list gostring) (addr : gostring) : gostring :=
  match prefixes with
  | [] => addr
  | p :: ps => if HasPrefix addr p then go "127.0.0.1:" ++ TrimPrefix addr p else strip_loopback ps addr
  end.
Definition normalizeLoopback (addr : gostring) : gostring :=
  strip_loopback [go "0.0.0.0:"; go "[::]:"; go "[::1]:"] (TrimPrefix addr (go "tcp://")).

(** [pid]: what state/proxy.pid holds, if it can be read; [ca]: the path certs/ca.crt, which is
    there or not. *)
Definition Discover `{UnicodeData} (pid : option gostring) (ca : gostring) (ca_there : bool) : LaunchError + gostring * gostring :=
  match pid with
  | None => inl ProxyNotRunning
  | Some raw =>
      let addr := normalizeLoopback (TrimSpace raw) in
      if bool_decide (addr = []) then inl PidFileEmpty
      else if negb ca_there then inl (CANotFound ca) else inr (addr, ca)
  end.

(** ** devcontainer.go *)

Record GenerateInput := mkGenerate { gi_Image : gostring; gi_ProxyAddr : gostring; gi_CACertPath : gostring }.
Definition containerEnv (proxyAddr : gostring) : gmap gostring gostring :=
  foldl (λ m kv, <[kv.1 := kv.2]> m) ∅ (ProxyEnv dockerHostAlias (PortOf proxyAddr)).
Definition strings_array (l : list gostring) : json := JArr (quoted <$> l).
(** The map [Generate] renders with [MarshalIndent]. *)
Definition Generate (i : GenerateInput) : gmap gostring json := list_to_map [
  (go "name", quoted (go "redactr"));
  (go "image", quoted (gi_Image i));
  (go "containerEnv", map_json (quoted <$> containerEnv (gi_ProxyAddr i)));
  (go "mounts", strings_array [go "source=" ++ gi_CACertPath i ++ go ",target=" ++ CAInContainer ++ go ",type=bind,readonly"]);
  (go "runArgs", strings_array ([go "--add-host"; dockerHostAlias ++ go ":host-gateway"] ++ HardeningArgs (go "docker")))].

(** ** cli/agent.go *)

Definition knownAgents : gmap gostring gostring :=
  list_to_map [(go "claude", go "claude"); (go "codex", go "codex"); (go "copilot", go "copilot")].
Definition knownAgentEntrypoint (tool : gostring) : option (list gostring) :=
  (λ bin, [bin]) <$> knownAgents !! tool.
Record LaunchInfo := mkLaunchInfo {
  li_Image : gostring; li_MountMode : gostring; li_Denylist : option (list gostring); li_ProxyAddr : gostring;
}.
Definition specFromLaunchInfo (tool : gostring) (extraArgs : list gostring) (cwd caPath : gostring)
    (info : LaunchInfo) : LaunchError + Spec :=
  match knownAgentEntrypoint tool with
  | None => inl (UnknownAgent tool)
  | Some entry =>
      if negb (bool_decide (li_MountMode info = go "bind"))
      then inl (MountModeUnsupported (li_MountMode info))
      else inr (mkSpec ModeEphemeralTTY (li_Image info) cwd (entry ++ extraArgs) (li_ProxyAddr info) caPath [])
  end.

(** What [RunAgent] runs once it has the launch policy [info]. *)
Definition RunAgent (lookPath : gostring → bool) (tool : gostring) (extraArgs : list gostring) (cwd caPath : gostring)
    (info : LaunchInfo) : LaunchError + list gostring :=
  match specFromLaunchInfo tool extraArgs cwd caPath info with
  | inl e => inl e
  | inr s => match Detect lookPath with inl e => inl e | inr runtime => Launch runtime s end
  end.

(** ** cmd/redactr-mcp-wrap/main.go *)

Definition resolveChild (args : list gostring) (containerArgv : gostring → list gostring → LaunchError + list gostring)
    : LaunchError + list gostring :=
  match args with
  | c :: args1 =>
      if negb (bool_decide (c = go "--container")) then inr args
      else
        let run (image : gostring) (rest : list gostring) :=
          match rest with
          | [] => inl MissingServerCommand
          | _ => containerArgv image rest
          end in
        match args1 with
        | f :: args2 =>
            if bool_decide (f = go "--image") then
              match args2 with
              | [] => inl MissingImageReference
              | image :: rest => run image rest
              end
            else run (go "redactr-base:local") args1
        | [] => run (go "redactr-base:local") []
        end
  | [] => inr args
  end.

(** ** The command line of a container runtime

    [docker run] and [podman run] are not code of this repository: [parse_run] is what they
    read in the words after [run] — the options with their values, the image and the command —
    and its laws are the documented ones, for the options used here. *)
Definition runtime_options := list (gostring * option gostring).
Class ContainerCLI := parse_run : list gostring → option (runtime_options * gostring * list gostring).
Definition add_option (o : gostring) (v : option gostring) (r : runtime_options * gostring * list gostring) :=
  match r with (opts, image, command) => ((o, v) :: opts, image, command) end.
Definition value_options : list gostring :=
  go <$> ["--cap-drop"; "--cap-add"; "--security-opt"; "--tmpfs"; "--pids-limit"; "--memory"; "--userns";
          "--add-host"; "-v"; "-w"; "-e"].
Definition flag_options : list gostring := go <$> ["--rm"; "-i"; "-it"; "--read-only"; "--privileged"].
Definition option_like (word : gostring) : bool := HasPrefix word (go "-").
Class ContainerLaws `{ContainerCLI} := {
  parse_value o v rest : o ∈ value_options → parse_run (o :: v :: rest) = add_option o (Some v) <$> parse_run rest;
  parse_flag o rest : o ∈ flag_options → parse_run (o :: rest) = add_option o None <$> parse_run rest;
  parse_image image command : image ≠ [] → option_like image = false →
    parse_run (image :: command) = Some ([], image, command);
}.

(** The values given to an option, and the environment the [-e] options make. *)
Definition values (o : gostring) (opts : runtime_options) : list gostring :=
  omap (λ ov, if bool_decide (ov.1 = o) then ov.2 else None) opts.
Definition env_assignment (env : gmap gostring gostring) (kv : gostring) : gmap gostring gostring :=
  match IndexByte kv "="%char with Some i => <[take i kv := drop (S i) kv]> env | None => env end.
Definition docker_env (opts : runtime_options) : gmap gostring gostring :=
  foldl env_assignment ∅ (values (go "-e") opts).

(** The name by which a container reaches this host, and the variables a launch sets. *)
Definition gateway (runtime : gostring) : gostring :=
  if bool_decide (runtime = go "podman") then go "host.containers.internal" else go "host.docker.internal".
Definition proxy_variables : list gostring := go <$> ["HTTPS_PROXY"; "HTTP_PROXY"; "https_proxy"; "http_proxy"].
Definition ca_variables : list gostring := go <$> ["NODE_EXTRA_CA_CERTS"; "REQUESTS_CA_BUNDLE"; "SSL_CERT_FILE"].
Definition redactr_variables : list gostring := go <$> ["REDACTR_BOUND"; "REDACTR_PROXY_HOST"; "REDACTR_PROXY_PORT"].

(** What a launch has to guarantee: capabilities, privileges, file systems, limits, the way to
    the proxy; and that nothing else is asked for. *)
Record sealed (runtime : gostring) (s : Spec) (opts : runtime_options) : Prop := {
  sealed_drop : values (go "--cap-drop") opts = [go "ALL"];
  sealed_caps : values (go "--cap-add") opts = [go "NET_ADMIN"; go "NET_RAW"];
  sealed_privs : values (go "--security-opt") opts = [go "no-new-privileges"];
  sealed_root : (go "--read-only", None) ∈ opts;
  sealed_not_privileged : ∀ v, (go "--privileged", v) ∉ opts;
  sealed_limits : values (go "--pids-limit") opts = [go "512"] ∧ values (go "--memory") opts = [go "4g"];
  sealed_user : values (go "--userns") opts = if bool_decide (runtime = go "podman") then [go "keep-id"] else [];
  sealed_mounts : values (go "-v") opts =
    [sp_ProjectDir s ++ go ":/work"; sp_CACertPath s ++ go ":/etc/redactr/ca.crt:ro"];
  sealed_tmpfs : values (go "--tmpfs") opts = [go "/tmp"; go "/home/redactr:uid=1000,mode=0700"];
  sealed_workdir : values (go "-w") opts = [go "/work"];
  sealed_gateway : values (go "--add-host") opts = [gateway runtime ++ go ":host-gateway"];
  sealed_proxy : ∀ host port var, sp_ProxyAddr s = host ++ go ":" ++ port → ":"%char ∉ port → var ∈ proxy_variables →
    docker_env opts !! var = Some (go "http://" ++ gateway runtime ++ go ":" ++ port);
  sealed_ca : ∀ var, var ∈ ca_variables → docker_env opts !! var = Some (go "/etc/redactr/ca.crt");
  sealed_bound : docker_env opts !! go "REDACTR_BOUND" = Some (go "1")
    ∧ docker_env opts !! go "REDACTR_PROXY_HOST" = Some (gateway runtime)
    ∧ ∀ host port, sp_ProxyAddr s = host ++ go ":" ++ port → ":"%char ∉ port →
        docker_env opts !! go "REDACTR_PROXY_PORT" = Some port;
  sealed_env : ∀ var, is_Some (docker_env opts !! var) → var ∈ proxy_variables ++ ca_variables ++ redactr_variables;
  sealed_temporary : (go "--rm", None) ∈ opts ∧ (go "-it", None) ∈ opts;
  sealed_only : ∀ o v, (o, v) ∈ opts → o ∈ go <$>
    ["--rm"; "-it"; "--cap-drop"; "--cap-add"; "--security-opt"; "--read-only"; "--tmpfs"; "--pids-limit"; "--memory";
     "--userns"; "--add-host"; "-v"; "-w"; "-e"];
}.

(** ** Reading the arguments back *)
Section launch.
Context `{ContainerLaws}.

(** A list of words of known options, read in front of [rest]. *)
Inductive options_words : runtime_options → list gostring → Prop :=
  | ow_nil : options_words [] []
  | ow_value o v opts ws : o ∈ value_options → options_words opts ws → options_words ((o, Some v) :: opts) (o :: v :: ws)
  | ow_flag o opts ws : o ∈ flag_options → options_words opts ws → options_words ((o, None) :: opts) (o :: ws).
Lemma options_words_app o1 w1 o2 w2 :
  options_words o1 w1 → options_words o2 w2 → options_words (o1 ++ o2) (w1 ++ w2).
Proof. induction 1; intros; cbn [app]; [done|constructor; auto..]. Qed.
Lemma options_words_parse opts ws image command : options_words opts ws → image ≠ [] → option_like image = false →
  parse_run (ws ++ image :: command) = Some (opts, image, command).
Proof.
  intros Hw Hi Ho. induction Hw as [|o v opts ws Hin _ IH|o opts ws Hin _ IH]; cbn [app].
  - by apply parse_image.
  - by rewrite parse_value, IH by done.
  - by rewrite parse_flag, IH by done.
Qed.

(** The options a launch writes. *)
Definition hardening_opts (runtime : gostring) : runtime_options :=
  [(go "--cap-drop", Some (go "ALL")); (go "--cap-add", Some (go "NET_ADMIN")); (go "--cap-add", Some (go "NET_RAW"));
   (go "--security-opt", Some (go "no-new-privileges")); (go "--read-only", None); (go "--tmpfs", Some (go "/tmp"));
   (go "--tmpfs", Some (go "/home/redactr:uid=1000,mode=0700")); (go "--pids-limit", Some (go "512"));
   (go "--memory", Some (go "4g"))]
  ++ (if bool_decide (runtime = go "podman") then [(go "--userns", Some (go "keep-id"))] else []).
Definition injection_opts (alias : gostring) (s : Spec) : runtime_options :=
  [(go "--add-host", Some (alias ++ go ":host-gateway")); (go "-v", Some (sp_ProjectDir s ++ go ":" ++ workMount));
   (go "-w", Some workMount); (go "-v", Some (sp_CACertPath s ++ go ":" ++ CAInContainer ++ go ":ro"))]
  ++ ((λ kv, (go "-e", Some (kv.1 ++ go "=" ++ kv.2))) <$> ProxyEnv alias (PortOf (sp_ProxyAddr s))).
Definition launch_opts (runtime : gostring) (s : Spec) : runtime_options :=
  [(go "--rm", None); (go "-it", None)] ++ hardening_opts runtime ++ injection_opts (hostAliasFor runtime) s.

Local Ltac known := match goal with |- ?P => exact (bool_decide_unpack P I) end.
Local Ltac words := repeat first [ apply ow_nil | apply ow_value; [known|] | apply ow_flag; [known|] ].
Lemma hardening_words runtime : options_words (hardening_opts runtime) (HardeningArgs runtime).
Proof.
  unfold hardening_opts, HardeningArgs. apply options_words_app; [words|].
  destruct (bool_decide _); words.
Qed.
Lemma env_words env :
  options_words ((λ kv, (go "-e", Some (kv.1 ++ go "=" ++ kv.2))) <$> env) (env ≫= env_flag).
Proof. induction env as [|kv env IH]; [constructor|]. apply ow_value; [known|exact IH]. Qed.
Lemma hostAliasFor_not_empty runtime : hostAliasFor runtime ≠ [].
Proof. unfold hostAliasFor. by case_bool_decide. Qed.
Lemma injection_words alias s : alias ≠ [] → options_words (injection_opts alias s) (InjectionArgs (set_alias alias s)).
Proof.
  intros Ha. unfold InjectionArgs, set_alias, injection_opts. cbn [sp_HostAlias sp_ProjectDir sp_CACertPath sp_ProxyAddr].
  rewrite bool_decide_eq_false_2 by done. apply options_words_app; [words|]. apply env_words.
Qed.
Lemma Launch_runs runtime s argv : Launch runtime s = inr argv → option_like (sp_Image s) = false →
  ∃ args, argv = runtime :: go "run" :: args
    ∧ parse_run args = Some (launch_opts runtime s, sp_Image s, sp_Entrypoint s).
Proof.
  unfold Launch. destruct (Validate s) as [e|] eqn:Hv; [done|]. destruct (negb _); [done|].
  intros Hl Hi. injection Hl as <-. eexists. split; [reflexivity|].
  assert (sp_Image s ≠ []) as Hne.
  { unfold Validate in Hv. destruct (_ && _); [done|]. case_bool_decide; done. }
  cbn [sp_Image sp_Entrypoint set_alias]. apply (options_words_parse _ _ _ _ ) ; [|done..].
  rewrite <- app_assoc. apply options_words_app; [words|].
  apply options_words_app; [apply hardening_words|]. apply injection_words, hostAliasFor_not_empty.
Qed.

(** The environment is the one the code means. *)
Lemma values_app o a b : values o (a ++ b) = values o a ++ values o b.
Proof. unfold values. apply omap_app. Qed.
Lemma values_env (env : list (gostring * gostring)) :
  values (go "-e") ((λ kv, (go "-e", Some (kv.1 ++ go "=" ++ kv.2))) <$> env) = (λ kv, kv.1 ++ go "=" ++ kv.2) <$> env.
Proof. induction env as [|kv env IH]; [done|]. cbn. f_equal. exact IH. Qed.
Lemma IndexByte_first (k v : gostring) c : c ∉ k → IndexByte (k ++ c :: v) c = Some (length k).
Proof.
  induction k as [|d k IH]; intros Hc; cbn [app IndexByte length].
  - by rewrite bool_decide_eq_true_2.
  - apply not_elem_of_cons in Hc as [Hd Hk]. rewrite bool_decide_eq_false_2 by done. by rewrite IH.
Qed.
Lemma env_assignments env m : Forall (λ kv, "="%char ∉ kv.1) env →
  foldl env_assignment m ((λ kv, kv.1 ++ go "=" ++ kv.2) <$> env) = foldl (λ m kv, <[kv.1 := kv.2]> m) m env.
Proof.
  intros He. revert m. induction He as [|[k v] env Hk _ IH]; intros m; [done|].
  cbn [fmap list_fmap foldl fst snd] in *. rewrite IH. f_equal. unfold env_assignment.
  change (go "=" ++ v) with ("="%char :: v). rewrite IndexByte_first by done.
  rewrite take_app_length. replace (S (length k)) with (length k + 1)%nat by lia. by rewrite drop_app_add.
Qed.
Lemma ProxyEnv_keys alias port : Forall (λ kv, "="%char ∉ kv.1) (ProxyEnv alias port).
Proof. repeat constructor; known. Qed.
Lemma hardening_values o runtime : o ∈ go <$> ["-e"; "-v"; "--add-host"] → values o (hardening_opts runtime) = [].
Proof.
  intros Ho. unfold hardening_opts. rewrite values_app.
  repeat (apply elem_of_cons in Ho as [->|Ho]); [..|by apply elem_of_nil in Ho]; by destruct (bool_decide _).
Qed.
Lemma env_of_injection opts alias s : values (go "-e") opts = [] →
  docker_env (opts ++ injection_opts alias s)
  = foldl (λ m kv, <[kv.1 := kv.2]> m) ∅ (ProxyEnv alias (PortOf (sp_ProxyAddr s))).
Proof.
  intros Hn. unfold docker_env, injection_opts. rewrite !values_app, Hn, values_env. cbn [app values omap].
  apply env_assignments, ProxyEnv_keys.
Qed.
Lemma PortOf_last host port : ":"%char ∉ port → PortOf (host ++ go ":" ++ port) = port.
Proof.
  intros Hp. unfold PortOf. change (go ":" ++ port) with (":"%char :: port).
  rewrite LastIndexByte_app_plain by done.
  replace (S (length host)) with (length host + 1)%nat by lia. by rewrite drop_app_add.
Qed.
Lemma fold_insert_dom (env : list (gostring * gostring)) (m : gmap gostring gostring) var :
  is_Some (foldl (λ m kv, <[kv.1 := kv.2]> m) m env !! var) → is_Some (m !! var) ∨ var ∈ env.*1.
Proof.
  revert m. induction env as [|[k v] env IH]; intros m; cbn [foldl fst snd]; [by left|].
  intros [Hm|Hin]%IH; [|right; rewrite fmap_cons; by right].
  apply lookup_insert_is_Some in Hm as [<-|[_ ?]]; [right; rewrite fmap_cons; by left|by left].
Qed.
Lemma launch_opts_sealed runtime s : sealed runtime s (launch_opts runtime s).
Proof.
  assert (docker_env (launch_opts runtime s)
    = foldl (λ m kv, <[kv.1 := kv.2]> m) ∅ (ProxyEnv (hostAliasFor runtime) (PortOf (sp_ProxyAddr s)))) as Henv.
  { unfold launch_opts. rewrite app_assoc. apply env_of_injection. rewrite values_app, hardening_values; [done|known]. }
  split.
  all: try (unfold launch_opts, hardening_opts; destruct (bool_decide (runtime = go "podman"));
    first [ split; reflexivity | reflexivity ]).
  - apply list_elem_of_In. unfold launch_opts, hardening_opts. cbn [app In]. tauto.
  - intros v Hv. unfold launch_opts, hardening_opts in Hv. 
    destruct (bool_decide _); cbn in Hv; set_unfold in Hv; naive_solver.
  - intros host port var Ha Hn Hvar. rewrite Henv, Ha, PortOf_last by done. clear Ha Hn.
    repeat (apply elem_of_cons in Hvar as [->|Hvar]); [..|by apply elem_of_nil in Hvar];
      unfold ProxyEnv; cbn [foldl fst snd]; by simplify_map_eq.
  - intros var Hvar. rewrite Henv. repeat (apply elem_of_cons in Hvar as [->|Hvar]); [..|by apply elem_of_nil in Hvar];
      unfold ProxyEnv; cbn [foldl fst snd]; by simplify_map_eq.
  - rewrite Henv. unfold ProxyEnv; cbn [foldl fst snd]. split_and!; [by simplify_map_eq|by simplify_map_eq|].
    intros host port -> Hn. rewrite PortOf_last by done. by simplify_map_eq.
  - intros var. rewrite Henv. intros [[? Hm]|Hin]%fold_insert_dom; [by rewrite lookup_empty in Hm|exact Hin].
  - split; apply list_elem_of_In; unfold launch_opts; cbn [app In]; tauto.
  - intros o v Hin. apply (list_elem_of_fmap_2 fst) in Hin. cbn [fst] in Hin.
    assert ((launch_opts runtime s).*1 ⊆ go <$>
      ["--rm"; "-it"; "--cap-drop"; "--cap-add"; "--security-opt"; "--read-only"; "--tmpfs"; "--pids-limit"; "--memory";
       "--userns"; "--add-host"; "-v"; "-w"; "-e"]) as Hsub; [|by apply Hsub].
    assert ((launch_opts runtime s).*1 = go <$> (["--rm"; "-it"; "--cap-drop"; "--cap-add"; "--cap-add"; "--security-opt"; "--read-only";
       "--tmpfs"; "--tmpfs"; "--pids-limit"; "--memory"] ++ (if bool_decide (runtime = go "podman") then ["--userns"] else [])
       ++ ["--add-host"; "-v"; "-w"; "-v"; "-e"; "-e"; "-e"; "-e"; "-e"; "-e"; "-e"; "-e"; "-e"; "-e"])) as ->.
    { unfold launch_opts, hardening_opts. by destruct (bool_decide _). }
    destruct (bool_decide _); apply (bool_decide_unpack _); vm_compute; exact I.
Qed.

(** C34: a launch is sealed.  Whatever [Launch] runs with an image that does not look like
    an option — for either runtime, any project directory, proxy address and command — a
    container runtime that reads options as documented reads it as: this image, this
    command, all capabilities dropped but the two of the redirect, no privilege escalation,
    a read-only root with two scratch file systems, the process and memory limits, the
    user mapping of podman, only the project and the certificate mounted, removed when
    it ends, an environment of exactly the ten variables whose proxy variables name the
    proxy of this host and whose certificate variables name the mounted certificate, and
    no other option.  With an image that looks like an option none of this holds
    ([Launch_option_image]). *)
Theorem Launch_sealed runtime s argv
    (Hlaunch : Launch runtime s = inr argv) (Himage : option_like (sp_Image s) = false) :
  ∃ args opts, argv = runtime :: go "run" :: args
    ∧ parse_run args = Some (opts, sp_Image s, sp_Entrypoint s) ∧ sealed runtime s opts.
Proof.
  destruct (Launch_runs _ _ _ Hlaunch Himage) as (args & -> & Hp).
  exists args, (launch_opts runtime s). do 2 (split; [done|]). apply launch_opts_sealed.
Qed.

(** [Validate] does not ask that the image is not an option: with such an image the first word
    of the command is run as the image, with the option in force. *)
Lemma Launch_option_image runtime s command argv : sp_Mode s = ModeEphemeralTTY →
  sp_Image s = go "--privileged" → sp_Entrypoint s = go "alpine" :: command → sp_ProjectDir s ≠ [] →
  Launch runtime s = inr argv →
  ∃ args opts, argv = runtime :: go "run" :: args ∧ parse_run args = Some (opts, go "alpine", command)
    ∧ (go "--privileged", None) ∈ opts.
Proof.
  intros Hm Hi He Hd. unfold Launch, Validate. rewrite Hm, Hi, He. destruct (bool_decide (sp_ProjectDir s = [])); [done|].
  cbn [bool_decide]. intros Hl. injection Hl as <-. eexists _, (launch_opts runtime s ++ [(go "--privileged", None)]).
  split; [reflexivity|]. cbn [sp_Image sp_Entrypoint set_alias]. rewrite Hi, He. split.
  - rewrite (app_assoc _ [go "--privileged"]). apply options_words_parse; [|done..].
    apply options_words_app; [|words]. rewrite <- app_assoc. apply options_words_app; [words|].
    apply options_words_app; [apply hardening_words|]. apply injection_words, hostAliasFor_not_empty.
  - apply elem_of_app. right. by apply list_elem_of_singleton.
Qed.

(** The options that confine a container. *)
Definition confining : list gostring :=
  go <$> ["--cap-drop"; "--cap-add"; "--security-opt"; "--tmpfs"; "--pids-limit"; "--memory"; "--userns"; "--add-host"].
Definition devcontainer_opts : runtime_options :=
  (go "--add-host", Some (dockerHostAlias ++ go ":host-gateway")) :: hardening_opts (go "docker").
Lemma generated_words : options_words devcontainer_opts
  ([go "--add-host"; dockerHostAlias ++ go ":host-gateway"] ++ HardeningArgs (go "docker")).
Proof. apply ow_value; [known|apply hardening_words]. Qed.

(** The two front doors agree.  The devcontainer file generated for an image and a proxy
    confines the container exactly as a launch by docker does: its [runArgs] read as the same
    values of every confining option and the read-only root, its [containerEnv] is the
    environment the [-e] options of the launch make, its image is the launch's. *)
Theorem devcontainer_agrees i s argv
    (Hlaunch : Launch (go "docker") s = inr argv) (Himage : option_like (sp_Image s) = false)
    (Hsame : gi_Image i = sp_Image s) (Hproxy : gi_ProxyAddr i = sp_ProxyAddr s) :
  ∃ args opts runArgs dopts,
    argv = go "docker" :: go "run" :: args ∧ parse_run args = Some (opts, sp_Image s, sp_Entrypoint s)
    ∧ Generate i !! go "runArgs" = Some (strings_array runArgs)
    ∧ (∀ image command, image ≠ [] → option_like image = false →
        parse_run (runArgs ++ image :: command) = Some (dopts, image, command))
    ∧ (∀ o, o ∈ confining → values o dopts = values o opts)
    ∧ (go "--read-only", None) ∈ dopts ∧ (go "--read-only", None) ∈ opts
    ∧ Generate i !! go "containerEnv" = Some (map_json (quoted <$> docker_env opts))
    ∧ Generate i !! go "image" = Some (quoted (sp_Image s)).
Proof.
  destruct (Launch_runs _ _ _ Hlaunch Himage) as (args & -> & Hp). clear Hlaunch.
  exists args, (launch_opts (go "docker") s),
    ([go "--add-host"; dockerHostAlias ++ go ":host-gateway"] ++ HardeningArgs (go "docker")), devcontainer_opts. do 2 (split; [done|]). clear Hp.
  split; [unfold Generate; by simplify_map_eq|].
  split; [intros image command Hi Ho; exact (options_words_parse _ _ _ _ generated_words Hi Ho)|].
  split.
  { intros o Ho. unfold confining in Ho. repeat (apply elem_of_cons in Ho as [->|Ho]); [reflexivity..|]. by apply elem_of_nil in Ho. }
  split; [apply list_elem_of_In; unfold devcontainer_opts, hardening_opts; cbn [app In]; tauto|].
  split; [apply list_elem_of_In; unfold launch_opts, hardening_opts; cbn [app In]; tauto|].
  split; [|unfold Generate; rewrite Hsame; by simplify_map_eq].
  unfold launch_opts. rewrite app_assoc, env_of_injection by reflexivity.
  unfold Generate, containerEnv. rewrite Hproxy. by simplify_map_eq.
Qed.

(** An agent is run in the image of the launch policy, sealed, and only when the policy mounts
    by binding. *)
Definition agent_spec (bin : gostring) (extraArgs : list gostring) (cwd caPath : gostring) (info : LaunchInfo) : Spec :=
  mkSpec ModeEphemeralTTY (li_Image info) cwd (bin :: extraArgs) (li_ProxyAddr info) caPath [].
Lemma RunAgent_image lookPath tool extraArgs cwd caPath info argv :
  option_like (li_Image info) = false →
  RunAgent lookPath tool extraArgs cwd caPath info = inr argv →
  ∃ runtime bin args opts, argv = runtime :: go "run" :: args ∧ runtime ∈ preferredRuntimes ∧ lookPath runtime = true
    ∧ knownAgents !! tool = Some bin ∧ li_MountMode info = go "bind"
    ∧ parse_run args = Some (opts, li_Image info, bin :: extraArgs)
    ∧ sealed runtime (agent_spec bin extraArgs cwd caPath info) opts.
Proof.
  intros Hi. unfold RunAgent, specFromLaunchInfo, knownAgentEntrypoint.
  destruct (knownAgents !! tool) as [bin|] eqn:Hk; cbn [fmap option_fmap option_map]; [|done].
  destruct (negb (bool_decide (li_MountMode info = go "bind"))) eqn:Hm; [done|].
  apply negb_false_iff, bool_decide_eq_true in Hm.
  unfold Detect. destruct (filter _ _) as [|runtime rest] eqn:Hf; [done|]. intros Hl.
  assert (runtime ∈ filter (λ bin, lookPath bin = true) preferredRuntimes) as Hin by (rewrite Hf; constructor).
  apply list_elem_of_filter in Hin as [Hlook Hpref].
  destruct (Launch_runs _ (agent_spec bin extraArgs cwd caPath info) _ Hl Hi) as (args & -> & Hp).
  exists runtime, bin, args, (launch_opts runtime (agent_spec bin extraArgs cwd caPath info)).
  split_and!; [done..|]. apply launch_opts_sealed.
Qed.
End launch.

(** ** A command line, for the witnesses *)
Module SandboxExample.
Fixpoint toy_parse (fuel : nat) (words : list gostring) : option (runtime_options * gostring * list gostring) :=
  match fuel, words with
  | S fuel, w :: ws =>
      if bool_decide (w ∈ flag_options) then add_option w None <$> toy_parse fuel ws
      else if bool_decide (w ∈ value_options) then
        match ws with v :: ws => add_option w (Some v) <$> toy_parse fuel ws | [] => None end
      else if bool_decide (w = []) || option_like w then None else Some ([], w, ws)
  | _, _ => None
  end.
#[local] Instance toy_cli : ContainerCLI := λ words, toy_parse (length words) words.
Lemma toy_fuel words f g : (length words ≤ f)%nat → (length words ≤ g)%nat → toy_parse f words = toy_parse g words.
Proof.
  revert words g. induction f as [|f IH]; intros [|w ws] [|g] Hf Hg; cbn [length] in *; try lia; try done.
  cbn [toy_parse]. rewrite (IH ws g) by lia. case_match; [done|]. case_match; [|done].
  destruct ws as [|v ws]; [done|]. cbn [length] in *. by rewrite (IH ws g) by lia.
Qed.
Lemma disjoint_options o : o ∈ value_options → o ∉ flag_options.
Proof.
  assert (Forall (λ o, o ∉ flag_options) value_options) as Hall by (apply (bool_decide_unpack _); vm_compute; exact I).
  rewrite Forall_forall in Hall. apply Hall.
Qed.
Lemma options_like o : o ∈ value_options ++ flag_options → option_like o = true.
Proof.
  assert (Forall (λ o, option_like o = true) (value_options ++ flag_options)) as Hall by (apply (bool_decide_unpack _); vm_compute; exact I).
  rewrite Forall_forall in Hall. apply Hall.
Qed.
#[local] Instance toy_cli_laws : ContainerLaws.
Proof.
  split; unfold parse_run, toy_cli.
  - intros o v rest Ho. rewrite <- (toy_fuel rest (S (length rest)) (length rest)) by lia.
    cbn [length]. generalize (S (length rest)). intros f. cbn [toy_parse].
    rewrite bool_decide_eq_false_2 by (by apply disjoint_options). by rewrite bool_decide_eq_true_2 by done.
  - intros o rest Ho. cbn [length toy_parse]. by rewrite bool_decide_eq_true_2 by done.
  - intros image command Hne Hl. cbn [length toy_parse].
    rewrite !bool_decide_eq_false_2, Hl; [done|done|..].
    all: intros Hin; rewrite (options_like image) in Hl; [done|apply elem_of_app; tauto].
Qed.

Definition sample_spec : Spec :=
  mkSpec ModeEphemeralTTY (go "redactr-base:local") (go "/home/me/project") [go "claude"; go "--resume"]
    (go "127.0.0.1:8080") (go "/home/me/.redactr/certs/ca.crt") [].
Definition launched : list gostring := match Launch (go "docker") sample_spec with inr argv => argv | inl _ => [] end.
Lemma Launch_sealed_witness : ∃ args opts, launched = go "docker" :: go "run" :: args
  ∧ parse_run args = Some (opts, go "redactr-base:local", [go "claude"; go "--resume"])
  ∧ sealed (go "docker") sample_spec opts.
Proof. apply (Launch_sealed (go "docker") sample_spec launched); reflexivity. Defined.
Lemma devcontainer_agrees_witness : ∃ args opts runArgs dopts,
  launched = go "docker" :: go "run" :: args ∧ parse_run args = Some (opts, sp_Image sample_spec, sp_Entrypoint sample_spec)
  ∧ Generate (mkGenerate (go "redactr-base:local") (go "127.0.0.1:8080") []) !! go "runArgs" = Some (strings_array runArgs)
  ∧ (∀ image command, image ≠ [] → option_like image = false →
      parse_run (runArgs ++ image :: command) = Some (dopts, image, command))
  ∧ (∀ o, o ∈ confining → values o dopts = values o opts)
  ∧ (go "--read-only", None) ∈ dopts ∧ (go "--read-only", None) ∈ opts
  ∧ Generate (mkGenerate (go "redactr-base:local") (go "127.0.0.1:8080") []) !! go "containerEnv"
    = Some (map_json (quoted <$> docker_env opts))
  ∧ Generate (mkGenerate (go "redactr-base:local") (go "127.0.0.1:8080") []) !! go "image" = Some (quoted (sp_Image sample_spec)).
Proof.
  apply (devcontainer_agrees (mkGenerate (go "redactr-base:local") (go "127.0.0.1:8080") []) sample_spec launched); reflexivity.
Defined.
End SandboxExample.
