(* ===== verification/Sni.v ===== *)
(** * The SNI parser and the transparent listener — internal/proxy/sni.go, transparent.go

    [parseSNI] reads the server name of a TLS ClientHello, byte by byte with
    Go's bounds-checked indexing: an access out of range is [Panic].
    [transparent_conn] is what the transparent listener decides for one
    connection. *)
From S2P Require Import Prelude GoStr Utf8 Domain.
Local Open Scope Z_scope.

Definition sni_err {A} (msg : string) : res gostring A := Err (go msg).
Definition errNoSNI {A} : res gostring A := sni_err "client hello has no SNI extension".

Definition u8 (s : gostring) (i : Z) : res gostring Z := b ← index s i; Ok (byteZ b).
(** [binary.BigEndian.Uint16] *)
Definition be16 (s : gostring) : res gostring Z :=
  lo ← u8 s 1; hi ← u8 s 0; Ok (Z.lor lo (Z.shiftl hi 8)).

(** ... on [s[i:j]] *)
Definition u16 (s : gostring) (i j : Z) : res gostring Z := t ← slice s i j; be16 t.

(** The loop over the names of a server-name list. *)
Fixpoint sni_names (fuel : nat) (l : gostring) : res gostring gostring :=
  match fuel with
  | 0%nat => Panic
  | S k =>
      if 3 <=? len l then
        nameType ← u8 l 0;
        nameLen ← u16 l 1 3;
        if len l <? 3 + nameLen then sni_err "tls: SNI name truncated"
        else if nameType =? 0 then slice l 3 (3 + nameLen)
        else rest ← slice l (3 + nameLen) (len l); sni_names k rest
      else errNoSNI
  end.

(** The loop over the extensions. *)
Fixpoint sni_exts (fuel : nat) (exts : gostring) : res gostring gostring :=
  match fuel with
  | 0%nat => Panic
  | S k =>
      if 4 <=? len exts then
        extType ← u16 exts 0 2;
        extDataLen ← u16 exts 2 4;
        if len exts <? 4 + extDataLen then sni_err "tls: extension truncated"
        else
          extData ← slice exts 4 (4 + extDataLen);
          if extType =? 0 then
            if len extData <? 2 then sni_err "tls: short SNI list"
            else
              listLen ← u16 extData 0 2;
              if len extData <? 2 + listLen then sni_err "tls: SNI list truncated"
              else l ← slice extData 2 (2 + listLen); sni_names (S (length l)) l
          else rest ← slice exts (4 + extDataLen) (len exts); sni_exts k rest
      else errNoSNI
  end.

(** The body of the ClientHello. *)
Definition sni_body (body : gostring) : res gostring gostring :=
  if len body <? 2 + 32 + 1 then sni_err "tls: hello too short"
  else
    let p := 34 in
    sidLen ← u8 body p;
    let p := p + 1 in
    if len body <? p + sidLen then sni_err "tls: bad session id"
    else
      let p := p + sidLen in
      if len body <? p + 2 then sni_err "tls: missing cipher suites length"
      else
        csLen ← u16 body p (len body);
        let p := p + 2 in
        if len body <? p + csLen then sni_err "tls: bad cipher suites"
        else
          let p := p + csLen in
          if len body <? p + 1 then sni_err "tls: missing compression methods length"
          else
            cmLen ← u8 body p;
            let p := p + 1 in
            if len body <? p + cmLen then sni_err "tls: bad compression methods"
            else
              let p := p + cmLen in
              if len body <? p + 2 then sni_err "tls: missing extensions length"
              else
                extLen ← u16 body p (len body);
                let p := p + 2 in
                if len body <? p + extLen then sni_err "tls: extensions truncated"
                else exts ← slice body p (p + extLen); sni_exts (S (length exts)) exts.

Definition parseSNI (data : gostring) : res gostring gostring :=
  if len data <? 5 then sni_err "tls: short record header"
  else
    t ← u8 data 0;
    if negb (t =? 22) then sni_err "tls: not a handshake record"
    else
      recLen ← u16 data 3 5;
      if len data <? 5 + recLen then sni_err "tls: record truncated"
      else
        hs ← slice data 5 (5 + recLen);
        if len hs <? 4 then sni_err "tls: short handshake"
        else
          ht ← u8 hs 0;
          if negb (ht =? 1) then sni_err "tls: not a ClientHello"
          else
            h1 ← u8 hs 1; h2 ← u8 hs 2; h3 ← u8 hs 3;
            let hsLen := Z.lor (Z.lor (Z.shiftl h1 16) (Z.shiftl h2 8)) h3 in
            if len hs <? 4 + hsLen then sni_err "tls: handshake truncated"
            else body ← slice hs 4 (4 + hsLen); sni_body body.

(** ** The transparent listener *)

(** [bufio.Reader.Peek] on a connection that has delivered [input]: an error
    when the buffer is too small or the input ends first. *)
Definition buffer_size : Z := 16 * 1024.
Definition Peek (input : gostring) (n : Z) : option gostring :=
  if buffer_size <? n then None else if len input <? n then None else Some (sub input 0 n).

(** What becomes of a connection: closed, or handed to goproxy as if a CONNECT
    to the host had come first, with the bytes read so far replayed. *)
Inductive conn_fate := Closed | Spliced (stream : gostring).

Definition crlf : gostring := [chr 13; chr 10].
Definition connect_request (host : gostring) : gostring :=
  go "CONNECT " ++ host ++ go ":443 HTTP/1.1" ++ crlf ++ go "Host: " ++ host ++ go ":443" ++ crlf ++ crlf.

Definition handleTransparent `{UnicodeData} (domains : Filter) (input : gostring) : res gostring conn_fate :=
  match Peek input 5 with
  | None => Ok Closed
  | Some header =>
      t ← u8 header 0;
      if negb (t =? 22) then Ok Closed
      else
        hi ← u8 header 3; lo ← u8 header 4;
        let recLen := Z.lor (Z.shiftl hi 8) lo in
        if (recLen <=? 0) || (16 * 1024 <? recLen) then Ok Closed
        else
          match Peek input (5 + recLen) with
          | None => Ok Closed
          | Some hello =>
              match parseSNI hello with
              | Panic => Panic
              | Err _ => Ok Closed
              | Ok host =>
                  if negb (ShouldIntercept domains host) then Ok Closed
                  else Ok (Spliced (connect_request host ++ input))
              end
          end
  end.

(** ** No access out of range *)

Lemma u8_ok s i : 0 ≤ i < len s → ∃ b, u8 s i = Ok b ∧ 0 ≤ b < 256.
Proof.
  intros Hi. unfold u8. destruct (index_Ok (E:=gostring) s i Hi) as [b ->]. cbn.
  eexists. split; [done|apply byteZ_range].
Qed.
Lemma be16_ok s : 2 ≤ len s → ∃ n, be16 s = Ok n ∧ 0 ≤ n < 65536.
Proof.
  intros Hs. unfold be16. destruct (u8_ok s 1) as (lo & -> & Hlo); [lia|].
  destruct (u8_ok s 0) as (hi & -> & Hhi); [lia|]. cbn. rewrite lor_bytes by done.
  eexists. split; [done|lia].
Qed.
Lemma slice16_ok s i j :
  0 ≤ i → i + 2 ≤ j → j ≤ len s → ∃ n, u16 s i j = Ok n ∧ 0 ≤ n < 65536.
Proof.
  intros. unfold u16. rewrite slice_Ok by lia. cbn [mbind res_bind]. apply be16_ok. rewrite len_sub by lia. lia.
Qed.

(** Step over an access that is in range, naming the value read. *)
Ltac in_range_step :=
  match goal with
  | |- u8 ?s ?i ≫= _ ≠ _ =>
      let b := fresh "b" in let H := fresh "Hb" in
      destruct (u8_ok s i) as (b & -> & H); [lia|cbn [mbind res_bind]]
  | |- u16 ?s ?i ?j ≫= _ ≠ _ =>
      let n := fresh "n" in let H := fresh "Hn" in
      destruct (slice16_ok s i j) as (n & -> & H); [lia..|cbn [mbind res_bind]]
  | |- slice ?s ?i ?j ≫= _ ≠ _ => rewrite (slice_Ok s i j) by lia; cbn [mbind res_bind]
  | |- slice ?s ?i ?j ≠ _ =>
      rewrite (slice_Ok s i j) by lia; cbn [mbind res_bind]
  end.

Lemma sni_names_total fuel l : (length l < fuel)%nat → sni_names fuel l ≠ Panic.
Proof.
  revert l. induction fuel as [|k IH]; intros l Hl; [lia|]. cbn [sni_names].
  destruct (3 <=? len l) eqn:E; [|done]. in_range_step. in_range_step.
  if_case; [done|]. if_case; [in_range_step; done|]. in_range_step. apply IH.
  assert (len (sub l (3 + n) (len l)) = len l - (3 + n)) as Hs by (rewrite len_sub; lia).
  unfold len in *. lia.
Qed.

Lemma sni_exts_total fuel l : (length l < fuel)%nat → sni_exts fuel l ≠ Panic.
Proof.
  revert l. induction fuel as [|k IH]; intros l Hl; [lia|]. cbn [sni_exts].
  destruct (4 <=? len l) eqn:E; [|done]. in_range_step. in_range_step.
  if_case; [done|]. in_range_step.
  assert (len (sub l 4 (4 + n0)) = n0) as Hs by (rewrite len_sub; lia). if_case.
  - if_case; [done|]. in_range_step. if_case; [done|]. in_range_step. apply sni_names_total, Nat.lt_succ_diag_r.
  - in_range_step. apply IH.
    assert (len (sub l (4 + n0) (len l)) = len l - (4 + n0)) as Hr by (rewrite len_sub; lia).
    unfold len in *. lia.
Qed.

Lemma sni_body_total body : sni_body body ≠ Panic.
Proof.
  unfold sni_body. if_case; [done|]. in_range_step. if_case; [done|]. if_case; [done|].
  in_range_step. if_case; [done|]. if_case; [done|]. in_range_step. if_case; [done|]. if_case; [done|].
  in_range_step. if_case; [done|]. in_range_step. apply sni_exts_total, Nat.lt_succ_diag_r.
Qed.

Lemma parseSNI_not_panic data : parseSNI data ≠ Panic.
Proof.
  unfold parseSNI. if_case; [done|]. in_range_step. if_case; [done|]. in_range_step. if_case; [done|].
  in_range_step. assert (len (sub data 5 (5 + n)) = n) as Hs by (rewrite len_sub; lia).
  if_case; [done|]. in_range_step. if_case; [done|]. in_range_step. in_range_step. in_range_step.
  assert (0 ≤ Z.lor (Z.lor (Z.shiftl b1 16) (Z.shiftl b2 8)) b3) as Hpos.
  { apply Z.lor_nonneg. split; [apply Z.lor_nonneg; split; apply Z.shiftl_nonneg; lia|lia]. }
  if_case; [done|]. in_range_step. apply sni_body_total.
Qed.

(** ** Reading a ClientHello back *)

Definition be (n : Z) : gostring := [byte_of (n / 256); byte_of n].
Definition be24 (n : Z) : gostring := [byte_of (n / 65536); byte_of (n / 256); byte_of n].
Definition vec8 (s : gostring) : gostring := byte_of (len s) :: s.
Definition vec16 (s : gostring) : gostring := be (len s) ++ s.

(** Extensions and names as type and content. *)
Definition ext_bytes (e : Z * gostring) : gostring := be e.1 ++ vec16 e.2.
Definition name_bytes (n : Z * gostring) : gostring := byte_of n.1 :: vec16 n.2.
Definition server_name (names : list (Z * gostring)) (host rest : gostring) : Z * gostring :=
  (0, vec16 ((names ≫= name_bytes) ++ name_bytes (0, host) ++ rest)).

Record ClientHello := mkHello {
  ch_fixed : gostring;      (* version and random *)
  ch_session : gostring;
  ch_ciphers : gostring;
  ch_compression : gostring;
  ch_exts : gostring;
}.
Definition hello_body (h : ClientHello) : gostring :=
  ch_fixed h ++ vec8 (ch_session h) ++ vec16 (ch_ciphers h) ++ vec8 (ch_compression h) ++ vec16 (ch_exts h).
Definition hello_record (version : gostring) (h : ClientHello) : gostring :=
  byte_of 22 :: version ++ vec16 (byte_of 1 :: be24 (len (hello_body h)) ++ hello_body h).

Lemma u8_at (a b : gostring) n i : i = len a → 0 ≤ n < 256 → u8 (a ++ byte_of n :: b) i = Ok n.
Proof.
  intros -> Hn. unfold u8, index. pose proof (len_nonneg a). rewrite (proj2 (Z.leb_le _ _)) by done.
  unfold len. rewrite Nat2Z.id, list_lookup_middle by done. cbn. by rewrite byteZ_byte_of, Z.mod_small.
Qed.

Lemma slice_at (a b c : gostring) i j :
  i = len a → j = len a + len b → slice (E:=gostring) (a ++ b ++ c) i j = Ok b.
Proof.
  intros -> ->. pose proof (len_nonneg a). pose proof (len_nonneg b). pose proof (len_nonneg c).
  rewrite slice_Ok by (rewrite ?len_app; lia). f_equal. rewrite sub_app_r by lia.
  rewrite sub_app_l by lia. replace (len a - len a) with 0 by lia.
  replace (len a + len b - len a) with (len b) by lia. apply sub_full.
Qed.

Lemma be16_be n t : 0 ≤ n < 65536 → be16 (be n ++ t) = Ok n.
Proof.
  intros Hn. unfold be16. cbn [be app].
  change (u8 (byte_of (n / 256) :: byte_of n :: t) 1) with (Ok (E:=gostring) (byteZ (byte_of n))).
  change (u8 (byte_of (n / 256) :: byte_of n :: t) 0) with (Ok (E:=gostring) (byteZ (byte_of (n / 256)))).
  rewrite !byteZ_byte_of, (Z.mod_small (n / 256))
    by (split; [apply Z.div_pos; lia|apply Z.div_lt_upper_bound; lia]).
  cbn [mbind res_bind]. rewrite lor_bytes by (apply Z.mod_pos_bound; lia). f_equal.
  pose proof (Z.div_mod n 256). lia.
Qed.

Lemma u16_at (a b : gostring) n i j :
  i = len a → i + 2 ≤ j → j ≤ len (a ++ be n ++ b) → 0 ≤ n < 65536 → u16 (a ++ be n ++ b) i j = Ok n.
Proof.
  intros -> Hj Hl Hn. pose proof (len_nonneg a). unfold u16. rewrite slice_Ok by lia. cbn [mbind res_bind].
  rewrite sub_app_r by lia. replace (len a - len a) with 0 by lia.
  assert (sub (be n ++ b) 0 (j - len a) = be n ++ sub b 0 (j - len a - 2)) as ->; [|by apply be16_be].
  unfold sub. cbn [Z.to_nat drop]. replace (Z.to_nat (j - len a - 0)) with (S (S (Z.to_nat (j - len a - 2)))) by lia.
  change (Z.to_nat 0) with 0%nat. by rewrite !drop_0, (Z.sub_0_r (j - len a - 2)).
Qed.

Lemma len_be n : len (be n) = 2.
Proof. done. Qed.
Lemma len_be24 n : len (be24 n) = 3.
Proof. done. Qed.
Lemma len_vec16 s : len (vec16 s) = 2 + len s.
Proof. unfold vec16. by rewrite len_app, len_be. Qed.
Lemma len_vec8 s : len (vec8 s) = 1 + len s.
Proof. unfold vec8. by rewrite len_cons. Qed.

Lemma sni_names_skip k t nm rest :
  t ≠ 0 → 0 ≤ t < 256 → len nm < 65536 → sni_names (S k) (name_bytes (t, nm) ++ rest) = sni_names k rest.
Proof.
  intros Ht Ht' Hn. cbn [sni_names]. set (l := name_bytes (t, nm) ++ rest).
  pose proof (len_nonneg nm). pose proof (len_nonneg rest).
  assert (len l = 3 + len nm + len rest) as Hl
    by (unfold l, name_bytes; rewrite len_app, len_cons, len_vec16; cbn [fst snd]; lia).
  rewrite (proj2 (Z.leb_le 3 (len l))) by lia.
  rewrite (u8_at [] (vec16 nm ++ rest) t 0 eq_refl Ht' : u8 l 0 = _). cbn [mbind res_bind].
  assert (u16 l 1 3 = Ok (len nm)) as ->.
  { replace l with ([byte_of t] ++ be (len nm) ++ nm ++ rest) in * by (unfold l, name_bytes, vec16; cbn; done).
    apply u16_at; [done|lia|lia|lia]. }
  cbn [mbind res_bind]. rewrite (proj2 (Z.ltb_ge _ _)) by lia. rewrite (proj2 (Z.eqb_neq _ _)) by done.
  assert (slice (E:=gostring) l (3 + len nm) (len l) = Ok rest) as ->; [|done].
  unfold l. rewrite <- (app_nil_r rest) at 1. apply slice_at; unfold name_bytes;
    rewrite ?len_app, ?len_cons, ?len_vec16; cbn [fst snd]; lia.
Qed.

Lemma sni_names_host k host rest :
  len host < 65536 → sni_names (S k) (name_bytes (0, host) ++ rest) = Ok host.
Proof.
  intros Hn. cbn [sni_names]. set (l := name_bytes (0, host) ++ rest).
  pose proof (len_nonneg host). pose proof (len_nonneg rest).
  assert (l = [byte_of 0] ++ be (len host) ++ host ++ rest) as El by (unfold l, name_bytes, vec16; cbn; done).
  assert (len l = 3 + len host + len rest) as Hl by (rewrite El, !len_app, len_be, len_cons, len_nil; lia).
  rewrite (proj2 (Z.leb_le 3 (len l))) by lia.
  rewrite (u8_at [] (vec16 host ++ rest) 0 0 eq_refl ltac:(lia) : u8 l 0 = _). cbn [mbind res_bind].
  assert (u16 l 1 3 = Ok (len host)) as ->.
  { rewrite El. apply u16_at; [done|lia| |lia]. rewrite <- El. lia. }
  cbn [mbind res_bind]. rewrite (proj2 (Z.ltb_ge _ _)) by lia. rewrite Z.eqb_refl.
  rewrite El, app_assoc. apply slice_at; rewrite len_app, len_be, len_cons, len_nil; lia.
Qed.

Definition name_ok (n : Z * gostring) : Prop := n.1 ≠ 0 ∧ 0 ≤ n.1 < 256 ∧ len n.2 < 65536.
Definition ext_ok (e : Z * gostring) : Prop := e.1 ≠ 0 ∧ 0 ≤ e.1 < 65536 ∧ len e.2 < 65536.

Lemma sni_names_list names host rest k :
  Forall name_ok names → len host < 65536 → (length names < k)%nat →
  sni_names k ((names ≫= name_bytes) ++ name_bytes (0, host) ++ rest) = Ok host.
Proof.
  intros Hn Hh. revert k. induction Hn as [|[t nm] names (Ht & Ht' & Hl) _ IH]; intros [|k] Hk;
    cbn [length] in Hk; try lia.
  - by apply sni_names_host.
  - rewrite bind_cons, <- app_assoc, sni_names_skip by done. apply IH. lia.
Qed.

Lemma length_bind_bytes {A} (f : A → gostring) l :
  (∀ x, (1 ≤ length (f x))%nat) → (length l ≤ length (l ≫= f))%nat.
Proof. intros Hf. apply length_bind_ge, Forall_true. intros x. specialize (Hf x). lia. Qed.

(** The header of an extension. *)
Lemma ext_header t d rest :
  0 ≤ t < 65536 → len d < 65536 →
  let exts := ext_bytes (t, d) ++ rest in
  len exts = 4 + len d + len rest ∧ u16 exts 0 2 = Ok t ∧ u16 exts 2 4 = Ok (len d)
  ∧ slice (E:=gostring) exts 4 (4 + len d) = Ok d
  ∧ slice (E:=gostring) exts (4 + len d) (len exts) = Ok rest.
Proof.
  intros Ht Hd exts. pose proof (len_nonneg d). pose proof (len_nonneg rest).
  assert (len exts = 4 + len d + len rest) as Hl.
  { unfold exts, ext_bytes. rewrite !len_app, len_vec16, len_be. cbn [fst snd]. lia. }
  assert (exts = be t ++ be (len d) ++ d ++ rest) as E1.
  { unfold exts, ext_bytes, vec16. cbn [fst snd]. by rewrite <- !app_assoc. }
  split_and!; [done|..].
  - rewrite E1 in Hl |- *. rewrite <- (app_nil_l (be t ++ _)) in Hl |- *. apply u16_at; [done|lia|lia|done].
  - rewrite E1 in Hl |- *. apply u16_at; [by rewrite len_be|lia|lia|lia].
  - rewrite E1, app_assoc. apply slice_at; rewrite len_app, !len_be; lia.
  - rewrite Hl, E1, 2!app_assoc. rewrite <- (app_nil_r rest) at 1.
    apply slice_at; rewrite !len_app, !len_be; lia.
Qed.

Lemma sni_exts_skip k e rest : ext_ok e → sni_exts (S k) (ext_bytes e ++ rest) = sni_exts k rest.
Proof.
  destruct e as [t d]. intros (Hne & Ht & Hd). cbn [fst snd] in *.
  pose proof (len_nonneg d). pose proof (len_nonneg rest).
  destruct (ext_header t d rest Ht Hd) as (Hl & E1 & E2 & E3 & E4). cbn [sni_exts].
  rewrite (proj2 (Z.leb_le 4 _)) by lia. rewrite E1, E2. cbn [mbind res_bind].
  rewrite (proj2 (Z.ltb_ge _ _)) by lia. rewrite E3. cbn [mbind res_bind].
  rewrite (proj2 (Z.eqb_neq _ _)) by done. by rewrite E4.
Qed.

Lemma sni_exts_name k names host tail rest :
  Forall name_ok names → len host < 65536 →
  len (server_name names host tail).2 < 65536 →
  sni_exts (S k) (ext_bytes (server_name names host tail) ++ rest) = Ok host.
Proof.
  intros Hn Hh Hd. unfold server_name in *. cbn [snd] in Hd.
  set (l := (names ≫= name_bytes) ++ name_bytes (0, host) ++ tail) in *.
  pose proof (len_nonneg l). pose proof (len_nonneg rest). rewrite len_vec16 in Hd.
  destruct (ext_header 0 (vec16 l) rest) as (Hl & E1 & E2 & E3 & E4); [lia|rewrite len_vec16; lia|].
  rewrite len_vec16 in *. cbn [sni_exts].
  rewrite (proj2 (Z.leb_le 4 _)) by lia. rewrite E1, E2. cbn [mbind res_bind].
  rewrite (proj2 (Z.ltb_ge _ (4 + (2 + len l)))) by lia. rewrite E3. cbn [mbind res_bind].
  rewrite Z.eqb_refl, len_vec16. rewrite (proj2 (Z.ltb_ge _ 2)) by lia.
  assert (u16 (vec16 l) 0 2 = Ok (len l)) as ->.
  { apply (u16_at [] l); [done|lia| |lia]. cbn [app]. fold (vec16 l). rewrite len_vec16. lia. }
  cbn [mbind res_bind]. rewrite Z.ltb_irrefl.
  assert (slice (E:=gostring) (vec16 l) 2 (2 + len l) = Ok l) as ->.
  { unfold vec16. rewrite <- (app_nil_r l) at 2. apply slice_at; rewrite len_be; lia. }
  cbn [mbind res_bind]. apply sni_names_list; [done..|].
  assert (length names ≤ length (names ≫= name_bytes))%nat
    by (apply length_bind_bytes; intros x; cbn; lia).
  unfold l. rewrite length_app. lia.
Qed.

Lemma sni_exts_list before names host tail after k :
  Forall ext_ok before → Forall name_ok names → len host < 65536 →
  len (server_name names host tail).2 < 65536 → (length before < k)%nat →
  sni_exts k ((before ≫= ext_bytes) ++ ext_bytes (server_name names host tail) ++ after) = Ok host.
Proof.
  intros Hb Hn Hh Hd. revert k. induction Hb as [|e before He _ IH]; intros [|k] Hk;
    cbn [length] in Hk; try lia.
  - by apply sni_exts_name.
  - rewrite bind_cons, <- app_assoc, sni_exts_skip by done. apply IH. lia.
Qed.

(** The fields of a ClientHello fit their length prefixes. *)
Definition hello_ok (h : ClientHello) : Prop :=
  len (ch_fixed h) = 34 ∧ len (ch_session h) < 256 ∧ len (ch_ciphers h) < 65536
  ∧ len (ch_compression h) < 256 ∧ len (ch_exts h) < 65536.

Lemma len_hello_body h :
  hello_ok h → len (hello_body h) =
    40 + len (ch_session h) + len (ch_ciphers h) + len (ch_compression h) + len (ch_exts h).
Proof. intros (H1 & _). unfold hello_body. rewrite !len_app, !len_vec8, !len_vec16. lia. Qed.

Lemma sni_body_hello h :
  hello_ok h → sni_body (hello_body h) = sni_exts (S (length (ch_exts h))) (ch_exts h).
Proof.
  intros Hh. pose proof (len_hello_body h Hh) as Hlen. destruct Hh as (H1 & H2 & H3 & H4 & H5).
  pose proof (len_nonneg (ch_session h)). pose proof (len_nonneg (ch_ciphers h)).
  pose proof (len_nonneg (ch_compression h)). pose proof (len_nonneg (ch_exts h)).
  set (body := hello_body h) in *.
  set (a1 := ch_fixed h). set (a2 := a1 ++ vec8 (ch_session h)).
  set (a3 := a2 ++ vec16 (ch_ciphers h)). set (a4 := a3 ++ vec8 (ch_compression h)).
  assert (len a1 = 34 ∧ len a2 = 35 + len (ch_session h) ∧ len a3 = 37 + len (ch_session h) + len (ch_ciphers h)
    ∧ len a4 = 38 + len (ch_session h) + len (ch_ciphers h) + len (ch_compression h)) as (L1 & L2 & L3 & L4).
  { unfold a4, a3, a2, a1. rewrite !len_app, !len_vec8, !len_vec16. lia. }
  assert (∃ t, body = a1 ++ byte_of (len (ch_session h)) :: t) as [t1 E1]
    by (eexists; unfold body, hello_body, vec8; cbn [app]; reflexivity).
  assert (∃ t, body = a2 ++ be (len (ch_ciphers h)) ++ t) as [t2 E2].
  { eexists. unfold body, hello_body, a2, a1. rewrite <- app_assoc. unfold vec16 at 1. by rewrite <- app_assoc. }
  assert (∃ t, body = a3 ++ byte_of (len (ch_compression h)) :: t) as [t3 E3].
  { eexists. unfold body, hello_body, a3, a2, a1. rewrite <- !app_assoc. unfold vec8 at 2. cbn [app]. reflexivity. }
  assert (body = a4 ++ be (len (ch_exts h)) ++ ch_exts h) as E4.
  { unfold body, hello_body, a4, a3, a2, a1. by rewrite <- !app_assoc. }
  clearbody a1 a2 a3 a4 body. unfold sni_body.
  rewrite (proj2 (Z.ltb_ge _ (2 + 32 + 1))) by lia. cbv zeta.
  assert (u8 body 34 = Ok (len (ch_session h))) as -> by (rewrite E1; apply u8_at; lia).
  cbn [mbind res_bind]. do 2 (rewrite (proj2 (Z.ltb_ge _ _)) by lia).
  assert (u16 body (34 + 1 + len (ch_session h)) (len body) = Ok (len (ch_ciphers h))) as ->
    by (rewrite E2 in Hlen |- *; apply u16_at; lia).
  cbn [mbind res_bind]. do 2 (rewrite (proj2 (Z.ltb_ge _ _)) by lia).
  assert (u8 body (34 + 1 + len (ch_session h) + 2 + len (ch_ciphers h)) = Ok (len (ch_compression h))) as ->
    by (rewrite E3; apply u8_at; lia).
  cbn [mbind res_bind]. do 2 (rewrite (proj2 (Z.ltb_ge _ _)) by lia).
  assert (u16 body (34 + 1 + len (ch_session h) + 2 + len (ch_ciphers h) + 1 + len (ch_compression h)) (len body)
    = Ok (len (ch_exts h))) as -> by (rewrite E4 in Hlen |- *; apply u16_at; lia).
  cbn [mbind res_bind]. rewrite (proj2 (Z.ltb_ge _ _)) by lia.
  match goal with |- context [slice body ?i ?j] =>
    assert (slice (E:=gostring) body i j = Ok (ch_exts h)) as ->; [|done] end.
  replace body with ((a4 ++ be (len (ch_exts h))) ++ ch_exts h ++ [])
    by (by rewrite app_nil_r, <- app_assoc).
  apply slice_at; rewrite len_app, len_be; lia.
Qed.

(** A whole record, whatever follows it on the connection. *)
Lemma parseSNI_record version h rest :
  len version = 2 → hello_ok h → len (hello_body h) + 4 < 65536 →
  parseSNI (hello_record version h ++ rest) = sni_body (hello_body h).
Proof.
  intros Hv Hh Hl. pose proof (len_hello_body h Hh) as Hbody. pose proof (len_nonneg rest).
  assert (0 ≤ len (hello_body h)) as Hpos by apply len_nonneg.
  set (body := hello_body h) in *. clear Hbody Hh.
  set (hs := byte_of 1 :: be24 (len body) ++ body).
  assert (len hs = 4 + len body) as Lhs by (unfold hs; rewrite len_cons, len_app, len_be24; lia).
  assert (hello_record version h ++ rest = byte_of 22 :: version ++ be (len hs) ++ hs ++ rest) as ->.
  { unfold hello_record, vec16. fold body. fold hs. cbn [app]. by rewrite <- !app_assoc. }
  assert (len (byte_of 22 :: version ++ be (len hs) ++ hs ++ rest) = 9 + len body + len rest) as Ldata
    by (rewrite len_cons, !len_app, len_be; lia).
  set (data := byte_of 22 :: version ++ be (len hs) ++ hs ++ rest) in *.
  unfold parseSNI. rewrite (proj2 (Z.ltb_ge _ 5)) by lia.
  rewrite (u8_at [] (version ++ be (len hs) ++ hs ++ rest) 22 0 eq_refl ltac:(lia) : u8 data 0 = _).
  cbn [mbind res_bind]. rewrite Z.eqb_refl. cbn [negb].
  assert (u16 data 3 5 = Ok (len hs)) as ->.
  { apply (u16_at (byte_of 22 :: version) (hs ++ rest)); [rewrite len_cons; lia|lia| |lia].
    change (5 ≤ len data). lia. }
  cbn [mbind res_bind]. rewrite (proj2 (Z.ltb_ge _ (5 + _))) by lia.
  assert (slice (E:=gostring) data 5 (5 + len hs) = Ok hs) as ->.
  { replace data with ((byte_of 22 :: version ++ be (len hs)) ++ hs ++ rest)
      by (unfold data; cbn [app]; by rewrite <- app_assoc).
    apply slice_at; rewrite len_cons, len_app, len_be; lia. }
  cbn [mbind res_bind]. rewrite (proj2 (Z.ltb_ge _ 4)) by lia.
  rewrite (u8_at [] (be24 (len body) ++ body) 1 0 eq_refl ltac:(lia) : u8 hs 0 = _).
  cbn [mbind res_bind negb Z.eqb].
  assert (u8 hs 1 = Ok 0 ∧ u8 hs 2 = Ok (len body / 256) ∧ u8 hs 3 = Ok (len body mod 256)) as (-> & -> & ->).
  { assert (0 ≤ len body / 256 < 256) as Hq
      by (split; [apply Z.div_pos; lia|apply Z.div_lt_upper_bound; lia]).
    split_and!.
    - rewrite <- (Z.div_small (len body) 65536) by lia.
      apply (u8_at [byte_of 1] _ (len body / 65536)); [done|]. rewrite Z.div_small; lia.
    - by apply (u8_at [byte_of 1; byte_of (len body / 65536)] (byte_of (len body) :: body)).
    - assert (byte_of (len body) = byte_of (len body mod 256)) as Hb
        by (unfold byte_of; by rewrite Z.mod_mod).
      unfold hs, be24. rewrite Hb.
      apply (u8_at [byte_of 1; byte_of (len body / 65536); byte_of (len body / 256)] body); [done|].
      apply Z.mod_pos_bound. lia. }
  cbn [mbind res_bind]. rewrite Z.shiftl_0_l, Z.lor_0_l, lor_shiftl_add
    by (lia || (split; [apply Z.mod_pos_bound|apply Z.mod_pos_bound]; lia)).
  assert (len body / 256 * 2 ^ 8 + len body mod 256 = len body) as ->
    by (pose proof (Z.div_mod (len body) 256); lia).
  rewrite (proj2 (Z.ltb_ge _ _)) by lia.
  assert (slice (E:=gostring) hs 4 (4 + len body) = Ok body) as ->; [|done].
  replace hs with ((byte_of 1 :: be24 (len body)) ++ body ++ []) by (unfold hs; by rewrite app_nil_r).
  apply slice_at; rewrite len_cons, len_be24; lia.
Qed.

(** C38: the parser reads the server name of every well-formed ClientHello: a
    record whose extensions hold a server-name entry parses to that name,
    whatever other extensions surround it, whatever names of other types precede
    it in the list, and whatever follows the record on the connection. *)
Theorem parseSNI_roundtrip version h before names host tail after rest :
  len version = 2 → hello_ok h → len (hello_body h) + 4 < 65536 →
  ch_exts h = (before ≫= ext_bytes) ++ ext_bytes (server_name names host tail) ++ after →
  Forall ext_ok before → Forall name_ok names → len host < 65536 →
  len (server_name names host tail).2 < 65536 →
  parseSNI (hello_record version h ++ rest) = Ok host.
Proof.
  intros Hv Hh Hl He Hb Hn Hhost Hd. rewrite parseSNI_record, sni_body_hello by done. rewrite He.
  apply sni_exts_list; try done. rewrite length_app.
  assert (length before ≤ length (before ≫= ext_bytes))%nat
    by (apply length_bind_bytes; intros x; cbn; lia). lia.
Qed.

Lemma Peek_sub input n hello : Peek input n = Some hello → 0 ≤ n → hello = sub input 0 n ∧ len hello = n.
Proof.
  unfold Peek. intros Hp Hn. repeat if_case_in Hp; try done. injection Hp as <-.
  split; [done|]. rewrite len_sub by lia. lia.
Qed.

(** The transparent listener is safe on any bytes: it never reads out of
    range, and a connection is handed on only when its ClientHello names a host
    of the intercept list; what goproxy then reads is a CONNECT for that very
    host followed by every byte the client sent, none lost or repeated. *)
Theorem handleTransparent_safe `{UnicodeData} domains input :
  ∃ fate, handleTransparent domains input = Ok fate
    ∧ ∀ stream, fate = Spliced stream →
        ∃ n host, parseSNI (sub input 0 n) = Ok host ∧ 5 < n ≤ len input
          ∧ ShouldIntercept domains host = true ∧ stream = connect_request host ++ input.
Proof.
  unfold handleTransparent. destruct (Peek input 5) as [header|] eqn:Hh; [|eexists; split; done].
  apply Peek_sub in Hh as [_ Hlen]; [|done].
  destruct (u8_ok header 0) as (t & -> & _); [lia|]. cbn [mbind res_bind].
  destruct (negb (t =? 22)); [eexists; split; done|].
  destruct (u8_ok header 3) as (hi & -> & Hhi); [lia|]. cbn [mbind res_bind].
  destruct (u8_ok header 4) as (lo & -> & Hlo); [lia|]. cbn [mbind res_bind]. cbv zeta.
  rewrite lor_shiftl_add by lia.
  destruct (_ || _) eqn:Hlen2; [eexists; split; done|]. bool_hyps.
  destruct (Peek input (5 + (hi * 2 ^ 8 + lo))) as [hello|] eqn:Hp; [|eexists; split; done].
  assert (5 + (hi * 2 ^ 8 + lo) ≤ len input) as Hle by (unfold Peek in Hp; repeat if_case_in Hp; try done; lia).
  apply Peek_sub in Hp as [-> _]; [|lia]. destruct (parseSNI _) as [host|e|] eqn:Hs; [|eexists; split; done|].
  - if_case; [eexists; split; done|]. eexists. split; [done|]. intros stream [= <-].
    exists (5 + (hi * 2 ^ 8 + lo)), host. split_and!; try done; lia.
  - by apply parseSNI_not_panic in Hs.
Qed.

Section evaluation.
Local Existing Instance sample_unicode.

Definition demo_host : gostring := go "api.anthropic.com".
Definition demo_hello : ClientHello :=
  mkHello (replicate 34 (chr 7)) [] [chr 19; chr 1] [chr 0]
    (([(43, [chr 2; chr 3; chr 4])] ≫= ext_bytes) ++ ext_bytes (server_name [(1, go "x")] demo_host []) ++ []).

Theorem parseSNI_roundtrip_witness :
  parseSNI (hello_record [chr 3; chr 1] demo_hello ++ go "more") = Ok demo_host.
Proof.
  apply (parseSNI_roundtrip [chr 3; chr 1] demo_hello [(43, [chr 2; chr 3; chr 4])] [(1, go "x")]
    demo_host [] [] (go "more")); try reflexivity.
  - repeat split; vm_compute; reflexivity.
  - apply Forall_singleton. repeat split; vm_compute; congruence.
  - apply Forall_singleton. repeat split; vm_compute; congruence.
Defined.

Example transparent_ex :
  handleTransparent (NewFilter [demo_host] []) (hello_record [chr 3; chr 1] demo_hello)
    = Ok (Spliced (connect_request demo_host ++ hello_record [chr 3; chr 1] demo_hello))
  ∧ handleTransparent (NewFilter [] []) (hello_record [chr 3; chr 1] demo_hello) = Ok Closed.
Proof. vm_compute. split; reflexivity. Qed.
End evaluation.
