(* ===== verification/Replay.v ===== *)
(** * What goproxy reads of a raw connection — proxy/transparent.go

    A connection taken over is handed to goproxy behind a made-up CONNECT request:
    the first read gives that request, then what the sniffer has buffered, then
    the rest.  The readers of io, bufio and strings are here as their documentation
    and sources define them; the socket decides how much a read of it gives. *)
From S2P Require Import Prelude GoStr Utf8 Domain Sni.

(** ** The socket *)

Inductive io_error := EOF | IOError (e : gostring).
#[export] Instance io_error_eq_dec : EqDecision io_error.
Proof. solve_decision. Defined.
(** What becomes of a read: at most so many bytes, at least one; or an error. *)
Inductive read_fate := ReadUpTo (k : nat) | ReadFails (e : gostring).
(** The bytes still to come, what is read of them, and the error. *)
Definition conn_Read (n : nat) (f : read_fate) (input : gostring) : gostring * gostring * option io_error :=
  match f with
  | ReadFails e => (input, [], Some (IOError e))
  | ReadUpTo k =>
      if bool_decide (n = 0) then (input, [], None)
      else if bool_decide (input = []) then (input, [], Some EOF)
      else let m := (n `min` (1 `max` k))%nat in (drop m input, take m input, None)
  end.

(** ** bufio.Reader, io.MultiReader *)

Record Bufio := mkBufio { bf_buf : gostring; bf_err : option io_error }.
Definition bufio_size : nat := Z.to_nat buffer_size.
Definition bufio_Read (n : nat) (f : read_fate) (b : Bufio) (input : gostring) : Bufio * gostring * gostring * option io_error :=
  if bool_decide (bf_buf b ≠ []) then (mkBufio (drop n (bf_buf b)) (bf_err b), input, take n (bf_buf b), None)
  else if bool_decide (n = 0) then (mkBufio [] None, input, [], bf_err b)
  else
    match bf_err b with
    | Some e => (mkBufio [] None, input, [], Some e)
    | None =>
        let '(input, bytes, err) := conn_Read (if bool_decide (bufio_size ≤ n)%nat then n else bufio_size) f input in
        if bool_decide (bufio_size ≤ n)%nat || bool_decide (bytes = []) then (mkBufio [] None, input, bytes, err)
        else (mkBufio (drop n bytes) err, input, take n bytes, None)
    end.

(** [replayConn]: the request still to be read while it is in [extra], whether the sniffer's reader is,
    that reader, and the socket.  [extra] is nil without either. *)
Record Replay := mkReplay { ry_extra : option (option gostring * bool); ry_bufio : Bufio; ry_input : gostring }.
Definition multi_Read (n : nat) (f : read_fate) (r : option gostring * bool) (b : Bufio) (input : gostring)
    : (option gostring * bool) * Bufio * gostring * gostring * option io_error :=
  let last (b : Bufio) (input : gostring) :=
    let '(b, input, bytes, err) := bufio_Read n f b input in
    ((None, negb (bool_decide (err = Some EOF))), b, input, bytes, err) in
  match r with
  | (Some ((_ :: _) as s), more) => ((Some (drop n s), more), b, input, take n s, None)
  | (_, true) => last b input
  | (_, false) => ((None, false), b, input, [], Some EOF)
  end.
(** [Read]; a read that falls through meets the socket with a fate of its own. *)
Definition replay_Read (n : nat) (f f' : read_fate) (r : Replay) : Replay * gostring * option io_error :=
  let direct (b : Bufio) (input : gostring) :=
    let '(input, bytes, err) := conn_Read n f' input in (mkReplay None b input, bytes, err) in
  match ry_extra r with
  | None => direct (ry_bufio r) (ry_input r)
  | Some readers =>
      let '(readers, b, input, bytes, err) := multi_Read n f readers (ry_bufio r) (ry_input r) in
      let ended := bool_decide (err = Some EOF) in
      if bool_decide (bytes ≠ []) then (mkReplay (if ended then None else Some readers) b input, bytes, if ended then None else err)
      else direct b input
  end.
(** [handleTransparent] at the hand-over: the sniffer has buffered [peeked]. *)
Definition wrap (host peeked : gostring) (err : option io_error) (input : gostring) : Replay :=
  mkReplay (Some (Some (connect_request host), true)) (mkBufio peeked err) input.
(** Reads in a row: everything that was read. *)
Fixpoint replay_reads (rs : list (nat * read_fate * read_fate)) (r : Replay) : Replay * gostring :=
  match rs with
  | [] => (r, [])
  | (n, f, f') :: rs =>
      let '(r, bytes, _) := replay_Read n f f' r in
      let '(r, more) := replay_reads rs r in (r, bytes ++ more)
  end.

(** ** serveConn: a listener that gives its connection once *)

Definition accept_once (done : bool) : bool * option io_error :=
  if done then (done, Some (IOError (go "use of closed network connection"))) else (true, None).
(** [Serve]: the connections handed to the handler, until Accept fails. *)
Fixpoint serve_once (fuel : nat) (done : bool) : nat :=
  match fuel with
  | O => O
  | S fuel => match accept_once done with (_, Some _) => O | (done, None) => S (serve_once fuel done) end
  end.

(** ** startTransparent: the accept loop *)

Inductive accept_fate := Accepted | AcceptClosed | AcceptFails (e : gostring).
(** The connections given to [handleTransparent], and whether the loop has ended. *)
Fixpoint accept_loop (fates : list accept_fate) : nat * bool :=
  match fates with
  | [] => (O, false)
  | Accepted :: fates => let '(n, ended) := accept_loop fates in (S n, ended)
  | AcceptClosed :: _ => (O, true)
  | AcceptFails _ :: fates => accept_loop fates
  end.

(** ** The stream is whole *)

(** What is still to be read. *)
Definition unread (r : Replay) : gostring :=
  match ry_extra r with
  | Some (s, true) => default [] s ++ bf_buf (ry_bufio r) ++ ry_input r
  | Some (s, false) => default [] s
  | None => ry_input r
  end.
(** Nothing is left behind. *)
Definition kept (r : Replay) : Prop :=
  match ry_extra r with Some (_, true) => True | _ => bf_buf (ry_bufio r) = [] end ∧ match ry_extra r with Some (_, false) => False | _ => True end.

Lemma conn_Read_spec n f input : let '(input', bytes, err) := conn_Read n f input in
  input = bytes ++ input' ∧ (n ≠ 0 → bytes = [] → is_Some err)%nat.
Proof.
  destruct f as [k|e]; [|by split; [|eauto]]. cbn. case_bool_decide; [by split|]. case_bool_decide as Hi; [by split; eauto|].
  split; [by rewrite take_drop|]. intros _ Ht. destruct input; [done|]. destruct (n `min` (1 `max` k))%nat eqn:E; [lia|done].
Qed.
Lemma bufio_Read_spec n f b input : n ≠ 0%nat → let '(b', input', bytes, err) := bufio_Read n f b input in
  bf_buf b ++ input = bytes ++ bf_buf b' ++ input' ∧ (bytes = [] → bf_buf b' = []) ∧ (err = Some EOF → bf_buf b' = []).
Proof.
  intros Hn. unfold bufio_Read. case_bool_decide as Hb.
  - cbn. rewrite app_assoc, take_drop. split_and!; [done| |done]. intros Ht. destruct (bf_buf b), n; done.
  - destruct (decide (bf_buf b = [])) as [He|]; [|done]. rewrite He. rewrite bool_decide_eq_false_2 by done.
    destruct (bf_err b); [done|]. pose proof (conn_Read_spec (if bool_decide (bufio_size ≤ n)%nat then n else bufio_size) f input) as Hc.
    destruct (conn_Read _ _ _) as [[input' bytes] err]. destruct Hc as [-> _].
    destruct (_ || _) eqn:E; [done|]. apply orb_false_iff in E as [_ E]. apply bool_decide_eq_false in E.
    cbn. rewrite app_assoc, take_drop. split_and!; [done| |done]. intros Ht. destruct bytes, n; done.
Qed.
Lemma replay_Read_spec n f f' r : n ≠ 0%nat → kept r → let '(r', bytes, err) := replay_Read n f f' r in
  unread r = bytes ++ unread r' ∧ kept r' ∧ (bytes = [] → is_Some err).
Proof.
  intros Hn [Hk Hm]. unfold replay_Read, unread. destruct (ry_extra r) as [[s []]|] eqn:Hx; [|done|].
  2: { pose proof (conn_Read_spec n f' (ry_input r)) as Hc. destruct (conn_Read _ _ _) as [[input bytes] err].
       destruct Hc as [-> Hc]. split_and!; [done|by split|]. intros ->. by apply Hc. }
  assert (∀ b input bytes err, bf_buf (ry_bufio r) ++ ry_input r = bytes ++ bf_buf b ++ input →
    (bytes = [] → bf_buf b = []) → (err = Some EOF → bf_buf b = []) →
    let '(r', bytes', err') := (let ended := bool_decide (err = Some EOF) in
      if bool_decide (bytes ≠ []) then (mkReplay (if ended then None else Some (None, negb ended)) b input, bytes, if ended then None else err)
      else let '(input, bytes, err) := conn_Read n f' input in (mkReplay None b input, bytes, err)) in
    bf_buf (ry_bufio r) ++ ry_input r = bytes' ++ unread r' ∧ kept r' ∧ (bytes' = [] → is_Some err')) as Hlast.
  { intros b input bytes err Heq Hb He. cbv zeta. case_bool_decide as Hne.
    - rewrite Heq. unfold unread, kept. destruct (bool_decide (err = Some EOF)) eqn:E; cbn; [|done].
      rewrite (He (bool_decide_eq_true_1 _ E)). done.
    - assert (bytes = []) as -> by (destruct bytes; [done|by destruct Hne]). rewrite Heq, Hb by done. cbn.
      pose proof (conn_Read_spec n f' input) as Hc. destruct (conn_Read _ _ _) as [[input' bytes] err']. destruct Hc as [-> Hc].
      split_and!; [done|split; [by apply Hb|done]|]. intros ->. by apply Hc. }
  destruct s as [[|c s]|].
  - cbn [default from_option app multi_Read]. pose proof (bufio_Read_spec n f (ry_bufio r) (ry_input r) Hn) as Hbr.
    destruct (bufio_Read _ _ _ _) as [[[b input] bytes] err]. destruct Hbr as (H1 & H2 & H3). exact (Hlast b input bytes err H1 H2 H3).
  - destruct n as [|n]; [done|]. cbn [multi_Read]. repeat case_bool_decide; try done.
    split_and!; [|by split|done]. cbn. by rewrite (app_assoc (take n s)), take_drop.
  - cbn [default from_option app multi_Read]. pose proof (bufio_Read_spec n f (ry_bufio r) (ry_input r) Hn) as Hbr.
    destruct (bufio_Read _ _ _ _) as [[[b input] bytes] err]. destruct Hbr as (H1 & H2 & H3). exact (Hlast b input bytes err H1 H2 H3).
Qed.
Lemma replay_reads_spec rs r : Forall (λ nf, nf.1.1 ≠ 0%nat) rs → kept r →
  let '(r', bytes) := replay_reads rs r in unread r = bytes ++ unread r' ∧ kept r'.
Proof.
  intros Hrs. revert r. induction Hrs as [|[[n f] f'] rs Hn _ IH]; intros r Hk; [done|]. cbn [replay_reads].
  pose proof (replay_Read_spec n f f' r Hn Hk) as Hr. destruct (replay_Read _ _ _ _) as [[r1 bytes] err]. destruct Hr as (Hu & Hk1 & _).
  specialize (IH r1 Hk1). destruct (replay_reads rs r1) as [r2 more]. destruct IH as [Hu2 Hk2]. split; [|done]. by rewrite Hu, Hu2, app_assoc.
Qed.

(** goproxy reads the whole stream.  Whatever sizes it reads with, if none is zero, and whatever the
    socket gives at a time, what it has read is a prefix of the CONNECT request followed by every
    byte the client sent, nothing lost or out of order; a read gives nothing only with an error of
    the socket; and the connection is served exactly once. *)
Theorem stream_whole host peeked err input rs n f f' fuel :
  Forall (λ nf, nf.1.1 ≠ 0%nat) rs → n ≠ 0%nat →
  let '(r, bytes) := replay_reads rs (wrap host peeked err input) in
  connect_request host ++ peeked ++ input = bytes ++ unread r
  ∧ (let '(_, more, e) := replay_Read n f f' r in more = [] → is_Some e)
  ∧ serve_once (S (S fuel)) false = 1%nat.
Proof.
  intros Hrs Hn. assert (kept (wrap host peeked err input)) as Hk by done.
  pose proof (replay_reads_spec rs _ Hrs Hk) as Hr. destruct (replay_reads rs _) as [r bytes]. destruct Hr as [Hu Hk'].
  split_and!; [exact Hu| |done]. pose proof (replay_Read_spec n f f' r Hn Hk') as Hs.
  destruct (replay_Read _ _ _ _) as [[r' more] e]. by destruct Hs as (_ & _ & Hs).
Qed.
(** A read of no bytes drops what the sniffer has buffered. *)
Lemma empty_read_loses : (replay_reads [(200%nat, ReadUpTo 1, ReadUpTo 1); (0%nat, ReadUpTo 1, ReadUpTo 1); (9%nat, ReadUpTo 9, ReadUpTo 9)]
  (wrap (go "h") (go "hello") None (go "rest"))).2 = connect_request (go "h") ++ go "rest".
Proof. vm_compute. reflexivity. Qed.
(** Only a closed listener ends the loop: an error that stays (no file descriptors left) is retried at once, for ever. *)
Lemma accept_spins n : accept_loop (replicate n (AcceptFails (go "too many open files"))) = (0%nat, false).
Proof. by induction n. Qed.
