(* ===== verification/Firewall.v ===== *)
(** * The transparent-routing controller — internal/firewall/controller.go, dns_loop.go, state.go

    The controller installs redirect rules through a platform manager,
    re-resolves the domains periodically and persists what it did.  The manager
    (pf, iptables, ...) is the class [FwManager]; the DNS resolver, the file
    system and the clock are arguments of each operation. *)
From S2P Require Import Prelude GoStr.
From stdpp Require Import sorting.
Local Open Scope Z_scope.

(** What the controller asks of the manager. *)
Inductive fw_call := CallRedirect (ips : list gostring) (port : Z) | CallUnredirect.
(** The rules a call is for: those of the addresses to the port, or none. *)
Definition call_rules (c : fw_call) : option (list gostring * Z) :=
  match c with CallRedirect ips port => Some (ips, port) | CallUnredirect => None end.

(** A platform manager: its state, its two operations, whether exactly the given
    rules are installed, and whether the platform's own tools accept what the next
    call makes them do.  A call that returns no error need not have been accepted
    (the macOS manager, [Platform.darwin_manager], hides that); one that was leaves
    exactly its rules; after any other anything may be installed. *)
Class FwManager := {
  fm_State : Type;
  fm_installs : fm_State → option (list gostring * Z) → Prop;
  fm_accepts : fm_State → fw_call → bool;
  fm_Redirect : fm_State → list gostring → Z → fm_State * option gostring;
  fm_Unredirect : fm_State → fm_State * option gostring;
  fm_Redirect_ok : ∀ m ips port m', fm_Redirect m ips port = (m', None) →
    fm_accepts m (CallRedirect ips port) = true → fm_installs m' (Some (ips, port));
  fm_Unredirect_ok : ∀ m m', fm_Unredirect m = (m', None) →
    fm_accepts m CallUnredirect = true → fm_installs m' None;
}.

(** A manager that also keeps a record of its calls, the last one first: for each
    whether it returned no error, and whether the tools accepted it. *)
Record Recorder (S : Type) := mkRecorder { rc_mgr : S; rc_log : list (fw_call * bool * bool) }.
Arguments mkRecorder {_} _ _.
Arguments rc_mgr {_} _.
Arguments rc_log {_} _.
Definition record_call {S} (accepts : S → fw_call → bool) (c : fw_call) (r : Recorder S) (result : S * option gostring)
    : Recorder S * option gostring :=
  let '(m', err) := result in
  (mkRecorder m' ((c, bool_decide (err = None), accepts (rc_mgr r) c) :: rc_log r), err).
#[program] Definition recording (M : FwManager) : FwManager := {|
  fm_State := Recorder (@fm_State M);
  fm_installs r := @fm_installs M (rc_mgr r);
  fm_accepts r := @fm_accepts M (rc_mgr r);
  fm_Redirect r ips port := record_call (@fm_accepts M) (CallRedirect ips port) r (@fm_Redirect M (rc_mgr r) ips port);
  fm_Unredirect r := record_call (@fm_accepts M) CallUnredirect r (@fm_Unredirect M (rc_mgr r));
|}.
Next Obligation.
  intros M r ips port m'. cbn. unfold record_call. destruct (fm_Redirect (rc_mgr r) ips port) as [m1 err] eqn:E.
  intros [= <- ->] Ha. cbn. by eapply fm_Redirect_ok.
Qed.
Next Obligation.
  intros M r m'. cbn. unfold record_call. destruct (fm_Unredirect (rc_mgr r)) as [m1 err] eqn:E.
  intros [= <- ->] Ha. cbn. by eapply fm_Unredirect_ok.
Qed.

(** ** dns_loop.go *)

(** [LookupHost] of the resolver in use: the addresses, or a failure. *)
Definition Resolver : Type := gostring → option (list gostring).

(** [sort.Strings] *)
Fixpoint str_leb (s t : gostring) : bool :=
  match s, t with
  | [], _ => true
  | _ :: _, [] => false
  | a :: s', b :: t' => (byteZ a <? byteZ b) || ((byteZ a =? byteZ b) && str_leb s' t')
  end.
Definition str_le (s t : gostring) : Prop := str_leb s t = true.
#[export] Instance str_le_dec : RelDecision str_le := λ s t, decide (str_leb s t = true).
Definition SortStrings (l : list gostring) : list gostring := merge_sort str_le l.

(** One turn of the loop: the address set and the failures so far. *)
Definition resolve_step (r : Resolver) (acc : gset gostring * Z) (d : gostring) : gset gostring * Z :=
  match r d with
  | None => (acc.1, acc.2 + 1)
  | Some addrs => (list_to_set addrs ∪ acc.1, acc.2)
  end.
Definition resolveAll (r : Resolver) (domains : list gostring) : gostring + list gostring :=
  let '(set, failures) := foldl (resolve_step r) (∅, 0) domains in
  if (failures =? len domains) && (0 <? len domains)
  then inl (go "all " ++ Itoa failures ++ go " host lookups failed")
  else inr (SortStrings (elements set)).

(** The counter map of [ipSetsEqual]. *)
Definition count_add (n : Z) (seen : gmap gostring Z) (v : gostring) : gmap gostring Z :=
  <[v := default 0 (seen !! v) + n]> seen.
Definition ipSetsEqual (a b : list gostring) : bool :=
  if negb (len a =? len b) then false
  else if len a =? 0 then true
  else
    let seen := foldl (count_add (-1)) (foldl (count_add 1) ∅ a) b in
    forallb (λ kn, kn.2 =? 0) (map_to_list seen).

(** ** state.go *)

Record FwState := mkFwState {
  fs_Active : bool;
  fs_ProxyAddr : gostring;
  fs_TransparentAddr : gostring;
  fs_IPs : list gostring;
  fs_LastReconciled : Z;
  fs_CAInstalled : bool;
}.

(** ** controller.go *)

Record Controller := mkController {
  fc_domains : list gostring;
  fc_proxyAddr : gostring;
  fc_transparentPort : Z;
  fc_currentIPs : list gostring;
  fc_enabled : bool;
}.
Definition NewController : Controller := mkController [] [] 0 [] false.

Section controller.
Context `{FwManager}.

(** The controller with the manager and the state file it works on, and whether
    the last attempt to save the file succeeded. *)
Record FwWorld := mkFwWorld { fw_ctl : Controller; fw_mgr : fm_State; fw_file : option FwState; fw_saved : bool }.

(** What the surroundings contribute to one operation. *)
Record FwEnv := mkFwEnv { fe_resolver : Resolver; fe_now : Z; fe_save_ok : bool }.

Definition persisted (now : Z) (c : Controller) : FwState :=
  mkFwState (fc_enabled c) (fc_proxyAddr c) [] (fc_currentIPs c) now (fc_enabled c).
(** The error of [SaveState] is ignored. *)
Definition persist (e : FwEnv) (c : Controller) (m : fm_State) (file : option FwState) : FwWorld :=
  mkFwWorld c m (if fe_save_ok e then Some (persisted (fe_now e) c) else file) (fe_save_ok e).

Definition Enable (e : FwEnv) (w : FwWorld) (domains : list gostring) (proxyAddr : gostring) (port : Z)
    : FwWorld * option gostring :=
  match resolveAll (fe_resolver e) domains with
  | inr ips =>
      let '(m', err) := fm_Redirect (fw_mgr w) ips port in
      match err with
      | Some msg => (mkFwWorld (fw_ctl w) m' (fw_file w) (fw_saved w), Some msg)
      | None => (persist e (mkController domains proxyAddr port ips true) m' (fw_file w), None)
      end
  | inl msg => (w, Some msg)
  end.

Definition Disable (e : FwEnv) (w : FwWorld) : FwWorld * option gostring :=
  let c := fw_ctl w in
  if negb (fc_enabled c) then (w, None)
  else
    let '(m', err) := fm_Unredirect (fw_mgr w) in
    match err with
    | Some msg => (mkFwWorld c m' (fw_file w) (fw_saved w), Some msg)
    | None =>
        (persist e (mkController (fc_domains c) (fc_proxyAddr c) (fc_transparentPort c) [] false)
           m' (fw_file w), None)
    end.

Definition Reconcile (e : FwEnv) (w : FwWorld) : FwWorld * option gostring :=
  let c := fw_ctl w in
  if negb (fc_enabled c) then (w, None)
  else
    match resolveAll (fe_resolver e) (fc_domains c) with
    | inr ips =>
        if ipSetsEqual ips (fc_currentIPs c) then (w, None)
        else
          let '(m', err) := fm_Redirect (fw_mgr w) ips (fc_transparentPort c) in
          match err with
          | Some msg => (mkFwWorld c m' (fw_file w) (fw_saved w), Some msg)
          | None =>
              (persist e (mkController (fc_domains c) (fc_proxyAddr c) (fc_transparentPort c) ips true)
                 m' (fw_file w), None)
          end
    | inl msg => (w, Some msg)
    end.

Definition IsActive (w : FwWorld) : bool := fc_enabled (fw_ctl w).

(** ** Runs

    The lock makes every operation one step. *)
Inductive fw_op : Type :=
| OpEnable (domains : list gostring) (proxyAddr : gostring) (port : Z)
| OpDisable
| OpReconcile.

Definition fw_exec (e : FwEnv) (op : fw_op) (w : FwWorld) : FwWorld * option gostring :=
  match op with
  | OpEnable domains proxyAddr port => Enable e w domains proxyAddr port
  | OpDisable => Disable e w
  | OpReconcile => Reconcile e w
  end.

(** The worlds any sequence of operations leads to. *)
Inductive fw_reach (w0 : FwWorld) : FwWorld → Prop :=
| fw_init : fw_reach w0 w0
| fw_step e op w w' err : fw_reach w0 w → fw_exec e op w = (w', err) → fw_reach w0 w'.

(** The rules the controller believes to be installed. *)
Definition installed (c : Controller) : option (list gostring * Z) :=
  if fc_enabled c then Some (fc_currentIPs c, fc_transparentPort c) else None.
End controller.

(** ** Addresses *)

#[export] Instance str_le_total : Total str_le.
Proof.
  unfold str_le. intros s. induction s as [|a s IH]; intros [|b t]; cbn [str_leb]; auto.
  destruct (Z.lt_trichotomy (byteZ a) (byteZ b)) as [Hl|[He|Hl]].
  - left. by apply Z.ltb_lt in Hl as ->.
  - rewrite He, Z.ltb_irrefl, Z.eqb_refl. cbn [orb andb]. apply IH.
  - right. by apply Z.ltb_lt in Hl as ->.
Qed.

#[export] Instance str_le_trans : Transitive str_le.
Proof.
  unfold str_le. intros s. induction s as [|a s IH]; intros [|b t] [|c u]; cbn [str_leb]; try done.
  rewrite !orb_true_iff, !andb_true_iff, !Z.ltb_lt, !Z.eqb_eq.
  intros [?|[? Hst]] [?|[? Htu]]; [left; lia..|]. right. split; [lia|by eapply IH].
Qed.

Lemma SortStrings_Permutation l : SortStrings l ≡ₚ l.
Proof. apply merge_sort_Permutation. Qed.

Lemma SortStrings_Sorted l : Sorted str_le (SortStrings l).
Proof. apply Sorted_merge_sort, _. Qed.

Lemma resolve_fold r ds set n set' m :
  foldl (resolve_step r) (set, n) ds = (set', m) →
  (∀ ip, ip ∈ set' ↔ ip ∈ set ∨ ∃ d addrs, d ∈ ds ∧ r d = Some addrs ∧ ip ∈ addrs)
  ∧ n ≤ m ≤ n + len ds
  ∧ (m = n + len ds ↔ ∀ d, d ∈ ds → r d = None).
Proof.
  revert set n. induction ds as [|d ds IH]; intros set n; cbn [foldl].
  - intros [= <- <-]. unfold len; cbn [length]. split_and!; [set_solver|lia|lia|]. split; [set_solver|lia].
  - assert (len (d :: ds) = 1 + len ds) as -> by (unfold len; cbn [length]; lia).
    unfold resolve_step at 2. cbn [fst snd]. intros Hf.
    destruct (r d) as [addrs|] eqn:Hd; specialize (IH _ _ Hf) as (He & Hn & Ha); split_and!; try lia.
    + intros ip. rewrite He, elem_of_union, elem_of_list_to_set. set_solver.
    + split; [lia|]. intros Hall. by rewrite (Hall d ltac:(set_solver)) in Hd.
    + intros ip. rewrite He. set_solver.
    + rewrite <-Z.add_assoc in Ha. rewrite Ha. set_solver.
Qed.

(** DNS resolution returns, sorted and without repetition, exactly the
    addresses of the domains that resolve; it fails exactly when there is a
    domain and none resolves. *)
Lemma resolveAll_spec r domains :
  match resolveAll r domains with
  | inr ips =>
      NoDup ips ∧ Sorted str_le ips
      ∧ (∀ ip, ip ∈ ips ↔ ∃ d addrs, d ∈ domains ∧ r d = Some addrs ∧ ip ∈ addrs)
      ∧ (domains = [] ∨ ∃ d addrs, d ∈ domains ∧ r d = Some addrs)
  | inl _ => domains ≠ [] ∧ ∀ d, d ∈ domains → r d = None
  end.
Proof.
  unfold resolveAll. destruct (foldl (resolve_step r) (∅, 0) domains) as [set failures] eqn:Hf.
  destruct (resolve_fold _ _ _ _ _ _ Hf) as (He & Hn & Ha).
  assert (NoDup (SortStrings (elements set)) ∧ Sorted str_le (SortStrings (elements set))
    ∧ ∀ ip, ip ∈ SortStrings (elements set) ↔ ∃ d addrs, d ∈ domains ∧ r d = Some addrs ∧ ip ∈ addrs)
    as (Hnd & Hsort & Helem).
  { split_and!; [|apply SortStrings_Sorted|].
    - rewrite SortStrings_Permutation. apply NoDup_elements.
    - intros ip. rewrite SortStrings_Permutation, elem_of_elements, He. set_solver. }
  destruct (Z.eqb_spec failures (len domains)) as [Hall|Hfail];
    [destruct (Z.ltb_spec 0 (len domains)) as [Hpos|Hempty]|]; cbn [andb].
  - split; [by intros ->|]. by apply Ha.
  - split_and!; [done..|]. left. apply length_zero_iff_nil. unfold len in *. lia.
  - split_and!; [done..|]. right. destruct (decide (Exists (λ d, is_Some (r d)) domains)) as [Hex|Hno].
    + apply Exists_exists in Hex as (d & Hd & addrs & Hr). eauto.
    + destruct Hfail. apply Ha. intros d Hd. apply not_Exists_Forall, Forall_forall with (x := d) in Hno; [|done|solve_decision].
      by apply eq_None_not_Some.
Qed.

Lemma count_fold n l seen v :
  default 0 (foldl (count_add n) seen l !! v)
  = default 0 (seen !! v) + n * Z.of_nat (length (filter (v =.) l)).
Proof.
  revert seen. induction l as [|a l IH]; intros seen; cbn [foldl].
  - cbn. lia.
  - rewrite IH. unfold count_add. destruct (decide (v = a)) as [->|Hne].
    + rewrite lookup_insert_eq, filter_cons_True by done. cbn [length default from_option]. unfold id. lia.
    + rewrite lookup_insert_ne, filter_cons_False by done. lia.
Qed.


Lemma count_lookup n l seen v :
  is_Some (foldl (count_add n) seen l !! v) ↔ is_Some (seen !! v) ∨ v ∈ l.
Proof.
  revert seen. induction l as [|a l IH]; intros seen; cbn [foldl]; [set_solver|].
  rewrite IH. unfold count_add. rewrite lookup_insert_is_Some. destruct (decide (a = v)); set_solver.
Qed.

(** Two lists with as many occurrences of every value are permutations. *)
Lemma count_Permutation {A} `{EqDecision A} (a b : list A) :
  (∀ v, length (filter (v =.) a) = length (filter (v =.) b)) → a ≡ₚ b.
Proof.
  revert b. induction a as [|x a IH]; intros b Hc.
  - destruct b as [|y b]; [done|]. specialize (Hc y). by rewrite filter_cons_True in Hc.
  - assert (x ∈ b) as Hx.
    { specialize (Hc x). rewrite filter_cons_True in Hc by done.
      destruct (filter (x =.) b) as [|y l] eqn:Hf; [done|].
      assert (y ∈ filter (x =.) b) as [Hy Hin]%list_elem_of_filter by (rewrite Hf; set_solver). by subst. }
    apply elem_of_Permutation in Hx as (b' & Hb). rewrite Hb. f_equiv. apply IH. intros v.
    specialize (Hc v). rewrite Hb in Hc. destruct (decide (v = x)) as [->|Hne].
    + rewrite !filter_cons_True in Hc by done. cbn [length] in Hc. lia.
    + by rewrite !filter_cons_False in Hc by done.
Qed.

Lemma ipSetsEqual_Permutation a b : ipSetsEqual a b = true ↔ a ≡ₚ b.
Proof.
  set (seen := foldl (count_add (-1)) (foldl (count_add 1) ∅ a) b).
  assert (∀ v, default 0 (seen !! v)
    = Z.of_nat (length (filter (v =.) a)) - Z.of_nat (length (filter (v =.) b))) as Hseen.
  { intros v. unfold seen. rewrite !count_fold, lookup_empty. cbn [default from_option]. unfold id. lia. }
  assert (forallb (λ kn, kn.2 =? 0) (map_to_list seen) = true
    ↔ ∀ v, length (filter (v =.) a) = length (filter (v =.) b)) as Hall.
  { rewrite forallb_forall. split.
    - intros Hz v. specialize (Hseen v). destruct (seen !! v) as [n|] eqn:Hv; cbn [default from_option] in Hseen;
        unfold id in Hseen; [|lia].
      specialize (Hz (v, n)). rewrite <-list_elem_of_In, elem_of_map_to_list, Z.eqb_eq in Hz.
      specialize (Hz Hv). cbn [snd] in Hz. lia.
    - intros Hc [v n] Hin%list_elem_of_In%elem_of_map_to_list. specialize (Hseen v).
      rewrite Hin in Hseen. cbn [default from_option snd] in *. unfold id in Hseen. rewrite Hc in Hseen. lia. }
  unfold ipSetsEqual. fold seen. destruct (Z.eqb_spec (len a) (len b)) as [Hl|Hl]; cbn [negb].
  - destruct (Z.eqb_spec (len a) 0) as [Hz|Hz].
    + assert (a = [] ∧ b = []) as [-> ->] by (split; apply length_zero_iff_nil; unfold len in *; lia). done.
    + rewrite Hall. split; [apply count_Permutation|]. intros Hp v. by rewrite Hp.
  - split; [done|]. intros Hp. destruct Hl. unfold len. by rewrite Hp.
Qed.

(** ** Runs of the controller *)

Section runs.
Context `{FwManager}.
Implicit Types (w : FwWorld) (e : FwEnv) (c : Controller).

(** What one operation does: it leaves everything as it was, or it makes one call of
    the manager, and takes it to heart when the manager reports no error. *)
Inductive fw_effect (e : FwEnv) (w w' : FwWorld) : option gostring → Prop :=
| effect_none err : w' = w → fw_effect e w w' err
| effect_call call m' err :
    match call with
    | CallRedirect ips port => fm_Redirect (fw_mgr w) ips port
    | CallUnredirect => fm_Unredirect (fw_mgr w)
    end = (m', err) →
    fw_mgr w' = m' →
    (if decide (err = None)
     then installed (fw_ctl w') = call_rules call ∧ fw_saved w' = fe_save_ok e
          ∧ fw_file w' = (if fe_save_ok e then Some (persisted (fe_now e) (fw_ctl w')) else fw_file w)
     else fw_ctl w' = fw_ctl w ∧ fw_file w' = fw_file w ∧ fw_saved w' = fw_saved w) →
    fw_effect e w w' err.

Lemma fw_exec_effect e op w w' err : fw_exec e op w = (w', err) → fw_effect e w w' err.
Proof.
  destruct op as [domains proxyAddr port| |]; cbn [fw_exec].
  - unfold Enable. destruct (resolveAll _ _) as [msg|ips]; [intros [= <- <-]; by constructor|].
    destruct (fm_Redirect (fw_mgr w) ips port) as [m' [msg|]] eqn:E; intros [= <- <-];
      by apply (effect_call _ _ _ (CallRedirect ips port) m').
  - unfold Disable. destruct (fc_enabled (fw_ctl w)); cbn [negb]; [|intros [= <- <-]; by constructor].
    destruct (fm_Unredirect _) as [m' [msg|]] eqn:E; intros [= <- <-]; by apply (effect_call _ _ _ CallUnredirect m').
  - unfold Reconcile. destruct (fc_enabled (fw_ctl w)); cbn [negb]; [|intros [= <- <-]; by constructor].
    destruct (resolveAll _ _) as [msg|ips]; [intros [= <- <-]; by constructor|].
    destruct (ipSetsEqual _ _); [intros [= <- <-]; by constructor|].
    destruct (fm_Redirect (fw_mgr w) ips _) as [m' [msg|]] eqn:E; intros [= <- <-];
      by apply (effect_call _ _ _ (CallRedirect ips (fc_transparentPort (fw_ctl w))) m').
Qed.
End runs.

(** What the manager last reported as done, and whether its last call was both
    reported and accepted. *)
Fixpoint reported_rules (log : list (fw_call * bool * bool)) : option (list gostring * Z) :=
  match log with
  | [] => None
  | (c, ok, _) :: log => if ok then call_rules c else reported_rules log
  end.
Definition last_done (log : list (fw_call * bool * bool)) : bool :=
  match log with [] => true | (_, ok, accepted) :: _ => ok && accepted end.

Section consistent.
Context (M : FwManager).

(** A new controller over a manager with nothing installed and no call recorded. *)
Definition fresh_world (m : @fm_State M) : @FwWorld (recording M) :=
  @mkFwWorld (recording M) NewController (mkRecorder m []) None true.

Lemma recorded_call (c : fw_call) (r : Recorder (@fm_State M)) (m' : @fm_State (recording M)) err :
  match c with
  | CallRedirect ips port => @fm_Redirect (recording M) r ips port
  | CallUnredirect => @fm_Unredirect (recording M) r
  end = (m', err) →
  rc_log m' = (c, bool_decide (err = None), fm_accepts (rc_mgr r) c) :: rc_log r
  ∧ (err = None → fm_accepts (rc_mgr r) c = true → fm_installs (rc_mgr m') (call_rules c)).
Proof.
  destruct c as [ips port|]; cbn; unfold record_call.
  - destruct (fm_Redirect (rc_mgr r) ips port) as [m1 err1] eqn:E. intros [= <- <-]. cbn. split; [done|].
    intros -> Ha. by eapply fm_Redirect_ok.
  - destruct (fm_Unredirect (rc_mgr r)) as [m1 err1] eqn:E. intros [= <- <-]. cbn. split; [done|].
    intros -> Ha. by eapply fm_Unredirect_ok.
Qed.

Lemma bool_decide_err (err : option gostring) : bool_decide (err = None) = if decide (err = None) then true else false.
Proof. by destruct err. Qed.

(** C29: after any sequence of operations, with DNS, manager and save failures
    anywhere: the rules the controller believes in are the ones the manager last
    reported as done; they are the ones installed, if the manager reported no error
    for its last call and the platform's tools accepted what it made them do (the
    macOS manager reports success also when they did not, [Platform.redirect_hides_failure]);
    and the state file describes the controller unless the last save failed. *)
Theorem firewall_consistent (m : @fm_State M) (w : @FwWorld (recording M)) :
  fm_installs m None → @fw_reach (recording M) (fresh_world m) w →
  installed (fw_ctl w) = reported_rules (rc_log (fw_mgr w))
  ∧ (last_done (rc_log (fw_mgr w)) = true → fm_installs (rc_mgr (fw_mgr w)) (installed (fw_ctl w)))
  ∧ (fw_saved w = true →
      match fw_file w with
      | Some st => st = persisted (fs_LastReconciled st) (fw_ctl w)
      | None => fw_ctl w = NewController
      end).
Proof.
  intros Hm. induction 1 as [|e op w w' err _ (IHr & IHi & IHf) Hexec]; [done|].
  destruct (fw_exec_effect e op w w' err Hexec) as [err ->|c m' err Hcall Hmgr Hrest]; [done|].
  apply recorded_call in Hcall as [Hlog Hinst]. rewrite Hmgr, Hlog. cbn [reported_rules last_done].
  rewrite bool_decide_err. destruct (decide (err = None)) as [He|He].
  - destruct Hrest as (Hr & Hs & Hf). rewrite Hr. split_and!; [done|by apply Hinst|].
    rewrite Hs. intros Hok. by rewrite Hf, Hok.
  - destruct Hrest as (Hc & Hf & Hs). rewrite Hc, Hf, Hs. by split_and!.
Qed.

(** C30: one reconciliation of an enabled controller, when some domain resolves: it
    finds exactly the addresses the domains have now.  If they are the addresses it
    has already, in any order, nothing is called and nothing changes; otherwise the
    manager is called exactly once, to redirect those addresses to the same port,
    and if it reports no error, the controller stays enabled for the same domains
    and believes in those addresses, and they are the ones installed if the tools
    accepted them. *)
Theorem Reconcile_converges e (w : @FwWorld (recording M)) d addrs :
  IsActive w = true → d ∈ fc_domains (fw_ctl w) → fe_resolver e d = Some addrs →
  ∃ ips, (∀ ip, ip ∈ ips ↔ ∃ d addrs, d ∈ fc_domains (fw_ctl w) ∧ fe_resolver e d = Some addrs ∧ ip ∈ addrs)
    ∧ (ips ≡ₚ fc_currentIPs (fw_ctl w) → @Reconcile (recording M) e w = (w, None))
    ∧ (¬ ips ≡ₚ fc_currentIPs (fw_ctl w) →
         let port := fc_transparentPort (fw_ctl w) in
         ∃ w' err ok, @Reconcile (recording M) e w = (w', err)
           ∧ rc_log (fw_mgr w') = (CallRedirect ips port, ok, fm_accepts (rc_mgr (fw_mgr w)) (CallRedirect ips port)) :: rc_log (fw_mgr w)
           ∧ (ok = true ↔ err = None)
           ∧ (err ≠ None → fw_ctl w' = fw_ctl w)
           ∧ (err = None →
                fw_ctl w' = mkController (fc_domains (fw_ctl w)) (fc_proxyAddr (fw_ctl w)) port ips true
                ∧ (fm_accepts (rc_mgr (fw_mgr w)) (CallRedirect ips port) = true →
                     fm_installs (rc_mgr (fw_mgr w')) (Some (ips, port))))).
Proof.
  unfold IsActive, Reconcile. intros Hen Hd Haddrs. rewrite Hen. cbn [negb].
  pose proof (resolveAll_spec (fe_resolver e) (fc_domains (fw_ctl w))) as Hres.
  destruct (resolveAll _ _) as [msg|ips]; [destruct Hres as [_ Hres]; by rewrite Hres in Haddrs by done|].
  destruct Hres as (_ & _ & Hres & _). exists ips. split; [done|].
  pose proof (ipSetsEqual_Permutation ips (fc_currentIPs (fw_ctl w))) as Heq.
  split; [by intros ->%Heq|]. intros Hne. cbv zeta. destruct (ipSetsEqual ips _); [by destruct Hne; apply Heq|].
  destruct (@fm_Redirect (recording M) (fw_mgr w) ips (fc_transparentPort (fw_ctl w))) as [m' err] eqn:Hcall.
  apply (recorded_call (CallRedirect ips (fc_transparentPort (fw_ctl w)))) in Hcall as [Hlog Hinst].
  destruct err as [msg|]; eexists _, _, _; (split; [reflexivity|]); cbn [fw_mgr persist fw_ctl];
    (split; [exact Hlog|]); split_and!; try done. intros _. split; [done|by apply Hinst].
Qed.
End consistent.

(** ** A manager that installs what it is told *)

#[program] Definition demo_manager : FwManager := {|
  fm_State := option (list gostring * Z);
  fm_installs m rules := m = rules;
  fm_accepts _ _ := true;
  fm_Redirect := λ _ ips port, (Some (ips, port), None);
  fm_Unredirect := λ _, (None, None);
|}.
Next Obligation. by intros ???? [= <-]. Qed.
Next Obligation. by intros ?? [= <-]. Qed.

(** Two names, of which one stops resolving and the other moves. *)
Definition demo_dns1 : Resolver := λ d,
  if decide (d = go "a.ai") then Some [go "10.0.0.2"; go "10.0.0.1"] else Some [go "10.0.0.1"].
Definition demo_dns2 : Resolver := λ d, if decide (d = go "a.ai") then Some [go "10.0.0.3"] else None.
Definition demo_enabled : @FwWorld (recording demo_manager) :=
  (@Enable (recording demo_manager) (mkFwEnv demo_dns1 7 true) (fresh_world demo_manager None)
     [go "a.ai"; go "b.ai"] (go "127.0.0.1:8080") 8443).1.

Lemma demo_enabled_ctl :
  fw_ctl demo_enabled = mkController [go "a.ai"; go "b.ai"] (go "127.0.0.1:8080") 8443
    [go "10.0.0.1"; go "10.0.0.2"] true.
Proof. vm_compute. reflexivity. Qed.

Theorem firewall_consistent_witness :
  rc_mgr (fw_mgr demo_enabled) = installed (fw_ctl demo_enabled).
Proof.
  destruct (firewall_consistent demo_manager None demo_enabled eq_refl) as (_ & Hr & _); [|by apply Hr].
  eapply (@fw_step (recording demo_manager) _ (mkFwEnv demo_dns1 7 true)
    (OpEnable [go "a.ai"; go "b.ai"] (go "127.0.0.1:8080") 8443)).
  - apply fw_init.
  - apply surjective_pairing.
Defined.

Theorem Reconcile_converges_witness :
  ∃ w' ips, @Reconcile (recording demo_manager) (mkFwEnv demo_dns2 8 true) demo_enabled = (w', None)
    ∧ go "10.0.0.3" ∈ ips ∧ rc_mgr (fw_mgr w') = Some (ips, 8443).
Proof.
  destruct (Reconcile_converges demo_manager (mkFwEnv demo_dns2 8 true) demo_enabled (go "a.ai") [go "10.0.0.3"])
    as (ips & Hips & _ & Hcall).
  - reflexivity.
  - rewrite demo_enabled_ctl. cbn [fc_domains]. by apply elem_of_cons; left.
  - reflexivity.
  - assert (go "10.0.0.3" ∈ ips) as Hin.
    { apply Hips. exists (go "a.ai"), [go "10.0.0.3"]. split_and!; [|reflexivity|by apply elem_of_cons; left].
      rewrite demo_enabled_ctl. cbn [fc_domains]. by apply elem_of_cons; left. }
    destruct Hcall as (w' & err & ok & Hw & Hlog & Hok & _ & Hdone).
    { intros Hp. rewrite Hp, demo_enabled_ctl in Hin. revert Hin. apply (bool_decide_unpack _). vm_compute. exact I. }
    destruct err as [msg|].
    + apply (f_equal snd) in Hw. vm_compute in Hw. discriminate.
    + exists w', ips. split; [exact Hw|]. split; [exact Hin|]. destruct (Hdone eq_refl) as [_ Hinst].
      rewrite demo_enabled_ctl in Hinst. exact (Hinst eq_refl).
Defined.
