(* ===== verification/Sessions.v ===== *)
(** * Session discovery and monitoring — internal/sessions and internal/monitor

    [List] finds the AI-tool processes of the host and classifies each as
    protected, runaway or unknown; [Collect] turns the list into the events that
    are reported to the control plane.  The host (the output of ps and lsof, and
    DNS) is the class [SysProbe]; the parsing of that output is here. *)
From S2P Require Import Prelude GoStr Utf8 GoSort.
Local Open Scope Z_scope.

(** ** sessions.go: data *)

Inductive Status := StatusProtected | StatusRunaway | StatusUnknown.
#[export] Instance Status_eq_dec : EqDecision Status.
Proof. solve_decision. Defined.
Definition status_text (s : Status) : gostring :=
  match s with
  | StatusProtected => go "protected"
  | StatusRunaway => go "runaway"
  | StatusUnknown => go "unknown"
  end.

Record Session := mkSession {
  ss_PID : Z;
  ss_PPID : Z;
  ss_User : gostring;
  ss_Command : gostring;
  ss_Tool : gostring;
  ss_StartedAt : Z;
  ss_Status : Status;
  ss_Reason : gostring;
  ss_HasProxyEnv : bool;
  ss_ProxyEnv : gostring;
  ss_BoundFlag : bool;
  ss_Connections : list gostring;
  ss_DirectAIConn : list gostring;
  ss_ViaProxy : bool;
}.

Record rawProc := mkRawProc {
  rp_PID : Z;
  rp_PPID : Z;
  rp_User : gostring;
  rp_Command : gostring;
  rp_StartedAt : Z;
}.

(** The tools: a prefix of the program name and a label. *)
Definition aiTools : list (gostring * gostring) := [
  (go "claude", go "Claude Code");
  (go "codex", go "OpenAI Codex");
  (go "cursor", go "Cursor");
  (go "windsurf", go "Windsurf");
  (go "continue", go "Continue");
  (go "aider", go "Aider");
  (go "gemini", go "Gemini CLI");
  (go "copilot", go "GitHub Copilot CLI")].

Definition AIHosts : list gostring := [
  go "api.anthropic.com";
  go "api.openai.com";
  go "api.githubcopilot.com";
  go "copilot-proxy.githubusercontent.com";
  go "generativelanguage.googleapis.com";
  go "api.mistral.ai";
  go "api.cohere.ai"].

(** Times are in nanoseconds; [hostIPsAt] is looked at only when there are
    addresses. *)
Record Lister := mkLister {
  ls_proxyAddr : gostring;
  ls_aiHosts : list gostring;
  ls_hostIPs : gset gostring;
  ls_hostIPsAt : Z;
  ls_currentPID : Z;
}.
Definition NewLister (currentPID : Z) : Lister := mkLister [] AIHosts ∅ 0 currentPID.
Definition SetProxyAddr (l : Lister) (addr : gostring) : Lister :=
  mkLister addr (ls_aiHosts l) (ls_hostIPs l) (ls_hostIPsAt l) (ls_currentPID l).

(** ** sessions.go: helpers *)

Definition baseName (p : gostring) : gostring :=
  match LastIndexByte p "/"%char with Some i => drop (S i) p | None => p end.

(** The offset of the last colon counts only when it is positive. *)
Definition splitHostPort (addr : gostring) : gostring * gostring :=
  if bool_decide (addr = []) then ([], [])
  else match LastIndexByte addr ":"%char with
       | Some (S i) => (Trim (take (S i) addr) (go "[]"), drop (S (S i)) addr)
       | _ => (addr, [])
       end.

Definition truncateCommand (s : gostring) (n : nat) : gostring :=
  if len s <=? Z.of_nat n then s else take n s ++ go "…".

Definition proxy_keys : list gostring :=
  [go "HTTPS_PROXY"; go "https_proxy"; go "HTTP_PROXY"; go "http_proxy"].
Definition detectProxyEnv (env : gmap gostring gostring) : bool * gostring :=
  let fix go_keys ks := match ks with
    | [] => (false, [])
    | k :: ks' =>
        match env !! k with
        | Some v => if bool_decide (v ≠ []) then (true, v) else go_keys ks'
        | None => go_keys ks'
        end
    end in
  go_keys proxy_keys.

Section sessions.
Context `{UnicodeData} `{GoSort}.

Definition classifyTool (cmdline : gostring) : gostring :=
  if bool_decide (cmdline = []) then []
  else
    let first := match IndexByte cmdline " "%char with
                 | Some (S i) => take (S i) cmdline
                 | _ => cmdline end in
    let first := ToLower (baseName first) in
    match list_find (λ t, bool_decide (first = t.1) || HasPrefix first t.1 = true) aiTools with
    | Some (_, t) => t.2
    | None => []
    end.

(** ** sessions_darwin.go: what is read from ps and lsof *)

(** [strings.Fields] *)
Fixpoint fields_from (l : list (N * gostring)) (cur : gostring) : list gostring :=
  match l with
  | [] => if bool_decide (cur = []) then [] else [cur]
  | (r, b) :: l' =>
      if IsSpace r then (if bool_decide (cur = []) then [] else [cur]) ++ fields_from l' []
      else fields_from l' (cur ++ b)
  end.
Definition Fields (s : gostring) : list gostring := fields_from (decode_all s) [].

(** The buffer of the scanner, 1 MiB. *)
Definition scan_buffer : Z := 1048576.

Definition env_letter (c : Z) : bool :=
  (c =? 95) || ((65 <=? c) && (c <=? 90)) || ((97 <=? c) && (c <=? 122)).
Definition isEnvKey (k : gostring) : bool :=
  match k with
  | [] => false
  | c :: k' =>
      env_letter (byteZ c)
      && forallb (λ c, env_letter (byteZ c) || ((48 <=? byteZ c) && (byteZ c <=? 57))) k'
  end.
Definition env_entry (env : gmap gostring gostring) (tok : gostring) : gmap gostring gostring :=
  match IndexByte tok "="%char with
  | Some (S i) =>
      let key := take (S i) tok in
      if isEnvKey key then <[key := drop (S (S i)) tok]> env else env
  | _ => env
  end.
Definition parse_env (out : gostring) : gmap gostring gostring :=
  foldl env_entry ∅ (Fields (TrimSpace out)).

Definition conn_of_line (line : gostring) : option gostring :=
  match Index line (go "->") with
  | None => None
  | Some idx =>
      let rest := drop (idx + 2) line in
      let fix until_blank s := match s with
        | [] => []
        | c :: s' => if bool_decide (c = " "%char ∨ c = byte_of 9) then [] else c :: until_blank s'
        end in
      Some (TrimSpace (until_blank rest))
  end.
Definition parse_connections (out : gostring) : list gostring := omap conn_of_line (ScanLines scan_buffer out).

(** [strconv.Atoi] without its error: zero for a text that is no number, the
    nearest integer for one that is out of range. *)
Definition atoi_value (s : gostring) : Z :=
  match Atoi s with
  | Some v => v
  | None =>
      match s with
      | c :: ds =>
          if bool_decide (ds ≠ [] ∧ c = "-"%char) && forallb is_digit_byte ds then - 2 ^ 63
          else if (bool_decide (ds ≠ [] ∧ c = "+"%char) && forallb is_digit_byte ds)
                  || forallb is_digit_byte s then 2 ^ 63 - 1
          else 0
      | [] => 0
      end
  end.

(** The host: the output of the commands ([None] when the command fails), the
    parsing of a start time, DNS. *)
Class SysProbe := {
  sp_ps : option gostring;
  sp_env : Z → option gostring;
  sp_lsof : Z → option gostring;
  sp_time : gostring → Z;
  sp_lookup : gostring → option (list gostring);
}.
Context `{SysProbe}.

Definition proc_of_line (text : gostring) : option rawProc :=
  let line := TrimSpace text in
  if bool_decide (line = []) then None
  else
    let fields := Fields line in
    if len fields <? 9 then None
    else
      match Atoi (nth 0 fields []) with
      | None => None
      | Some pid =>
          Some (mkRawProc pid (atoi_value (nth 1 fields [])) (nth 2 fields [])
            (Join (drop 8 fields) (go " ")) (sp_time (Join (take 5 (drop 3 fields)) (go " "))))
      end.
Definition scanProcesses : option (list rawProc) :=
  out ← sp_ps;
  if bool_decide (Exists (λ p, 1048576 ≤ len p) (Split out (byte_of 10))) then None
  else Some (omap proc_of_line (ScanLines scan_buffer out)).
Definition processEnv (pid : Z) : option (gmap gostring gostring) := parse_env <$> sp_env pid.
(** A failed command gives no connections. *)
Definition processConnections (pid : Z) : list gostring :=
  match sp_lsof pid with Some out => parse_connections out | None => [] end.

(** ** sessions.go: the lister *)

Definition fresh_ips (hosts : list gostring) : gset gostring :=
  foldl (λ fresh h, match sp_lookup h with
                    | Some ips => foldl (λ fresh ip, {[ip]} ∪ fresh) fresh ips
                    | None => fresh end) ∅ hosts.
Definition refreshHostIPs (now : Z) (l : Lister) : Lister :=
  if (now - ls_hostIPsAt l <? 60 * 10 ^ 9) && bool_decide (ls_hostIPs l ≠ ∅) then l
  else
    let fresh := fresh_ips (ls_aiHosts l) in
    if bool_decide (fresh ≠ ∅)
    then mkLister (ls_proxyAddr l) (ls_aiHosts l) fresh now (ls_currentPID l)
    else l.

(** One turn of the loop over the connections: whether the connection goes to
    the proxy, and whether it goes to a provider. *)
Inductive conn_kind := ConnProxy | ConnDirect | ConnOther.
#[export] Instance conn_kind_eq_dec : EqDecision conn_kind.
Proof. solve_decision. Defined.
Definition conn_class (l : Lister) (c : gostring) : conn_kind :=
  let '(proxyHost, proxyPort) := splitHostPort (ls_proxyAddr l) in
  let '(host, port) := splitHostPort c in
  if bool_decide (host = []) then ConnOther
  else if bool_decide (host ∈ [go "127.0.0.1"; go "::1"; go "localhost"; proxyHost])
          && bool_decide (port = proxyPort) && bool_decide (proxyPort ≠ [])
  then ConnProxy
  else if bool_decide (host ∈ ls_hostIPs l) && bool_decide (port ∈ [go "443"; go "80"])
  then ConnDirect
  else ConnOther.
Definition classify_step (l : Lister) (acc : bool * list gostring) (c : gostring) : bool * list gostring :=
  match conn_class l c with
  | ConnProxy => (true, acc.2)
  | ConnDirect => (acc.1, acc.2 ++ [c])
  | ConnOther => acc
  end.
Definition classifyConnections (l : Lister) (s : Session) : Session :=
  let '(via, direct) := foldl (classify_step l) (ss_ViaProxy s, ss_DirectAIConn s) (ss_Connections s) in
  mkSession (ss_PID s) (ss_PPID s) (ss_User s) (ss_Command s) (ss_Tool s) (ss_StartedAt s) (ss_Status s)
    (ss_Reason s) (ss_HasProxyEnv s) (ss_ProxyEnv s) (ss_BoundFlag s) (ss_Connections s) direct via.

Definition decision (s : Session) : Status * gostring :=
  let direct := 0 <? len (ss_DirectAIConn s) in
  if ss_BoundFlag s then (StatusProtected, go "tagged with REDACTR_BOUND=1")
  else if ss_HasProxyEnv s && negb direct then (StatusProtected, go "HTTPS_PROXY points at Redactr")
  else if ss_ViaProxy s && negb direct then (StatusProtected, go "TCP connection to Redactr proxy")
  else if direct then (StatusRunaway, go "direct connection to AI provider — bypassing the proxy")
  else if ss_HasProxyEnv s && direct
  then (StatusRunaway, go "proxy env set but traffic is going direct anyway")
  else (StatusUnknown, go "no AI traffic observed yet").
Definition decide_session (s : Session) : Session :=
  let '(status, reason) := decision s in
  mkSession (ss_PID s) (ss_PPID s) (ss_User s) (ss_Command s) (ss_Tool s) (ss_StartedAt s) status
    reason (ss_HasProxyEnv s) (ss_ProxyEnv s) (ss_BoundFlag s) (ss_Connections s) (ss_DirectAIConn s)
    (ss_ViaProxy s).

(** One turn of the loop of [List]. *)
Definition session_of (l : Lister) (p : rawProc) : option Session :=
  if rp_PID p =? ls_currentPID l then None
  else
    let tool := classifyTool (rp_Command p) in
    if bool_decide (tool = []) then None
    else
      let '(hasProxy, proxyEnv, bound) :=
        match processEnv (rp_PID p) with
        | Some env => (detectProxyEnv env, bool_decide (env !! go "REDACTR_BOUND" = Some (go "1")))
        | None => (false, [], false)
        end in
      Some (decide_session (classifyConnections l
        (mkSession (rp_PID p) (rp_PPID p) (rp_User p) (truncateCommand (rp_Command p) 240) tool
          (rp_StartedAt p) StatusUnknown [] hasProxy proxyEnv bound
          (processConnections (rp_PID p)) [] false))).

Definition status_rank (s : Status) : Z :=
  match s with StatusRunaway => 0 | StatusUnknown => 1 | StatusProtected => 2 end.
Definition session_less (a b : Session) : bool :=
  if bool_decide (ss_Status a ≠ ss_Status b)
  then status_rank (ss_Status a) <? status_rank (ss_Status b)
  else ss_StartedAt b <? ss_StartedAt a.

(** [List], with the refreshed lister. *)
Definition ListSessions (now : Z) (l : Lister) : Lister * option (list Session) :=
  match scanProcesses with
  | None => (l, None)
  | Some procs =>
      let l := refreshHostIPs now l in
      (l, Some (sort_slice session_less (omap (session_of l) procs)))
  end.
End sessions.

(** ** monitor.go *)

Record MonitorEvent := mkMonitorEvent {
  me_Tool : gostring;
  me_Verdict : gostring;
  me_Reason : gostring;
  me_DirectConnCount : Z;
  me_ObservedAt : Z;
}.
Definition Collect (now : Z) (l : list Session) : list MonitorEvent :=
  (λ s, mkMonitorEvent (ss_Tool s) (status_text (ss_Status s)) (ss_Reason s)
          (len (ss_DirectAIConn s)) now) <$> l.

(** ** What a session's verdict means *)

Section verdicts.
Context `{UnicodeData} `{GoSort} `{SysProbe}.
Implicit Types (l : Lister) (p : rawProc) (s : Session).

Lemma classify_fold l conns via direct :
  foldl (classify_step l) (via, direct) conns =
  (via || existsb (λ c, bool_decide (conn_class l c = ConnProxy)) conns,
   direct ++ filter (λ c, conn_class l c = ConnDirect) conns).
Proof.
  revert via direct. induction conns as [|c conns IH]; intros via direct; cbn [foldl existsb].
  - by rewrite orb_false_r, app_nil_r.
  - unfold classify_step at 2. destruct (conn_class l c) eqn:Hc; rewrite IH; cbn [fst snd].
    + rewrite bool_decide_eq_true_2 by done. rewrite filter_cons_False by congruence.
      by rewrite orb_true_l, orb_true_r.
    + rewrite bool_decide_eq_false_2 by done. rewrite filter_cons_True by done. by rewrite <-app_assoc.
    + rewrite bool_decide_eq_false_2 by done. by rewrite filter_cons_False by congruence.
Qed.

(** The tagged and the proxied environments. *)
Definition env_bound (pid : Z) : Prop :=
  ∃ env, processEnv pid = Some env ∧ env !! go "REDACTR_BOUND" = Some (go "1").
Definition env_proxied (pid : Z) : Prop :=
  ∃ env k v, processEnv pid = Some env ∧ env !! k = Some v ∧ v ≠ []
    ∧ k ∈ [go "HTTPS_PROXY"; go "https_proxy"; go "HTTP_PROXY"; go "http_proxy"].

(** The text of an endpoint: a host, perhaps in brackets, a colon and a port. *)
Definition endpoint (c host port : gostring) : Prop :=
  ∃ opening closing, c = opening ++ host ++ closing ++ ":"%char :: port ∧ opening ++ host ++ closing ≠ []
    ∧ ":"%char ∉ port ∧ opening ⊆ go "[]" ∧ closing ⊆ go "[]" ∧ trimmed host (go "[]").
(** A connection to the proxy the lister knows, by its address or a name of this machine, and one
    to a provider, past the proxy. *)
Definition to_proxy (l : Lister) (c : gostring) : Prop := ∃ host port proxy,
  endpoint c host port ∧ endpoint (ls_proxyAddr l) proxy port ∧ host ≠ [] ∧ port ≠ []
  ∧ (host = go "127.0.0.1" ∨ host = go "::1" ∨ host = go "localhost" ∨ host = proxy).
Definition to_provider (l : Lister) (c : gostring) : Prop :=
  ¬ to_proxy l c ∧ ∃ host port, endpoint c host port ∧ host ≠ [] ∧ host ∈ ls_hostIPs l
    ∧ (port = go "443" ∨ port = go "80").
Lemma splitHostPort_endpoint c host port : port ≠ [] → splitHostPort c = (host, port) ↔ endpoint c host port.
Proof.
  intros Hp. unfold splitHostPort, endpoint. split.
  - case_bool_decide; [intros [= _ <-]; done|].
    destruct (LastIndexByte c ":"%char) as [[|i]|] eqn:Hi; [intros [= _ <-]; done| |intros [= _ <-]; done].
    apply LastIndexByte_Some in Hi as [Hc Hn]. intros [= <- <-].
    destruct (Trim_split (take (S i) c) (go "[]")) as (l & r & Ht & Hl & Hr & Htrim).
    rewrite Ht in Hc at 1. rewrite <- !app_assoc in Hc. exists l, r. rewrite <- Ht.
    split_and!; [exact Hc|by destruct c|done..].
  - intros (l & r & Hc & Hne & Hn & Hl & Hr & Ht).
    assert (c = (l ++ host ++ r) ++ ":"%char :: port) as -> by (by rewrite <- !app_assoc).
    rewrite bool_decide_eq_false_2 by (by destruct (l ++ host ++ r)).
    rewrite LastIndexByte_app_plain by done. destruct (length (l ++ host ++ r)) as [|i] eqn:Hlen; [by apply length_zero_iff_nil in Hlen|].
    rewrite <- Hlen, take_app_length, Trim_app by done. f_equal.
    replace (S (length (l ++ host ++ r))) with (length (l ++ host ++ r) + 1)%nat by lia. by rewrite drop_app_add.
Qed.
Lemma conn_class_proxy l c : conn_class l c = ConnProxy ↔ to_proxy l c.
Proof.
  unfold conn_class, to_proxy. destruct (splitHostPort (ls_proxyAddr l)) as [proxy pport] eqn:Hproxy.
  destruct (splitHostPort c) as [host port] eqn:Hc. split.
  - case_bool_decide as Hh; [done|]. case_bool_decide as Hin; cbn [andb]; [|by destruct (_ && _)].
    case_bool_decide as Hport; cbn [andb]; [|by destruct (_ && _)]. case_bool_decide as Hne; [|by destruct (_ && _)].
    intros _. subst pport. exists host, port, proxy. split_and!; try done; [by apply splitHostPort_endpoint..|]. set_unfold in Hin. naive_solver.
  - intros (host' & port' & proxy' & He & Hpe & Hh & Hp & Hin).
    apply splitHostPort_endpoint in He, Hpe; [|done..]. rewrite Hc in He. rewrite Hproxy in Hpe. simplify_eq.
    rewrite bool_decide_eq_false_2 by done.
    assert (host' ∈ [go "127.0.0.1"; go "::1"; go "localhost"; proxy']) as Hin' by (set_unfold; naive_solver).
    rewrite (bool_decide_eq_true_2 _ Hin'), (bool_decide_eq_true_2 (port' = port')), (bool_decide_eq_true_2 (port' ≠ [])); done.
Qed.
Lemma conn_class_direct l c : conn_class l c = ConnDirect ↔ to_provider l c.
Proof.
  unfold to_provider. rewrite <- conn_class_proxy. unfold conn_class.
  destruct (splitHostPort (ls_proxyAddr l)) as [proxy pport]. destruct (splitHostPort c) as [host port] eqn:Hc. split.
  - case_bool_decide as Hh; [done|]. destruct (_ && bool_decide (pport ≠ [])); [done|].
    case_bool_decide as Hin; [|done]. case_bool_decide as Hport; [|done]. intros _. split; [done|]. exists host, port.
    split_and!; [|done|done|set_unfold in Hport; naive_solver].
    apply splitHostPort_endpoint; [|done]. intros ->. set_unfold in Hport. naive_solver.
  - intros (Hno & host' & port' & He & Hh & Hin & Hport).
    apply splitHostPort_endpoint in He; [|by destruct Hport as [-> | ->]]. rewrite Hc in He. simplify_eq.
    rewrite bool_decide_eq_false_2 in * by done. destruct (_ && bool_decide (pport ≠ [])); [done|].
    rewrite !bool_decide_eq_true_2; [done| |done]. set_unfold. naive_solver.
Qed.
#[export] Instance to_provider_dec l c : Decision (to_provider l c).
Proof. refine (cast_if (decide (conn_class l c = ConnDirect))); by rewrite <- conn_class_direct. Defined.

Lemma detectProxyEnv_true env :
  (detectProxyEnv env).1 = true ↔ ∃ k v, k ∈ proxy_keys ∧ env !! k = Some v ∧ v ≠ [].
Proof.
  unfold detectProxyEnv. generalize proxy_keys as ks. induction ks as [|k ks IH]; [set_solver|].
  destruct (env !! k) as [v|] eqn:Hk; [destruct (decide (v ≠ [])) as [Hv|Hv]|].
  - rewrite bool_decide_eq_true_2 by done. split; [|done]. intros _. exists k, v. set_solver.
  - rewrite bool_decide_eq_false_2, IH by done. set_solver.
  - rewrite IH. set_solver.
Qed.

Lemma session_of_Some l p s :
  session_of l p = Some s →
  rp_PID p ≠ ls_currentPID l
  ∧ ss_PID s = rp_PID p ∧ ss_StartedAt s = rp_StartedAt p
  ∧ ss_Tool s = classifyTool (rp_Command p) ∧ ss_Tool s ≠ []
  ∧ (ss_BoundFlag s = true ↔ env_bound (rp_PID p))
  ∧ (ss_HasProxyEnv s = true ↔ env_proxied (rp_PID p))
  ∧ ss_ViaProxy s = existsb (λ c, bool_decide (conn_class l c = ConnProxy)) (processConnections (rp_PID p))
  ∧ ss_DirectAIConn s = filter (λ c, conn_class l c = ConnDirect) (processConnections (rp_PID p))
  ∧ decision s = (ss_Status s, ss_Reason s).
Proof.
  unfold session_of. destruct (Z.eqb_spec (rp_PID p) (ls_currentPID l)) as [|Hpid]; [done|].
  destruct (bool_decide (classifyTool (rp_Command p) = [])) eqn:Htool; [done|bool_hyps].
  set (env := match processEnv (rp_PID p) with Some _ => _ | None => _ end).
  assert ((env.2 = true ↔ env_bound (rp_PID p)) ∧ (env.1.1 = true ↔ env_proxied (rp_PID p))) as [Hb Hx].
  { unfold env, env_bound, env_proxied. destruct (processEnv (rp_PID p)) as [m|].
    - cbn [fst snd]. rewrite bool_decide_eq_true, detectProxyEnv_true. split; split; try naive_solver.
    - cbn [fst snd]. split; split; [done|by intros (?&[=]&_)|done|by intros (?&?&?&[=]&_)]. }
  destruct env as [[hasProxy proxyEnv] bound]. cbn [fst snd] in Hb, Hx.
  unfold classifyConnections. cbn [ss_ViaProxy ss_DirectAIConn ss_Connections].
  rewrite classify_fold. unfold decide_session. cbn [orb app].
  match goal with |- context [decision ?s0] => destruct (decision s0) as [st why] eqn:Hd end.
  intros [= <-]. cbn. by split_and!.
Qed.

(** C36: the verdict on a process.  Its direct connections are exactly those of
    its connections, in order, that end at port 443 or 80 of a provider address
    the lister holds other than through the proxy it knows.  It is runaway
    exactly when it has one and is not tagged; protected exactly when it is
    tagged, or has none and either its environment names a proxy or it talks to
    the local one; otherwise unknown. *)
Theorem session_verdict l p s :
  session_of l p = Some s →
  ss_DirectAIConn s = filter (to_provider l) (processConnections (rp_PID p))
  ∧ (ss_Status s = StatusRunaway ↔ ¬ env_bound (rp_PID p) ∧ Exists (to_provider l) (processConnections (rp_PID p)))
  ∧ (ss_Status s = StatusProtected ↔ env_bound (rp_PID p)
       ∨ ¬ Exists (to_provider l) (processConnections (rp_PID p))
         ∧ (env_proxied (rp_PID p) ∨ Exists (to_proxy l) (processConnections (rp_PID p)))).
Proof.
  intros (_ & _ & _ & _ & _ & Hb & Hx & Hv & Hdir & Hdec)%session_of_Some.
  assert (ss_DirectAIConn s = filter (to_provider l) (processConnections (rp_PID p))) as Hdirect.
  { rewrite Hdir. apply list_filter_iff. intros c. apply conn_class_direct. }
  split; [done|].
  assert (Exists (to_provider l) (processConnections (rp_PID p)) ↔ ss_DirectAIConn s ≠ []) as ->.
  { assert (∀ c, c ∈ ss_DirectAIConn s ↔ to_provider l c ∧ c ∈ processConnections (rp_PID p)) as Hin
      by (intros c; rewrite Hdirect; apply list_elem_of_filter).
    rewrite Exists_exists. split.
    - intros (c & Hc & Hp) Hnil. assert (c ∈ ss_DirectAIConn s) as Hc' by by apply Hin.
      rewrite Hnil in Hc'. by apply elem_of_nil in Hc'.
    - intros Hne. destruct (ss_DirectAIConn s) as [|c cs]; [by destruct Hne|]. exists c. apply and_comm, Hin. by left. }
  rewrite <-Hb, <-Hx.
  assert (Exists (to_proxy l) (processConnections (rp_PID p)) ↔ ss_ViaProxy s = true) as ->.
  { rewrite Hv, existsb_exists, Exists_exists. setoid_rewrite bool_decide_eq_true.
    setoid_rewrite list_elem_of_In. by setoid_rewrite conn_class_proxy. }
  assert ((0 <? len (ss_DirectAIConn s)) = bool_decide (ss_DirectAIConn s ≠ [])) as Hlen.
  { destruct (ss_DirectAIConn s); [done|]. rewrite bool_decide_eq_true_2 by done. apply Z.ltb_lt. unfold len.
    cbn [length]. lia. }
  unfold decision in Hdec. rewrite Hlen in Hdec. clear -Hdec.
  destruct (decide (ss_DirectAIConn s = [])) as [Hd|Hd];
    [rewrite bool_decide_eq_false_2 in Hdec by auto|rewrite bool_decide_eq_true_2 in Hdec by done];
    destruct (ss_BoundFlag s), (ss_HasProxyEnv s), (ss_ViaProxy s); cbn [andb negb] in Hdec;
    injection Hdec as Hst _; rewrite <-Hst; intuition congruence.
Qed.
End verdicts.

(** ** The list and what is reported *)

Lemma session_less_weak : StrictWeak session_less.
Proof.
  destruct (strict_weak_key_desc (λ s, status_rank (ss_Status s)) ss_StartedAt) as [Hasym Htrans].
  assert (∀ a b, session_less a b =
    if status_rank (ss_Status a) =? status_rank (ss_Status b) then ss_StartedAt b <? ss_StartedAt a
    else status_rank (ss_Status a) <? status_rank (ss_Status b)) as Heq.
  { intros a b. unfold session_less. by destruct (ss_Status a), (ss_Status b). }
  split; intros *; rewrite !Heq; [apply Hasym|apply Htrans].
Qed.

(** The texts that appear in an event. *)
Definition reasons : list gostring := [
  go "tagged with REDACTR_BOUND=1"; go "HTTPS_PROXY points at Redactr"; go "TCP connection to Redactr proxy";
  go "direct connection to AI provider — bypassing the proxy"; go "no AI traffic observed yet"].

Section reports.
Context `{UnicodeData} `{GoSort} `{SysProbe}.

Lemma classifyTool_label cmd : classifyTool cmd ≠ [] → classifyTool cmd ∈ snd <$> aiTools.
Proof.
  unfold classifyTool. destruct (bool_decide (cmd = [])); [done|]. cbv zeta.
  destruct (list_find _ aiTools) as [[i t]|] eqn:Hf; [|done]. intros _.
  apply list_find_Some in Hf as (Ht & _). apply list_elem_of_fmap. exists t. split; [done|].
  by eapply list_elem_of_lookup_2.
Qed.

Lemma decision_reason s : (decision s).2 ∈ reasons.
Proof.
  unfold decision. destruct (ss_BoundFlag s), (ss_HasProxyEnv s), (ss_ViaProxy s), (0 <? len (ss_DirectAIConn s));
    cbn [andb negb snd]; apply (bool_decide_eq_true_1 _); vm_compute; reflexivity.
Qed.

(** [List] returns one session for each process other than the caller whose
    program is a known tool, runaway ones first, then unknown, then protected,
    and the most recent first within a group; and the events collected from it
    carry fixed texts, the number of direct connections and the time: no command
    line, address or environment value. *)
Theorem ListSessions_spec now l l' sessions procs t :
  scanProcesses = Some procs → ListSessions now l = (l', Some sessions) →
  sessions ≡ₚ omap (session_of l') procs
  ∧ StronglySorted (λ a b, status_rank (ss_Status a) < status_rank (ss_Status b)
      ∨ ss_Status a = ss_Status b ∧ ss_StartedAt b ≤ ss_StartedAt a) sessions
  ∧ Forall2 (λ s e, me_Tool e ∈ snd <$> aiTools ∧ me_Reason e ∈ reasons
      ∧ me_Verdict e = status_text (ss_Status s) ∧ me_DirectConnCount e = len (ss_DirectAIConn s)
      ∧ me_ObservedAt e = t) sessions (Collect t sessions).
Proof.
  intros Hscan. unfold ListSessions. rewrite Hscan. intros [= <- <-].
  set (procs' := omap _ procs).
  pose proof (sort_slice_perm session_less procs') as Hp. split_and!; [done| |].
  - eapply StronglySorted_impl, sort_slice_sorted, session_less_weak. unfold not_after, session_less.
    intros a b Hab. destruct (bool_decide (ss_Status b ≠ ss_Status a)) eqn:Hs; bool_hyps.
    + left. by destruct (ss_Status a), (ss_Status b).
    + right. apply dec_stable in Hs. by rewrite Hs.
  - apply Forall2_fmap_r, Forall_Forall2_diag. rewrite Forall_forall. intros s Hs. rewrite Hp in Hs.
    apply list_elem_of_omap in Hs as (p & _ & Hs). apply session_of_Some in Hs.
    destruct Hs as (_ & _ & _ & Ht & Hne & _ & _ & _ & _ & Hdec). cbn.
    split_and!; try done; [rewrite Ht in *; by apply classifyTool_label|].
    pose proof (decision_reason s) as Hr. by rewrite Hdec in Hr.
Qed.
End reports.

(** ** A host with three tools: one bound, one runaway, one idle *)

Definition demo_ps : gostring :=
  go "  101  1 ann Wed Apr 23 09:08:24 2026 /usr/bin/claude --resume" ++ [byte_of 10]
  ++ go "  102  1 ann Wed Apr 23 09:08:25 2026 /opt/codex exec" ++ [byte_of 10]
  ++ go "  103  1 bob Wed Apr 23 09:08:26 2026 aider" ++ [byte_of 10]
  ++ go "  104  1 bob Wed Apr 23 09:08:27 2026 vim notes" ++ [byte_of 10].
Definition demo_probe : SysProbe := {|
  sp_ps := Some demo_ps;
  sp_env pid := if pid =? 101 then Some (go "/usr/bin/claude --resume REDACTR_BOUND=1") else Some (go "x HOME=/h");
  sp_lsof pid := if pid =? 102
    then Some (go "codex 102 ann 7u IPv4 TCP 10.0.0.5:5000->160.79.104.10:443 (ESTABLISHED)") else None;
  sp_time _ := 0;
  sp_lookup h := if decide (h = go "api.anthropic.com") then Some [go "160.79.104.10"] else None;
|}.
Definition demo_lister : Lister := SetProxyAddr (NewLister 999) (go "127.0.0.1:8080").
Definition demo_refreshed : Lister := @refreshHostIPs demo_probe (100 * 10 ^ 9) demo_lister.
Definition demo_proc : rawProc := mkRawProc 102 1 (go "ann") (go "/opt/codex exec") 0.
Definition demo_procs : list rawProc := [
  mkRawProc 101 1 (go "ann") (go "/usr/bin/claude --resume") 0; demo_proc;
  mkRawProc 103 1 (go "bob") (go "aider") 0; mkRawProc 104 1 (go "bob") (go "vim notes") 0].
Definition demo_list : Lister * option (list Session) :=
  @ListSessions sample_unicode insertion_sort demo_probe (100 * 10 ^ 9) demo_lister.

Lemma demo_host_scan : @scanProcesses sample_unicode demo_probe = Some demo_procs.
Proof. vm_compute. reflexivity. Qed.
Lemma demo_list_verdicts :
  option_map (map (λ s, (ss_PID s, ss_Status s))) demo_list.2
  = Some [(102, StatusRunaway); (103, StatusUnknown); (101, StatusProtected)].
Proof. vm_compute. reflexivity. Qed.
Lemma demo_list_Some : ∃ sessions, demo_list = (demo_list.1, Some sessions).
Proof.
  pose proof demo_list_verdicts as Hv. destruct demo_list as [l [sessions|]]; [by eexists|done].
Qed.
Lemma demo_session :
  ∃ s, @session_of sample_unicode demo_probe demo_refreshed demo_proc = Some s
    ∧ ss_DirectAIConn s = [go "160.79.104.10:443"].
Proof. eexists. split; vm_compute; reflexivity. Qed.
Lemma demo_unbound : ¬ @env_bound sample_unicode demo_probe 102.
Proof. intros (env & [= <-] & Henv). by vm_compute in Henv. Qed.

Theorem session_verdict_witness :
  ∃ s, @session_of sample_unicode demo_probe demo_refreshed demo_proc = Some s ∧ ss_Status s = StatusRunaway.
Proof.
  destruct demo_session as (s & Hs & Hd). exists s. split; [exact Hs|].
  destruct (@session_verdict sample_unicode demo_probe demo_refreshed demo_proc s Hs) as (_ & [_ Hr] & _).
  apply Hr. split; [exact demo_unbound|].
  apply Exists_exists. exists (go "160.79.104.10:443"). split; [vm_compute; by left|].
  apply conn_class_direct. vm_compute. reflexivity.
Defined.

Theorem ListSessions_spec_witness :
  ∃ sessions, demo_list.2 = Some sessions
    ∧ sessions ≡ₚ omap (@session_of sample_unicode demo_probe demo_list.1) demo_procs.
Proof.
  destruct demo_list_Some as (sessions & Hs). exists sessions. split; [by rewrite Hs|].
  apply (@ListSessions_spec sample_unicode insertion_sort demo_probe (100 * 10 ^ 9) demo_lister
    demo_list.1 sessions demo_procs 0 demo_host_scan Hs).
Defined.
