(* ===== verification/Base64.v ===== *)
(** * Base64, URL alphabet without padding (encoding/base64, RawURLEncoding)

    The decoder is Go's: line feeds and carriage returns are ignored, a text of
    4k+1 letters is an error, and the unused low bits of the last letter are not
    looked at, so several texts decode to the same bytes. *)
From S2P Require Import Prelude GoStr Utf8.
Local Open Scope Z_scope.

Definition b64_char (n : Z) : Ascii.ascii :=
  if n <? 26 then byte_of (65 + n)
  else if n <? 52 then byte_of (71 + n)
  else if n <? 62 then byte_of (n - 4)
  else if n =? 62 then byte_of 45 else byte_of 95.
Definition b64_value (c : Ascii.ascii) : option Z :=
  let n := byteZ c in
  if (65 <=? n) && (n <=? 90) then Some (n - 65)
  else if (97 <=? n) && (n <=? 122) then Some (n - 71)
  else if (48 <=? n) && (n <=? 57) then Some (n + 4)
  else if n =? 45 then Some 62
  else if n =? 95 then Some 63
  else None.

Definition sextet (v k : Z) : Ascii.ascii := b64_char (Z.land (Z.shiftr v k) 63).

(** [EncodeToString] *)
Fixpoint b64_encode (s : gostring) : gostring :=
  match s with
  | a :: b :: c :: s' =>
      let v := Z.lor (Z.lor (Z.shiftl (byteZ a) 16) (Z.shiftl (byteZ b) 8)) (byteZ c) in
      sextet v 18 :: sextet v 12 :: sextet v 6 :: sextet v 0 :: b64_encode s'
  | [a; b] =>
      let v := Z.lor (Z.shiftl (byteZ a) 16) (Z.shiftl (byteZ b) 8) in
      [sextet v 18; sextet v 12; sextet v 6]
  | [a] =>
      let v := Z.shiftl (byteZ a) 16 in
      [sextet v 18; sextet v 12]
  | [] => []
  end.

(** The quanta of [DecodeString]. *)
Definition quantum (a b c d : Z) : Z :=
  Z.lor (Z.lor (Z.lor (Z.shiftl a 18) (Z.shiftl b 12)) (Z.shiftl c 6)) d.
Definition octet (v k : Z) : Ascii.ascii := byte_of (Z.shiftr v k).
Fixpoint b64_quanta (l : list Z) : option gostring :=
  match l with
  | a :: b :: c :: d :: l' =>
      let v := quantum a b c d in
      rest ← b64_quanta l'; Some (octet v 16 :: octet v 8 :: octet v 0 :: rest)
  | [a; b; c] => let v := quantum a b c 0 in Some [octet v 16; octet v 8]
  | [a; b] => let v := quantum a b 0 0 in Some [octet v 16]
  | [a] => None
  | [] => Some []
  end.
Definition is_newline (c : Ascii.ascii) : Prop := c = byte_of 10 ∨ c = byte_of 13.
#[export] Instance is_newline_dec c : Decision (is_newline c).
Proof. unfold is_newline. apply _. Defined.
Definition b64_decode (s : gostring) : option gostring :=
  l ← mapM b64_value (filter (λ c, ¬ is_newline c) s); b64_quanta l.

Example b64_ex : b64_encode (go "Man?>") = go "TWFuPz4" ∧ b64_decode (go "TWFuPz4") = Some (go "Man?>").
Proof. by vm_compute. Qed.
(** Two texts for one byte. *)
Example b64_loose : b64_decode (go "TQ") = Some (go "M") ∧ b64_decode (go "TR") = Some (go "M").
Proof. by vm_compute. Qed.

(** ** Decoding what was encoded *)

(** The letters of the alphabet. *)
Definition b64_letter (c : Ascii.ascii) : Prop := is_Some (b64_value c).

Lemma b64_value_char n : 0 ≤ n < 64 → b64_value (b64_char n) = Some n.
Proof.
  intros Hn. assert (Forall (λ k, b64_value (b64_char k) = Some k) (Z.of_nat <$> seq 0 64)) as Hall.
  { apply (bool_decide_eq_true_1 _). by vm_compute. }
  rewrite Forall_forall in Hall. apply Hall. apply list_elem_of_fmap. exists (Z.to_nat n).
  split; [lia|]. apply elem_of_seq. lia.
Qed.

Lemma sextet_mod v k : 0 ≤ k → sextet v k = b64_char (v / 2 ^ k mod 64).
Proof.
  intros Hk. unfold sextet. rewrite Z.shiftr_div_pow2 by done.
  by rewrite (Z.land_ones _ 6) by lia.
Qed.
Lemma sextet_value v k : 0 ≤ k → b64_value (sextet v k) = Some (v / 2 ^ k mod 64).
Proof. intros Hk. rewrite sextet_mod by done. apply b64_value_char, Z.mod_pos_bound. lia. Qed.

Lemma b64_letter_plain c : b64_letter c → ¬ is_newline c ∧ c ≠ "."%char.
Proof. intros Hc. split; [intros [->| ->]|intros ->]; vm_compute in Hc; by destruct Hc. Qed.

Lemma b64_encode_letters s : Forall b64_letter (b64_encode s).
Proof.
  assert (∀ v k, 0 ≤ k → b64_letter (sextet v k)) as Hs by (intros v k Hk; unfold b64_letter; by rewrite sextet_value).
  induction s as [s IH] using (induction_ltof1 _ length). unfold ltof in IH.
  destruct s as [|a [|b [|c s]]]; cbn [b64_encode]; repeat constructor; try (apply Hs; lia).
  apply IH. cbn. lia.
Qed.

Lemma quantum_sum a b c d :
  0 ≤ b < 64 → 0 ≤ c < 64 → 0 ≤ d < 64 → quantum a b c d = a * 2 ^ 18 + (b * 2 ^ 12 + (c * 2 ^ 6 + d)).
Proof.
  intros Hb Hc Hd. unfold quantum. rewrite <-!Z.lor_assoc.
  by rewrite (lor_shiftl_add c), (lor_shiftl_add b), (lor_shiftl_add a) by lia.
Qed.

Lemma octets_sum a b c :
  0 ≤ b < 256 → 0 ≤ c < 256 → Z.lor (Z.lor (Z.shiftl a 16) (Z.shiftl b 8)) c = a * 2 ^ 16 + (b * 2 ^ 8 + c).
Proof.
  intros Hb Hc. rewrite <-Z.lor_assoc. by rewrite (lor_shiftl_add b), (lor_shiftl_add a) by lia.
Qed.

Lemma octet_byte v k c : 0 ≤ k → v / 2 ^ k mod 256 = byteZ c → octet v k = c.
Proof.
  intros Hk Hv. apply byteZ_inj. unfold octet. by rewrite Z.shiftr_div_pow2, byteZ_byte_of by done.
Qed.

(** Four letters of a 24-bit value give the value back. *)
Lemma quantum_sextets v :
  0 ≤ v < 2 ^ 24 →
  quantum (v / 2 ^ 18 mod 64) (v / 2 ^ 12 mod 64) (v / 2 ^ 6 mod 64) (v / 2 ^ 0 mod 64) = v.
Proof.
  intros Hv. rewrite quantum_sum by (apply Z.mod_pos_bound; lia).
  Z.div_mod_to_equations. lia.
Qed.

Lemma b64_quanta_encode s :
  ∃ l, mapM b64_value (b64_encode s) = Some l ∧ b64_quanta l = Some s.
Proof.
  induction s as [s IH] using (induction_ltof1 _ length). unfold ltof in IH.
  destruct s as [|a [|b [|c s]]]; cbn [b64_encode].
  - by exists [].
  - exists [byteZ a * 2 ^ 16 / 2 ^ 18 mod 64; byteZ a * 2 ^ 16 / 2 ^ 12 mod 64].
    rewrite Z.shiftl_mul_pow2 by lia. pose proof (byteZ_range a). split.
    { cbn [mapM]. rewrite !sextet_value by lia. done. }
    cbn [b64_quanta]. rewrite quantum_sum by (try apply Z.mod_pos_bound; lia).
    f_equal. f_equal. apply octet_byte; [lia|]. Z.div_mod_to_equations. lia.
  - pose proof (byteZ_range a). pose proof (byteZ_range b).
    set (v := Z.lor _ _). assert (v = byteZ a * 2 ^ 16 + byteZ b * 2 ^ 8) as Hv.
    { unfold v. rewrite lor_shiftl_add; rewrite ?Z.shiftl_mul_pow2 by lia; lia. }
    exists [v / 2 ^ 18 mod 64; v / 2 ^ 12 mod 64; v / 2 ^ 6 mod 64]. split.
    { cbn [mapM]. rewrite !sextet_value by lia. done. }
    cbn [b64_quanta]. rewrite quantum_sum by (try apply Z.mod_pos_bound; lia). clearbody v.
    f_equal. f_equal; [|f_equal]; (apply octet_byte; [lia|]); Z.div_mod_to_equations; lia.
  - pose proof (byteZ_range a). pose proof (byteZ_range b). pose proof (byteZ_range c).
    destruct (IH s) as (l & Hm & Hq); [cbn; lia|].
    rewrite octets_sum by done. set (v := _ + _). assert (v = byteZ a * 2 ^ 16 + (byteZ b * 2 ^ 8 + byteZ c)) as Hv by done.
    clearbody v.
    exists (v / 2 ^ 18 mod 64 :: v / 2 ^ 12 mod 64 :: v / 2 ^ 6 mod 64 :: v / 2 ^ 0 mod 64 :: l). split.
    { cbn [mapM]. rewrite !sextet_value by lia. cbn [mbind option_bind mret option_ret]. by rewrite Hm. }
    cbn [b64_quanta]. rewrite Hq, quantum_sextets by lia. cbn [mbind option_bind].
    f_equal. f_equal; [|f_equal; [|f_equal]]; (apply octet_byte; [lia|]); Z.div_mod_to_equations; lia.
Qed.

(** Decoding inverts encoding. *)
Lemma b64_decode_encode s : b64_decode (b64_encode s) = Some s.
Proof.
  unfold b64_decode. rewrite filter_all.
  - destruct (b64_quanta_encode s) as (l & -> & Hq). exact Hq.
  - intros c Hc. pose proof (b64_encode_letters s) as Hl. rewrite Forall_forall in Hl.
    by apply Hl, b64_letter_plain in Hc as [? _].
Qed.
Lemma b64_encode_no_dot s : "."%char ∉ b64_encode s.
Proof.
  intros Hc. pose proof (b64_encode_letters s) as Hl. rewrite Forall_forall in Hl.
  by apply Hl, b64_letter_plain in Hc as [_ ?].
Qed.
Lemma b64_letter_ascii c : b64_letter c → (byteN c <? 128)%N = true.
Proof. intros Hc. destruct c as [[] [] [] [] [] [] [] []]; try done; vm_compute in Hc; by destruct Hc. Qed.
Lemma b64_encode_utf8 s : valid_utf8 (b64_encode s) = b64_encode s.
Proof.
  apply valid_utf8_ascii. unfold ascii_only. apply forallb_forall. intros c Hc%list_elem_of_In.
  pose proof (b64_encode_letters s) as Hl. rewrite Forall_forall in Hl. by apply b64_letter_ascii, Hl.
Qed.
