(* ===== verification/Signing.v ===== *)
(** * Detached signatures — internal/signing/signing.go

    A signature is the pair of an ECDSA P-256 signature of the SHA-256 digest, as
    64 bytes in base64.  The curve is the class [Ecdsa]; the digest, the integer
    encoding and the base64 text are executable. *)
From S2P Require Import Prelude GoStr Sha256 Base64.
Local Open Scope Z_scope.

(** crypto/ecdsa: what a private key signs verifies under its public key, and
    both halves fit the 32 bytes of the curve's order. *)
Class Ecdsa := {
  ec_PrivateKey : Type;
  ec_PublicKey : Type;
  ec_public : ec_PrivateKey → ec_PublicKey;
  ec_Sign : ec_PrivateKey → gostring → gostring → gostring + Z * Z;
  ec_Verify : ec_PublicKey → gostring → Z → Z → bool;
  ec_Sign_ok : ∀ priv rnd h r s, ec_Sign priv rnd h = inr (r, s) →
    0 ≤ r < 2 ^ 256 ∧ 0 ≤ s < 2 ^ 256 ∧ ec_Verify (ec_public priv) h r s = true;
}.

(** [big.Int.FillBytes] of a value that fits, and [SetBytes]. *)
Fixpoint FillBytes (n : nat) (v : Z) : gostring :=
  match n with 0%nat => [] | S n' => FillBytes n' (v / 256) ++ [byte_of v] end.
Definition SetBytes (s : gostring) : Z := foldl (λ v c, v * 256 + byteZ c) 0 s.

Section signing.
Context `{Ecdsa}.

Definition signature_text (r s : Z) : gostring := b64_encode (FillBytes 32 r ++ FillBytes 32 s).
(** The two integers of a signature text. *)
Definition signature_of (text : gostring) : option (Z * Z) :=
  match b64_decode text with
  | Some sig => if len sig =? 64 then Some (SetBytes (sub sig 0 32), SetBytes (sub sig 32 64)) else None
  | None => None
  end.

(** [rnd] is what the random source yields. *)
Definition Sign (priv : ec_PrivateKey) (rnd payload : gostring) : res gostring gostring :=
  match ec_Sign priv rnd (Sum256 payload) with
  | inl e => Err e
  | inr (r, s) => Ok (signature_text r s)
  end.

(** [None] is no error. *)
Definition Verify (pub : ec_PublicKey) (payload sigB64 : gostring) : option gostring :=
  match signature_of sigB64 with
  | None => Some (go "bad signature encoding")
  | Some (r, s) =>
      if negb (ec_Verify pub (Sum256 payload) r s) then Some (go "signature verification failed") else None
  end.
End signing.

(** ** Round trip *)

Lemma length_FillBytes n v : length (FillBytes n v) = n.
Proof. revert v. induction n as [|n IH]; intros v; [done|]. cbn [FillBytes]. rewrite length_app, IH. cbn. lia. Qed.

Lemma SetBytes_FillBytes n v : 0 ≤ v < 256 ^ Z.of_nat n → SetBytes (FillBytes n v) = v.
Proof.
  revert v. induction n as [|n IH]; intros v Hv; [cbn in *; lia|].
  rewrite Nat2Z.inj_succ, Z.pow_succ_r in Hv by lia. cbn [FillBytes]. unfold SetBytes in *.
  rewrite foldl_snoc, IH, byteZ_byte_of.
  - pose proof (Z.div_mod v 256). lia.
  - split; [apply Z.div_pos; lia|]. apply Z.div_lt_upper_bound; lia.
Qed.

Lemma sub_halves (a b : gostring) n :
  len a = n → len b = n → sub (a ++ b) 0 n = a ∧ sub (a ++ b) n (n + n) = b.
Proof.
  intros Ha Hb. split.
  - rewrite sub_app_l by lia. rewrite <-Ha. apply sub_full.
  - rewrite sub_app_r by lia. rewrite Ha, Z.sub_diag, Z.add_simpl_r, <-Hb. apply sub_full.
Qed.

Lemma signature_of_text r s :
  0 ≤ r < 2 ^ 256 → 0 ≤ s < 2 ^ 256 → signature_of (signature_text r s) = Some (r, s).
Proof.
  intros Hr Hs. unfold signature_of, signature_text. rewrite b64_decode_encode.
  assert (∀ v, len (FillBytes 32 v) = 32) as Hl by (intros v; unfold len; by rewrite length_FillBytes).
  rewrite len_app, !Hl. destruct (sub_halves _ _ 32 (Hl r) (Hl s)) as [E1 E2].
  change (32 + 32) with 64 in *. rewrite E1, E2. by rewrite !SetBytes_FillBytes.
Qed.

Section facts.
Context `{Ecdsa}.

Lemma Verify_inv pub payload sig :
  Verify pub payload sig = None ↔
  ∃ r s, signature_of sig = Some (r, s) ∧ ec_Verify pub (Sum256 payload) r s = true.
Proof.
  unfold Verify. destruct (signature_of sig) as [[r s]|]; [|by split; [|intros (?&?&?&?)]].
  destruct (ec_Verify _ _ r s) eqn:Hv; cbn [negb]; split; [eauto|done|done|].
  intros (?&?&[= <- <-]&?). congruence.
Qed.

(** What [Sign] returns, [Verify] accepts for the same payload. *)
Lemma Verify_Sign priv rnd payload sig :
  Sign priv rnd payload = Ok sig → Verify (ec_public priv) payload sig = None.
Proof.
  unfold Sign. destruct (ec_Sign priv rnd _) as [|[r s]] eqn:Hs; [done|]. intros [= <-].
  apply ec_Sign_ok in Hs as (Hr & Hs & Hv). apply Verify_inv. exists r, s. by rewrite signature_of_text.
Qed.
End facts.

(** The public key as text (crypto/x509, encoding/pem): what is printed is read
    back. *)
Class PublicKeyText `{Ecdsa} := {
  PublicKeyPEM : ec_PublicKey → gostring + gostring;
  ParsePublicKeyPEM : gostring → gostring + ec_PublicKey;
  ParsePublicKeyPEM_ok : ∀ pub pem, PublicKeyPEM pub = inr pem → ParsePublicKeyPEM pem = inr pub;
}.
