(* ===== verification/Token.v ===== *)
(** * Device tokens — internal/server/auth/token.go

    A token is the base64 text of the claims' JSON, a dot, and the base64 text of
    an ECDSA signature of that text.  The same key signs policy bundles
    ([SignDetached]); a bundle's signature is of no use as a token's. *)
From S2P Require Import Prelude GoStr Utf8 Sha256 Json JsonRound JsonDecode JsonStruct Base64 Signing.
Local Open Scope Z_scope.

Record Claims := mkClaims { cl_DeviceID : gostring; cl_OrgID : gostring; cl_IssuedAt : Z }.
Definition zero_claims : Claims := mkClaims [] [] 0.

Definition claims_members (c : Claims) : list (gostring * json) := [
  (go "device_id", quoted (cl_DeviceID c));
  (go "org_id", quoted (cl_OrgID c));
  (go "issued_at", JNum (Itoa (cl_IssuedAt c)))].
Definition claims_json (c : Claims) : gostring := compact (JObj (claims_members c)).

Definition ErrInvalidToken : gostring := go "invalid token".
Definition ErrBadSignature : gostring := go "bad signature".

Section token.
Context `{UnicodeData} `{Ecdsa}.

Definition claims_fields : list (gostring * decoder Claims) := [
  (go "device_id", λ c v, (λ x, mkClaims x (cl_OrgID c) (cl_IssuedAt c)) <$> dec_string (cl_DeviceID c) v);
  (go "org_id", λ c v, (λ x, mkClaims (cl_DeviceID c) x (cl_IssuedAt c)) <$> dec_string (cl_OrgID c) v);
  (go "issued_at", λ c v, (λ x, mkClaims (cl_DeviceID c) (cl_OrgID c) x) <$> dec_int (cl_IssuedAt c) v)].
Definition dec_claims : decoder Claims := dec_struct claims_fields.

(** The signed part of a token. *)
Definition claims_segment (c : Claims) : gostring := b64_encode (claims_json c).

Definition SignClaims (priv : ec_PrivateKey) (rnd : gostring) (c : Claims) : res gostring gostring :=
  let seg := claims_segment c in
  match ec_Sign priv rnd (Sum256 seg) with
  | inl e => Err e
  | inr (r, s) => Ok (seg ++ go "." ++ signature_text r s)
  end.

Definition VerifyToken (pub : ec_PublicKey) (token : gostring) : res gostring Claims :=
  match SplitN token "."%char 2 with
  | [seg; sigB64] =>
      match signature_of sigB64 with
      | None => Err ErrBadSignature
      | Some (r, s) =>
          if negb (ec_Verify pub (Sum256 seg) r s) then Err ErrBadSignature
          else
            match b64_decode seg with
            | None => Err ErrInvalidToken
            | Some claimsJSON =>
                match v ← Unmarshal claimsJSON; dec_claims zero_claims v with
                | None => Err ErrInvalidToken
                | Some c => Ok c
                end
            end
      end
  | _ => Err ErrInvalidToken
  end.

(** The claims as they come back: JSON text is UTF-8. *)
Definition wire_claims (c : Claims) : Claims :=
  mkClaims (valid_utf8 (cl_DeviceID c)) (valid_utf8 (cl_OrgID c)) (cl_IssuedAt c).
Definition issuable (c : Claims) : Prop := 0 ≤ cl_IssuedAt c < 2 ^ 63.

(** ** Reading a token *)

Lemma claims_wire c : issuable c → Forall wire_member (claims_members c).
Proof. intros Hc. wire. Qed.

Lemma claims_read c :
  issuable c → (v ← Unmarshal (claims_json c); dec_claims zero_claims v) = Some (wire_claims c).
Proof.
  intros Hc. unfold claims_json. rewrite Unmarshal_members by by apply claims_wire.
  cbn [mbind option_bind]. unfold dec_claims, claims_members.
  do 3 read_member. done.
Qed.

Lemma SplitN_dot seg rest : "."%char ∉ seg → SplitN (seg ++ go "." ++ rest) "."%char 2 = [seg; rest].
Proof.
  intros Hs. cbn [SplitN]. assert (IndexByte (seg ++ go "." ++ rest) "."%char = Some (length seg)) as ->.
  { induction seg as [|c seg IH]; [done|]. apply not_elem_of_cons in Hs as [Hc Hs].
    cbn [app IndexByte length]. rewrite bool_decide_eq_false_2, IH by done. done. }
  rewrite take_app_length. cbn [go String.list_ascii_of_string app].
  change (seg ++ "."%char :: rest) with (seg ++ ["."%char] ++ rest). rewrite app_assoc.
  replace (S (length seg)) with (length (seg ++ ["."%char])) by (rewrite length_app; cbn; lia).
  by rewrite drop_app_length.
Qed.

Lemma token_reads priv rnd c token :
  issuable c → SignClaims priv rnd c = Ok token → VerifyToken (ec_public priv) token = Ok (wire_claims c).
Proof.
  intros Hc. unfold SignClaims. destruct (ec_Sign priv rnd _) as [|[r s]] eqn:Hs; [done|]. intros <-%(inj Ok).
  apply ec_Sign_ok in Hs as (Hr & Hs & Hv). unfold VerifyToken.
  rewrite SplitN_dot by apply b64_encode_no_dot. rewrite signature_of_text, Hv by done. cbn [negb].
  unfold claims_segment. rewrite b64_decode_encode. by rewrite claims_read.
Qed.

(** What the server signs is accepted under its public key, whatever
    randomness the signature used: a device token yields the claims it was issued
    for (as UTF-8), and the detached signature of a policy bundle verifies for the
    bundle. *)
Theorem signatures_roundtrip priv rnd :
  (∀ c token, issuable c → SignClaims priv rnd c = Ok token →
     VerifyToken (ec_public priv) token = Ok (wire_claims c))
  ∧ (∀ payload sig, Sign priv rnd payload = Ok sig → Verify (ec_public priv) payload sig = None).
Proof. split; [intros c token; apply token_reads|intros payload sig; apply Verify_Sign]. Qed.

Lemma VerifyToken_inv pub token c :
  VerifyToken pub token = Ok c →
  ∃ seg sig r s json v, SplitN token "."%char 2 = [seg; sig] ∧ signature_of sig = Some (r, s)
    ∧ ec_Verify pub (Sum256 seg) r s = true ∧ b64_decode seg = Some json
    ∧ Unmarshal json = Some v ∧ dec_claims zero_claims v = Some c.
Proof.
  unfold VerifyToken. destruct (SplitN token _ 2) as [|seg [|sig [|]]] eqn:Hsp; try done.
  destruct (signature_of sig) as [[r s]|] eqn:Hsig; [|done].
  destruct (ec_Verify pub _ r s) eqn:Hv; [|done]. cbn [negb].
  destruct (b64_decode seg) as [json|] eqn:Hj; [|done].
  destruct (Unmarshal json) as [v|] eqn:Hu; [|done]. cbn [mbind option_bind].
  destruct (dec_claims zero_claims v) as [c'|] eqn:Hd; [|done]. intros [= <-]. naive_solver.
Qed.

Lemma b64_decode_brace rest : b64_decode (go "{" ++ rest) = None.
Proof. reflexivity. Qed.

(** C25: tokens cannot be forged from what the key signs.  If a digest verifies
    only when the key signed it, for a token or for a policy bundle, and the
    token's signed part collides with none of those under SHA-256, then an
    accepted token carries claims the server issued; in particular the signature
    of a bundle never makes a token. *)
Theorem token_authentic pub issued bundles token c :
  Forall issuable issued → Forall (λ b, ∃ rest, b = go "{" ++ rest) bundles →
  (∀ h r s, ec_Verify pub h r s = true → h ∈ Sum256 <$> (claims_segment <$> issued) ++ bundles) →
  (∀ seg sig m, SplitN token "."%char 2 = [seg; sig] → m ∈ (claims_segment <$> issued) ++ bundles →
     Sum256 m = Sum256 seg → m = seg) →
  VerifyToken pub token = Ok c →
  ∃ c0, c0 ∈ issued ∧ c = wire_claims c0.
Proof.
  intros Hissued Hbundles Hforge Hcoll (seg & sig & r & s & json & v & Hsp & _ & Hv & Hj & Hu & Hd)%VerifyToken_inv.
  apply Hforge, list_elem_of_fmap in Hv as (m & Heq & Hm). apply (Hcoll seg sig) in Hm as Hms; [|done..].
  subst m. apply elem_of_app in Hm as [(c0 & -> & Hc0)%list_elem_of_fmap|Hb].
  - exists c0. split; [done|]. unfold claims_segment in Hj. rewrite b64_decode_encode in Hj. apply (inj Some) in Hj as <-.
    rewrite Forall_forall in Hissued. pose proof (claims_read c0 (Hissued c0 Hc0)) as Hr.
    rewrite Hu in Hr. cbn [mbind option_bind] in Hr. congruence.
  - rewrite Forall_forall in Hbundles. destruct (Hbundles seg Hb) as (rest & ->). by rewrite b64_decode_brace in Hj.
Qed.
End token.

(** ** A toy curve

    It signs every digest with its own integer; good enough to evaluate on. *)
Lemma toy_sign_ok (h : gostring) r s :
  @inr gostring _ (SetBytes h mod 2 ^ 256, 7) = inr (r, s) →
  0 ≤ r < 2 ^ 256 ∧ 0 ≤ s < 2 ^ 256 ∧ (r =? SetBytes h mod 2 ^ 256) && (s =? 7) = true.
Proof.
  intros [= <- <-]. pose proof (Z.mod_pos_bound (SetBytes h) (2 ^ 256)). rewrite !Z.eqb_refl. split_and!; lia.
Qed.
Definition toy_ecdsa : Ecdsa := {|
  ec_PrivateKey := unit;
  ec_PublicKey := unit;
  ec_public := id;
  ec_Sign _ _ h := inr (SetBytes h mod 2 ^ 256, 7);
  ec_Verify _ h r s := (r =? SetBytes h mod 2 ^ 256) && (s =? 7);
  ec_Sign_ok _ _ := toy_sign_ok;
|}.

Definition demo_claims : Claims := mkClaims (go "d1") (go "acme") 1700000000.
Definition demo_token : gostring :=
  match @SignClaims toy_ecdsa tt [] demo_claims with Ok t => t | _ => [] end.

Lemma demo_token_signed : @SignClaims toy_ecdsa tt [] demo_claims = Ok demo_token.
Proof. reflexivity. Qed.
Lemma demo_issuable : issuable demo_claims.
Proof. by split. Qed.

Theorem signatures_roundtrip_witness :
  @VerifyToken sample_unicode toy_ecdsa tt demo_token = Ok (wire_claims demo_claims).
Proof.
  exact (proj1 (@signatures_roundtrip sample_unicode toy_ecdsa tt []) demo_claims demo_token
    demo_issuable demo_token_signed).
Defined.

(** A curve that signs one digest and accepts no other. *)
Section one_digest.
Context (digest : gostring).
Definition one_sign (h : gostring) : gostring + Z * Z :=
  if decide (h = digest) then inr (1, 7) else inl [].
Definition one_verify (h : gostring) (r s : Z) : bool :=
  bool_decide (h = digest) && ((r =? 1) && (s =? 7)).
Lemma one_sign_ok h r s :
  one_sign h = inr (r, s) → 0 ≤ r < 2 ^ 256 ∧ 0 ≤ s < 2 ^ 256 ∧ one_verify h r s = true.
Proof.
  unfold one_sign, one_verify. destruct (decide (h = digest)) as [Hh|]; [|done]. intros [= <- <-].
  rewrite bool_decide_eq_true_2 by done. by split_and!.
Qed.
Definition one_ecdsa : Ecdsa := {|
  ec_PrivateKey := unit;
  ec_PublicKey := unit;
  ec_public := id;
  ec_Sign _ _ := one_sign;
  ec_Verify _ := one_verify;
  ec_Sign_ok _ _ := one_sign_ok;
|}.
End one_digest.
Definition demo_digest : gostring := Sum256 (claims_segment demo_claims).
Definition one_token : gostring := claims_segment demo_claims ++ go "." ++ signature_text 1 7.

Lemma one_token_ok : @VerifyToken sample_unicode (one_ecdsa demo_digest) tt one_token = Ok demo_claims.
Proof.
  unfold VerifyToken, one_token. rewrite SplitN_dot by apply b64_encode_no_dot.
  rewrite signature_of_text by lia. change (@ec_Verify (one_ecdsa demo_digest) tt) with (one_verify demo_digest). unfold one_verify.
  rewrite (bool_decide_eq_true_2 (_ = demo_digest)) by exact eq_refl. cbn [andb Z.eqb negb Pos.eqb].
  unfold claims_segment. rewrite b64_decode_encode. rewrite claims_read by exact demo_issuable. vm_compute. reflexivity.
Qed.

Theorem token_authentic_witness :
  ∃ c0, c0 ∈ [demo_claims] ∧ demo_claims = wire_claims c0.
Proof.
  refine (@token_authentic sample_unicode (one_ecdsa demo_digest) tt [demo_claims] [] one_token demo_claims _ _ _ _ one_token_ok).
  - apply Forall_singleton. exact demo_issuable.
  - by apply Forall_nil.
  - intros h r s [Hh _]%andb_true_iff.
    apply bool_decide_eq_true in Hh as ->. by apply elem_of_cons; left.
  - intros seg sig m Hsp Hm _. unfold one_token in Hsp. rewrite SplitN_dot in Hsp by apply b64_encode_no_dot.
    injection Hsp as <- _. by apply list_elem_of_singleton in Hm.
Defined.
