(* ===== verification/Store.v ===== *)
(** * The control-plane database — internal/server/store/store.go

    The tables are finite maps from the primary key to the row.  Every operation
    is one step: the store keeps a single connection.  Each call of the database
    may fail; [io] gives the error of the n-th call an operation makes, and a
    transaction that does not commit leaves the tables as they were. *)
From S2P Require Import Prelude GoStr Utf8 Sha256 Sessions.
Local Open Scope Z_scope.

(** ORDER BY on a time: the rows, sorted; ties in any order.  The texts of the
    driver's errors. *)
Class Sqlite := {
  order_by : ∀ {A : Type}, (A → Z) → list A → list A;
  order_by_perm : ∀ {A : Type} (key : A → Z) l, order_by key l ≡ₚ l;
  order_by_sorted : ∀ {A : Type} (key : A → Z) l, StronglySorted (λ a b, key a ≤ key b) (order_by key l);
  ErrUnique : gostring;
}.

Definition ErrEnrollment : gostring := go "enrollment failed".
Definition ErrNoRows : gostring := go "sql: no rows in result set".

Record Org := mkOrg { org_ID : gostring; org_Name : gostring; org_CreatedAt : Z }.
Record TokenRow := mkTokenRow {
  tk_org : gostring;
  tk_expires : Z;
  tk_max : Z;
  tk_used : Z;
  tk_revoked : Z;
  tk_created : Z;
}.
Record Device := mkDevice {
  dv_ID : gostring;
  dv_OrgID : gostring;
  dv_Name : gostring;
  dv_Platform : gostring;
  dv_EnrolledAt : Z;
  dv_LastSeenAt : option Z;
  dv_Revoked : bool;
}.
Record PolicyRow := mkPolicyRow { pl_bundle : gostring; pl_version : Z; pl_updated : Z }.
Record Event := mkEvent {
  ev_ID : gostring;
  ev_OrgID : gostring;
  ev_DeviceID : gostring;
  ev_Tool : gostring;
  ev_Verdict : gostring;
  ev_Reason : gostring;
  ev_DirectConnCount : Z;
  ev_ObservedAt : Z;
  ev_ReceivedAt : Z;
}.
Record Image := mkImage {
  im_ID : gostring;
  im_OrgID : gostring;
  im_Tag : gostring;
  im_Ref : gostring;
  im_Digest : gostring;
  im_Status : gostring;
  im_CreatedAt : Z;
}.

Record Db := mkDb {
  db_orgs : gmap gostring Org;
  db_tokens : gmap gostring TokenRow;
  db_devices : gmap gostring Device;
  db_policies : gmap gostring PolicyRow;
  db_events : gmap gostring Event;
  db_images : gmap gostring Image;
}.
Definition empty_db : Db := mkDb ∅ ∅ ∅ ∅ ∅ ∅.

Definition set_orgs db x := mkDb x (db_tokens db) (db_devices db) (db_policies db) (db_events db) (db_images db).
Definition set_tokens db x := mkDb (db_orgs db) x (db_devices db) (db_policies db) (db_events db) (db_images db).
Definition set_devices db x := mkDb (db_orgs db) (db_tokens db) x (db_policies db) (db_events db) (db_images db).
Definition set_policies db x := mkDb (db_orgs db) (db_tokens db) (db_devices db) x (db_events db) (db_images db).
Definition set_events db x := mkDb (db_orgs db) (db_tokens db) (db_devices db) (db_policies db) x (db_images db).
Definition set_images db x := mkDb (db_orgs db) (db_tokens db) (db_devices db) (db_policies db) (db_events db) x.

(** [newID]: [rnd] is what the random source yields. *)
Definition newID (rnd : gostring) : gostring := hex_encode rnd.

Definition Io : Type := nat → option gostring.
Definition Outcome (A : Type) : Type := Db * res gostring A.

(** The n-th call of the database; on failure the tables are [db]. *)
Definition db_call {A : Type} (io : Io) (n : nat) (db : Db) (k : Outcome A) : Outcome A :=
  match io n with Some e => (db, Err e) | None => k end.

Section store.
Context `{Sqlite}.

(** INSERT of a row under a primary key. *)
Definition db_insert {A B : Type} (key : gostring) (row : A) (table : gmap gostring A) (db : Db)
    (k : gmap gostring A → Outcome B) : Outcome B :=
  match table !! key with Some _ => (db, Err ErrUnique) | None => k (<[key := row]> table) end.

(** ** Organisations *)

Definition CreateOrg (io : Io) (rnd : gostring) (now : Z) (name : gostring) (db : Db) : Outcome Org :=
  let o := mkOrg (newID rnd) name now in
  db_call io 0 db (db_insert (org_ID o) o (db_orgs db) db (λ t, (set_orgs db t, Ok o))).
Definition ListOrgs (io : Io) (db : Db) : res gostring (list Org) :=
  match io 0%nat with Some e => Err e | None => Ok (order_by org_CreatedAt ((map_to_list (db_orgs db)).*2)) end.
Definition GetOrg (io : Io) (id : gostring) (db : Db) : res gostring Org :=
  match io 0%nat with
  | Some e => Err e
  | None => match db_orgs db !! id with Some o => Ok o | None => Err ErrNoRows end
  end.

(** ** Enrolment *)

Definition CreateEnrollmentToken (io : Io) (tokenHash orgID : gostring) (expiresAt maxUses now : Z) (db : Db)
    : Outcome unit :=
  db_call io 0 db (db_insert tokenHash (mkTokenRow orgID expiresAt maxUses 0 0 now) (db_tokens db) db
    (λ t, (set_tokens db t, Ok tt))).
Definition revoke_row (t : TokenRow) : TokenRow :=
  mkTokenRow (tk_org t) (tk_expires t) (tk_max t) (tk_used t) 1 (tk_created t).
Definition RevokeToken (io : Io) (tokenHash : gostring) (db : Db) : Outcome unit :=
  db_call io 0 db (set_tokens db (alter revoke_row tokenHash (db_tokens db)), Ok tt).

Definition use_row (t : TokenRow) : TokenRow :=
  mkTokenRow (tk_org t) (tk_expires t) (tk_max t) (tk_used t + 1) (tk_revoked t) (tk_created t).
Definition token_refused (t : TokenRow) (now : Z) : bool :=
  negb (tk_revoked t =? 0) || (tk_expires t <? now) || (negb (tk_max t =? 0) && (tk_max t <=? tk_used t)).
(** The calls: begin, select, insert, update, commit. *)
Definition EnrollDevice (io : Io) (rnd : gostring) (tokenHash name platform : gostring) (now : Z) (db : Db)
    : Outcome Device :=
  db_call io 0 db (db_call io 1 db
    match db_tokens db !! tokenHash with
    | None => (db, Err ErrEnrollment)
    | Some t =>
        if token_refused t now then (db, Err ErrEnrollment)
        else
          let d := mkDevice (newID rnd) (tk_org t) name platform now None false in
          db_call io 2 db (db_insert (dv_ID d) d (db_devices db) db (λ devices,
            db_call io 3 db (db_call io 4 db
              (set_tokens (set_devices db devices) (alter use_row tokenHash (db_tokens db)), Ok d))))
    end).

(** ** Devices *)

Definition GetDevice (io : Io) (id : gostring) (db : Db) : res gostring Device :=
  match io 0%nat with
  | Some e => Err e
  | None => match db_devices db !! id with Some d => Ok d | None => Err ErrNoRows end
  end.
Definition ListDevices (io : Io) (orgID : gostring) (db : Db) : res gostring (list Device) :=
  match io 0%nat with
  | Some e => Err e
  | None => Ok (order_by dv_EnrolledAt (filter (λ d, dv_OrgID d = orgID) ((map_to_list (db_devices db)).*2)))
  end.
Definition revoke_device (d : Device) : Device :=
  mkDevice (dv_ID d) (dv_OrgID d) (dv_Name d) (dv_Platform d) (dv_EnrolledAt d) (dv_LastSeenAt d) true.
Definition RevokeDevice (io : Io) (id : gostring) (db : Db) : Outcome unit :=
  db_call io 0 db (set_devices db (alter revoke_device id (db_devices db)), Ok tt).
Definition touch_device (t : Z) (d : Device) : Device :=
  mkDevice (dv_ID d) (dv_OrgID d) (dv_Name d) (dv_Platform d) (dv_EnrolledAt d) (Some t) (dv_Revoked d).
Definition TouchDevice (io : Io) (id : gostring) (t : Z) (db : Db) : Outcome unit :=
  db_call io 0 db (set_devices db (alter (touch_device t) id (db_devices db)), Ok tt).

(** ** Policies *)

Definition seedPolicyJSON : gostring :=
  let q := [byte_of 34] in
  go "{" ++ q ++ go "image" ++ q ++ go ":" ++ q ++ go "redactr-base:local" ++ q ++ go ","
  ++ q ++ go "mountMode" ++ q ++ go ":" ++ q ++ go "bind" ++ q ++ go ","
  ++ q ++ go "denylist" ++ q ++ go ":[]}".
Definition GetPolicy (io : Io) (orgID : gostring) (db : Db) : res gostring (gostring * Z) :=
  match io 0%nat with
  | Some e => Err e
  | None => match db_policies db !! orgID with
            | None => Ok (seedPolicyJSON, 0)
            | Some p => Ok (pl_bundle p, pl_version p)
            end
  end.
(** The calls: begin, select, upsert, commit. *)
Definition PutPolicy (io : Io) (orgID bundleJSON : gostring) (now : Z) (db : Db) : Outcome Z :=
  db_call io 0 db (db_call io 1 db
    (let version := match db_policies db !! orgID with Some p => pl_version p | None => 0 end + 1 in
     db_call io 2 db (db_call io 3 db
       (set_policies db (<[orgID := mkPolicyRow bundleJSON version now]> (db_policies db)), Ok version)))).

(** ** Events *)

(** The inserts of one batch; [n] is the next call, [rnds] what the random source
    yields for each. *)
Fixpoint insert_events (io : Io) (n : nat) (rnds : list gostring) (orgID deviceID : gostring)
    (evs : list MonitorEvent) (receivedAt : Z) (db : Db) (events : gmap gostring Event) : Outcome unit :=
  match evs with
  | [] => db_call io n db (set_events db events, Ok tt)
  | e :: evs' =>
      let id := newID (hd [] rnds) in
      db_call io n db (db_insert id
        (mkEvent id orgID deviceID (me_Tool e) (me_Verdict e) (me_Reason e) (me_DirectConnCount e)
           (me_ObservedAt e) receivedAt) events db
        (λ events', insert_events io (S n) (tl rnds) orgID deviceID evs' receivedAt db events'))
  end.
Definition InsertEvents (io : Io) (rnds : list gostring) (orgID deviceID : gostring) (evs : list MonitorEvent)
    (receivedAt : Z) (db : Db) : Outcome unit :=
  db_call io 0 db (insert_events io 1 rnds orgID deviceID evs receivedAt db (db_events db)).

Definition ListEvents (io : Io) (orgID : gostring) (limit : Z) (db : Db) : res gostring (list Event) :=
  let limit := if limit <=? 0 then 100 else limit in
  match io 0%nat with
  | Some e => Err e
  | None => Ok (take (Z.to_nat limit)
      (order_by (λ e, - ev_ReceivedAt e) (filter (λ e, ev_OrgID e = orgID) ((map_to_list (db_events db)).*2))))
  end.
Definition tally (m : gmap gostring Z) (v : gostring) : gmap gostring Z := <[v := default 0 (m !! v) + 1]> m.
Definition CountByVerdict (io : Io) (orgID : gostring) (since : Z) (db : Db) : res gostring (gmap gostring Z) :=
  match io 0%nat with
  | Some e => Err e
  | None => Ok (foldl tally ∅ (ev_Verdict <$>
      filter (λ e, ev_OrgID e = orgID ∧ since ≤ ev_ReceivedAt e) ((map_to_list (db_events db)).*2)))
  end.

(** ** Images *)

Definition InsertImage (io : Io) (rnd : gostring) (now : Z) (orgID tag : gostring) (db : Db) : Outcome gostring :=
  let id := newID rnd in
  db_call io 0 db (db_insert id (mkImage id orgID tag [] [] (go "building") now) (db_images db) db
    (λ t, (set_images db t, Ok id))).
Definition image_result (ref digest status : gostring) (im : Image) : Image :=
  mkImage (im_ID im) (im_OrgID im) (im_Tag im) ref digest status (im_CreatedAt im).
Definition SetImageResult (io : Io) (id ref digest status : gostring) (db : Db) : Outcome unit :=
  db_call io 0 db (set_images db (alter (image_result ref digest status) id (db_images db)), Ok tt).
Definition ListImages (io : Io) (orgID : gostring) (db : Db) : res gostring (list Image) :=
  match io 0%nat with
  | Some e => Err e
  | None => Ok (order_by (λ im, - im_CreatedAt im)
      (filter (λ im, im_OrgID im = orgID) ((map_to_list (db_images db)).*2)))
  end.
End store.

(** ** Runs of the store *)

Inductive store_op : Type :=
| SCreateOrg (io : Io) (rnd : gostring) (now : Z) (name : gostring)
| SCreateEnrollmentToken (io : Io) (tokenHash orgID : gostring) (expiresAt maxUses now : Z)
| SRevokeToken (io : Io) (tokenHash : gostring)
| SEnrollDevice (io : Io) (rnd tokenHash name platform : gostring) (now : Z)
| SRevokeDevice (io : Io) (id : gostring)
| STouchDevice (io : Io) (id : gostring) (t : Z)
| SPutPolicy (io : Io) (orgID bundleJSON : gostring) (now : Z)
| SInsertEvents (io : Io) (rnds : list gostring) (orgID deviceID : gostring) (evs : list MonitorEvent) (t : Z)
| SInsertImage (io : Io) (rnd : gostring) (now : Z) (orgID tag : gostring)
| SSetImageResult (io : Io) (id ref digest status : gostring).

(** What an operation returns, of which only an enrolled device matters here. *)
Definition no_device {A} (o : Outcome A) : Outcome (option Device) :=
  (o.1, match o.2 with Ok _ => Ok None | Err e => Err e | Panic => Panic end).
Definition store_result : Type := res gostring (option Device).

Section runs.
Context `{Sqlite}.

Definition store_exec (op : store_op) (db : Db) : Db * store_result :=
  match op with
  | SCreateOrg io rnd now name => no_device (CreateOrg io rnd now name db)
  | SCreateEnrollmentToken io h org exp max now => no_device (CreateEnrollmentToken io h org exp max now db)
  | SRevokeToken io h => no_device (RevokeToken io h db)
  | SEnrollDevice io rnd h name platform now =>
      let o := EnrollDevice io rnd h name platform now db in (o.1, Some <$> o.2)
  | SRevokeDevice io id => no_device (RevokeDevice io id db)
  | STouchDevice io id t => no_device (TouchDevice io id t db)
  | SPutPolicy io org bundle now => no_device (PutPolicy io org bundle now db)
  | SInsertEvents io rnds org dev evs t => no_device (InsertEvents io rnds org dev evs t db)
  | SInsertImage io rnd now org tag => no_device (InsertImage io rnd now org tag db)
  | SSetImageResult io id ref digest status => no_device (SetImageResult io id ref digest status db)
  end.

Fixpoint store_run (ops : list store_op) (db : Db) : Db * list (store_op * store_result) :=
  match ops with
  | [] => (db, [])
  | op :: ops' =>
      let '(db', r) := store_exec op db in
      let '(db'', trace) := store_run ops' db' in
      (db'', (op, r) :: trace)
  end.

(** The devices a token enrolled in a run. *)
Definition enrolled_by (h : gostring) (e : store_op * store_result) : option Device :=
  match e with
  | (SEnrollDevice _ _ h' _ _ _, Ok (Some d)) => if decide (h' = h) then Some d else None
  | _ => None
  end.
Definition enrolments (h : gostring) (trace : list (store_op * store_result)) : list Device :=
  omap (enrolled_by h) trace.

(** ** What one operation does to one table *)

Lemma insert_events_cases io n rnds org dev evs t db events :
  (∃ events', insert_events io n rnds org dev evs t db events = (set_events db events', Ok tt)
     ∧ events ⊆ events' ∧ ∀ id e, events' !! id = Some e → events !! id = None → ev_OrgID e = org ∧ ev_DeviceID e = dev)
  ∨ ∃ e, insert_events io n rnds org dev evs t db events = (db, Err e).
Proof.
  revert n rnds events. induction evs as [|ev evs IH]; intros n rnds events; cbn [insert_events].
  - unfold db_call. destruct (io n) as [e|]; [right; by exists e|left]. exists events. split_and!; [done..|]. intros id e He Hn. congruence.
  - set (id := newID _). unfold db_call, db_insert. destruct (io n) as [e|]; [right; by exists e|].
    destruct (events !! id) eqn:Hid; [right; by eexists|].
    destruct (IH (S n) (tl rnds) (<[id := mkEvent id org dev (me_Tool ev) (me_Verdict ev) (me_Reason ev)
      (me_DirectConnCount ev) (me_ObservedAt ev) t]> events)) as [(events' & -> & Hsub & Hnew)|[e ->]]; [left|right; by exists e].
    exists events'. split_and!; [done| |].
    + etrans; [by apply insert_subseteq|done].
    + intros i e He Hi. destruct (decide (i = id)) as [->|Hne].
      * eapply lookup_weaken with (i := id) in Hsub; [|by rewrite lookup_insert_eq].
        rewrite Hsub in He. injection He as <-. done.
      * apply (Hnew i e He). by rewrite lookup_insert_ne.
Qed.

(** What an operation can do: fail and change nothing, or change its tables. *)
Ltac store_cases :=
  unfold no_device, db_call, db_insert; cbn [fst snd];
  repeat match goal with
  | |- context [match ?io ?n with Some _ => _ | None => _ end] =>
      match type of io with Io => destruct (io n) end
  | |- context [match ?t !! ?k with Some _ => _ | None => _ end] => destruct (t !! k) eqn:?
  | |- context [if token_refused ?t ?now then _ else _] => destruct (token_refused t now) eqn:?
  end; cbn [fst snd].

(** A failed operation changes nothing. *)
Lemma store_exec_err op db db' e : store_exec op db = (db', Err e) → db' = db.
Proof.
  destruct op; cbn [store_exec];
    unfold CreateOrg, CreateEnrollmentToken, RevokeToken, EnrollDevice, RevokeDevice, TouchDevice, PutPolicy,
      InsertEvents, InsertImage, SetImageResult.
  8: { unfold db_call, no_device. destruct (io 0%nat); [by intros [= <-]|].
       destruct (insert_events_cases io 1 rnds orgID deviceID evs t db (db_events db)) as [(? & -> & _)|[? ->]];
         [done|by intros [= <-]]. }
  all: store_cases; by intros [= <-].
Qed.

Lemma enrolments_cons h e trace :
  enrolments h (e :: trace) = match enrolled_by h e with Some d => d :: enrolments h trace | None => enrolments h trace end.
Proof. reflexivity. Qed.
Lemma enrolled_by_other h op : enrolled_by h (op, Ok None) = None.
Proof. by destruct op. Qed.
Lemma enrolled_by_Err h op e : enrolled_by h (op, Err e) = None.
Proof. by destruct op. Qed.

(** Enrolment, step by step. *)
Lemma EnrollDevice_Ok io rnd h name platform now db db' d :
  EnrollDevice io rnd h name platform now db = (db', Ok d) →
  ∃ t, db_tokens db !! h = Some t ∧ token_refused t now = false
    ∧ d = mkDevice (newID rnd) (tk_org t) name platform now None false
    ∧ db_devices db !! dv_ID d = None
    ∧ db' = set_tokens (set_devices db (<[dv_ID d := d]> (db_devices db))) (alter use_row h (db_tokens db)).
Proof.
  unfold EnrollDevice. store_cases; try done. intros [= <- <-]. eauto 10.
Qed.

Lemma store_exec_not_panic op db db' : store_exec op db ≠ (db', Panic).
Proof.
  destruct op; cbn [store_exec];
    unfold CreateOrg, CreateEnrollmentToken, RevokeToken, EnrollDevice, RevokeDevice, TouchDevice, PutPolicy,
      InsertEvents, InsertImage, SetImageResult; cbn [fst snd].
  8: { unfold db_call, no_device. destruct (io 0%nat); [done|].
       destruct (insert_events_cases io 1 rnds orgID deviceID evs t db (db_events db)) as [(? & -> & _)|[? ->]]; done. }
  all: store_cases; done.
Qed.

(** What happens to one token row. *)
Definition token_next (h : gostring) (op : store_op) (r : store_result) (t : TokenRow) : TokenRow :=
  match op, r with
  | SRevokeToken _ h', Ok _ => if decide (h' = h) then revoke_row t else t
  | SEnrollDevice _ _ h' _ _ _, Ok (Some _) => if decide (h' = h) then use_row t else t
  | _, _ => t
  end.

Lemma token_step h t op db db' r :
  db_tokens db !! h = Some t → store_exec op db = (db', r) →
  db_tokens db' !! h = Some (token_next h op r t)
  ∧ match enrolled_by h (op, r) with
    | Some d => dv_OrgID d = tk_org t ∧ token_refused t (dv_EnrolledAt d) = false ∧ dv_Revoked d = false
    | None => True
    end.
Proof.
  intros Ht Hexec. destruct r as [res|e|].
  2: { apply store_exec_err in Hexec as ->. rewrite enrolled_by_Err. by destruct op. }
  - destruct op; cbn [store_exec token_next] in *.
    2: { revert Hexec. unfold CreateEnrollmentToken. store_cases; try done. intros [= <- <-].
         split; [|done]. cbn. rewrite lookup_insert_ne; [done|]. intros ->. congruence. }
    2: { revert Hexec. unfold RevokeToken. store_cases; try done. intros [= <- <-]. split; [|done]. cbn.
         destruct (decide (tokenHash = h)) as [->|Hne]; [by rewrite lookup_alter_eq, Ht|by rewrite lookup_alter_ne]. }
    2: { destruct (EnrollDevice _ _ _ _ _ _ _) as [db1 [d| |]] eqn:He; try done. injection Hexec as <- <-.
         apply EnrollDevice_Ok in He as (t0 & Ht0 & Href & Hd & _ & ->). cbn [db_tokens set_tokens enrolled_by].
         destruct (decide (tokenHash = h)) as [->|Hne].
         - rewrite Ht in Ht0. injection Ht0 as <-. rewrite lookup_alter_eq, Ht. by subst d.
         - by rewrite lookup_alter_ne. }
    5: { revert Hexec. unfold InsertEvents, no_device, db_call. destruct (io 0%nat); [done|].
         destruct (insert_events_cases io 1 rnds orgID deviceID evs t0 db (db_events db)) as [(? & -> & _)|[? ->]];
           [|done]. intros [= <- <-]. done. }
    all: revert Hexec;
      unfold CreateOrg, RevokeDevice, TouchDevice, PutPolicy, InsertImage, SetImageResult; store_cases;
      try done; by intros [= <- <-].
  - by apply store_exec_not_panic in Hexec.
Qed.

(** What happens to one device row: a revocation that succeeds, or a touch. *)
Definition device_kept (id : gostring) (e : store_op * store_result) (d d' : Device) : Prop :=
  dv_ID d' = dv_ID d ∧ dv_OrgID d' = dv_OrgID d
  ∧ dv_Revoked d' = dv_Revoked d
    || match e with (SRevokeDevice _ id', Ok _) => bool_decide (id' = id) | _ => false end.

Lemma device_step id d op db db' r :
  db_devices db !! id = Some d → store_exec op db = (db', r) →
  ∃ d', db_devices db' !! id = Some d' ∧ device_kept id (op, r) d d'.
Proof.
  intros Hd Hexec. assert (∀ e, device_kept id (op, Err e) d d) as Herr.
  { intros e. unfold device_kept. destruct op; by rewrite orb_false_r. }
  destruct r as [res|e|].
  - destruct op; cbn [store_exec] in *.
    4: { destruct (EnrollDevice _ _ _ _ _ _ _) as [db1 [d1| |]] eqn:He; try done. injection Hexec as <- <-.
         apply EnrollDevice_Ok in He as (t0 & _ & _ & _ & Hnone & ->). cbn [db_devices set_tokens set_devices].
         exists d. rewrite lookup_insert_ne by congruence. unfold device_kept. by rewrite orb_false_r. }
    4: { revert Hexec. unfold RevokeDevice. store_cases; try done. intros [= <- <-]. cbn [db_devices set_devices].
         unfold device_kept. destruct (decide (id0 = id)) as [->|Hne].
         - exists (revoke_device d). rewrite lookup_alter_eq, Hd. split_and!; try done.
           rewrite bool_decide_eq_true_2 by done. by rewrite orb_true_r.
         - exists d. rewrite lookup_alter_ne by done. by rewrite bool_decide_eq_false_2, orb_false_r. }
    4: { revert Hexec. unfold TouchDevice. store_cases; try done. intros [= <- <-]. cbn [db_devices set_devices].
         unfold device_kept. destruct (decide (id0 = id)) as [->|Hne].
         - exists (touch_device t d). rewrite lookup_alter_eq, Hd. by rewrite orb_false_r.
         - exists d. rewrite lookup_alter_ne by done. by rewrite orb_false_r. }
    5: { exists d. unfold device_kept. rewrite orb_false_r. revert Hexec. unfold InsertEvents, no_device, db_call.
         destruct (io 0%nat); [done|].
         destruct (insert_events_cases io 1 rnds orgID deviceID evs t db (db_events db)) as [(? & -> & _)|[? ->]];
           [|done]. by intros [= <- <-]. }
    all: exists d; unfold device_kept; rewrite orb_false_r; revert Hexec;
      unfold CreateOrg, CreateEnrollmentToken, RevokeToken, PutPolicy, InsertImage, SetImageResult; store_cases;
      try done; by intros [= <- <-].
  - apply store_exec_err in Hexec as ->. eauto.
  - by apply store_exec_not_panic in Hexec.
Qed.

(** ** Enrolment over a run *)

Lemma token_refused_false t now :
  token_refused t now = false →
  tk_revoked t = 0 ∧ now ≤ tk_expires t ∧ (tk_max t = 0 ∨ tk_used t < tk_max t).
Proof. unfold token_refused. intros Hr. bool_cases; split_and!; auto; lia. Qed.

(** C22: an enrolment token's use over any sequence of store operations, with
    database failures anywhere.  It keeps its organisation, expiry and limit, and
    counts its enrolments exactly; a limited token enrols no more devices than it
    has uses left; a revoked one enrols none and stays revoked; every device it
    enrols belongs to its organisation and was enrolled before it expired. *)
Theorem enrollment_bounded h t ops db db' trace :
  db_tokens db !! h = Some t → store_run ops db = (db', trace) →
  ∃ t', db_tokens db' !! h = Some t'
    ∧ (tk_org t', tk_expires t', tk_max t') = (tk_org t, tk_expires t, tk_max t)
    ∧ tk_used t' = tk_used t + len (enrolments h trace)
    ∧ (tk_max t ≠ 0 → len (enrolments h trace) ≤ Z.max 0 (tk_max t - tk_used t))
    ∧ (tk_revoked t ≠ 0 → enrolments h trace = [] ∧ tk_revoked t' ≠ 0)
    ∧ Forall (λ d, dv_OrgID d = tk_org t ∧ dv_EnrolledAt d ≤ tk_expires t) (enrolments h trace).
Proof.
  revert t db trace. induction ops as [|op ops IH]; intros t db trace Ht; cbn [store_run].
  - intros [= <- <-]. exists t. unfold len; cbn. split_and!; try done; lia.
  - destruct (store_exec op db) as [db1 r] eqn:Hexec. destruct (store_run ops db1) as [db2 tr] eqn:Hrun.
    intros [= <- <-]. destruct (token_step h t op db db1 r Ht Hexec) as [Ht1 Hd].
    destruct (IH _ _ _ Ht1 Hrun) as (t' & Ht' & Hsame & Hused & Hmax & Hrev & Hall).
    exists t'. rewrite enrolments_cons. destruct (enrolled_by h (op, r)) as [d|] eqn:He.
    + destruct op; try done. destruct r as [[d1|]| |]; try done. cbn [enrolled_by] in He.
      cbn [token_next] in *. destruct (decide (tokenHash = h)); [|done]. injection He as ->.
      destruct Hd as (Ho & Href & _). apply token_refused_false in Href as (Hr0 & Hexp & Hlim).
      cbn [use_row tk_org tk_expires tk_max tk_used tk_revoked] in *.
      assert (len (d :: enrolments h tr) = 1 + len (enrolments h tr)) as -> by (unfold len; cbn [length]; lia).
      split_and!; try done; try lia. by constructor.
    + assert ((tk_org (token_next h op r t), tk_expires (token_next h op r t), tk_max (token_next h op r t),
        tk_used (token_next h op r t)) = (tk_org t, tk_expires t, tk_max t, tk_used t)
        ∧ (tk_revoked t ≠ 0 → tk_revoked (token_next h op r t) ≠ 0)) as [[= E1 E2 E3 E4] Hrev0].
      { clear -He. destruct op; try done; destruct r as [[]| |]; try done; cbn [token_next enrolled_by] in *;
          destruct (decide _); done. }
      rewrite E1, E2, E3, E4 in *. split_and!; try done. intros Hr. by apply Hrev, Hrev0.
Qed.
End runs.

(** ** A database to evaluate on *)

Section demo_order.
Context {A : Type} (key : A → Z).
Let le (a b : A) : Prop := key a ≤ key b.
#[local] Instance key_le_dec : RelDecision le := λ a b, decide (key a ≤ key b).
#[local] Instance key_le_total : Total le.
Proof. intros a b. unfold le. lia. Qed.
#[local] Instance key_le_trans : Transitive le.
Proof. intros a b c. unfold le. lia. Qed.

Definition demo_order_by (l : list A) : list A := merge_sort le l.
Lemma demo_order_by_perm l : demo_order_by l ≡ₚ l.
Proof. apply merge_sort_Permutation. Qed.
Lemma demo_order_by_sorted l : StronglySorted (λ a b, key a ≤ key b) (demo_order_by l).
Proof. apply Sorted_StronglySorted; [apply _|]. apply Sorted_merge_sort, _. Qed.
End demo_order.

Definition demo_sqlite : Sqlite := {|
  order_by := @demo_order_by;
  order_by_perm := @demo_order_by_perm;
  order_by_sorted := @demo_order_by_sorted;
  ErrUnique := go "UNIQUE constraint failed";
|}.
Definition no_fault : Io := λ _, None.

Definition demo_row : TokenRow := mkTokenRow (go "acme") 1000 1 0 0 0.
Definition demo_db : Db := set_tokens empty_db {[go "h" := demo_row]}.
(** A failing commit, a success, and a second try. *)
Definition demo_ops : list store_op := [
  SEnrollDevice (λ n, if decide (n = 4%nat) then Some (go "disk full") else None) (go "a") (go "h") (go "x") (go "linux") 10;
  SEnrollDevice no_fault (go "b") (go "h") (go "x") (go "linux") 20;
  SEnrollDevice no_fault (go "c") (go "h") (go "y") (go "linux") 30].

Lemma demo_db_token : db_tokens demo_db !! go "h" = Some demo_row.
Proof. reflexivity. Qed.
Lemma demo_run_enrolments :
  dv_ID <$> enrolments (go "h") (@store_run demo_sqlite demo_ops demo_db).2 = [go "62"].
Proof. vm_compute. reflexivity. Qed.

Theorem enrollment_bounded_witness :
  len (enrolments (go "h") (@store_run demo_sqlite demo_ops demo_db).2) ≤ 1.
Proof.
  destruct (@enrollment_bounded demo_sqlite (go "h") demo_row demo_ops demo_db _ _ demo_db_token
    (surjective_pairing _)) as (t' & _ & _ & _ & Hmax & _).
  apply Hmax. discriminate.
Defined.
