(* ===== verification/Tables.v ===== *)
(** * The control plane's tables — what internal/server/store keeps of them

    Every row is stored under its own key, counters and versions stay in their
    ranges, and the devices account exactly for the uses of the enrolment tokens,
    over any run of the store's operations with any failing calls. *)
From S2P Require Import Prelude GoStr Sessions Store.
Local Open Scope Z_scope.

Section tables.
Context `{Sqlite}.

(** The uses of all tokens together. *)
Definition total_uses (tokens : gmap gostring TokenRow) : Z := map_fold (λ _ t n, tk_used t + n) 0 tokens.

Record token_typed (t : TokenRow) : Prop := {
  tt_used : 0 ≤ tk_used t;
  tt_revoked : tk_revoked t = 0 ∨ tk_revoked t = 1;
  tt_max : tk_max t ≠ 0 → tk_used t ≤ Z.max 0 (tk_max t);
}.
Record db_typed (db : Db) : Prop := {
  ty_orgs : map_Forall (λ id o, org_ID o = id) (db_orgs db);
  ty_tokens : map_Forall (λ _ t, token_typed t) (db_tokens db);
  ty_devices : map_Forall (λ id d, dv_ID d = id) (db_devices db);
  ty_policies : map_Forall (λ _ p, 1 ≤ pl_version p) (db_policies db);
  ty_events : map_Forall (λ id e, ev_ID e = id) (db_events db);
  ty_images : map_Forall (λ id im, im_ID im = id) (db_images db);
  ty_enrolled : map_Forall (λ _ d, ∃ h t, db_tokens db !! h = Some t ∧ tk_org t = dv_OrgID d ∧ 0 < tk_used t) (db_devices db);
  ty_uses : total_uses (db_tokens db) = Z.of_nat (size (db_devices db));
}.

Lemma total_uses_insert tokens h t : tokens !! h = None → total_uses (<[h := t]> tokens) = tk_used t + total_uses tokens.
Proof. intros Hn. unfold total_uses. rewrite map_fold_insert_L; [done|lia|done]. Qed.
Lemma total_uses_update tokens h t t' : tokens !! h = Some t →
  total_uses (<[h := t']> tokens) = total_uses tokens - tk_used t + tk_used t'.
Proof.
  intros Ht. rewrite <- (insert_delete_id tokens h t Ht) at 2. rewrite <- insert_delete_eq.
  rewrite !total_uses_insert by apply lookup_delete_eq. lia.
Qed.

(** One row changed by a function that keeps its key. *)
Lemma map_Forall_alter {A} (P : gostring → A → Prop) (f : A → A) (k : gostring) (m : gmap gostring A) :
  (∀ x, m !! k = Some x → P k x → P k (f x)) → map_Forall P m → map_Forall P (alter f k m).
Proof.
  intros Hf Hm i x. destruct (decide (i = k)) as [->|Hne].
  - rewrite lookup_alter_eq. intros (y & Hy & ->)%fmap_Some. apply Hf; [done|]. by apply Hm.
  - rewrite lookup_alter_ne by done. apply Hm.
Qed.
Lemma alter_as_insert {A} (f : A → A) (k : gostring) (m : gmap gostring A) x : m !! k = Some x → alter f k m = <[k := f x]> m.
Proof. intros Hx. rewrite <- (insert_id m k x Hx) at 1. by rewrite alter_insert_eq. Qed.
Lemma alter_none {A} (f : A → A) (k : gostring) (m : gmap gostring A) : m !! k = None → alter f k m = m.
Proof. intros Hn. apply alter_id. intros x Hx. congruence. Qed.
Lemma size_alter {A} (f : A → A) (k : gostring) (m : gmap gostring A) : size (alter f k m) = size m.
Proof. rewrite <- !size_dom. by rewrite dom_alter_L. Qed.

(** Changing tokens or devices in place keeps the account. *)
Lemma tokens_alter_typed f h db :
  (∀ t, token_typed t → token_typed (f t)) → (∀ t, tk_org (f t) = tk_org t) → (∀ t, tk_used (f t) = tk_used t) →
  db_typed db → db_typed (set_tokens db (alter f h (db_tokens db))).
Proof.
  intros Hf Horg Hused [Ho Ht Hd Hp He Hi Hen Hu]. split; cbn [set_tokens db_orgs db_tokens db_devices db_policies db_events db_images]; try done.
  - apply map_Forall_alter; [|done]. intros t _. apply Hf.
  - intros id d Hid. destruct (Hen _ _ Hid) as (h' & t & Ht' & Hor & Hpos).
    destruct (decide (h' = h)) as [->|Hne].
    + exists h, (f t). rewrite lookup_alter_eq, Ht', Horg, Hused. by split_and!.
    + exists h', t. by rewrite lookup_alter_ne.
  - rewrite <- Hu. destruct (db_tokens db !! h) as [t|] eqn:Hh.
    + rewrite (alter_as_insert _ _ _ _ Hh), (total_uses_update _ _ t) by done. rewrite Hused. lia.
    + by rewrite alter_none.
Qed.

(** ** Operations *)

Lemma db_call_typed {A} io n db (k : Outcome A) : db_typed db → db_typed k.1 → db_typed (db_call io n db k).1.
Proof. intros Hdb Hk. unfold db_call. by destruct (io n). Qed.
Lemma db_insert_typed {A B : Type} (key : gostring) (row : A) (table : gmap gostring A) (db : Db) (k : gmap gostring A → Outcome B) :
  db_typed db → (table !! key = None → db_typed (k (<[key := row]> table)).1) → db_typed (db_insert (B:=B) key row table db k).1.
Proof. intros Hdb Hk. unfold db_insert. destruct (table !! key); [done|by apply Hk]. Qed.

Lemma devices_alter_typed f id db :
  (∀ d, dv_ID (f d) = dv_ID d) → (∀ d, dv_OrgID (f d) = dv_OrgID d) → db_typed db →
  db_typed (set_devices db (alter f id (db_devices db))).
Proof.
  intros Hid Horg [Ho Ht Hd Hp He Hi Hen Hu]. split; cbn [set_devices db_orgs db_tokens db_devices db_policies db_events db_images]; try done.
  - apply map_Forall_alter; [|done]. intros d _. by rewrite Hid.
  - apply map_Forall_alter; [|done]. intros d _. by rewrite Horg.
  - by rewrite size_alter.
Qed.
Lemma CreateOrg_typed io rnd now name db : db_typed db → db_typed (CreateOrg io rnd now name db).1.
Proof.
  intros Hdb. apply db_call_typed, db_insert_typed; [done..|]. intros _.
  destruct Hdb. split; try done. by apply map_Forall_insert_2.
Qed.
Lemma CreateEnrollmentToken_typed io h org exp max now db :
  db_typed db → db_typed (CreateEnrollmentToken io h org exp max now db).1.
Proof.
  intros Hdb. apply db_call_typed, db_insert_typed; [done..|]. intros Hnew.
  destruct Hdb as [Ho Ht Hd Hp He Hi Hen Hu]. split; cbn [set_tokens db_orgs db_tokens db_devices db_policies db_events db_images fst]; try done.
  - apply map_Forall_insert_2; [|done]. split; cbn; lia.
  - intros id d Hid. destruct (Hen _ _ Hid) as (h' & t & Ht' & Hrest). exists h', t.
    rewrite lookup_insert_ne by congruence. by split.
  - rewrite total_uses_insert by done. cbn [tk_used]. lia.
Qed.
Lemma use_row_typed t now : token_refused t now = false → token_typed t → token_typed (use_row t).
Proof.
  unfold token_refused. intros Hr [Hu Hv Hm]. apply orb_false_iff in Hr as [_ Hmax]. split; cbn; [lia|done|].
  intros Hne. specialize (Hm Hne). apply andb_false_iff in Hmax as [Hz|Hlt].
  - apply negb_false_iff, Z.eqb_eq in Hz. done.
  - apply Z.leb_gt in Hlt. lia.
Qed.
Lemma EnrollDevice_typed io rnd h name platform now db :
  db_typed db → db_typed (EnrollDevice io rnd h name platform now db).1.
Proof.
  intros Hdb. unfold EnrollDevice. do 2 (apply db_call_typed; [done|]).
  destruct (db_tokens db !! h) as [t|] eqn:Hh; [|done]. destruct (token_refused t now) eqn:Hr; [done|].
  apply db_call_typed, db_insert_typed; [done..|]. intros Hnew. do 2 (apply db_call_typed; [done|]).
  destruct Hdb as [Ho Ht Hd Hp He Hi Hen Hu]. pose proof (Ht _ _ Hh) as Htt.
  split; cbn [set_tokens set_devices db_orgs db_tokens db_devices db_policies db_events db_images fst]; try done.
  - apply map_Forall_alter; [|done]. intros t' Ht'. rewrite Hh in Ht'. injection Ht' as <-. by eapply use_row_typed.
  - by apply map_Forall_insert_2.
  - apply map_Forall_insert_2.
    + exists h, (use_row t). rewrite lookup_alter_eq, Hh. pose proof (tt_used _ Htt). split_and!; [done..|cbn; lia].
    + intros id d Hid. destruct (Hen _ _ Hid) as (h' & t' & Ht' & Horg & Hpos).
      destruct (decide (h' = h)) as [->|Hne]; [|exists h', t'; by rewrite lookup_alter_ne].
      rewrite Hh in Ht'. injection Ht' as <-. exists h, (use_row t). rewrite lookup_alter_eq, Hh.
      pose proof (tt_used _ Htt). split_and!; [done..|cbn; lia].
  - rewrite (alter_as_insert _ _ _ _ Hh), (total_uses_update _ _ t), map_size_insert_None by done. cbn [tk_used use_row]. lia.
Qed.
Lemma PutPolicy_typed io org bundle now db : db_typed db → db_typed (PutPolicy io org bundle now db).1.
Proof.
  intros Hdb. unfold PutPolicy. do 4 (apply db_call_typed; [done|]). destruct Hdb. split; try done.
  cbn [set_policies db_policies fst]. apply map_Forall_insert_2; [|done]. cbn [pl_version].
  destruct (db_policies db !! org) as [p|] eqn:Hp; [|lia]. pose proof (ty_policies0 _ _ Hp) as Hv. cbv beta in Hv. lia.
Qed.
Lemma insert_events_typed io n rnds org dev evs t db events :
  db_typed db → map_Forall (λ id e, ev_ID e = id) events → db_typed (insert_events io n rnds org dev evs t db events).1.
Proof.
  intros Hdb. revert n rnds events. induction evs as [|e evs IH]; intros n rnds events He; cbn [insert_events].
  - apply db_call_typed; [done|]. destruct Hdb. by split.
  - apply db_call_typed, db_insert_typed; [done..|]. intros _. apply IH. by apply map_Forall_insert_2.
Qed.
Lemma images_typed db images : db_typed db → map_Forall (λ id im, im_ID im = id) images → db_typed (set_images db images).
Proof. intros []. by split. Qed.
Lemma store_exec_typed op db : db_typed db → db_typed (store_exec op db).1.
Proof.
  intros Hdb. destruct op; cbn [store_exec no_device fst].
  - by apply CreateOrg_typed.
  - by apply CreateEnrollmentToken_typed.
  - apply db_call_typed; [done|]. apply tokens_alter_typed; [|done..]. intros t []. split; cbn; auto.
  - by apply EnrollDevice_typed.
  - apply db_call_typed; [done|]. by apply devices_alter_typed.
  - apply db_call_typed; [done|]. by apply devices_alter_typed.
  - by apply PutPolicy_typed.
  - apply db_call_typed; [done|]. apply insert_events_typed; [done|apply Hdb].
  - apply db_call_typed, db_insert_typed; [done..|]. intros _. apply images_typed; [done|].
    apply map_Forall_insert_2; [done|apply Hdb].
  - apply db_call_typed; [done|]. apply images_typed; [done|]. apply map_Forall_alter; [|apply Hdb]. by intros im _ <-.
Qed.
Lemma store_run_typed ops db : db_typed db → db_typed (store_run ops db).1.
Proof.
  revert db. induction ops as [|op ops IH]; intros db Hdb; [done|]. cbn [store_run].
  pose proof (store_exec_typed op db Hdb) as Hop. destruct (store_exec op db) as [db' r].
  specialize (IH db' Hop). by destruct (store_run ops db').
Qed.
Lemma empty_db_typed : db_typed empty_db.
Proof. split; [apply map_Forall_empty..|vm_compute; reflexivity]. Qed.

(** C23: what the tables hold. After any operations on a new database, whatever calls failed:
    every organisation, device, event and image is stored under its own identifier; a token was
    used between zero and its maximal number of times and is revoked or not; policy versions
    count from one; every device belongs to the organisation of a token that was used, and the
    uses of all tokens together are exactly the devices. *)
Theorem tables_typed ops db trace :
  store_run ops empty_db = (db, trace) →
  (∀ id o, db_orgs db !! id = Some o → org_ID o = id) ∧ (∀ id d, db_devices db !! id = Some d → dv_ID d = id)
  ∧ (∀ id e, db_events db !! id = Some e → ev_ID e = id) ∧ (∀ id im, db_images db !! id = Some im → im_ID im = id)
  ∧ (∀ h t, db_tokens db !! h = Some t → 0 ≤ tk_used t ∧ (tk_revoked t = 0 ∨ tk_revoked t = 1)
       ∧ (tk_max t ≠ 0 → tk_used t ≤ Z.max 0 (tk_max t)))
  ∧ (∀ org p, db_policies db !! org = Some p → 1 ≤ pl_version p)
  ∧ (∀ id d, db_devices db !! id = Some d → ∃ h t, db_tokens db !! h = Some t ∧ tk_org t = dv_OrgID d ∧ 0 < tk_used t)
  ∧ total_uses (db_tokens db) = Z.of_nat (size (db_devices db)).
Proof.
  intros Hrun. pose proof (store_run_typed ops empty_db empty_db_typed) as Hdb. rewrite Hrun in Hdb. destruct Hdb.
  split_and!; try done. intros h t Ht. by destruct (ty_tokens0 _ _ Ht).
Qed.
End tables.

Definition typed_ops : list store_op := [
  SCreateOrg no_fault (go "o1") 1 (go "acme"); SCreateEnrollmentToken no_fault (go "h") (newID (go "o1")) 1000 2 1;
  SEnrollDevice no_fault (go "d1") (go "h") (go "mac") (go "darwin") 5; SEnrollDevice no_fault (go "d1") (go "h") (go "mac") (go "darwin") 6;
  SEnrollDevice no_fault (go "d2") (go "h") (go "pc") (go "linux") 7; SEnrollDevice no_fault (go "d3") (go "h") (go "x") (go "linux") 8].
Theorem tables_typed_witness :
  let db := (@store_run demo_sqlite typed_ops empty_db).1 in total_uses (db_tokens db) = Z.of_nat (size (db_devices db)) ∧ size (db_devices db) = 2%nat.
Proof.
  destruct (@tables_typed demo_sqlite typed_ops (@store_run demo_sqlite typed_ops empty_db).1
    (@store_run demo_sqlite typed_ops empty_db).2 (surjective_pairing _)) as (_ & _ & _ & _ & _ & _ & _ & Huses).
  split; [exact Huses|]. vm_compute. reflexivity.
Defined.
