(* ===== verification/ServerAuth.v ===== *)
(** * Enrolment and access control of the control plane — internal/server/auth

    enroll.go exchanges an enrolment token for a device token; middleware.go
    admits device requests by their token and admin requests by a shared key. *)
From S2P Require Import Prelude GoStr Utf8 Sha256 Json JsonRound JsonDecode JsonStruct Base64 Signing Token Sessions Store.
Local Open Scope Z_scope.

(** ** enroll.go *)

Definition HashToken (raw : gostring) : gostring := sha256_hex raw.

Record EnrollInput := mkEnrollInput { ei_Token : gostring; ei_DeviceName : gostring; ei_Platform : gostring }.
Record EnrollResult := mkEnrollResult { er_DeviceID : gostring; er_OrgID : gostring; er_Token : gostring }.

(** [time.Time.Unix], times being nanoseconds. *)
Definition Unix (now : Z) : Z := now / 10 ^ 9.

Section auth.
Context `{UnicodeData} `{Sqlite} `{Ecdsa}.

(** A failure to sign comes after the device is stored. *)
Definition Enroll (io : Io) (rnd_id rnd_sig : gostring) (priv : ec_PrivateKey) (inp : EnrollInput) (now : Z) (db : Db)
    : Outcome EnrollResult :=
  let '(db1, r) := EnrollDevice io rnd_id (HashToken (ei_Token inp)) (ei_DeviceName inp) (ei_Platform inp) now db in
  match r with
  | Ok dev =>
      match SignClaims priv rnd_sig (mkClaims (dv_ID dev) (dv_OrgID dev) (Unix now)) with
      | Ok tok => (db1, Ok (mkEnrollResult (dv_ID dev) (dv_OrgID dev) tok))
      | Err e => (db1, Err e)
      | Panic => (db1, Panic)
      end
  | Err e => (db1, Err e)
  | Panic => (db1, Panic)
  end.

(** ** middleware.go *)

(** [RequireDevice]: the organisation and device the request acts for, or 401.
    The last-seen time is recorded for an admitted device. *)
Definition RequireDevice (io : Io) (priv : ec_PrivateKey) (now : Z) (authz : gostring) (db : Db)
    : Db * option (gostring * gostring) :=
  let raw := TrimPrefix authz (go "Bearer ") in
  if bool_decide (raw = []) || bool_decide (raw = authz) then (db, None)
  else
    match VerifyToken (ec_public priv) raw with
    | Ok claims =>
        match GetDevice io (cl_DeviceID claims) db with
        | Ok dev =>
            if dv_Revoked dev || bool_decide (dv_OrgID dev ≠ cl_OrgID claims) then (db, None)
            else ((TouchDevice (λ n, io (S n)) (dv_ID dev) now db).1, Some (dv_OrgID dev, dv_ID dev))
        | _ => (db, None)
        end
    | _ => (db, None)
    end.

(** [RequireAdmin] *)
Definition RequireAdmin (adminKey got : gostring) : bool :=
  negb (bool_decide (adminKey = [])) && bool_decide (got = adminKey).

(** ** Access over a run *)

(** The device was revoked in the run. *)
Definition revoked_in (id : gostring) (trace : list (store_op * store_result)) : bool :=
  existsb (λ e, match e with (SRevokeDevice _ id', Ok _) => bool_decide (id' = id) | _ => false end) trace.

Lemma device_run id d ops db db' trace :
  db_devices db !! id = Some d → store_run ops db = (db', trace) →
  ∃ d', db_devices db' !! id = Some d' ∧ dv_ID d' = dv_ID d ∧ dv_OrgID d' = dv_OrgID d
    ∧ dv_Revoked d' = dv_Revoked d || revoked_in id trace.
Proof.
  revert d db trace. induction ops as [|op ops IH]; intros d db trace Hd; cbn [store_run].
  - intros [= <- <-]. exists d. cbn. by rewrite orb_false_r.
  - destruct (store_exec op db) as [db1 r] eqn:Hexec. destruct (store_run ops db1) as [db2 tr] eqn:Hrun.
    intros [= <- <-]. destruct (device_step id d op db db1 r Hd Hexec) as (d1 & Hd1 & Hid & Horg & Hrev).
    destruct (IH _ _ _ Hd1 Hrun) as (d' & Hd' & Hid' & Horg' & Hrev'). exists d'.
    rewrite Hid', Horg', Hrev', Hid, Horg, Hrev. cbn [revoked_in existsb]. by rewrite orb_assoc.
Qed.

Lemma newID_utf8 rnd : valid_utf8 (newID rnd) = newID rnd.
Proof.
  apply valid_utf8_ascii. unfold newID, hex_encode. induction rnd as [|c rnd IH]; [done|].
  cbn [mbind list_bind]. unfold ascii_only. rewrite forallb_app. apply andb_true_iff. split; [|exact IH].
  by destruct c as [[] [] [] [] [] [] [] []].
Qed.

Lemma TrimPrefix_app p s : TrimPrefix (p ++ s) p = s.
Proof.
  unfold TrimPrefix. assert (HasPrefix (p ++ s) p = true) as -> by (apply HasPrefix_spec; eauto).
  apply drop_app_length.
Qed.

Lemma longer_ne (p s : gostring) : p ≠ [] → s ≠ p ++ s.
Proof.
  intros Hp Heq%(f_equal length). rewrite length_app in Heq. destruct p; [done|]. cbn [length] in Heq. lia.
Qed.

Lemma SignClaims_nonempty priv rnd c tok : SignClaims priv rnd c = Ok tok → tok ≠ [].
Proof.
  unfold SignClaims. destruct (ec_Sign _ _ _) as [|[r s]]; [done|]. intros <-%(inj Ok).
  by destruct (claims_segment c).
Qed.

(** The device's token, later. *)
Lemma enrolled_access io rnd_id rnd_sig priv inp now db db1 res ops db2 trace io' now' :
  Enroll io rnd_id rnd_sig priv inp now db = (db1, Ok res) →
  0 ≤ now < 10 ^ 9 * 2 ^ 63 → valid_utf8 (er_OrgID res) = er_OrgID res →
  store_run ops db1 = (db2, trace) → io' 0%nat = None →
  (RequireDevice io' priv now' (go "Bearer " ++ er_Token res) db2).2 =
    (if revoked_in (er_DeviceID res) trace then None else Some (er_OrgID res, er_DeviceID res)).
Proof.
  unfold Enroll. destruct (EnrollDevice _ _ _ _ _ _ _) as [db0 [d| |]] eqn:He; try done.
  apply EnrollDevice_Ok in He as (t & _ & _ & Hd & _ & Hdb).
  destruct (SignClaims _ _ _) as [tok| |] eqn:Hs; try done. intros [= <- <-] Hnow Hutf Hrun Hio.
  cbn [er_OrgID er_DeviceID er_Token] in *.
  assert (db_devices db0 !! dv_ID d = Some d) as Hdev.
  { subst db0. cbn. apply lookup_insert_eq. }
  destruct (device_run _ _ _ _ _ _ Hdev Hrun) as (d' & Hd' & Hid' & Horg' & Hrev').
  assert (dv_Revoked d = false) as Hnew by by subst d. rewrite Hnew in Hrev'. cbn [orb] in Hrev'.
  pose proof (SignClaims_nonempty _ _ _ _ Hs) as Hne.
  apply token_reads in Hs; [|unfold issuable; cbn; unfold Unix; split;
    [apply Z.div_pos; lia|apply Z.div_lt_upper_bound; lia]].
  unfold RequireDevice. rewrite TrimPrefix_app.
  rewrite (bool_decide_eq_false_2 (tok = [])) by done.
  rewrite (bool_decide_eq_false_2 (tok = _)) by (by apply longer_ne).
  cbn [orb]. rewrite Hs. unfold wire_claims. cbn [cl_DeviceID cl_OrgID]. rewrite Hutf.
  assert (valid_utf8 (dv_ID d) = dv_ID d) as -> by (subst d; apply newID_utf8).
  unfold GetDevice. rewrite Hio, Hd', Hrev', Horg'. rewrite bool_decide_eq_false_2 by (intros Hx; by apply Hx).
  destruct (revoked_in _ trace); cbn [orb snd]; [done|]. by rewrite Hid'.
Qed.

(** The token a device receives when it enrols admits it, in its token's
    organisation, after any later sequence of store operations, until the device
    is revoked, and never again after that. *)
Theorem enrolled_device_access io rnd_id rnd_sig priv inp now db db1 res ops db2 trace io' now' :
  Enroll io rnd_id rnd_sig priv inp now db = (db1, Ok res) →
  0 ≤ now < 10 ^ 9 * 2 ^ 63 → valid_utf8 (er_OrgID res) = er_OrgID res →
  store_run ops db1 = (db2, trace) → io' 0%nat = None →
  (RequireDevice io' priv now' (go "Bearer " ++ er_Token res) db2).2 =
    (if revoked_in (er_DeviceID res) trace then None else Some (er_OrgID res, er_DeviceID res)).
Proof. apply enrolled_access. Qed.
End auth.

(** ** An enrolment, some traffic, a revocation *)

Definition demo_enroll_db : Db := set_tokens empty_db {[HashToken (go "tok") := mkTokenRow (go "acme") (2 * 10 ^ 18) 0 0 0 0]}.
Definition demo_enrolled : Outcome EnrollResult :=
  @Enroll demo_sqlite toy_ecdsa no_fault (go "id") [] tt (mkEnrollInput (go "tok") (go "laptop") (go "linux"))
    (17 * 10 ^ 17) demo_enroll_db.
Definition demo_result : EnrollResult :=
  match demo_enrolled.2 with Ok r => r | _ => mkEnrollResult [] [] [] end.
Definition demo_later : list store_op := [STouchDevice no_fault (go "6964") 5; SRevokeDevice no_fault (go "6964")].

Lemma demo_enrolled_ok :
  @Enroll demo_sqlite toy_ecdsa no_fault (go "id") [] tt (mkEnrollInput (go "tok") (go "laptop") (go "linux"))
    (17 * 10 ^ 17) demo_enroll_db = (demo_enrolled.1, Ok demo_result).
Proof.
  change (demo_enrolled = (demo_enrolled.1, Ok demo_result)). unfold demo_result.
  assert (match demo_enrolled.2 with Ok _ => true | _ => false end = true) as Hok by (vm_compute; reflexivity).
  destruct demo_enrolled as [db r]. cbn [fst snd] in *. by destruct r.
Qed.
Lemma demo_result_org : valid_utf8 (er_OrgID demo_result) = er_OrgID demo_result.
Proof. vm_compute. reflexivity. Qed.
Lemma demo_later_revokes :
  revoked_in (er_DeviceID demo_result) (@store_run demo_sqlite demo_later demo_enrolled.1).2 = true.
Proof. vm_compute. reflexivity. Qed.

Theorem enrolled_device_access_witness :
  (@RequireDevice sample_unicode toy_ecdsa no_fault tt 9 (go "Bearer " ++ er_Token demo_result) demo_enrolled.1).2
    = Some (er_OrgID demo_result, er_DeviceID demo_result)
  ∧ (@RequireDevice sample_unicode toy_ecdsa no_fault tt 9 (go "Bearer " ++ er_Token demo_result)
       (@store_run demo_sqlite demo_later demo_enrolled.1).1).2 = None.
Proof.
  assert (0 ≤ 17 * 10 ^ 17 < 10 ^ 9 * 2 ^ 63) as Hnow by lia. split.
  - exact (@enrolled_device_access sample_unicode demo_sqlite toy_ecdsa _ _ _ _ _ _ _ _ _ [] _ [] no_fault 9
      demo_enrolled_ok Hnow demo_result_org eq_refl eq_refl).
  - rewrite (@enrolled_device_access sample_unicode demo_sqlite toy_ecdsa _ _ _ _ _ _ _ _ _ demo_later _ _ no_fault 9
      demo_enrolled_ok Hnow demo_result_org (surjective_pairing _) eq_refl).
    by rewrite demo_later_revokes.
Defined.
