(* ===== verification/Bundle.v ===== *)
(** * Policy bundles on the wire — internal/control/control.go

    [PolicyBundle] and [SignedPolicy], their JSON, and what a reader gets back. *)
From S2P Require Import Prelude GoStr Utf8 Json JsonRound JsonDecode JsonStruct.
Local Open Scope Z_scope.

(** A nil list of paths is [None]. *)
Record PolicyBundle := mkBundle {
  pb_Image : gostring;
  pb_MountMode : gostring;
  pb_Denylist : option (list gostring);
  pb_Version : Z;
}.
Definition zero_bundle : PolicyBundle := mkBundle [] [] None 0.
Record SignedPolicy := mkSignedPolicy { sp_Bundle : gostring; sp_Signature : gostring; sp_Version : Z }.
Definition zero_signed : SignedPolicy := mkSignedPolicy [] [] 0.

(** A [[]string] of a fresh struct, which [null] leaves nil. *)
Definition dec_strings_opt : decoder (option (list gostring)) := λ cur v,
  match v with JNull => Some None | _ => Some <$> dec_slice [] dec_string [] v end.

Section bundle.
Context `{UnicodeData}.

Definition bundle_fields : list (gostring * decoder PolicyBundle) := [
  (go "image", λ b v, (λ x, mkBundle x (pb_MountMode b) (pb_Denylist b) (pb_Version b)) <$> dec_string (pb_Image b) v);
  (go "mountMode", λ b v, (λ x, mkBundle (pb_Image b) x (pb_Denylist b) (pb_Version b)) <$> dec_string (pb_MountMode b) v);
  (go "denylist", λ b v, (λ x, mkBundle (pb_Image b) (pb_MountMode b) x (pb_Version b)) <$> dec_strings_opt (pb_Denylist b) v);
  (go "version", λ b v, (λ x, mkBundle (pb_Image b) (pb_MountMode b) (pb_Denylist b) x) <$> dec_int (pb_Version b) v)].
Definition dec_bundle : decoder PolicyBundle := dec_struct bundle_fields.

Definition signed_fields : list (gostring * decoder SignedPolicy) := [
  (go "bundle", λ p v, (λ x, mkSignedPolicy x (sp_Signature p) (sp_Version p)) <$> dec_string (sp_Bundle p) v);
  (go "signature", λ p v, (λ x, mkSignedPolicy (sp_Bundle p) x (sp_Version p)) <$> dec_string (sp_Signature p) v);
  (go "version", λ p v, (λ x, mkSignedPolicy (sp_Bundle p) (sp_Signature p) x) <$> dec_int (sp_Version p) v)].
Definition dec_signed : decoder SignedPolicy := dec_struct signed_fields.

Definition bundle_members (b : PolicyBundle) : list (gostring * json) := [
  (go "image", quoted (pb_Image b));
  (go "mountMode", quoted (pb_MountMode b));
  (go "denylist", match pb_Denylist b with Some l => strings_json l | None => JNull end);
  (go "version", JNum (Itoa (pb_Version b)))].
(** [json.Marshal] *)
Definition bundle_json (b : PolicyBundle) : gostring := compact (JObj (bundle_members b)).
Definition signed_members (p : SignedPolicy) : list (gostring * json) := [
  (go "bundle", quoted (sp_Bundle p));
  (go "signature", quoted (sp_Signature p));
  (go "version", JNum (Itoa (sp_Version p)))].

(** The bundle as it comes back: JSON text is UTF-8. *)
Definition wire_bundle (b : PolicyBundle) : PolicyBundle :=
  mkBundle (valid_utf8 (pb_Image b)) (valid_utf8 (pb_MountMode b)) (option_map (map valid_utf8) (pb_Denylist b)) (pb_Version b).

Lemma bundle_wire b : 0 ≤ pb_Version b < 2 ^ 63 → Forall wire_member (bundle_members b).
Proof. intros Hv. unfold bundle_members. destruct (pb_Denylist b); wire; done. Qed.

Lemma dec_strings_opt_list cur l : dec_strings_opt cur (canon (strings_json l)) = Some (Some (valid_utf8 <$> l)).
Proof.
  pose proof (dec_strings [] l) as Hd. unfold dec_strings_opt, strings_json in *. cbn [canon] in *. by rewrite Hd.
Qed.

Lemma bundle_read b :
  0 ≤ pb_Version b < 2 ^ 63 →
  (v ← Unmarshal (bundle_json b); dec_bundle zero_bundle v) = Some (wire_bundle b).
Proof.
  intros Hv. unfold bundle_json. rewrite Unmarshal_members by by apply bundle_wire.
  cbn [mbind option_bind]. unfold dec_bundle, bundle_members, wire_bundle. do 2 read_member.
  destruct (pb_Denylist b) as [l|].
  - erewrite dec_struct_member; [|reflexivity|cbv beta; by rewrite dec_strings_opt_list].
    read_member. by rewrite dec_struct_nil.
  - erewrite dec_struct_member; [|reflexivity|reflexivity]. read_member. by rewrite dec_struct_nil.
Qed.

(** What a decoder yields is UTF-8. *)
Definition bundle_utf8 (b : PolicyBundle) : Prop :=
  valid_utf8 (pb_Image b) = pb_Image b ∧ valid_utf8 (pb_MountMode b) = pb_MountMode b
  ∧ Forall (λ s, valid_utf8 s = s) (default [] (pb_Denylist b)).

Lemma dec_string_utf8 cur v s : valid_utf8 cur = cur → dec_string cur v = Some s → valid_utf8 s = s.
Proof. intros Hc. destruct v; try done; intros [= <-]; [done|apply valid_utf8_unquote]. Qed.

Lemma dec_strings_utf8 cur v l : dec_strings_opt cur v = Some l → Forall (λ s, valid_utf8 s = s) (default [] l).
Proof.
  destruct v as [| | | |vs|]; try done; unfold dec_strings_opt; [by intros [= <-]|]. cbn [dec_slice].
  destruct (mapM (dec_string []) vs) as [l0|] eqn:Hm; [|done]. intros [= <-]. cbn.
  apply mapM_Some in Hm. induction Hm as [|v s vs l0 Hv _ IH]; constructor; [|done].
  by eapply dec_string_utf8 in Hv.
Qed.

Lemma dec_bundle_utf8 v b : dec_bundle zero_bundle v = Some b → bundle_utf8 b.
Proof.
  apply dec_struct_inv; [|by split_and!]. unfold bundle_fields, bundle_utf8.
  repeat (apply Forall_cons_2; [cbn [fst snd]|]); [..|by apply Forall_nil_2];
    intros c w q (H1 & H2 & H3); match goal with |- ?f <$> ?d = _ → _ => destruct d eqn:Hd; [|done] end;
    intros [= <-]; cbn; split_and!; try done;
    by first [eapply dec_string_utf8; [|exact Hd] | eapply dec_strings_utf8; exact Hd].
Qed.

Lemma wire_bundle_utf8 b : bundle_utf8 b → wire_bundle b = b.
Proof.
  destruct b as [img mode deny version]. intros (Hi & Hm & Hd). unfold wire_bundle. cbn in *. rewrite Hi, Hm.
  destruct deny as [l|]; [|done]. cbn in *. do 3 f_equal. induction Hd as [|s l Hs _ IH]; [done|]. cbn. by rewrite Hs, IH.
Qed.

Lemma signed_wire p : 0 ≤ sp_Version p < 2 ^ 63 → Forall wire_member (signed_members p).
Proof. intros Hv. wire. Qed.
Lemma signed_read p :
  0 ≤ sp_Version p < 2 ^ 63 → valid_utf8 (sp_Bundle p) = sp_Bundle p → valid_utf8 (sp_Signature p) = sp_Signature p →
  (v ← DecodeFirst (compact (JObj (signed_members p)) ++ [byte_of 10]); dec_signed zero_signed v) = Some p.
Proof.
  intros Hv Hb Hs. rewrite DecodeFirst_members by by apply signed_wire. cbn [mbind option_bind].
  unfold dec_signed, signed_members. do 3 read_member. rewrite dec_struct_nil. cbn. rewrite Hb, Hs. by destruct p.
Qed.

Lemma bundle_json_brace b : ∃ rest, bundle_json b = go "{" ++ rest.
Proof. eexists. reflexivity. Qed.
End bundle.
