(* ===== verification/Httpapi.v ===== *)
(** * The control-plane HTTP API — internal/server/httpapi/server.go

    Every route with its access check and its handler.  The request multiplexer
    of net/http picks the route; a body is decoded with the JSON model; the
    response is a status and a JSON tree, or the text of an error. *)
From S2P Require Import Prelude GoStr Utf8 Sha256 Json JsonRound JsonDecode JsonStruct Base64 Signing Token Bundle Sessions Store ServerAuth Extract.
Local Open Scope Z_scope.

(** The texts of times (time.Time's JSON). *)
Class TimeText := { time_text : Z → gostring; time_parse : gostring → option Z }.

Inductive Route :=
| RHealth | REnroll | RWhoami | RGetPolicy | RServerKey | RPostEvents | RDashboard
| RPutPolicy (org : gostring) | RGetAdminPolicy (org : gostring)
| RAdminEvents (org : gostring) | RAdminEventStats (org : gostring)
| RCreateOrg | RListOrgs | RMintToken (org : gostring) | RListDevices | RRevokeDevice (id : gostring)
| RBuildImage (org : gostring) | RListImages (org : gostring).

Inductive Access := Public | DeviceOnly | AdminOnly.
Definition route_access (r : Route) : Access :=
  match r with
  | RHealth | REnroll | RServerKey | RDashboard => Public
  | RWhoami | RGetPolicy | RPostEvents => DeviceOnly
  | _ => AdminOnly
  end.

Record HttpRequest := mkHttpRequest {
  hr_route : Route;
  hr_authz : gostring;
  hr_adminKey : gostring;
  hr_ifNoneMatch : gostring;
  hr_query : gostring → gostring;
  hr_body : gostring;
}.
Inductive HttpBody := JsonBody (v : json) | TextBody (t : gostring) | NoBody.
Record HttpResponse := mkHttpResponse { hs_status : Z; hs_body : HttpBody; hs_etag : gostring }.

Definition writeJSON (code : Z) (v : json) : HttpResponse := mkHttpResponse code (JsonBody v) [].
Definition http_error (msg : string) (code : Z) : HttpResponse := mkHttpResponse code (TextBody (go msg)) [].
Definition unauthorized : HttpResponse := http_error "unauthorized" 401.
Definition server_error : HttpResponse := http_error "server error" 500.
Definition bad_request : HttpResponse := http_error "bad request" 400.

(** A map of strings, its keys sorted. *)
Definition string_map (l : list (string * gostring)) : json :=
  map_json (list_to_map ((λ kv, (go kv.1, quoted kv.2)) <$> l)).

(** The surroundings of one request: the failures of each store operation, the
    clock and the random source. *)
Record HttpEnv := mkHttpEnv { he_io : nat → Io; he_now : Z; he_rnd : nat → gostring }.

Section httpapi.
Context `{UnicodeData} `{Sqlite} `{PublicKeyText} `{TimeText}.

(** [build] is the image builder, when one is configured: the image reference
    and its digest, or the text of an error. *)
Record Server := mkServer {
  sv_priv : ec_PrivateKey;
  sv_adminKey : gostring;
  sv_build : option (gostring → gostring → gostring → gostring + gostring * gostring);
  sv_registry : gostring;
}.

Definition Handled_http : Type := Db * HttpResponse.

Definition NewRawToken (rnd : gostring) : gostring := b64_encode rnd.
Definition requireOrg (env : HttpEnv) (orgID : gostring) (db : Db) (k : Handled_http) : Handled_http :=
  match GetOrg (he_io env 0) orgID db with
  | Ok _ => k
  | _ => (db, http_error "unknown org" 404)
  end.

(** ** Public routes *)

Definition enroll_fields : list (gostring * decoder EnrollInput) := [
  (go "enrollment_token", λ i v, (λ x, mkEnrollInput x (ei_DeviceName i) (ei_Platform i)) <$> dec_string (ei_Token i) v);
  (go "device_name", λ i v, (λ x, mkEnrollInput (ei_Token i) x (ei_Platform i)) <$> dec_string (ei_DeviceName i) v);
  (go "platform", λ i v, (λ x, mkEnrollInput (ei_Token i) (ei_DeviceName i) x) <$> dec_string (ei_Platform i) v)].
Definition handleHealth : HttpResponse := writeJSON 200 (string_map [("status", go "ok")]).
Definition handleEnroll (sv : Server) (env : HttpEnv) (req : HttpRequest) (db : Db) : Handled_http :=
  match v ← DecodeFirst (hr_body req); dec_struct enroll_fields (mkEnrollInput [] [] []) v with
  | None => (db, bad_request)
  | Some inp =>
      let '(db', r) := Enroll (he_io env 1) (he_rnd env 0) (he_rnd env 1) (sv_priv sv) inp (he_now env) db in
      match r with
      | Ok res =>
          match PublicKeyPEM (ec_public (sv_priv sv)) with
          | inl _ => (db', server_error)
          | inr pem => (db', writeJSON 200 (string_map [("device_id", er_DeviceID res); ("org_id", er_OrgID res);
                               ("token", er_Token res); ("server_public_key", pem)]))
          end
      | _ => (db', http_error "enrollment failed" 401)
      end
  end.
Definition handleServerKey (sv : Server) : HttpResponse :=
  match PublicKeyPEM (ec_public (sv_priv sv)) with
  | inl _ => server_error
  | inr pem => writeJSON 200 (string_map [("public_key", pem)])
  end.

(** ** Device routes *)

Definition handleWhoami (org dev : gostring) : HttpResponse :=
  writeJSON 200 (string_map [("device_id", dev); ("org_id", org)]).

(** A stored bundle that does not decode counts as empty. *)
Definition bundle_of (raw : gostring) : PolicyBundle :=
  default zero_bundle (v ← Unmarshal raw; dec_bundle zero_bundle v).
Definition with_version (raw : gostring) (version : Z) : PolicyBundle :=
  let b := bundle_of raw in
  mkBundle (pb_Image b) (pb_MountMode b) (Some (default [] (pb_Denylist b))) version.
Definition bundleWithVersion (raw : gostring) (version : Z) : gostring := bundle_json (with_version raw version).
Definition etag_of (version : Z) : gostring := [byte_of 34] ++ go "v" ++ Itoa version ++ [byte_of 34].
Definition handleGetPolicy (sv : Server) (env : HttpEnv) (req : HttpRequest) (org : gostring) (db : Db) : HttpResponse :=
  match GetPolicy (he_io env 1) org db with
  | Ok (raw, version) =>
      let etag := etag_of version in
      if bool_decide (hr_ifNoneMatch req = etag) then mkHttpResponse 304 NoBody etag
      else
        let bundleJSON := bundleWithVersion raw version in
        match Sign (sv_priv sv) (he_rnd env 0) bundleJSON with
        | Ok sig => mkHttpResponse 200 (JsonBody (JObj (signed_members
                      (mkSignedPolicy (b64_encode bundleJSON) sig version)))) etag
        | _ => server_error
        end
  | _ => server_error
  end.

Definition maxEventBatch : Z := 500.
(** [time.Time] reads the literal as it stands, escapes included. *)
Definition dec_time : decoder Z := λ cur v,
  match v with JNull => Some cur | JStr lit => time_parse lit | _ => None end.
Definition event_fields : list (gostring * decoder MonitorEvent) := [
  (go "tool", λ e v, (λ x, mkMonitorEvent x (me_Verdict e) (me_Reason e) (me_DirectConnCount e) (me_ObservedAt e)) <$> dec_string (me_Tool e) v);
  (go "verdict", λ e v, (λ x, mkMonitorEvent (me_Tool e) x (me_Reason e) (me_DirectConnCount e) (me_ObservedAt e)) <$> dec_string (me_Verdict e) v);
  (go "reason", λ e v, (λ x, mkMonitorEvent (me_Tool e) (me_Verdict e) x (me_DirectConnCount e) (me_ObservedAt e)) <$> dec_string (me_Reason e) v);
  (go "direct_conn_count", λ e v, (λ x, mkMonitorEvent (me_Tool e) (me_Verdict e) (me_Reason e) x (me_ObservedAt e)) <$> dec_int (me_DirectConnCount e) v);
  (go "observed_at", λ e v, (λ x, mkMonitorEvent (me_Tool e) (me_Verdict e) (me_Reason e) (me_DirectConnCount e) x) <$> dec_time (me_ObservedAt e) v)].
(** [ObservedAt]'s zero value is the year 1. *)
Definition zero_time : Z := - 62135596800 * 10 ^ 9.
Definition zero_event : MonitorEvent := mkMonitorEvent [] [] [] 0 zero_time.
Definition events_fields : list (gostring * decoder (list MonitorEvent)) :=
  [(go "events", dec_slice zero_event (dec_struct event_fields))].
Definition accepted (n : Z) : json := JObj [(go "accepted", JNum (Itoa n))].
Definition handlePostEvents (env : HttpEnv) (req : HttpRequest) (org dev : gostring) (db : Db) : Handled_http :=
  match v ← DecodeFirst (hr_body req); dec_struct events_fields [] v with
  | None => (db, bad_request)
  | Some evs =>
      if maxEventBatch <? len evs then (db, http_error "batch too large" 400)
      else if len evs =? 0 then (db, writeJSON 200 (accepted 0))
      else
        match InsertEvents (he_io env 1) (he_rnd env <$> seq 0 (length evs)) org dev evs (he_now env) db with
        | (db', Ok _) => (db', writeJSON 200 (accepted (len evs)))
        | (db', _) => (db', server_error)
        end
  end.

(** ** Admin routes: organisations, tokens, devices *)

Definition org_json (o : Org) : json := JObj [
  (go "id", quoted (org_ID o)); (go "name", quoted (org_Name o)); (go "created_at", quoted (time_text (org_CreatedAt o)))].
Definition device_json (d : Device) : json := JObj [
  (go "id", quoted (dv_ID d)); (go "org_id", quoted (dv_OrgID d)); (go "name", quoted (dv_Name d));
  (go "platform", quoted (dv_Platform d)); (go "enrolled_at", quoted (time_text (dv_EnrolledAt d)));
  (go "last_seen_at", match dv_LastSeenAt d with Some t => quoted (time_text t) | None => JNull end);
  (go "revoked", JBool (dv_Revoked d))].
(** A list built by appending to a nil slice: [null] when it stays empty. *)
Definition nil_list {A} (f : A → json) (l : list A) : json :=
  match l with [] => JNull | _ => JArr (f <$> l) end.

Definition name_fields : list (gostring * decoder gostring) := [(go "name", dec_string)].
Definition handleCreateOrg (env : HttpEnv) (req : HttpRequest) (db : Db) : Handled_http :=
  match v ← DecodeFirst (hr_body req); dec_struct name_fields [] v with
  | None => (db, bad_request)
  | Some name =>
      if bool_decide (name = []) then (db, bad_request)
      else
        match CreateOrg (he_io env 1) (he_rnd env 0) (he_now env) name db with
        | (db', Ok o) => (db', writeJSON 200 (string_map [("id", org_ID o); ("name", org_Name o)]))
        | (db', _) => (db', server_error)
        end
  end.
Definition handleListOrgs (env : HttpEnv) (db : Db) : HttpResponse :=
  match ListOrgs (he_io env 1) db with
  | Ok orgs => writeJSON 200 (nil_list org_json orgs)
  | _ => server_error
  end.

(** The body of a mint request is decoded leniently: a member of the wrong kind
    is skipped, a body that is no JSON is ignored. *)
Definition dec_lenient {A} (fields : list (gostring * decoder A)) (cur : A) (v : json) : A :=
  match v with
  | JObj ms => foldl (λ cur kv, match find_field fields (unquote kv.1) with
                                | Some d => default cur (d cur kv.2)
                                | None => cur end) cur ms
  | _ => cur
  end.
Definition mint_fields : list (gostring * decoder (Z * Z)) := [
  (go "expires_in_hours", λ p v, (λ x, (x, p.2)) <$> dec_int p.1 v);
  (go "max_uses", λ p v, (λ x, (p.1, x)) <$> dec_int p.2 v)].
(** [time.Duration(h) * time.Hour], in 64 bits. *)
Definition hours (h : Z) : Z := wrap64 (h * (3600 * 10 ^ 9)).
Definition mint_input (body : gostring) : Z * Z :=
  let '(hrs, max) := match DecodeFirst body with Some v => dec_lenient mint_fields (0, 0) v | None => (0, 0) end in
  (if hrs <=? 0 then 24 else hrs, max).
Definition handleMintToken (env : HttpEnv) (req : HttpRequest) (orgID : gostring) (db : Db) : Handled_http :=
  requireOrg env orgID db
    (let '(hrs, max) := mint_input (hr_body req) in
     let now := he_now env in
     let rawToken := NewRawToken (he_rnd env 0) in
     let expires := now + hours hrs in
     match CreateEnrollmentToken (he_io env 1) (HashToken rawToken) orgID expires max now db with
     | (db', Ok _) => (db', writeJSON 200 (map_json (list_to_map [(go "token", quoted rawToken);
                              (go "expires_at", quoted (time_text expires))])))
     | (db', _) => (db', server_error)
     end).

Definition handleListDevices (env : HttpEnv) (req : HttpRequest) (db : Db) : HttpResponse :=
  match ListDevices (he_io env 1) (hr_query req (go "org")) db with
  | Ok devs => writeJSON 200 (nil_list device_json devs)
  | _ => server_error
  end.
Definition handleRevokeDevice (env : HttpEnv) (id : gostring) (db : Db) : Handled_http :=
  match RevokeDevice (he_io env 1) id db with
  | (db', Ok _) => (db', writeJSON 200 (JObj [(go "revoked", JBool true)]))
  | (db', _) => (db', server_error)
  end.

(** ** Admin routes: policies and events *)

Definition canonicalBundle (b : PolicyBundle) : gostring :=
  let mode := if bool_decide (pb_MountMode b = []) then go "bind" else pb_MountMode b in
  bundle_json (mkBundle (pb_Image b) mode (Some (default [] (pb_Denylist b))) 0).
Definition handlePutPolicy (env : HttpEnv) (req : HttpRequest) (orgID : gostring) (db : Db) : Handled_http :=
  requireOrg env orgID db
    match v ← DecodeFirst (hr_body req); dec_bundle zero_bundle v with
    | None => (db, bad_request)
    | Some b =>
        if bool_decide (pb_Image b = []) || bool_decide (pb_MountMode b = []) then (db, bad_request)
        else
          match PutPolicy (he_io env 1) orgID (canonicalBundle b) (he_now env) db with
          | (db', Ok version) => (db', writeJSON 200 (JObj [(go "version", JNum (Itoa version))]))
          | (db', _) => (db', server_error)
          end
    end.
Definition handleGetAdminPolicy (env : HttpEnv) (orgID : gostring) (db : Db) : Handled_http :=
  requireOrg env orgID db
    match GetPolicy (he_io env 1) orgID db with
    | Ok (raw, version) => (db, mkHttpResponse 200 (TextBody (bundleWithVersion raw version)) [])
    | _ => (db, server_error)
    end.

Definition event_json (e : Event) : json := JObj [
  (go "id", quoted (ev_ID e)); (go "org_id", quoted (ev_OrgID e)); (go "device_id", quoted (ev_DeviceID e));
  (go "tool", quoted (ev_Tool e)); (go "verdict", quoted (ev_Verdict e)); (go "reason", quoted (ev_Reason e));
  (go "direct_conn_count", JNum (Itoa (ev_DirectConnCount e)));
  (go "observed_at", quoted (time_text (ev_ObservedAt e))); (go "received_at", quoted (time_text (ev_ReceivedAt e)))].
Definition handleAdminEvents (env : HttpEnv) (req : HttpRequest) (orgID : gostring) (db : Db) : Handled_http :=
  requireOrg env orgID db
    match ListEvents (he_io env 1) orgID (atoi_value (hr_query req (go "limit"))) db with
    | Ok evs => (db, writeJSON 200 (JArr (event_json <$> evs)))
    | _ => (db, server_error)
    end.
Definition handleAdminEventStats (env : HttpEnv) (req : HttpRequest) (orgID : gostring) (db : Db) : Handled_http :=
  requireOrg env orgID db
    (let hrs := atoi_value (hr_query req (go "since_hours")) in
     let hrs := if hrs <=? 0 then 24 else hrs in
     match CountByVerdict (he_io env 1) orgID (he_now env + hours (- hrs)) db with
     | Ok counts => (db, writeJSON 200 (map_json ((λ n, JNum (Itoa n)) <$> counts)))
     | _ => (db, server_error)
     end).

(** ** Admin routes: images *)

Definition image_json (im : Image) : json := JObj [
  (go "id", quoted (im_ID im)); (go "org_id", quoted (im_OrgID im)); (go "tag", quoted (im_Tag im));
  (go "ref", quoted (im_Ref im)); (go "digest", quoted (im_Digest im)); (go "status", quoted (im_Status im));
  (go "created_at", quoted (time_text (im_CreatedAt im)))].
Definition handleListImages (env : HttpEnv) (orgID : gostring) (db : Db) : Handled_http :=
  requireOrg env orgID db
    match ListImages (he_io env 1) orgID db with
    | Ok imgs => (db, writeJSON 200 (JArr (image_json <$> imgs)))
    | _ => (db, server_error)
    end.

Definition image_fields : list (gostring * decoder (gostring * gostring)) := [
  (go "dockerfile", λ p v, (λ x, (x, p.2)) <$> dec_string p.1 v);
  (go "tag", λ p v, (λ x, (p.1, x)) <$> dec_string p.2 v)].
Definition bad_tag (tag : gostring) : bool :=
  existsb (λ c, bool_decide (c ∈ go " /" ++ [byte_of 9; byte_of 10] ++ go ":@")) tag.
(** The store operations: insert, the result, read the policy, pin it. *)
Definition handleBuildImage (sv : Server) (env : HttpEnv) (req : HttpRequest) (orgID : gostring) (db : Db)
    : Handled_http :=
  requireOrg env orgID db
    match sv_build sv with
    | None => (db, http_error "image build not configured (server needs docker+cosign)" 503)
    | Some build =>
        match v ← DecodeFirst (hr_body req); dec_struct image_fields ([], []) v with
        | None => (db, bad_request)
        | Some (dockerfile, tag) =>
            if bool_decide (dockerfile = []) || bool_decide (tag = []) then (db, bad_request)
            else if bad_tag tag then (db, http_error "invalid tag" 400)
            else
              match InsertImage (he_io env 1) (he_rnd env 0) (he_now env) orgID tag db with
              | (db1, Ok id) =>
                  let target := sv_registry sv ++ go "/" ++ orgID ++ go "/" ++ tag in
                  match build dockerfile (go "redactr-base") target with
                  | inl e => ((SetImageResult (he_io env 2) id [] [] (go "failed") db1).1,
                              mkHttpResponse 400 (TextBody (go "build failed: " ++ e)) [])
                  | inr (ref, digest) =>
                      let pinned := ref ++ go "@" ++ digest in
                      let db2 := (SetImageResult (he_io env 2) id ref digest (go "ready") db1).1 in
                      match GetPolicy (he_io env 3) orgID db2 with
                      | Ok (raw, _) =>
                          let b := bundle_of raw in
                          match PutPolicy (he_io env 4) orgID
                                  (canonicalBundle (mkBundle pinned (pb_MountMode b) (pb_Denylist b) (pb_Version b)))
                                  (he_now env) db2 with
                          | (db3, Ok version) => (db3, writeJSON 200 (map_json (list_to_map
                              [(go "image", quoted pinned); (go "policy_version", JNum (Itoa version))])))
                          | (db3, _) => (db3, http_error "image built but policy pin failed" 500)
                          end
                      | _ => (db2, http_error "image built but policy read failed" 500)
                      end
                  end
              | (db1, _) => (db1, server_error)
              end
        end
    end.

(** ** The routes behind their access checks *)

Definition device_route (sv : Server) (env : HttpEnv) (req : HttpRequest) (org dev : gostring) (db : Db)
    : Handled_http :=
  match hr_route req with
  | RWhoami => (db, handleWhoami org dev)
  | RGetPolicy => (db, handleGetPolicy sv env req org db)
  | RPostEvents => handlePostEvents env req org dev db
  | _ => (db, mkHttpResponse 404 NoBody [])
  end.
Definition admin_route (sv : Server) (env : HttpEnv) (req : HttpRequest) (db : Db) : Handled_http :=
  match hr_route req with
  | RPutPolicy org => handlePutPolicy env req org db
  | RGetAdminPolicy org => handleGetAdminPolicy env org db
  | RAdminEvents org => handleAdminEvents env req org db
  | RAdminEventStats org => handleAdminEventStats env req org db
  | RCreateOrg => handleCreateOrg env req db
  | RListOrgs => (db, handleListOrgs env db)
  | RMintToken org => handleMintToken env req org db
  | RListDevices => (db, handleListDevices env req db)
  | RRevokeDevice id => handleRevokeDevice env id db
  | RBuildImage org => handleBuildImage sv env req org db
  | RListImages org => handleListImages env org db
  | _ => (db, mkHttpResponse 404 NoBody [])
  end.
(** The dashboard is a static page. *)
Definition public_route (sv : Server) (env : HttpEnv) (req : HttpRequest) (db : Db) : Handled_http :=
  match hr_route req with
  | RHealth => (db, handleHealth)
  | REnroll => handleEnroll sv env req db
  | RServerKey => (db, handleServerKey sv)
  | _ => (db, mkHttpResponse 200 NoBody [])
  end.
Definition ServeHTTP (sv : Server) (env : HttpEnv) (req : HttpRequest) (db : Db) : Handled_http :=
  match route_access (hr_route req) with
  | Public => public_route sv env req db
  | AdminOnly =>
      if RequireAdmin (sv_adminKey sv) (hr_adminKey req) then admin_route sv env req db else (db, unauthorized)
  | DeviceOnly =>
      match RequireDevice (he_io env 0) (sv_priv sv) (he_now env) (hr_authz req) db with
      | (db', Some (org, dev)) => device_route sv env req org dev db'
      | (db', None) => (db', unauthorized)
      end
  end.
End httpapi.

(** ** Who may change what *)

Section authorization.
Context `{UnicodeData} `{Sqlite} `{PublicKeyText} `{TimeText}.

(** The tables only administrators write. *)
Definition admin_tables (db : Db) := (db_orgs db, db_policies db, db_images db).

(** The change an admitted device can make: its last-seen time, and events of its
    own. *)
Definition device_change (org dev : gostring) (db db' : Db) : Prop :=
  admin_tables db' = admin_tables db ∧ db_tokens db' = db_tokens db
  ∧ (∃ t, db_devices db' = db_devices db ∨ db_devices db' = alter (touch_device t) dev (db_devices db))
  ∧ db_events db ⊆ db_events db'
  ∧ ∀ id e, db_events db' !! id = Some e → db_events db !! id = None → ev_OrgID e = org ∧ ev_DeviceID e = dev.

(** The change anyone can make: use an enrolment token that admits a device. *)
Definition enroll_change (now : Z) (db db' : Db) : Prop :=
  admin_tables db' = admin_tables db ∧ db_events db' = db_events db
  ∧ (db' = db ∨ ∃ h t d, db_tokens db !! h = Some t ∧ token_refused t now = false
       ∧ db_tokens db' = alter use_row h (db_tokens db)
       ∧ db_devices db !! dv_ID d = None ∧ dv_OrgID d = tk_org t
       ∧ db_devices db' = <[dv_ID d := d]> (db_devices db)).

Lemma EnrollDevice_db io rnd h name platform now db db' r :
  EnrollDevice io rnd h name platform now db = (db', r) → enroll_change now db db'.
Proof.
  intros He. destruct r as [d|e|].
  - apply EnrollDevice_Ok in He as (t & Ht & Href & Hd & Hnone & ->). split_and!; [done..|]. right.
    exists h, t, d. split_and!; try done. by subst d.
  - assert (db' = db) as ->; [|by split_and!; auto].
    apply (store_exec_err (SEnrollDevice io rnd h name platform now) db db' e).
    cbn [store_exec]. by rewrite He.
  - exfalso. apply (store_exec_not_panic (SEnrollDevice io rnd h name platform now) db db').
    cbn [store_exec]. by rewrite He.
Qed.

Lemma Enroll_db io rnd_id rnd_sig priv inp now db db' r :
  Enroll io rnd_id rnd_sig priv inp now db = (db', r) → enroll_change now db db'.
Proof.
  unfold Enroll. destruct (EnrollDevice _ _ _ _ _ _ _) as [db0 r0] eqn:He.
  apply EnrollDevice_db in He. destruct r0; [|by intros [= <- _]..].
  destruct (SignClaims _ _ _); by intros [= <- _].
Qed.

Lemma InsertEvents_db io rnds org dev evs t db db' r :
  InsertEvents io rnds org dev evs t db = (db', r) →
  db' = db ∨ ∃ events, db' = set_events db events ∧ db_events db ⊆ events
    ∧ ∀ id e, events !! id = Some e → db_events db !! id = None → ev_OrgID e = org ∧ ev_DeviceID e = dev.
Proof.
  unfold InsertEvents, db_call. destruct (io 0%nat); [by intros [= <- _]; auto|].
  destruct (insert_events_cases io 1 rnds org dev evs t db (db_events db)) as [(events & -> & Hsub & Hnew)|[e ->]];
    intros [= <- _]; eauto.
Qed.

Lemma RequireDevice_inv io priv now authz db db' r :
  RequireDevice io priv now authz db = (db', r) →
  match r with
  | None => db' = db
  | Some (org, dev) => ∃ raw c d, authz = go "Bearer " ++ raw ∧ VerifyToken (ec_public priv) raw = Ok c
      ∧ db_devices db !! cl_DeviceID c = Some d ∧ dv_Revoked d = false ∧ dv_OrgID d = cl_OrgID c
      ∧ org = dv_OrgID d ∧ dev = dv_ID d ∧ (db' = db ∨ db' = set_devices db (alter (touch_device now) dev (db_devices db)))
  end.
Proof.
  unfold RequireDevice. set (raw := TrimPrefix authz _).
  destruct (bool_decide (raw = []) || bool_decide (raw = authz)) eqn:Hraw; [by intros [= <- <-]|].
  apply orb_false_iff in Hraw as [_ Hne%bool_decide_eq_false].
  assert (authz = go "Bearer " ++ raw) as Hauthz.
  { unfold raw, TrimPrefix in *. destruct (HasPrefix authz _) eqn:Hp; [|done].
    apply HasPrefix_spec in Hp as (t & ->). by rewrite drop_app_length. }
  destruct (VerifyToken _ raw) as [c| |] eqn:Hv; [|by intros [= <- <-]..].
  unfold GetDevice. destruct (io 0%nat); [by intros [= <- <-]|].
  destruct (db_devices db !! cl_DeviceID c) as [d|] eqn:Hd; [|by intros [= <- <-]].
  destruct (dv_Revoked d) eqn:Hrev; [by intros [= <- <-]|]. cbn [orb].
  destruct (bool_decide (dv_OrgID d ≠ cl_OrgID c)) eqn:Horg; [by intros [= <- <-]|].
  apply bool_decide_eq_false, dec_stable in Horg. intros [= <- <-].
  exists raw, c, d. split_and!; try done. unfold TouchDevice, db_call. destruct (io 1%nat); auto.
Qed.

Lemma device_route_db sv env req org dev db db' resp :
  device_route sv env req org dev db = (db', resp) →
  db' = db ∨ ∃ events, db' = set_events db events ∧ db_events db ⊆ events
    ∧ ∀ id e, events !! id = Some e → db_events db !! id = None → ev_OrgID e = org ∧ ev_DeviceID e = dev.
Proof.
  unfold device_route. destruct (hr_route req); try by (intros [= <- _]; left).
  unfold handlePostEvents. destruct (_ ≫= _) as [evs|]; [|by intros [= <- _]; left].
  if_case; [by intros [= <- _]; left|]. if_case; [by intros [= <- _]; left|].
  destruct (InsertEvents _ _ _ _ _ _ _) as [db1 r] eqn:Hi. apply InsertEvents_db in Hi.
  by destruct r; intros [= <- _].
Qed.

(** C24: access control of the server.  Without the admin key an admin request
    changes nothing and is refused; without a token the server signed, for a
    device that exists, is not revoked and belongs to the token's organisation, a
    device request changes nothing and is refused; an admitted device writes only
    its own last-seen time and events under its own name; and a public request
    changes nothing beyond one permitted enrolment. *)
Theorem ServeHTTP_authorized sv env req db db' resp :
  ServeHTTP sv env req db = (db', resp) →
  match route_access (hr_route req) with
  | AdminOnly =>
      hr_adminKey req = sv_adminKey sv ∧ sv_adminKey sv ≠ [] ∨ db' = db ∧ resp = unauthorized
  | DeviceOnly =>
      (∃ raw c d, hr_authz req = go "Bearer " ++ raw ∧ VerifyToken (ec_public (sv_priv sv)) raw = Ok c
         ∧ db_devices db !! cl_DeviceID c = Some d ∧ dv_Revoked d = false ∧ dv_OrgID d = cl_OrgID c
         ∧ device_change (dv_OrgID d) (dv_ID d) db db')
      ∨ db' = db ∧ resp = unauthorized
  | Public => enroll_change (he_now env) db db'
  end.
Proof.
  unfold ServeHTTP. destruct (route_access (hr_route req)) eqn:Hr.
  - assert (enroll_change (he_now env) db db) as Hid by (split_and!; auto).
    unfold public_route. destruct (hr_route req); try by intros [= <- _].
    unfold handleEnroll. destruct (_ ≫= _) as [inp|]; [|by intros [= <- _]].
    destruct (Enroll _ _ _ _ _ _ _) as [db1 r] eqn:He. apply Enroll_db in He.
    destruct r; [|by intros [= <- _]..]. destruct (PublicKeyPEM _); by intros [= <- _].
  - destruct (RequireDevice _ _ _ _ db) as [db1 [[org dev]|]] eqn:Hreq; apply RequireDevice_inv in Hreq.
    + destruct Hreq as (raw & c & d & Hauthz & Hv & Hd & Hrev & Horg & -> & -> & Hdb).
      intros Hroute%device_route_db. left. exists raw, c, d. split_and!; try done.
      assert (device_change (dv_OrgID d) (dv_ID d) db db1 ∧ db_events db1 = db_events db) as [(Ha & Ht & Hdev & Hs & Hn) He].
      { destruct Hdb as [-> | ->]; (split; [|done]); split_and!; try done; try (exists (he_now env); by auto); naive_solver. }
      destruct Hroute as [-> |(events & -> & Hsub & Hnew)]; [by split_and!|].
      rewrite He in Hsub, Hnew. by split_and!.
    + intros [= <- <-]. subst. by right.
  - unfold RequireAdmin. destruct (negb _ && _) eqn:Hkey; [|intros [= <- <-]; by right].
    apply andb_true_iff in Hkey as [Hne Hk%bool_decide_eq_true].
    apply negb_true_iff, bool_decide_eq_false in Hne. by left.
Qed.
End authorization.

(** ** Minting enrolment tokens *)

Section minting.
Context `{UnicodeData} `{Sqlite} `{PublicKeyText} `{TimeText}.

(** Up to 2562047 hours the lifetime is exact. *)
Lemma hours_exact h : 0 ≤ h ≤ 2562047 → hours h = h * (3600 * 10 ^ 9).
Proof. intros Hh. unfold hours. apply wrap64_small. lia. Qed.
(** One hour more and the lifetime is negative: the token is born expired. *)
Lemma hours_overflow : hours 2562048 < 0.
Proof. reflexivity. Qed.

(** A mint request that succeeds, for an organisation that exists, stores one
    fresh unused token under the hash of the text shown to the administrator.  The
    token admits an enrolment exactly until its expiry, provided the requested
    number of uses is not negative; the expiry is the requested number of hours
    away, one day by default, as long as that fits 64 bits of nanoseconds. *)
Theorem mint_token_row env req orgID db db' resp :
  handleMintToken env req orgID db = (db', resp) → hs_status resp = 200 →
  is_Some (db_orgs db !! orgID)
  ∧ let '(hrs, max) := mint_input (hr_body req) in
    let h := HashToken (NewRawToken (he_rnd env 0)) in
    ∃ row, db_tokens db !! h = None ∧ db' = set_tokens db (<[h := row]> (db_tokens db))
      ∧ tk_org row = orgID ∧ tk_max row = max ∧ 1 ≤ hrs
      ∧ (hrs ≤ 2562047 → tk_expires row = he_now env + hrs * (3600 * 10 ^ 9))
      ∧ ∀ t, token_refused row t = false ↔ t ≤ tk_expires row ∧ 0 ≤ max.
Proof.
  unfold handleMintToken, requireOrg, GetOrg. destruct (he_io env 0 0%nat); [by intros [= _ <-]|].
  destruct (db_orgs db !! orgID) as [o|]; [|by intros [= _ <-]].
  assert (1 ≤ (mint_input (hr_body req)).1) as Hpos.
  { unfold mint_input. destruct (match DecodeFirst _ with Some _ => _ | None => _ end) as [hrs max].
    destruct (Z.leb_spec hrs 0); cbn; lia. }
  destruct (mint_input (hr_body req)) as [hrs max]. cbn [fst] in Hpos. cbv zeta.
  unfold CreateEnrollmentToken, db_call, db_insert. destruct (he_io env 1 0%nat); [by intros [= _ <-]|].
  destruct (db_tokens db !! HashToken _) eqn:Hnone; [by intros [= _ <-]|]. intros [= <- _] _.
  split; [by eauto|]. eexists. split_and!; try done.
  - intros Hle. cbn [tk_expires]. by rewrite hours_exact by lia.
  - intros t. cbn [tk_expires]. unfold token_refused. cbn [tk_revoked tk_expires tk_max tk_used].
    destruct (Z.ltb_spec (he_now env + hours hrs) t), (Z.eqb_spec max 0), (Z.leb_spec max 0);
      cbn [Z.eqb negb orb andb]; split; intros; try lia; done.
Qed.
End minting.

(** ** Requests to evaluate *)

Definition demo_time : TimeText := {| time_text := Itoa; time_parse := Atoi |}.
Definition unit_pem : unit → gostring + gostring := λ _, inr (go "pem").
Lemma unit_pem_ok (pub : unit) pem : unit_pem pub = inr pem → inr tt = inr pub :> gostring + unit.
Proof. by destruct pub. Qed.
Definition demo_pem : @PublicKeyText toy_ecdsa := {|
  PublicKeyPEM := unit_pem : @ec_PublicKey toy_ecdsa → gostring + gostring;
  ParsePublicKeyPEM _ := inr tt : gostring + @ec_PublicKey toy_ecdsa;
  ParsePublicKeyPEM_ok := unit_pem_ok;
|}.
Definition demo_server : @Server toy_ecdsa := @mkServer toy_ecdsa tt (go "key") None (go "reg").
Definition demo_env : HttpEnv := mkHttpEnv (λ _, no_fault) 1000 (λ n, go "r" ++ Itoa (Z.of_nat n)).
Definition demo_mint (key : gostring) : HttpRequest :=
  mkHttpRequest (RMintToken (go "acme")) [] key [] (λ _, []) (go "{" ++ [byte_of 34] ++ go "max_uses" ++ [byte_of 34] ++ go ":1}").
Definition demo_org_db : Db := set_orgs empty_db {[go "acme" := mkOrg (go "acme") (go "Acme") 0]}.

Definition demo_refused : Handled_http :=
  @ServeHTTP sample_unicode demo_sqlite toy_ecdsa demo_pem demo_time demo_server demo_env (demo_mint (go "no")) demo_org_db.
Lemma demo_refused_keys : hr_adminKey (demo_mint (go "no")) ≠ sv_adminKey demo_server.
Proof. done. Qed.

Theorem ServeHTTP_authorized_witness :
  demo_refused.1 = demo_org_db ∧ demo_refused.2 = unauthorized.
Proof.
  pose proof (@ServeHTTP_authorized sample_unicode demo_sqlite toy_ecdsa demo_pem demo_time demo_server demo_env
    (demo_mint (go "no")) demo_org_db _ _ (surjective_pairing demo_refused)) as [[Hkey _]|Hrefused].
  - exfalso. exact (demo_refused_keys Hkey).
  - exact Hrefused.
Defined.

Definition demo_minted : Handled_http :=
  @handleMintToken sample_unicode demo_sqlite demo_time demo_env (demo_mint (go "key")) (go "acme") demo_org_db.
Lemma demo_minted_ok : hs_status demo_minted.2 = 200.
Proof. vm_compute. reflexivity. Qed.
Lemma demo_mint_input : @mint_input sample_unicode (hr_body (demo_mint (go "key"))) = (24, 1).
Proof. vm_compute. reflexivity. Qed.

Theorem mint_token_row_witness :
  ∃ row, demo_minted.1 = set_tokens demo_org_db
           (<[HashToken (NewRawToken (he_rnd demo_env 0)) := row]> (db_tokens demo_org_db))
    ∧ tk_expires row = 1000 + 24 * (3600 * 10 ^ 9).
Proof.
  pose proof (@mint_token_row sample_unicode demo_sqlite demo_time demo_env (demo_mint (go "key")) (go "acme")
    demo_org_db _ _ (surjective_pairing demo_minted) demo_minted_ok) as [_ Hrow].
  rewrite demo_mint_input in Hrow. destruct Hrow as (row & _ & Hdb & _ & _ & _ & Hexp & _).
  exists row. split; [exact Hdb|]. apply Hexp. lia.
Defined.
