(* ===== verification/Daemon.v ===== *)
(** * The daemon — internal/daemon/daemon.go, api/rules_handler.go, api/routes.go, config/watcher.go

    The objects [Build] creates and the events that change them: the dashboard's
    rule and configuration handlers, the watcher's reload, scans of the dashboard
    and of intercepted requests.  The coordinator's pipeline holds the very layer
    objects the daemon holds, so the daemon's record has one copy of each object's
    state and the coordinator is a view of it. *)
From S2P Require Import Prelude GoStr Utf8 GoFloat GoSort Spans Scanner Redactor Cache Regex Rules FileBlock Coordinator Presidio Entropy Json JsonDecode Gliner Domain Extract Proxy Config Bundle Sessions Store Httpapi.
Local Open Scope Z_scope.

Section daemon.
Context `{RegexpEngine} `{UnicodeData} `{GoSort} `{EntropyEnv} `{HttpClient} `{Yaml}.
(** What the clock and the scheduler contribute to a layer's scan of a text, in each call. *)
Context (layer_ms : gostring → nat → gostring → Z) (layer_timer : gostring → nat → gostring → bool).

(** ** scanner/contextgate/stub.go *)

Definition contextgate_layer : Layer :=
  mkLayer unit tt (go "contextgate") (λ _ _, true) (λ _ _ _, Ok (mkScanResult [] 0)) None
    (layer_ms (go "contextgate")) (layer_timer (go "contextgate")).

(** ** The daemon's objects *)

Record Daemon := mkDaemon {
  dm_mgr : Manager;
  dm_presidio : presidioState;
  dm_entropy : EntropyScanner;
  dm_gliner : GlinerClient;
  dm_timeout : Z;
  dm_cache : Cache;
  dm_fb : fileblockState;
  dm_allowed : gset gostring;
  dm_bypass : list BypassRule;
  dm_domains : Filter;
  dm_reports : list ScanReport;
}.

Definition layers_of (d : Daemon) : list Layer := [
  with_state (presidio_layer (ps_enabled (dm_presidio d)) (layer_ms (go "presidio")) (layer_timer (go "presidio")))
    (dm_presidio d);
  entropy_layer (dm_entropy d) (layer_ms (go "entropy")) (layer_timer (go "entropy"));
  gliner_layer (dm_gliner d) (layer_ms (go "gliner")) (layer_timer (go "gliner"));
  contextgate_layer].
Definition coord_of (d : Daemon) : Coordinator :=
  mkCoord (mkPipeline (layers_of d) (dm_timeout d)) (dm_cache d) (dm_fb d) (dm_allowed d).

Definition set_mgr (d : Daemon) (m : Manager) : Daemon :=
  mkDaemon m (dm_presidio d) (dm_entropy d) (dm_gliner d) (dm_timeout d) (dm_cache d) (dm_fb d)
    (dm_allowed d) (dm_bypass d) (dm_domains d) (dm_reports d).
Definition set_cache (d : Daemon) (c : Cache) : Daemon :=
  mkDaemon (dm_mgr d) (dm_presidio d) (dm_entropy d) (dm_gliner d) (dm_timeout d) c (dm_fb d)
    (dm_allowed d) (dm_bypass d) (dm_domains d) (dm_reports d).
Definition set_gliner (d : Daemon) (c : GlinerClient) : Daemon :=
  mkDaemon (dm_mgr d) (dm_presidio d) (dm_entropy d) c (dm_timeout d) (dm_cache d) (dm_fb d)
    (dm_allowed d) (dm_bypass d) (dm_domains d) (dm_reports d).
(** [onScan]: the report is stored and broadcast. *)
Definition add_reports (d : Daemon) (rs : list ScanReport) : Daemon :=
  mkDaemon (dm_mgr d) (dm_presidio d) (dm_entropy d) (dm_gliner d) (dm_timeout d) (dm_cache d) (dm_fb d)
    (dm_allowed d) (dm_bypass d) (dm_domains d) (dm_reports d ++ rs).

(** ** Build *)

Definition rule_enabled (cfg : Config) : gostring → bool :=
  enabled_in (Effective (sn_Rules (cf_Scanning cfg))).
(** The arguments of [fileblock.New] and of [Coordinator.Reconfigure]. *)
Definition blocker_args (cfg : Config) : list gostring * bool :=
  FileBlockExtensions (fl_Extensions (cf_FileBlocking cfg)) (Effective (sn_Rules (cf_Scanning cfg)))
    (fl_ContentPatterns (cf_FileBlocking cfg)).
Definition lower_set (words : list gostring) : gset gostring := list_to_set (ToLower <$> words).

Definition Build (rd rd_migrate mkdir : option gostring) (w w_migrate : write_fate) (file : option yaml_Text)
    : option yaml_Text * (gostring + Daemon) :=
  match Load rd mkdir w file with
  | (file, inl e) => (file, inl (go "config: " ++ e))
  | (file, inr cfg0) =>
      (** an error of this update is only logged *)
      let m := (Update w_migrate (λ c, set_scanning
                  (MigrateLegacyLayerFlagsFromFile rd_migrate file (cf_Scanning c)) c)
                  (mkManager cfg0 file)).1 in
      let cfg := mg_cfg m in
      let s := cf_Scanning cfg in
      let enabled := rule_enabled cfg in
      let '(exts, content) := blocker_args cfg in
      (mg_file m, inr (mkDaemon m
        (NewWithEnabled enabled)
        (Entropy_SetEnabled (NewEntropy (sn_EntropyThreshold s) 20)
           (enabled (go "entropy_keyword_gated")) (enabled (go "entropy_unconditional")))
        (Gliner_Reconfigure enabled (NewGliner (go "http://127.0.0.1:0") []))
        (sn_InferenceTimeoutMs s)
        (NewCache (sn_CacheMaxSize s))
        (NewBlocker exts content)
        (if 0 <? len (sn_AllowedWords s) then lower_set (sn_AllowedWords s) else ∅)
        (sn_Bypass s)
        (NewFilter (pr_InterceptedDomains (cf_Proxy cfg)) (pr_BlockedDomains (cf_Proxy cfg)))
        []))
  end.

(** ** Reconfiguration *)

(** [coord.Reconfigure] with the rules of [cfg]. *)
Definition apply_rules (cfg : Config) (d : Daemon) : Daemon :=
  let enabled := rule_enabled cfg in
  let '(exts, content) := blocker_args cfg in
  mkDaemon (dm_mgr d) (Presidio_Reconfigure enabled) (Entropy_Reconfigure enabled (dm_entropy d))
    (Gliner_Reconfigure enabled (dm_gliner d)) (dm_timeout d) (Invalidate (dm_cache d))
    (FileBlock_Reconfigure exts content) (dm_allowed d) (dm_bypass d) (dm_domains d) (dm_reports d).
(** The watcher's callback; the domain filter, the cache size and the entropy
    threshold are not among the settings it applies. *)
Definition onLoad (cfg : Config) (d : Daemon) : Daemon :=
  let d := apply_rules cfg d in
  let s := cf_Scanning cfg in
  mkDaemon (dm_mgr d) (dm_presidio d) (dm_entropy d) (dm_gliner d) (sn_InferenceTimeoutMs s) (dm_cache d)
    (dm_fb d) (lower_set (sn_AllowedWords s)) (sn_Bypass s) (dm_domains d) (dm_reports d).

(** On the coordinator it is [Coordinator.Reconfigure]. *)
Lemma apply_rules_coord cfg d :
  coord_of (apply_rules cfg d) =
    let '(exts, content) := blocker_args cfg in
    Coordinator_Reconfigure (coord_of d) (rule_enabled cfg) exts content.
Proof. unfold apply_rules. by destruct (blocker_args cfg) as [exts content]. Qed.

(** One reload of config/watcher.go. *)
Definition watcher_reload (rd : option gostring) (d : Daemon) : Daemon * (gostring + Config) :=
  match Reload rd (dm_mgr d) with
  | (m, inl e) => (set_mgr d m, inl e)
  | (m, inr cfg) => (onLoad cfg (set_mgr d m), inr cfg)
  end.

(** ** api/rules_handler.go, api/routes.go *)

(** A response: the status, and the value handed to the JSON encoder or the
    text of an error. *)
Inductive ApiBody :=
| AJson (v : json)
| AError (t : gostring)
| AUnknownRules (ids : gset gostring)
| AConfig (c : Config)
| ARules (enabled : gostring → bool)
| AStats (s : CacheStats)
| AScan (original redacted : gostring) (findings : list Finding).
Record ApiResponse := mkApi { ap_status : Z; ap_body : ApiBody }.

Definition rules_fields : list (gostring * decoder (gmap gostring bool)) :=
  [(go "rules", dec_map false dec_bool)].
Definition unknown_rules (rules : gmap gostring bool) : gset gostring :=
  filter (λ id, IsKnown id = false) (dom rules).
Definition rules_ok : ApiResponse := mkApi 200 (AJson (JObj [(go "ok", JBool true)])).

(** [GET /api/rules]: the catalogue with the effective setting of each rule. *)
Definition handleGetRules (d : Daemon) : ApiResponse := mkApi 200 (ARules (rule_enabled (mg_cfg (dm_mgr d)))).

Definition handlePutRules (w : write_fate) (body : gostring) (d : Daemon) : Daemon * ApiResponse :=
  match v ← DecodeFirst body; dec_struct rules_fields ∅ v with
  | None => (d, mkApi 400 (AError (go "invalid json: " ++ decode_error body)))
  | Some rules =>
      let unknown := unknown_rules rules in
      if negb (bool_decide (unknown = ∅)) then (d, mkApi 400 (AUnknownRules unknown))
      else
        let normalised := default ∅ (Normalise rules) in
        match Update w (λ c, set_scanning (set_rules normalised (cf_Scanning c)) c) (dm_mgr d) with
        | (m, Some e) => (set_mgr d m, mkApi 500 (AError (go "save failed: " ++ e)))
        | (m, None) => (apply_rules (mg_cfg m) (set_mgr d m), rules_ok)
        end
  end.

(** Decoding a whole configuration, by the Go names of its fields. *)
Definition field {A B} (k : string) (get : A → B) (set : B → A → A) (dec : decoder B)
    : gostring * decoder A := (go k, λ cur v, (λ b, set b cur) <$> dec (get cur) v).
Definition dec_texts : decoder (list gostring) := dec_slice [] dec_string.
Definition dec_proxy : decoder ProxySection := dec_struct [
  field "Enabled" pr_Enabled (λ b p, mkProxySection b (pr_InterceptedDomains p) (pr_BlockedDomains p)) dec_bool;
  field "InterceptedDomains" pr_InterceptedDomains (λ l p, mkProxySection (pr_Enabled p) l (pr_BlockedDomains p)) dec_texts;
  field "BlockedDomains" pr_BlockedDomains (λ l p, mkProxySection (pr_Enabled p) (pr_InterceptedDomains p) l) dec_texts].
Definition dec_bypass_rule : decoder BypassRule := dec_struct [
  field "Path" br_path (λ s r, mkBypass s (br_prefix r) (br_method r)) dec_string;
  field "Prefix" br_prefix (λ s r, mkBypass (br_path r) s (br_method r)) dec_string;
  field "Method" br_method (λ s r, mkBypass (br_path r) (br_prefix r) s) dec_string].
Definition dec_custom : decoder CustomPattern := dec_struct [
  field "Name" cu_Name (λ s c, mkCustomPattern s (cu_Pattern c)) dec_string;
  field "Pattern" cu_Pattern (λ s c, mkCustomPattern (cu_Name c) s) dec_string].
Definition dec_scanning : decoder ScanningConfig := dec_struct [
  field "InferenceTimeoutMs" sn_InferenceTimeoutMs (λ x s, mkScanning x (sn_EntropyThreshold s) (sn_CustomPatterns s) (sn_CustomBlockedWords s) (sn_AllowedWords s) (sn_Bypass s) (sn_CacheMaxSize s) (sn_Rules s) (sn_Migrated s)) dec_int;
  field "EntropyThreshold" sn_EntropyThreshold (λ x s, mkScanning (sn_InferenceTimeoutMs s) x (sn_CustomPatterns s) (sn_CustomBlockedWords s) (sn_AllowedWords s) (sn_Bypass s) (sn_CacheMaxSize s) (sn_Rules s) (sn_Migrated s)) dec_float;
  field "CustomPatterns" sn_CustomPatterns (λ x s, mkScanning (sn_InferenceTimeoutMs s) (sn_EntropyThreshold s) x (sn_CustomBlockedWords s) (sn_AllowedWords s) (sn_Bypass s) (sn_CacheMaxSize s) (sn_Rules s) (sn_Migrated s)) (dec_slice (mkCustomPattern [] []) dec_custom);
  field "CustomBlockedWords" sn_CustomBlockedWords (λ x s, mkScanning (sn_InferenceTimeoutMs s) (sn_EntropyThreshold s) (sn_CustomPatterns s) x (sn_AllowedWords s) (sn_Bypass s) (sn_CacheMaxSize s) (sn_Rules s) (sn_Migrated s)) dec_texts;
  field "AllowedWords" sn_AllowedWords (λ x s, mkScanning (sn_InferenceTimeoutMs s) (sn_EntropyThreshold s) (sn_CustomPatterns s) (sn_CustomBlockedWords s) x (sn_Bypass s) (sn_CacheMaxSize s) (sn_Rules s) (sn_Migrated s)) dec_texts;
  field "Bypass" sn_Bypass (λ x s, mkScanning (sn_InferenceTimeoutMs s) (sn_EntropyThreshold s) (sn_CustomPatterns s) (sn_CustomBlockedWords s) (sn_AllowedWords s) x (sn_CacheMaxSize s) (sn_Rules s) (sn_Migrated s)) (dec_slice (mkBypass [] [] []) dec_bypass_rule);
  field "CacheMaxSize" sn_CacheMaxSize (λ x s, mkScanning (sn_InferenceTimeoutMs s) (sn_EntropyThreshold s) (sn_CustomPatterns s) (sn_CustomBlockedWords s) (sn_AllowedWords s) (sn_Bypass s) x (sn_Rules s) (sn_Migrated s)) dec_int;
  field "Rules" sn_Rules (λ x s, set_rules x s) (dec_map false dec_bool);
  field "Migrated" sn_Migrated (λ x s, mkScanning (sn_InferenceTimeoutMs s) (sn_EntropyThreshold s) (sn_CustomPatterns s) (sn_CustomBlockedWords s) (sn_AllowedWords s) (sn_Bypass s) (sn_CacheMaxSize s) (sn_Rules s) x) dec_bool].
Definition dec_blocking : decoder FileBlockingConfig := dec_struct [
  field "BlockedExtensions" fl_Extensions (λ l b, mkFileBlocking l (fl_ContentPatterns b)) dec_texts;
  field "ContentPatternsEnabled" fl_ContentPatterns (λ c b, mkFileBlocking (fl_Extensions b) c) dec_bool].
Definition dec_overrides : decoder HooksConfig := dec_struct [
  field "Added" hk_Added (λ l h, mkHooks (hk_Enabled h) (hk_ClaudeCode h) l (hk_Removed h)) dec_texts;
  field "Removed" hk_Removed (λ l h, mkHooks (hk_Enabled h) (hk_ClaudeCode h) (hk_Added h) l) dec_texts].
Definition dec_hooks : decoder HooksConfig := dec_struct [
  field "Enabled" hk_Enabled (λ b h, mkHooks b (hk_ClaudeCode h) (hk_Added h) (hk_Removed h)) dec_bool;
  field "ClaudeCode" hk_ClaudeCode (λ b h, mkHooks (hk_Enabled h) b (hk_Added h) (hk_Removed h)) dec_bool;
  field "SafecmdOverrides" (λ h, h) (λ h _, h) dec_overrides].
Definition dec_server : decoder MCPServerEntry := dec_struct [
  field "OriginalCommand" mc_Command (λ s m, mkMCPServer s (mc_Args m) (mc_Wrapped m)) dec_string;
  field "OriginalArgs" mc_Args (λ l m, mkMCPServer (mc_Command m) l (mc_Wrapped m)) dec_texts;
  field "Wrapped" mc_Wrapped (λ b m, mkMCPServer (mc_Command m) (mc_Args m) b) dec_bool].
Definition dec_mcp : decoder (gmap gostring MCPServerEntry) :=
  dec_struct [(go "WrappedServers", dec_map (mkMCPServer [] [] false) dec_server)].
Definition dec_logging : decoder LoggingConfig := dec_struct [
  field "Level" lg_Level (λ s l, mkLogging s (lg_Output l)) dec_string;
  field "Output" lg_Output (λ s l, mkLogging (lg_Level l) s) dec_string].
Definition zero_config : Config := mkConfig (mkProxySection false [] [])
  (mkScanning 0 (f64_of_Z 0) [] [] [] [] 0 ∅ false) (mkFileBlocking [] false) (mkHooks false false [] [])
  ∅ (mkLogging [] []) 0 [].
Definition dec_config : decoder Config := dec_struct [
  field "Proxy" cf_Proxy (λ x c, mkConfig x (cf_Scanning c) (cf_FileBlocking c) (cf_Hooks c) (cf_MCP c) (cf_Logging c) (cf_AdminPort c) (cf_LicenseKey c)) dec_proxy;
  field "Scanning" cf_Scanning set_scanning dec_scanning;
  field "FileBlocking" cf_FileBlocking (λ x c, mkConfig (cf_Proxy c) (cf_Scanning c) x (cf_Hooks c) (cf_MCP c) (cf_Logging c) (cf_AdminPort c) (cf_LicenseKey c)) dec_blocking;
  field "Hooks" cf_Hooks (λ x c, mkConfig (cf_Proxy c) (cf_Scanning c) (cf_FileBlocking c) x (cf_MCP c) (cf_Logging c) (cf_AdminPort c) (cf_LicenseKey c)) dec_hooks;
  field "MCP" cf_MCP (λ x c, mkConfig (cf_Proxy c) (cf_Scanning c) (cf_FileBlocking c) (cf_Hooks c) x (cf_Logging c) (cf_AdminPort c) (cf_LicenseKey c)) dec_mcp;
  field "Logging" cf_Logging (λ x c, mkConfig (cf_Proxy c) (cf_Scanning c) (cf_FileBlocking c) (cf_Hooks c) (cf_MCP c) x (cf_AdminPort c) (cf_LicenseKey c)) dec_logging;
  field "Admin" cf_AdminPort (λ x c, mkConfig (cf_Proxy c) (cf_Scanning c) (cf_FileBlocking c) (cf_Hooks c) (cf_MCP c) (cf_Logging c) x (cf_LicenseKey c)) (dec_struct [(go "Port", dec_int)]);
  field "Licensing" cf_LicenseKey (λ x c, mkConfig (cf_Proxy c) (cf_Scanning c) (cf_FileBlocking c) (cf_Hooks c) (cf_MCP c) (cf_Logging c) (cf_AdminPort c) x) (dec_struct [(go "Key", dec_string)])].

Definition handleGetConfig (d : Daemon) : ApiResponse := mkApi 200 (AConfig (mg_cfg (dm_mgr d))).
(** [PUT /api/config] stores the configuration; the components see it when the
    watcher reloads the file. *)
Definition status_ok : ApiResponse := mkApi 200 (AJson (string_map [("status", go "ok")])).
Definition handleUpdateConfig (w : write_fate) (body : gostring) (d : Daemon) : Daemon * ApiResponse :=
  match v ← DecodeFirst body; dec_config zero_config v with
  | None => (d, mkApi 400 (AError (decode_error body)))
  | Some cfg =>
      match Update w (λ _, cfg) (dm_mgr d) with
      | (m, Some e) => (set_mgr d m, mkApi 500 (AError e))
      | (m, None) => (set_mgr d m, status_ok)
      end
  end.

Definition handleCacheStats (d : Daemon) : ApiResponse := mkApi 200 (AStats (CoordinatorStats (coord_of d))).
Definition handleCacheClear (d : Daemon) : Daemon * ApiResponse :=
  (set_cache d (co_cache (InvalidateCache (coord_of d))), status_ok).

(** [POST /api/scan]; a nil report is dereferenced. *)
Definition api_report (now ms : Z) (r : PipelineReport) : ScanReport :=
  mkScanReport [] now (go "api") (go "scan") ms
    ((λ f, Proxy.mkRedaction (f_label f) (f_value f) (f_start f) (f_end f) (f_layer f)) <$> r_findings r)
    ((λ lr, mkLayerResult (li_name lr) (li_count lr) (li_ms lr)) <$> r_layers r) false [].
Definition scan_request (body : gostring) : option gostring :=
  v ← DecodeFirst body; dec_struct [(go "text", dec_string)] [] v.
Definition scan_answer (now ms : Z) (text : gostring) (o : ScanOutcome) (d : Daemon)
    : res gostring (Daemon * ApiResponse) :=
  match so_err o, so_report o with
  | Some e, _ => Ok (d, mkApi 500 (AError e))
  | None, None => Panic
  | None, Some r => Ok (add_reports d [api_report now ms r], mkApi 200 (AScan text (so_text o) (r_findings r)))
  end.
Definition handleScan (now ms : Z) (m : Moment) (body : gostring) (d : Daemon) : res gostring (Daemon * ApiResponse) :=
  match scan_request body with
  | None => Ok (d, mkApi 400 (AError (decode_error body)))
  | Some text =>
      '(c, o) ← ScanAndRedact (coord_of d) m text;
      scan_answer now ms text o (set_cache d (co_cache c))
  end.

(** A request that goes through the proxy. *)
Definition reported (es : list proxy_event) : list ScanReport :=
  omap (λ e, match e with OnScan r => Some r | _ => None end) es.
Definition proxy_of (d : Daemon) : ProxyConfig := mkProxy (dm_domains d) (Some (dm_bypass d)) true.
Definition proxied (now ms : Z) (m : Moment) (req : Request) (d : Daemon) : res gostring (Daemon * Handled) :=
  '(c, h) ← @handle_request _ coordinator_pipeline (proxy_of d) now ms m (coord_of d) req;
  Ok (add_reports (set_cache d (co_cache c)) (reported (h_events h)), h).
End daemon.
