(* ===== verification/System.v ===== *)
(** * The settings in force — daemon.go, api/rules_handler.go, config/watcher.go together

    Runs of the daemon: any sequence of dashboard requests, reloads, edits of the
    configuration file and intercepted requests.  What the rules in force are, and
    that nothing is reported by a rule that is off. *)
From S2P Require Import Prelude GoStr Utf8 GoFloat GoSort Spans Scanner Redactor Cache Regex Rules FileBlock Coordinator Presidio Entropy Json JsonDecode Gliner Domain Extract Proxy Config Daemon.
Local Open Scope Z_scope.

Section system.
Context `{RegexpEngine} `{UnicodeData} `{GoSort} `{EntropyEnv} `{HttpClient} `{Yaml}.
Context (layer_ms : gostring → nat → gostring → Z) (layer_timer : gostring → nat → gostring → bool).

(** ** Events *)

Inductive daemon_op :=
| DPutRules (w : write_fate) (body : gostring)
| DPutConfig (w : write_fate) (body : gostring)
| DProxyFlag (w : write_fate) (on : bool)
| DEdit (file : option yaml_Text)
| DReload (rd : option gostring)
| DSidecar (url : gostring) (ready : bool)
| DCacheClear
| DScan (now ms : Z) (m : Moment) (body : gostring)
| DRequest (now ms : Z) (m : Moment) (req : Request).
Inductive daemon_reply :=
| RApi (r : ApiResponse)
| RReload (r : gostring + Config)
| RHandled (h : Handled)
| RNone.

(** The sidecar's start, seen by the client: its address, then its readiness. *)
Definition sidecar_event (url : gostring) (ready : bool) (d : Daemon) : Daemon :=
  set_gliner d (Gliner_SetReady (Gliner_SetBaseURL (dm_gliner d) url) ready).

Definition daemon_step (d : Daemon) (op : daemon_op) : res gostring (Daemon * daemon_reply) :=
  match op with
  | DPutRules w body => let '(d', r) := handlePutRules w body d in Ok (d', RApi r)
  | DPutConfig w body => let '(d', r) := handleUpdateConfig w body d in Ok (d', RApi r)
  | DProxyFlag w on => Ok (set_mgr d (Update w (set_proxy_enabled on) (dm_mgr d)).1, RNone)
  | DEdit file => Ok (set_mgr d (mkManager (mg_cfg (dm_mgr d)) file), RNone)
  | DReload rd => let '(d', r) := watcher_reload rd d in Ok (d', RReload r)
  | DSidecar url ready => Ok (sidecar_event url ready d, RNone)
  | DCacheClear => let '(d', r) := handleCacheClear layer_ms layer_timer d in Ok (d', RApi r)
  | DScan now ms m body => '(d', r) ← handleScan layer_ms layer_timer now ms m body d; Ok (d', RApi r)
  | DRequest now ms m req => '(d', h) ← proxied layer_ms layer_timer now ms m req d; Ok (d', RHandled h)
  end.

(** Whether an event put the rules, or all settings, of the configuration in
    memory into force. *)
Definition applies_rules (op : daemon_op) (r : daemon_reply) : bool :=
  match op, r with
  | DPutRules _ _, RApi resp => ap_status resp =? 200
  | DReload _, RReload (inr _) => true
  | _, _ => false
  end.
Definition applies_all (op : daemon_op) (r : daemon_reply) : bool :=
  match op, r with DReload _, RReload (inr _) => true | _, _ => false end.

(** The daemon [d] can be reached by whole events, each ending before the next
    begins (Live.v has scans that overlap one another and the other events), [a] being the configuration whose rules were
    last applied and [b] the one all of whose settings were.  A panic ends a
    run: a layer's scan runs in a goroutine of its own. *)
Inductive daemon_reach : Config → Config → Daemon → Prop :=
| reach_build rd rd_migrate mkdir w w_migrate file file' d :
    Build rd rd_migrate mkdir w w_migrate file = (file', inr d) →
    daemon_reach (mg_cfg (dm_mgr d)) (mg_cfg (dm_mgr d)) d
| reach_step a b d op d' r :
    daemon_reach a b d → daemon_step d op = Ok (d', r) →
    daemon_reach (if applies_rules op r then mg_cfg (dm_mgr d') else a)
                 (if applies_all op r then mg_cfg (dm_mgr d') else b) d'.

(** ** What is in force *)

(** The labels each layer may report under the rules of a configuration. *)
Definition permitted (cfg : Config) (label layer : gostring) : Prop :=
  (layer = go "presidio" ∧ ∃ d, d ∈ presidio_defs ∧ label = rw_label d
     ∧ rule_enabled cfg (rw_ruleID d) = true)
  ∨ (layer = go "entropy" ∧ (rule_enabled cfg (go "entropy_keyword_gated") = true
       ∨ rule_enabled cfg (go "entropy_unconditional") = true))
  ∨ (layer = go "gliner" ∧ ∀ rule, gliner_rule label = Some rule → rule_enabled cfg rule = true).

Definition all_permitted (cfg : Config) (fs : list Finding) : Prop :=
  Forall (λ f, permitted cfg (f_label f) (f_layer f)) fs.

Definition cache_permits (cfg : Config) (c : Cache) : Prop :=
  ∃ l, represents c l ∧ ∀ e, e ∈ l → all_permitted cfg (r_findings (ce_report e)).

Definition entropy_flags (cfg : Config) : entropyConfig :=
  mkEntropyConfig (rule_enabled cfg (go "entropy_keyword_gated")) (rule_enabled cfg (go "entropy_unconditional")).

Record rules_in_force (cfg : Config) (d : Daemon) : Prop := {
  rf_presidio : dm_presidio d = rebuild (rule_enabled cfg);
  rf_entropy : es_config (dm_entropy d) = entropy_flags cfg;
  rf_gliner : ∀ l rule, gliner_rule l = Some rule →
    default false (gc_suppressLabels (dm_gliner d) !! l) = negb (rule_enabled cfg rule);
  rf_files : let '(exts, content) := blocker_args cfg in dm_fb d = FileBlock_Reconfigure exts content;
  rf_cache : cache_permits cfg (dm_cache d);
}.
Record rest_in_force (cfg : Config) (d : Daemon) : Prop := {
  re_timeout : dm_timeout d = sn_InferenceTimeoutMs (cf_Scanning cfg);
  re_allowed : dm_allowed d = lower_set (sn_AllowedWords (cf_Scanning cfg));
  re_bypass : dm_bypass d = sn_Bypass (cf_Scanning cfg);
}.

(** ** Layers report what they may *)

Definition layer_reports (P : gostring → gostring → Prop) (l : Layer) : Prop :=
  ∀ n t r, l_scan l n t = Ok r → Forall (λ f, P (f_label f) (f_layer f)) (sr_findings r).

Lemma presidio_rule_ids : Forall (λ d, rw_ruleID d ≠ []) presidio_defs.
Proof.
  assert (forallb (λ d, negb (bool_decide (rw_ruleID d = []))) presidio_defs = true) as Hall
    by (vm_compute; reflexivity).
  apply Forall_forall. intros d Hd%list_elem_of_In. rewrite forallb_forall in Hall.
  specialize (Hall d Hd). by apply negb_true_iff, bool_decide_eq_false in Hall.
Qed.

Lemma compiled_permitted cfg p :
  p ∈ compilePatterns (rule_enabled cfg) → permitted cfg (pd_label p) (go "presidio").
Proof.
  intros (d & Hd & Hc)%list_elem_of_omap. left. split; [done|]. exists d. split; [done|].
  pose proof presidio_rule_ids as Hids. rewrite Forall_forall in Hids. specialize (Hids d Hd).
  unfold compile_raw in Hc. destruct (Compile _) as [re|]; [|done].
  rewrite bool_decide_eq_false_2 in Hc by done. cbn [negb andb] in Hc.
  destruct (rule_enabled cfg (rw_ruleID d)); [|done]. cbn in Hc. by injection Hc as <-.
Qed.

Lemma presidio_matches_from text lower p ms fs :
  presidio_matches text lower p ms = Ok fs →
  Forall (λ f, f_label f = pd_label p ∧ f_layer f = go "presidio") fs.
Proof.
  revert fs. induction ms as [|m ms IH]; intros fs; cbn; [by intros [= <-]|].
  intros (f & Hf & (fs' & Hfs & E%(inj Ok))%bind_Ok)%bind_Ok. subst fs.
  apply Forall_app. split; [|by apply IH]. unfold presidio_match in Hf.
  apply bind_Ok in Hf as (s & _ & Hf). case_match; [by injection Hf as <-|].
  apply bind_Ok in Hf as ([sc|] & _ & Hf); [|by injection Hf as <-].
  destruct (f64_lt sc f64_03); injection Hf as <-; [done|]. cbn. by constructor.
Qed.
Lemma presidio_reports cfg ms timer :
  layer_reports (permitted cfg) (presidio_layer (rule_enabled cfg) ms timer).
Proof.
  intros n t r (fs & Hfs & E%(inj Ok))%bind_Ok. subst r. cbn [sr_findings].
  change (ps_patterns _) with (compilePatterns (rule_enabled cfg)) in Hfs.
  pose proof (compiled_permitted cfg) as Hc.
  assert (∀ ps, ps ⊆ compilePatterns (rule_enabled cfg) → ∀ fs,
    presidio_patterns t (ToLower t) ps = Ok fs → all_permitted cfg fs) as Hall.
  { clear fs Hfs. induction ps as [|p ps IH]; intros Hsub fs; cbn; [intros [= <-]; constructor|].
    intros (fs1 & Hfs1 & (fs2 & Hfs2 & E%(inj Ok))%bind_Ok)%bind_Ok. subst fs.
    apply Forall_app. split; [|apply IH; [set_solver|done]].
    eapply Forall_impl; [by eapply presidio_matches_from|]. intros f [-> ->]. apply Hc. set_solver. }
  by eapply Hall.
Qed.

Lemma entropy_reports cfg s ms timer :
  es_config s = entropy_flags cfg → layer_reports (permitted cfg) (entropy_layer s ms timer).
Proof.
  intros Hs n t r (fs & Hfs & E%(inj Ok))%bind_Ok. subst r. cbn [sr_findings].
  change (l_state (entropy_layer s ms timer)) with s in Hfs. revert fs Hfs.
  generalize (extractTokens t (es_minLength s)). intros toks.
  induction toks as [|tok toks IH]; intros fs; cbn; [by intros [= <-]|].
  intros (f & Hf & (fs' & Hfs & E%(inj Ok))%bind_Ok)%bind_Ok. subst fs.
  apply Forall_app. split; [|by apply IH]. unfold entropy_token in Hf.
  case_match; [by injection Hf as <-|]. case_match; [by injection Hf as <-|].
  apply bind_Ok in Hf as (ctx & _ & Hf). rewrite Hs in Hf. cbn in Hf.
  destruct (rule_enabled cfg (go "entropy_keyword_gated")) eqn:Ek,
    (rule_enabled cfg (go "entropy_unconditional")) eqn:Eu;
    rewrite ?andb_false_r, ?andb_false_l in Hf; cbn in Hf; try (by injection Hf as <-);
    (case_match; injection Hf as <-; [done|]; cbn; constructor; [|done]; right; left; cbn; auto).
Qed.

Lemma gliner_reports cfg c ms timer :
  (∀ l rule, gliner_rule l = Some rule →
     default false (gc_suppressLabels c !! l) = negb (rule_enabled cfg rule)) →
  layer_reports (permitted cfg) (gliner_layer c ms timer).
Proof.
  intros Hc n t r. unfold l_scan. cbn [l_Scan l_state gliner_layer]. unfold Gliner_Scan.
  case_match; [by intros [= <-]|]. intros (es & _ & E%(inj Ok))%bind_Ok. subst r. cbn [sr_findings].
  apply Forall_fmap, Forall_forall. intros e [Hk _]%list_elem_of_filter. right; right.
  split; [done|]. intros rule Hr. cbn in Hr. apply Hc in Hr.
  destruct (rule_enabled cfg rule); [done|]. cbn in Hr. unfold gliner_skip in Hk. rewrite Hr in Hk.
  by rewrite orb_true_r in Hk.
Qed.

Lemma layers_report cfg d :
  rules_in_force cfg d → Forall (layer_reports (permitted cfg)) (layers_of layer_ms layer_timer d).
Proof.
  intros [Hp He Hg _ _]. unfold layers_of. rewrite Hp.
  repeat constructor; [apply presidio_reports|by apply entropy_reports|by apply gliner_reports|].
  intros n t r. cbn. by intros [= <-].
Qed.

(** ** The pipeline and the cache report nothing else *)

Section reports.
Context (cfg : Config).

Lemma remap_permitted offs fs : all_permitted cfg fs → all_permitted cfg (remap offs <$> fs).
Proof. intros Hf. apply Forall_fmap. eapply Forall_impl; [exact Hf|done]. Qed.

Lemma scan_layer_permitted p n text st l st' :
  layer_reports (permitted cfg) l → all_permitted cfg (s_findings st) →
  scan_layer p n text st l = Ok st' → all_permitted cfg (s_findings st').
Proof.
  intros Hl Hst. unfold scan_layer. case_match; [by intros [= <-]|].
  destruct (scanWithTimeout p n l (s_text st)) as [r|e|] eqn:Hs; [|by intros [= <-]|done].
  destruct (scanWithTimeout_inv p n l (s_text st)) as [E|[e E]]; [|congruence].
  rewrite E in Hs. apply Hl in Hs. destruct (sr_findings r) as [|f fs] eqn:Hr; [by intros [= <-]|].
  rewrite <- Hr in *. intros ([cur offs] & _ & E2%(inj Ok))%bind_Ok. subst st'. cbn [s_findings].
  apply Forall_app. split; [done|by apply remap_permitted].
Qed.
Lemma Scan_permitted p m text rep :
  Forall (layer_reports (permitted cfg)) (p_layers p) → Scan p m text = Ok rep →
  all_permitted cfg (r_findings rep).
Proof.
  intros Hp (st & Hst & E%(inj Ok))%bind_Ok. subst rep. cbn [r_findings].
  assert (all_permitted cfg (s_findings (mkScan [] [] text []))) as Hi by constructor.
  revert Hi Hst. generalize (mkScan [] [] text []) as st0. revert Hp. generalize (p_layers p) as ls.
  induction ls as [|l ls IH]; intros Hp st0 Hi; cbn; [by intros [= <-]|].
  apply Forall_cons in Hp as [Hl Hp]. intros (st1 & Hst1 & Hst)%bind_Ok.
  eapply IH; [done| |done]. by eapply scan_layer_permitted.
Qed.
Lemma scan_filter_redact_permitted p allowed m text out rep :
  Forall (layer_reports (permitted cfg)) (p_layers p) →
  scan_filter_redact p allowed m text = Ok (out, rep) → all_permitted cfg (r_findings rep).
Proof.
  intros Hp. rewrite scan_filter_redact_eq. intros (rep0 & Hs%Scan_permitted & Hr)%bind_Ok; [|done].
  apply bind_Ok in Hr as ([res fs] & Hr & E%(inj Ok)). injection E as _ <-. cbn [r_findings].
  assert (all_permitted cfg (surviving allowed (r_findings rep0))) as Hsv by by apply Forall_filter_1.
  unfold Redact in Hr. destruct (surviving _ _) as [|f fs0]; [by injection Hr as _ <-|].
  unfold dedup in Hr. apply bind_Ok in Hr as (r & _ & E%(inj Ok)). injection E as _ <-.
  unfold all_permitted. by rewrite sort_slice_perm.
Qed.

Lemma Get_permitted c text c' hit :
  cache_permits cfg c → Get c text = Ok (c', hit) →
  cache_permits cfg c' ∧ ∀ out rep, hit = Some (out, rep) → all_permitted cfg (r_findings rep).
Proof.
  intros (l & Hr & Hl) Hg. destruct (Get_refines c l text Hr) as (c2 & Hg2 & Hr2 & _).
  rewrite Hg in Hg2. apply (inj Ok) in Hg2. injection Hg2 as -> ->. split.
  - eexists. split; [done|]. intros e He%lru_get_elem. by apply Hl.
  - intros out rep. destruct (lru_find (hash text) l) as [e|] eqn:Hf; cbn; [|done].
    intros [= <- <-]. apply lru_find_Some in Hf as [He _]. by apply Hl.
Qed.
Lemma ScanAndRedact_permitted c m text c' o :
  Forall (layer_reports (permitted cfg)) (p_layers (co_pipeline c)) → cache_permits cfg (co_cache c) →
  ScanAndRedact c m text = Ok (c', o) →
  cache_permits cfg (co_cache c') ∧ ∀ rep, so_report o = Some rep → all_permitted cfg (r_findings rep).
Proof.
  intros Hp Hc. unfold ScanAndRedact. intros ([c1 hit] & Hg & Hrest)%bind_Ok.
  apply Get_permitted in Hg as [Hc1 Hhit]; [|done]. destruct hit as [[red rep]|].
  { injection Hrest as <- <-. split; [done|]. intros rep' [= <-]. by eapply Hhit. }
  destruct (scan_filter_redact _ _ _ _) as [[out rep]|e|] eqn:Hs; [|by injection Hrest as <- <-|done].
  apply scan_filter_redact_permitted in Hs; [|done]. destruct Hc1 as (l & Hr & Hl).
  destruct (Put_refines c1 l text out rep Hr) as (c2 & Hput & Hr2 & _). rewrite Hput in Hrest.
  apply (inj Ok) in Hrest. injection Hrest as <- <-. cbn. split; [|by intros ? [= <-]].
  eexists. split; [exact Hr2|]. by apply lru_put_coherent.
Qed.
End reports.

(** ** Every event keeps the settings it does not change *)

Lemma Reconfigure_in_force cfg c l rule :
  gliner_rule l = Some rule →
  default false (gc_suppressLabels (Gliner_Reconfigure (rule_enabled cfg) c) !! l) =
    negb (rule_enabled cfg rule).
Proof. intros Hr. rewrite Reconfigure_suppressed, Hr. by destruct (rule_enabled cfg rule). Qed.

Lemma Build_in_force rd rd_migrate mkdir w w_migrate file file' d :
  Build rd rd_migrate mkdir w w_migrate file = (file', inr d) →
  rules_in_force (mg_cfg (dm_mgr d)) d ∧ rest_in_force (mg_cfg (dm_mgr d)) d.
Proof.
  unfold Build. destruct (Load rd mkdir w file) as [file1 [e|cfg0]]; [done|].
  set (m := (Update _ _ _).1). cbn zeta. destruct (blocker_args (mg_cfg m)) as [exts content] eqn:Hb.
  intros [= <- <-]. split; split; cbn [dm_mgr dm_presidio dm_entropy dm_gliner dm_fb dm_cache dm_timeout dm_allowed dm_bypass].
  - done.
  - done.
  - intros l rule. apply Reconfigure_in_force.
  - by rewrite Hb.
  - exists []. split; [apply NewCache_refines|]. intros e He. exfalso; exact (not_elem_of_nil _ He).
  - done.
  - destruct (sn_AllowedWords (cf_Scanning (mg_cfg m))); [done|]. case_match eqn:E; [done|].
    apply Z.ltb_ge in E. unfold len in E. cbn [length] in E. lia.
  - done.
Qed.

Lemma apply_rules_in_force a cfg d : rules_in_force a d → rules_in_force cfg (apply_rules cfg d).
Proof.
  intros [_ _ _ _ (l & Hr & _)]. unfold apply_rules. destruct (blocker_args cfg) as [exts content] eqn:Hb.
  split; cbn [dm_presidio dm_entropy dm_gliner dm_fb dm_cache]; [done|done| |by rewrite Hb|].
  - intros x rule. apply Reconfigure_in_force.
  - exists []. split; [by eapply Invalidate_refines|]. intros e He. exfalso; exact (not_elem_of_nil _ He).
Qed.
Lemma apply_rules_rest cfg d :
  dm_timeout (apply_rules cfg d) = dm_timeout d ∧ dm_allowed (apply_rules cfg d) = dm_allowed d
  ∧ dm_bypass (apply_rules cfg d) = dm_bypass d ∧ dm_mgr (apply_rules cfg d) = dm_mgr d
  ∧ dm_domains (apply_rules cfg d) = dm_domains d ∧ dm_reports (apply_rules cfg d) = dm_reports d.
Proof. unfold apply_rules. by destruct (blocker_args cfg). Qed.
Lemma apply_rules_keeps_rest b cfg d : rest_in_force b d → rest_in_force b (apply_rules cfg d).
Proof. intros []. destruct (apply_rules_rest cfg d) as (? & ? & ? & _). split; congruence. Qed.
Lemma rules_in_force_ext a d d' :
  rules_in_force a d →
  dm_presidio d' = dm_presidio d → es_config (dm_entropy d') = es_config (dm_entropy d) →
  gc_suppressLabels (dm_gliner d') = gc_suppressLabels (dm_gliner d) → dm_fb d' = dm_fb d →
  cache_permits a (dm_cache d') → rules_in_force a d'.
Proof. intros [] E1 E2 E3 E4 Hc. split; rewrite ?E1, ?E2, ?E3, ?E4; done. Qed.

Lemma onLoad_in_force a cfg d :
  rules_in_force a d → rules_in_force cfg (onLoad cfg d) ∧ rest_in_force cfg (onLoad cfg d).
Proof.
  intros Hr%(apply_rules_in_force a cfg). unfold onLoad. split; [|by split].
  eapply rules_in_force_ext; [exact Hr|reflexivity..|apply Hr].
Qed.

Lemma handlePutRules_step w body d d' r :
  handlePutRules w body d = (d', r) →
  if ap_status r =? 200 then ∃ m, d' = apply_rules (mg_cfg m) (set_mgr d m) else ∃ m, d' = set_mgr d m.
Proof.
  assert (∃ m, d = set_mgr d m) as Hself by (exists (dm_mgr d); by destruct d).
  unfold handlePutRules. destruct (_ ≫= _) as [rules|]; [|by intros [= <- <-]].
  case_match; [by intros [= <- <-]|].
  destruct (Update _ _ _) as [m [e|]]; intros [= <- <-];
    [change (ap_status (mkApi 500 _) =? 200) with false|change (ap_status rules_ok =? 200) with true];
    exists m; reflexivity.
Qed.
Lemma handleUpdateConfig_step w body d d' r :
  handleUpdateConfig w body d = (d', r) → ∃ m, d' = set_mgr d m.
Proof.
  unfold handleUpdateConfig. destruct (_ ≫= _); [|intros [= <- _]; exists (dm_mgr d); by destruct d].
  destruct (Update _ _ _) as [m [e|]]; intros [= <- _]; by exists m.
Qed.
(** The request was passed on unscanned. *)
Ltac quiet := intros [= <- <-]; left; split_and!; [done|done|intros; apply not_elem_of_nil].
Lemma handle_request_scans p now ms m c req c' h :
  @handle_request _ coordinator_pipeline p now ms m c req = Ok (c', h) →
  c' = c ∧ reported (h_events h) = [] ∧ (∀ label layer, EntitiesRedacted label layer ∉ h_events h)
  ∨ ∃ text o, ScanAndRedact c m text = Ok (c', o)
      ∧ ∀ label layer, EntitiesRedacted label layer ∈ h_events h →
          ∃ rep f, so_report o = Some rep ∧ f ∈ r_findings rep ∧ f_label f = label ∧ f_layer f = layer.
Proof.
  unfold handle_request. case_match; [quiet|]. case_match; [quiet|].
  destruct (rq_body req) as [[body [|]]|]; [quiet| |quiet].
  destruct (ExtractLastUserMessage body) as [msg|e|]; [|quiet|done].
  intros ([c1 o] & Hs & (h' & Hh & E)%bind_Ok)%bind_Ok. apply (inj Ok) in E. injection E as <- <-.
  right. exists (em_text msg), o. split; [exact Hs|]. intros label layer. by eapply handle_scanned_events.
Qed.

(** ** Runs *)

Lemma set_mgr_in_force a b d m :
  rules_in_force a d → rest_in_force b d → rules_in_force a (set_mgr d m) ∧ rest_in_force b (set_mgr d m).
Proof.
  intros Ha []. split; [|by split]. eapply rules_in_force_ext; [exact Ha|reflexivity..|apply Ha].
Qed.
Lemma set_cache_in_force a b d c rs :
  rules_in_force a d → rest_in_force b d → cache_permits a c →
  rules_in_force a (add_reports (set_cache d c) rs) ∧ rest_in_force b (add_reports (set_cache d c) rs).
Proof.
  intros Ha [] Hc. split; [|by split]. eapply rules_in_force_ext; [exact Ha|reflexivity..|exact Hc].
Qed.
Lemma add_no_reports d : add_reports d [] = d.
Proof. destruct d. unfold add_reports. cbn. by rewrite app_nil_r. Qed.

(** What a scan through the coordinator does to the daemon. *)
Lemma coordinator_scan_in_force a b d m text c o rs :
  rules_in_force a d → rest_in_force b d →
  ScanAndRedact (coord_of layer_ms layer_timer d) m text = Ok (c, o) →
  rules_in_force a (add_reports (set_cache d (co_cache c)) rs)
  ∧ rest_in_force b (add_reports (set_cache d (co_cache c)) rs)
  ∧ ∀ rep, so_report o = Some rep → all_permitted a (r_findings rep).
Proof.
  intros Ha Hb Hs. pose proof (layers_report a d Ha) as Hl.
  destruct (ScanAndRedact_permitted a (coord_of layer_ms layer_timer d) m text c o Hl (rf_cache _ _ Ha) Hs) as [Hc Hrep].
  destruct (set_cache_in_force a b d (co_cache c) rs Ha Hb Hc). eauto.
Qed.

(** The labels and layers of the findings a reply shows. *)
Definition revealed (r : daemon_reply) (label layer : gostring) : Prop :=
  match r with
  | RApi (mkApi _ (AScan _ _ fs)) => ∃ f, f ∈ fs ∧ f_label f = label ∧ f_layer f = layer
  | RHandled h => EntitiesRedacted label layer ∈ h_events h
  | _ => False
  end.

(** A step that scans nothing and shows nothing, or scans one text and shows
    what that scan reports. *)
Definition scan_shaped (d d' : Daemon) (r : daemon_reply) (m : Moment) : Prop :=
  d' = d ∧ (∀ label layer, ¬ revealed r label layer)
  ∨ ∃ text c o rs, ScanAndRedact (coord_of layer_ms layer_timer d) m text = Ok (c, o)
      ∧ d' = add_reports (set_cache d (co_cache c)) rs
      ∧ ∀ label layer, revealed r label layer →
          ∃ rep f, so_report o = Some rep ∧ f ∈ r_findings rep ∧ f_label f = label ∧ f_layer f = layer.

Lemma handleScan_step now ms m body d d' r :
  handleScan layer_ms layer_timer now ms m body d = Ok (d', r) →
  scan_shaped d d' (RApi r) m.
Proof.
  unfold handleScan, scan_answer. destruct (scan_request body) as [text|]; [|intros [= <- <-]; left; split; [done|intros ? ? []]].
  intros ([c o] & Hs & Hrest)%bind_Ok. right. exists text, c, o. destruct (so_err o) as [e|].
  { apply (inj Ok) in Hrest. injection Hrest as <- <-. exists []. rewrite add_no_reports. by split_and!. }
  destruct (so_report o) as [rep|]; [|done]. apply (inj Ok) in Hrest. injection Hrest as <- <-.
  eexists. split_and!; [done|done|]. intros label layer (f & Hf & ? & ?). eauto 6.
Qed.
Lemma proxied_step now ms m req d d' h :
  proxied layer_ms layer_timer now ms m req d = Ok (d', h) →
  scan_shaped d d' (RHandled h) m.
Proof.
  unfold proxied. intros ([c h'] & Hh & E)%bind_Ok. apply (inj Ok) in E. injection E as <- <-.
  apply handle_request_scans in Hh as [(-> & Hr & Hn)|(text & o & Hs & Hrev)].
  - left. split; [|done]. rewrite Hr, add_no_reports. by destruct d.
  - right. by exists text, c, o, (reported (h_events h')).
Qed.

(** What a step leaves and shows, the rules of [a'] and the rest of [b'] being
    in force after it, and the rules of [a] during it. *)
Definition step_fine (a a' b' : Config) (d' : Daemon) (r : daemon_reply) : Prop :=
  rules_in_force a' d' ∧ rest_in_force b' d' ∧ ∀ label layer, revealed r label layer → permitted a label layer.

Lemma scan_shaped_fine a b d d' r m :
  rules_in_force a d → rest_in_force b d → scan_shaped d d' r m → step_fine a a b d' r.
Proof.
  intros Ha Hb [[-> Hno]|(text & c & o & rs & Hs & -> & Hrev)].
  - split_and!; [done..|]. intros ? ? Hr. by apply Hno in Hr.
  - destruct (coordinator_scan_in_force a b d m text c o rs Ha Hb Hs) as (? & ? & Hp).
    split_and!; [done..|]. intros label layer (rep & f & Hrep & Hf & <- & <-)%Hrev.
    apply Hp in Hrep. unfold all_permitted in Hrep. rewrite Forall_forall in Hrep. by apply Hrep.
Qed.
Lemma put_reveals_nothing w body d d' r :
  handlePutRules w body d = (d', r) ∨ handleUpdateConfig w body d = (d', r) →
  ∀ label layer, ¬ revealed (RApi r) label layer.
Proof.
  intros [Hp|Hp] label layer.
  - unfold handlePutRules in Hp. destruct (_ ≫= _); [|injection Hp as _ <-; intros []].
    case_match; [injection Hp as _ <-; intros []|]. destruct (Update _ _ _) as [? [?|]]; injection Hp as _ <-; intros [].
  - unfold handleUpdateConfig in Hp. destruct (_ ≫= _); [|injection Hp as _ <-; intros []].
    destruct (Update _ _ _) as [? [?|]]; injection Hp as _ <-; intros [].
Qed.
Lemma put_rules_fine a b w body d d' r :
  rules_in_force a d → rest_in_force b d → handlePutRules w body d = (d', r) →
  step_fine a (if ap_status r =? 200 then mg_cfg (dm_mgr d') else a) b d' (RApi r).
Proof.
  intros Ha Hb Hp. pose proof (put_reveals_nothing _ _ _ _ _ (or_introl Hp)) as Hno.
  apply handlePutRules_step in Hp. destruct (ap_status r =? 200); destruct Hp as [m ->];
    destruct (set_mgr_in_force a b d m Ha Hb) as [Ha' Hb'].
  - destruct (apply_rules_rest (mg_cfg m) (set_mgr d m)) as (_ & _ & _ & Hm & _). rewrite Hm. cbn [dm_mgr set_mgr].
    split_and!; [by eapply apply_rules_in_force|by apply apply_rules_keeps_rest|]. intros ? ? Hr. by apply Hno in Hr.
  - split_and!; [done..|]. intros ? ? Hr. by apply Hno in Hr.
Qed.
Lemma reload_fine a b rd d d' r :
  rules_in_force a d → rest_in_force b d → watcher_reload rd d = (d', r) →
  let applied := match r with inr _ => true | inl _ => false end in
  step_fine a (if applied then mg_cfg (dm_mgr d') else a) (if applied then mg_cfg (dm_mgr d') else b) d' (RReload r).
Proof.
  intros Ha Hb. unfold watcher_reload. destruct (Reload rd (dm_mgr d)) as [m [e|cfg]] eqn:Hr; intros [= <- <-]; cbn zeta;
    destruct (set_mgr_in_force a b d m Ha Hb) as [Ha' Hb']; [by split_and!|].
  assert (mg_cfg (dm_mgr (onLoad cfg (set_mgr d m))) = cfg) as ->.
  { unfold onLoad. cbn [dm_mgr]. destruct (apply_rules_rest cfg (set_mgr d m)) as (_ & _ & _ & -> & _).
    unfold Reload in Hr. destruct (ReadFile _ _); [done|]. destruct (yaml_Unmarshal _ _); [done|].
    by injection Hr as <- <-. }
  destruct (onLoad_in_force a cfg (set_mgr d m) Ha') as [Ho1 Ho2]. split_and!; [exact Ho1|exact Ho2|by intros].
Qed.

Lemma daemon_step_fine a b d op d' r :
  rules_in_force a d → rest_in_force b d → daemon_step d op = Ok (d', r) →
  step_fine a (if applies_rules op r then mg_cfg (dm_mgr d') else a)
    (if applies_all op r then mg_cfg (dm_mgr d') else b) d' r.
Proof.
  intros Ha Hb. assert (∀ m, step_fine a a b (set_mgr d m) RNone) as Hmgr.
  { intros m. destruct (set_mgr_in_force a b d m Ha Hb). by split_and!. }
  destruct op as [w body|w body|w on|file|rd|url ready| |now ms m body|now ms m req]; cbn [daemon_step].
  - destruct (handlePutRules w body d) as [d1 resp] eqn:Hp. intros [= <- <-]. by eapply put_rules_fine.
  - destruct (handleUpdateConfig w body d) as [d1 resp] eqn:Hp. intros [= <- <-].
    pose proof (put_reveals_nothing _ _ _ _ _ (or_intror Hp)) as Hno.
    apply handleUpdateConfig_step in Hp as [m ->]. destruct (Hmgr m) as (? & ? & _).
    split_and!; [done..|]. intros ? ? Hr. by apply Hno in Hr.
  - intros [= <- <-]. apply Hmgr.
  - intros [= <- <-]. apply Hmgr.
  - destruct (watcher_reload rd d) as [d1 res] eqn:Hw. intros [= <- <-].
    apply (reload_fine a b rd d d1 res Ha Hb) in Hw. by destruct res.
  - intros [= <- <-]. split_and!; [|by destruct Hb|by intros].
    eapply rules_in_force_ext; [exact Ha|reflexivity..|apply Ha].
  - intros [= <- <-]. destruct (rf_cache _ _ Ha) as (l & Hr & _). rewrite <- (add_no_reports (set_cache d _)).
    destruct (set_cache_in_force a b d (Invalidate (dm_cache d)) [] Ha Hb); [|by split_and!].
    exists []. split; [by eapply Invalidate_refines|]. intros e He. exfalso; exact (not_elem_of_nil _ He).
  - intros ([d1 resp] & Hs & E)%bind_Ok. apply (inj Ok) in E. injection E as <- <-.
    apply handleScan_step in Hs. by eapply scan_shaped_fine.
  - intros ([d1 h] & Hs & E)%bind_Ok. apply (inj Ok) in E. injection E as <- <-.
    apply proxied_step in Hs. by eapply scan_shaped_fine.
Qed.

Lemma reach_in_force a b d : daemon_reach a b d → rules_in_force a d ∧ rest_in_force b d.
Proof.
  induction 1 as [rd rd_migrate mkdir w w_migrate file file' d Hb|a b d op d' r _ [Ha Hb] Hs].
  - by eapply Build_in_force.
  - by destruct (daemon_step_fine a b d op d' r Ha Hb Hs) as (? & ? & _).
Qed.

(** C9: the settings in force.  After any sequence of dashboard requests, edits
    and reloads of the configuration file, failed saves, scans and intercepted
    requests, each layer and the file blocker run under exactly the rules of the
    configuration whose rules were last applied — by the start, a successful
    [PUT /api/rules] or a successful reload — and the pipeline's timeout, the
    allowed words and the bypass rules are those of the last start or reload. *)
Theorem settings_in_force a b d :
  daemon_reach a b d → rules_in_force a d ∧ rest_in_force b d.
Proof. apply reach_in_force. Qed.

(** ** The dashboard's two ways to change the rules *)

Lemma Save_reads_back `{!YamlLaws} w c file file' :
  Save w c file = (file', None) → Reload None (mkManager c file') = (mkManager c file', inr c).
Proof.
  unfold Save. destruct (yaml_Marshal c) as [e|t] eqn:Hm; [done|]. destruct w; [|done].
  intros [= <-]. unfold Reload. cbn. by rewrite (yaml_reads_back c t).
Qed.

Lemma Effective_normalised user : Effective (default ∅ (Normalise user)) = Effective user.
Proof.
  apply map_eq. intros id. rewrite !Effective_lookup, Normalise_lookup.
  destruct (ruleByID !! id) as [r|] eqn:Hr; [|done]. cbn. f_equal.
  destruct (user !! id) as [v|]; [|done]. unfold normalise_keep. rewrite Hr.
  by destruct v, (ResolveDefault (rs_tier r)).
Qed.

Definition put_rules_of (body : gostring) : option (gmap gostring bool) :=
  v ← DecodeFirst body; dec_struct rules_fields ∅ v.

(** C12: [PUT /api/rules], branch by branch.  A body that does not decode, or that
    names an unknown rule, changes nothing and is answered 400.  Otherwise the
    configuration in memory has exactly the requested effective settings and is
    otherwise the old one; if saving it fails the answer is 500 and what is in
    force stays; if it is saved the answer is 200, the requested rules are in force
    at once, and a reload of the file reads the same configuration. *)
Theorem PutRules_effective `{!YamlLaws} a b w body d d' r :
  daemon_reach a b d → handlePutRules w body d = (d', r) →
  match put_rules_of body with
  | None => d' = d ∧ ap_status r = 400
  | Some rules =>
      let old := mg_cfg (dm_mgr d) in let new := mg_cfg (dm_mgr d') in
      if bool_decide (unknown_rules rules = ∅) then
        Effective (sn_Rules (cf_Scanning new)) = Effective rules
        ∧ set_scanning (set_rules (sn_Rules (cf_Scanning old)) (cf_Scanning new)) new = old
        ∧ (ap_status r = 200 ∧ rules_in_force new d' ∧ Reload None (dm_mgr d') = (dm_mgr d', inr new)
           ∨ ap_status r = 500 ∧ rules_in_force a d')
      else d' = d ∧ ap_status r = 400
  end.
Proof.
  intros [Ha Hb]%reach_in_force Hp. pose proof Hp as Hfine.
  apply (put_rules_fine a b w body d d' r Ha Hb) in Hfine as (Hf & _ & _).
  unfold handlePutRules in Hp. fold (put_rules_of body) in Hp.
  destruct (put_rules_of body) as [rules|]; [|by injection Hp as <- <-].
  case_bool_decide as Hu; cbn [negb] in Hp; [|by injection Hp as <- <-].
  unfold Update in Hp. destruct (Save _ _ _) as [file [e|]] eqn:Hs; injection Hp as <- <-;
    cbn [ap_status rules_ok] in Hf; cbn [dm_mgr set_mgr mg_cfg].
  - cbn. split; [apply Effective_normalised|]. split; [by destruct (mg_cfg (dm_mgr d)) as [? [] ]|].
    right. by split.
  - destruct (apply_rules_rest (set_scanning (set_rules (default ∅ (Normalise rules)) (cf_Scanning (mg_cfg (dm_mgr d)))) (mg_cfg (dm_mgr d)))
      (set_mgr d (mkManager (set_scanning (set_rules (default ∅ (Normalise rules)) (cf_Scanning (mg_cfg (dm_mgr d)))) (mg_cfg (dm_mgr d))) file)))
      as (_ & _ & _ & Hm & _).
    cbn [mg_cfg] in *. rewrite Hm in *. cbn [dm_mgr set_mgr mg_cfg] in *.
    split; [apply Effective_normalised|]. split; [by destruct (mg_cfg (dm_mgr d)) as [? [] ]|].
    left. split_and!; [done|exact Hf|by eapply Save_reads_back].
Qed.

(** [PUT /api/config] takes effect with the reload its write triggers, not
    before.  When it is answered 200 the configuration in memory and in the file is
    the decoded body while every component runs as before; the next reload that
    can read the file puts all its settings into force — except the intercepted
    and blocked domains, which stay those of the start. *)
Theorem UpdateConfig_effective `{!YamlLaws} a b w body d d1 r d2 res :
  daemon_reach a b d → handleUpdateConfig w body d = (d1, r) → ap_status r = 200 →
  watcher_reload None d1 = (d2, res) →
  ∃ cfg, (v ← DecodeFirst body; dec_config zero_config v) = Some cfg
    ∧ mg_cfg (dm_mgr d1) = cfg ∧ coord_of layer_ms layer_timer d1 = coord_of layer_ms layer_timer d
    ∧ rules_in_force a d1 ∧ res = inr cfg
    ∧ rules_in_force cfg d2 ∧ rest_in_force cfg d2 ∧ dm_domains d2 = dm_domains d.
Proof.
  intros [Ha Hb]%reach_in_force Hp Hr Hw. pose proof Hp as [m ->]%handleUpdateConfig_step.
  unfold handleUpdateConfig in Hp. destruct (_ ≫= _) as [cfg|]; [|by injection Hp as _ <-].
  unfold Update in Hp. destruct (Save w cfg (mg_file (dm_mgr d))) as [file [e|]] eqn:Hs; [by injection Hp as _ <-|].
  apply (f_equal (λ x, dm_mgr x.1)) in Hp. cbn in Hp. subst m. apply Save_reads_back in Hs.
  destruct (set_mgr_in_force a b d (mkManager cfg file) Ha Hb) as [Ha' Hb'].
  exists cfg. unfold watcher_reload in Hw. cbn [dm_mgr set_mgr] in Hw. rewrite Hs in Hw. injection Hw as <- <-.
  destruct (onLoad_in_force a cfg (set_mgr (set_mgr d (mkManager cfg file)) (mkManager cfg file)) Ha') as [Ho1 Ho2].
  by split_and!.
Qed.
End system.

(** ** Evaluation *)

Section evaluation.
Local Existing Instance re2.
Local Existing Instance sample_unicode.
Local Existing Instance insertion_sort.
Local Existing Instance sample_entropy.
Local Existing Instance toy_yaml.
Local Existing Instance toy_yaml_laws.
#[local] Instance no_sidecar : HttpClient := {|
  http_get _ _ := HttpError (go "refused"); http_post _ _ _ := HttpError (go "refused"); decode_error _ := go "json";
|}.

Definition quick (layer : gostring) (n : nat) (text : gostring) : Z := 0.
Definition in_time (layer : gostring) (n : nat) (text : gostring) : bool := false.
Notation step := (daemon_step quick in_time).
Notation start := (Build None None None Written Written None).

(** A first start, then a change of the rules, then a scan. *)
Definition demo_put : gostring := js "{'rules':{'us_ssn_dash':true,'email_regex':false}}".
Definition demo_scan_body : gostring := js "{'text':'ssn 536-90-4399 of bob@corp.io'}".
Definition shows (r : daemon_reply) : list (gostring * gostring) :=
  match r with RApi (mkApi _ (AScan _ red fs)) => (λ f, (f_label f, f_layer f)) <$> fs | _ => [] end.
Definition api_status (r : daemon_reply) : Z := match r with RApi resp => ap_status resp | _ => 0 end.
Definition demo_run : res gostring (Z * list (gostring * gostring)) :=
  match start with
  | (_, inr d) =>
      '(d1, r1) ← step d (DPutRules Written demo_put);
      '(d2, r) ← step d1 (DScan 0 0 (mkMoment 0 0) demo_scan_body);
      Ok (api_status r1, shows r)
  | _ => Panic
  end.

(** The email rule is off: the address is not reported; two rules report the
    number. *)
Example demo_run_ex :
  demo_run = Ok (200, [(go "US_SSN", go "presidio"); (go "US_SSN", go "presidio")]).
Proof. vm_compute. reflexivity. Qed.

Lemma demo_states :
  ∃ file d d1 resp d2 r, start = (file, inr d)
    ∧ handlePutRules Written demo_put d = (d1, resp) ∧ ap_status resp = 200
    ∧ step d1 (DScan 0 0 (mkMoment 0 0) demo_scan_body) = Ok (d2, r)
    ∧ revealed r (go "US_SSN") (go "presidio").
Proof.
  pose proof demo_run_ex as E. unfold demo_run in E. destruct start as [file [e|d]]; [done|].
  apply bind_Ok in E as ([d1 r1] & Hput & E). apply bind_Ok in E as ([d2 r] & Hscan & E).
  apply (inj Ok) in E. pose proof (f_equal fst E) as Hst. pose proof (f_equal snd E) as Hsh. cbn [fst snd] in Hst, Hsh.
  cbn [daemon_step] in Hput. destruct (handlePutRules Written demo_put d) as [d1' resp] eqn:Hp.
  apply (inj Ok) in Hput. injection Hput as -> <-.
  exists file, d, d1, resp, d2, r. refine (conj eq_refl (conj Hp (conj Hst (conj Hscan _)))).
  clear -Hsh. destruct r as [[st [| | | | | |orig red fs]]| | |]; try discriminate Hsh. cbn [shows revealed] in *.
  destruct fs as [|f fs]; [done|]. exists f. split; [by left|].
  split; by injection Hsh.
Qed.

Lemma demo_reach file d d1 resp :
  start = (file, inr d) → handlePutRules Written demo_put d = (d1, resp) → ap_status resp = 200 →
  daemon_reach quick in_time (mg_cfg (dm_mgr d)) (mg_cfg (dm_mgr d)) d
  ∧ daemon_reach quick in_time (mg_cfg (dm_mgr d1)) (mg_cfg (dm_mgr d)) d1.
Proof.
  intros Hb Hp Hst. assert (daemon_reach quick in_time (mg_cfg (dm_mgr d)) (mg_cfg (dm_mgr d)) d) as Hr.
  { by eapply reach_build. }
  split; [done|].
  pose proof (reach_step quick in_time _ _ d (DPutRules Written demo_put) d1 (RApi resp) Hr) as H1.
  cbn [daemon_step applies_rules applies_all] in H1. rewrite Hp, Hst in H1. by apply H1.
Qed.

Theorem settings_in_force_witness :
  ∃ d0 d, rules_in_force (mg_cfg (dm_mgr d)) d ∧ rest_in_force (mg_cfg (dm_mgr d0)) d.
Proof.
  destruct demo_states as (file & d & d1 & resp & d2 & r & Hb & Hp & Hst & _).
  destruct (demo_reach file d d1 resp Hb Hp Hst) as [_ Hr]. exists d, d1.
  exact (settings_in_force quick in_time _ _ d1 Hr).
Defined.

Definition demo_rules : gmap gostring bool :=
  <[go "email_regex" := false]> {[go "us_ssn_dash" := true]}.
Lemma demo_put_rules : put_rules_of demo_put = Some demo_rules ∧ unknown_rules demo_rules = ∅.
Proof. split; vm_compute; reflexivity. Qed.

Theorem PutRules_effective_witness :
  ∃ d1, Effective (sn_Rules (cf_Scanning (mg_cfg (dm_mgr d1)))) = Effective demo_rules
    ∧ rules_in_force (mg_cfg (dm_mgr d1)) d1
    ∧ Reload None (dm_mgr d1) = (dm_mgr d1, inr (mg_cfg (dm_mgr d1))).
Proof.
  destruct demo_states as (file & d & d1 & resp & d2 & r & Hb & Hp & Hst & _).
  destruct (demo_reach file d d1 resp Hb Hp Hst) as [Hr _]. exists d1.
  pose proof (PutRules_effective quick in_time _ _ Written demo_put d d1 resp Hr Hp) as Hput.
  rewrite (proj1 demo_put_rules), bool_decide_eq_true_2 in Hput by apply demo_put_rules.
  destruct Hput as (He & _ & [(_ & Hf & Hre)|[Hbad _]]); [by split_and!|congruence].
Defined.

Definition demo_config : gostring := js "{'Scanning':{'AllowedWords':['bob'],'Rules':{'us_ssn_dash':false}}}".
Lemma demo_config_states :
  ∃ file d d1 resp d2 cfg, start = (file, inr d) ∧ handleUpdateConfig Written demo_config d = (d1, resp)
    ∧ ap_status resp = 200 ∧ watcher_reload None d1 = (d2, inr cfg) ∧ sn_AllowedWords (cf_Scanning cfg) = [go "bob"].
Proof.
  assert (match start with
    | (_, inr d) =>
        let '(d1, resp) := handleUpdateConfig Written demo_config d in
        match watcher_reload None d1 with
        | (_, inr cfg) => (ap_status resp =? 200) && bool_decide (sn_AllowedWords (cf_Scanning cfg) = [go "bob"])
        | _ => false
        end
    | _ => false end = true) as E by (vm_compute; reflexivity).
  destruct start as [file [e|d]]; [done|]. destruct (handleUpdateConfig Written demo_config d) as [d1 resp] eqn:Hp.
  destruct (watcher_reload None d1) as [d2 [e|cfg]] eqn:Hw; [done|]. bool_hyps.
  exists file, d, d1, resp, d2, cfg. by split_and!.
Qed.

Theorem UpdateConfig_effective_witness :
  ∃ cfg d2, sn_AllowedWords (cf_Scanning cfg) = [go "bob"] ∧ rules_in_force cfg d2 ∧ rest_in_force cfg d2.
Proof.
  destruct demo_config_states as (file & d & d1 & resp & d2 & cfg & Hb & Hp & Hst & Hw & Hal).
  assert (daemon_reach quick in_time (mg_cfg (dm_mgr d)) (mg_cfg (dm_mgr d)) d) as Hr by (by eapply reach_build).
  destruct (UpdateConfig_effective quick in_time _ _ Written demo_config d d1 resp d2 (inr cfg) Hr Hp Hst Hw)
    as (cfg' & _ & _ & _ & _ & E & H1 & H2 & _).
  exists cfg, d2. split; [exact Hal|]. injection E as ->. by split.
Defined.
End evaluation.
