(* ===== verification/Live.v ===== *)
(** * Calls that overlap — daemon.go, proxy.go, api/routes.go over coordinator.go

    The daemon with any number of scans under way: a dashboard scan or an
    intercepted request is a call that begins, runs section by section
    (Interleave.v) while other calls and the daemon's other events run, and is
    answered in the end.  System.v has the same daemon with every event whole. *)
From S2P Require Import Prelude GoStr Utf8 GoFloat GoSort Spans Scanner Redactor Cache Regex Rules FileBlock Coordinator Interleave Presidio Entropy Json JsonDecode Gliner Domain Extract Proxy Config Daemon System.
Local Open Scope Z_scope.

Section live.
Context `{RegexpEngine} `{UnicodeData} `{GoSort} `{EntropyEnv} `{HttpClient} `{Yaml}.
Context (layer_ms : gostring → nat → gostring → Z) (layer_timer : gostring → nat → gostring → bool).

(** ** Calls *)

(** Who called [ScanAndRedact], with what the handler holds until it returns. *)
Inductive caller :=
| ByDashboard (now ms : Z)
| ByProxy (now totalMs : Z) (req : Request) (body : gostring) (msg : ExtractedMessage).

Record Live := mkLive { lv_daemon : Daemon; lv_calls : gmap nat (caller * thread) }.

(** What a handler does up to its call of [ScanAndRedact]: the caller and the text. *)
Definition dashboard_call (now ms : Z) (body : gostring) : option (caller * gostring) :=
  text ← scan_request body; Some (ByDashboard now ms, text).
Definition proxy_call (p : ProxyConfig) (now totalMs : Z) (req : Request) : option (caller * gostring) :=
  if ShouldIntercept (px_domains p) (rq_host req) && negb (bypassed p req) then
    match rq_body req with
    | Some (body, false) =>
        match ExtractLastUserMessage body with
        | Ok msg => Some (ByProxy now totalMs req body msg, em_text msg)
        | _ => None
        end
    | _ => None
    end
  else None.

(** What the handler does with the outcome. *)
Definition answer (who : caller) (text : gostring) (o : ScanOutcome) (d : Daemon)
    : res gostring (Daemon * daemon_reply) :=
  match who with
  | ByDashboard now ms => '(d', r) ← scan_answer now ms text o d; Ok (d', RApi r)
  | ByProxy now totalMs req body msg =>
      h ← handle_scanned (proxy_of d) now totalMs req body msg o;
      Ok (add_reports d (reported (h_events h)), RHandled h)
  end.

(** ** Steps *)

Inductive live_act :=
| LEvent (op : daemon_op)
| LScan (tid : nat) (now ms : Z) (m : Moment) (body : gostring)
| LRequest (tid : nat) (now totalMs : Z) (m : Moment) (req : Request)
| LSection (tid : nat)
| LAnswer (tid : nat).

Definition is_call (op : daemon_op) : bool :=
  match op with DScan _ _ _ _ | DRequest _ _ _ _ => true | _ => false end.

Definition begin_call (L : Live) (tid : nat) (m : Moment) (c : option (caller * gostring)) : option Live :=
  '(who, text) ← c;
  match lv_calls L !! tid with
  | None => Some (mkLive (lv_daemon L) (<[tid := (who, TGet text m)]> (lv_calls L)))
  | Some _ => None
  end.

(** One step and what it shows; [None] when it is not possible, or a panic. *)
Definition live_step (L : Live) (act : live_act) : option (Live * daemon_reply) :=
  match act with
  | LEvent op =>
      if is_call op then None
      else match daemon_step layer_ms layer_timer (lv_daemon L) op with
           | Ok (d', r) => Some (mkLive d' (lv_calls L), r)
           | _ => None
           end
  | LScan tid now ms m body => L' ← begin_call L tid m (dashboard_call now ms body); Some (L', RNone)
  | LRequest tid now totalMs m req =>
      L' ← begin_call L tid m (proxy_call (proxy_of (lv_daemon L)) now totalMs req); Some (L', RNone)
  | LSection tid =>
      '(who, t) ← lv_calls L !! tid;
      '(c', t') ← thread_step (coord_of layer_ms layer_timer (lv_daemon L)) t;
      Some (mkLive (set_cache (lv_daemon L) (co_cache c')) (<[tid := (who, t')]> (lv_calls L)), RNone)
  | LAnswer tid =>
      match lv_calls L !! tid with
      | Some (who, TDone text o) =>
          match answer who text o (lv_daemon L) with
          | Ok (d', r) => Some (mkLive d' (delete tid (lv_calls L)), r)
          | _ => None
          end
      | _ => None
      end
  end.

(** Whether the step put rules, or all settings, into force. *)
Definition act_applies (applies : daemon_op → daemon_reply → bool) (act : live_act) (r : daemon_reply) : bool :=
  match act with LEvent op => applies op r | _ => false end.

(** The states of a run in which rules come into force only while no call is
    under way; [a] is the configuration whose rules were last applied, [b] the one
    all of whose settings were. *)
Inductive live_reach : Config → Config → Live → Prop :=
| live_build rd rd_migrate mkdir w w_migrate file file' d :
    Build rd rd_migrate mkdir w w_migrate file = (file', inr d) →
    live_reach (mg_cfg (dm_mgr d)) (mg_cfg (dm_mgr d)) (mkLive d ∅)
| live_next a b L act L' r :
    live_reach a b L → live_step L act = Some (L', r) →
    (act_applies applies_rules act r = true → lv_calls L = ∅) →
    live_reach (if act_applies applies_rules act r then mg_cfg (dm_mgr (lv_daemon L')) else a)
               (if act_applies applies_all act r then mg_cfg (dm_mgr (lv_daemon L')) else b) L'.

(** ** What a call has found so far *)

Definition outcome_permitted (a : Config) (o : ScanOutcome) : Prop :=
  ∀ rep, so_report o = Some rep → all_permitted a (r_findings rep).
Definition call_permitted (a : Config) (t : thread) : Prop :=
  match t with
  | TGet _ _ | TPanic _ => True
  | TLayers _ _ _ st => all_permitted a (s_findings st)
  | TRedact _ rep | TPut _ _ rep => all_permitted a (r_findings rep)
  | TDone _ o => outcome_permitted a o
  end.
Definition live_inv (a b : Config) (L : Live) : Prop :=
  rules_in_force a (lv_daemon L) ∧ rest_in_force b (lv_daemon L)
  ∧ map_Forall (λ _ c, call_permitted a c.2) (lv_calls L).

Lemma filter_redact_permitted a allowed text report out rep :
  all_permitted a (r_findings report) → filter_redact allowed text report = Ok (out, rep) →
  all_permitted a (r_findings rep).
Proof.
  intros Hr. unfold filter_redact. set (fs := if _ <? _ then _ else _).
  assert (all_permitted a fs) as Hfs.
  { unfold fs. case_match; [by apply Forall_filter_1|done]. }
  intros ([res fs'] & Hred & E%(inj Ok))%bind_Ok. injection E as _ <-. cbn [r_findings].
  unfold Redact in Hred. destruct fs as [|f fs0]; [by injection Hred as _ <-|].
  unfold dedup in Hred. apply bind_Ok in Hred as (r & _ & E%(inj Ok)). injection E as _ <-.
  unfold all_permitted. by rewrite sort_slice_perm.
Qed.

Lemma section_permitted a c t c' t' :
  Forall (layer_reports (permitted a)) (p_layers (co_pipeline c)) → cache_permits a (co_cache c) →
  call_permitted a t → thread_step c t = Some (c', t') →
  cache_permits a (co_cache c') ∧ call_permitted a t'.
Proof.
  intros Hl Hc Ht. destruct t as [text m|text m i st|text rep|text out rep|text o|text];
    cbn [thread_step call_permitted] in *; intros E; [..|done|done]; apply (inj Some) in E; symmetry in E.
  - destruct (Get (co_cache c) text) as [[cache hit]|e|] eqn:Hg; [|by injection E as -> ->..].
    apply (Get_permitted a) in Hg as [Hc' Hhit]; [|done].
    destruct hit as [[out rep]|]; injection E as -> ->; (split; [done|]); [|constructor].
    intros rep' [= <-]. by eapply Hhit.
  - destruct (p_layers (co_pipeline c) !! i) as [l|] eqn:Hi; [|by injection E as -> ->].
    destruct (scan_layer _ _ _ _ _) as [st'|e|] eqn:Hs; injection E as -> ->; [|done..].
    split; [done|]. eapply scan_layer_permitted; [|exact Ht|exact Hs].
    rewrite Forall_forall in Hl. by eapply Hl, list_elem_of_lookup_2.
  - destruct (filter_redact _ _ _) as [[out rep']|e|] eqn:Hf; injection E as -> ->; [|done..].
    split; [done|]. by eapply filter_redact_permitted.
  - destruct Hc as (l & Hr & Hlp). destruct (Put_refines (co_cache c) l text out rep Hr) as (c2 & Hput & Hr2 & _).
    rewrite Hput in E. injection E as -> ->. split; [|by intros ? [= <-]].
    eexists. split; [exact Hr2|]. by apply lru_put_coherent.
Qed.

Lemma begin_call_inv a b L tid m c L' :
  live_inv a b L → begin_call L tid m c = Some L' → live_inv a b L'.
Proof.
  intros (Ha & Hb & Hc) ([who text] & _ & E)%bind_Some. destruct (lv_calls L !! tid); [done|].
  injection E as <-. split_and!; [done..|]. by apply map_Forall_insert_2.
Qed.

Lemma answer_fine a b L tid who text o d' r :
  live_inv a b L → lv_calls L !! tid = Some (who, TDone text o) →
  answer who text o (lv_daemon L) = Ok (d', r) →
  (rules_in_force a d' ∧ rest_in_force b d')
  ∧ ∀ label layer, revealed r label layer → permitted a label layer.
Proof.
  intros (Ha & Hb & Hc) Ht. specialize (Hc _ _ Ht). cbn in Hc.
  assert (∀ rs, rules_in_force a (add_reports (lv_daemon L) rs) ∧ rest_in_force b (add_reports (lv_daemon L) rs)) as Hrs.
  { intros rs. destruct (set_cache_in_force a b (lv_daemon L) (dm_cache (lv_daemon L)) rs Ha Hb (rf_cache _ _ Ha)) as [Hx Hy].
    by destruct (lv_daemon L). }
  unfold answer. destruct who as [now ms|now totalMs req body msg].
  - unfold scan_answer. destruct (so_err o); [by intros [= <- <-]|].
    destruct (so_report o) as [rep|] eqn:Hrep; [|done]. intros [= <- <-]. split; [apply Hrs|].
    intros label layer (f & Hf & <- & <-). specialize (Hc rep Hrep).
    unfold all_permitted in Hc. rewrite Forall_forall in Hc. by apply Hc.
  - intros (h & Hh & E%(inj Ok))%bind_Ok. injection E as <- <-. split; [apply Hrs|].
    intros label layer Hrev. destruct (handle_scanned_events _ _ _ _ _ _ _ _ _ _ Hh Hrev) as (rep & f & Hrep & Hf & <- & <-).
    specialize (Hc rep Hrep). unfold all_permitted in Hc. rewrite Forall_forall in Hc. by apply Hc.
Qed.

(** A step keeps what is in force and shows only permitted findings. *)
Lemma live_step_fine a b L act L' r :
  live_inv a b L → live_step L act = Some (L', r) →
  (act_applies applies_rules act r = true → lv_calls L = ∅) →
  live_inv (if act_applies applies_rules act r then mg_cfg (dm_mgr (lv_daemon L')) else a)
    (if act_applies applies_all act r then mg_cfg (dm_mgr (lv_daemon L')) else b) L'
  ∧ ∀ label layer, revealed r label layer → permitted a label layer.
Proof.
  intros Hi Hs Hquiet. pose proof Hi as (Ha & Hb & Hc).
  destruct act as [op|tid now ms m body|tid now totalMs m req|tid|tid]; cbn [live_step act_applies] in *.
  - destruct (is_call op); [done|]. destruct (daemon_step _ _ _ op) as [[d' r']|e|] eqn:Hd; [|done..].
    injection Hs as <- <-. apply (daemon_step_fine _ _ a b) in Hd as (Ha' & Hb' & Hrev); [|done..].
    split; [|exact Hrev]. split_and!; [exact Ha'|exact Hb'|]. cbn [lv_calls].
    destruct (applies_rules op r'); [|exact Hc]. rewrite Hquiet by done. apply map_Forall_empty.
  - apply bind_Some in Hs as (L1 & HL & E). injection E as <- <-.
    split; [by eapply begin_call_inv|by intros ? ? []].
  - apply bind_Some in Hs as (L1 & HL & E). injection E as <- <-.
    split; [by eapply begin_call_inv|by intros ? ? []].
  - apply bind_Some in Hs as ([who t] & Ht & Hs). apply bind_Some in Hs as ([c' t'] & Hstep & E).
    injection E as <- <-. split; [|by intros ? ? []].
    apply (section_permitted a) in Hstep as [Hcache Ht'];
      [|by apply layers_report|apply (rf_cache _ _ Ha)|exact (Hc _ _ Ht)].
    destruct (set_cache_in_force a b (lv_daemon L) (co_cache c') [] Ha Hb Hcache) as [Hx Hy].
    rewrite add_no_reports in Hx, Hy. split_and!; [done..|]. by apply map_Forall_insert_2.
  - destruct (lv_calls L !! tid) as [[who [| | | |text o|]]|] eqn:Ht; try done.
    destruct (answer _ _ _ _) as [[d' r']|e|] eqn:Hans; [|done..]. injection Hs as <- <-.
    destruct (answer_fine a b L tid who text o d' r' Hi Ht Hans) as [[Hx Hy] Hrev].
    split; [|exact Hrev]. split_and!; [done..|]. by apply map_Forall_delete.
Qed.

Lemma live_reach_inv a b L : live_reach a b L → live_inv a b L.
Proof.
  induction 1 as [rd rd_migrate mkdir w w_migrate file file' d Hb|a b L act L' r _ Hi Hs Hq].
  - destruct (Build_in_force _ _ _ _ _ _ _ _ Hb) as [Hx Hy]. split_and!; [done..|apply map_Forall_empty].
  - exact (proj1 (live_step_fine a b L act L' r Hi Hs Hq)).
Qed.

(** C4: a rule that is off stays silent, end to end.  Take any run of the daemon:
    dashboard requests, reloads, edits, sidecar events and cache clears, with any
    number of dashboard scans and intercepted requests under way whose sections
    interleave with one another and with those events, as long as no call is under
    way at the moments when new rules come into force.  Then every finding that an
    answered scan or request reveals, from a fresh scan or from the cache, is one
    that the rules in force permit: a Presidio finding has the label of a pattern
    whose rule is on, an entropy finding needs an entropy rule on, and a GLiNER
    finding's label is controlled by no rule that is off.  (A call that is under
    way when rules come into force may store a finding of the old rules after the
    cache was invalidated: [Interleave.Reconfigure_races_scan].) *)
Theorem disabled_rules_silent a b L act L' r label layer :
  live_reach a b L → live_step L act = Some (L', r) →
  (act_applies applies_rules act r = true → lv_calls L = ∅) →
  revealed r label layer → permitted a label layer.
Proof.
  intros Hi%live_reach_inv Hs Hq. destruct (live_step_fine a b L act L' r Hi Hs Hq) as [_ Hrev]. apply Hrev.
Qed.

(** The settings in force are those last applied, with calls under way too. *)
Lemma live_settings_in_force a b L :
  live_reach a b L → rules_in_force a (lv_daemon L) ∧ rest_in_force b (lv_daemon L).
Proof. by intros (? & ? & _)%live_reach_inv. Qed.

(** ** Whole events are runs of sections *)

Fixpoint live_run (L : Live) (acts : list live_act) : option (Live * list daemon_reply) :=
  match acts with
  | [] => Some (L, [])
  | act :: acts' =>
      '(L1, r) ← live_step L act; '(L2, rs) ← live_run L1 acts'; Some (L2, r :: rs)
  end.
Definition calm (act : live_act) : bool :=
  match act with LEvent (DPutRules _ _) | LEvent (DReload _) => false | _ => true end.
Lemma calm_applies act r : calm act = true → act_applies applies_rules act r = false ∧ act_applies applies_all act r = false.
Proof. by destruct act as [[]| | | |]. Qed.
Lemma live_run_reach a b L acts L' rs :
  live_reach a b L → forallb calm acts = true → live_run L acts = Some (L', rs) → live_reach a b L'.
Proof.
  revert L rs. induction acts as [|act acts IH]; intros L rs HL; cbn; [by intros _ [= <- _]|].
  intros [Hact Hacts]%andb_true_iff ([L1 r] & Hs & Hrest)%bind_Some.
  apply bind_Some in Hrest as ([L2 rs2] & Hr & E). injection E as <- _.
  destruct (calm_applies act r Hact) as [E1 E2].
  assert (live_reach a b L1) as Hx; [|by eapply IH].
  pose proof (live_next a b L act L1 r HL Hs) as Hn. rewrite E1, E2 in Hn. by apply Hn.
Qed.
End live.

(** ** Evaluation *)

Section evaluation.
Local Existing Instance re2.
Local Existing Instance sample_unicode.
Local Existing Instance insertion_sort.
Local Existing Instance sample_entropy.
Local Existing Instance toy_yaml.
Local Existing Instance no_sidecar.

(** A change of the rules, then a dashboard scan and the same scan again, their
    sections in turn with a cache clear in between; the first is answered last. *)
Definition demo_overlap : list live_act :=
  [LScan 0 0 0 (mkMoment 0 0) demo_scan_body; LSection 0; LSection 0;
   LScan 1 0 0 (mkMoment 1 0) demo_scan_body; LSection 1; LEvent DCacheClear]
  ++ concat (replicate 6 [LSection 0; LSection 1]) ++ [LSection 1; LAnswer 1].

Definition live_start : option (Daemon * Live) :=
  match Build None None None Written Written None with
  | (_, inr d) =>
      '(L1, _) ← live_step quick in_time (mkLive d ∅) (LEvent (DPutRules Written demo_put));
      '(L2, _) ← live_run quick in_time L1 demo_overlap; Some (lv_daemon L1, L2)
  | _ => None
  end.
Definition live_shown : option (list (gostring * gostring)) :=
  '(d, L) ← live_start; '(_, r) ← live_step quick in_time L (LAnswer 0); Some (shows r).
Example live_shown_ex :
  live_shown = Some [(go "US_SSN", go "presidio"); (go "US_SSN", go "presidio")].
Proof. vm_compute. reflexivity. Qed.

Lemma shows_revealed r : (∃ l, shows r = (go "US_SSN", go "presidio") :: l) → revealed r (go "US_SSN") (go "presidio").
Proof.
  intros [l Hsh]. destruct r as [[st [| | | | | |orig red fs]]| | |]; try discriminate Hsh. cbn [shows revealed] in *.
  destruct fs as [|f fs]; [done|]. exists f. split; [by left|]. split; by injection Hsh.
Qed.

Lemma demo_overlap_reach :
  ∃ a b L L' r, live_reach quick in_time a b L ∧ live_step quick in_time L (LAnswer 0) = Some (L', r)
    ∧ revealed r (go "US_SSN") (go "presidio").
Proof.
  pose proof live_shown_ex as E. unfold live_shown, live_start in E.
  destruct (Build None None None Written Written None) as [file [e|d]] eqn:Hb; [done|].
  apply bind_Some in E as ([d1 L2] & E1 & E). apply bind_Some in E1 as ([L1 r1] & Hput & E1).
  apply bind_Some in E1 as ([L2' rs] & Hrun & E1). injection E1 as <- <-.
  apply bind_Some in E as ([L' r] & Hans & E). apply (inj Some) in E.
  pose proof (live_next quick in_time _ _ (mkLive d ∅) (LEvent (DPutRules Written demo_put)) L1 r1
    (live_build quick in_time _ _ _ _ _ _ _ _ Hb) Hput (λ _, eq_refl)) as H1.
  eapply live_run_reach in H1; [|by instantiate (1 := demo_overlap)|exact Hrun].
  eexists _, _, L2', L', r. split; [exact H1|]. split; [exact Hans|]. apply shows_revealed. eauto.
Qed.

Theorem disabled_rules_silent_witness :
  ∃ cfg, permitted cfg (go "US_SSN") (go "presidio").
Proof.
  destruct demo_overlap_reach as (a & b & L & L' & r & Hr & Hs & Hrev). exists a.
  refine (disabled_rules_silent quick in_time a b L (LAnswer 0) L' r _ _ Hr Hs _ Hrev). discriminate.
Defined.
End evaluation.
