(* ===== verification/Watch.v ===== *)
(** * The configuration watcher — internal/config/watcher.go

    One goroutine receives the changes of the configuration file and SIGHUP; a change
    arms a timer of 200 ms, which every further change restarts, and whose function
    reloads the file on a goroutine of its own.  The model is a machine of their
    atomic steps, beside whoever writes the file and the dashboard's updates. *)
From S2P Require Import Prelude GoStr Utf8 GoFloat GoSort Spans Scanner Redactor Cache Regex Rules FileBlock Coordinator Presidio Entropy Json JsonDecode Gliner Domain Extract Proxy Config Daemon System.
Local Open Scope Z_scope.

(** The callback of the watcher, on the state [D] it changes, and what it promises: the
    configuration it is given is in force afterwards. *)
Class LoadTarget (D : Type) `{Yaml} := {
  lt_onLoad : Config → D → D;
  lt_ok : D → Prop;
  lt_in_force : Config → D → Prop;
  lt_loads cfg d : lt_ok d → lt_in_force cfg (lt_onLoad cfg d);
  lt_stays cfg d : lt_ok d → lt_ok (lt_onLoad cfg d);
}.

Section watch.
Context {D : Type} `{LoadTarget D}.

(** A reload: before [os.ReadFile], before [m.cfg] is set, before the callback. *)
Inductive reload := RRead | RStore (cfg : Config) | RLoad (cfg : Config).
(** The goroutine of [loop]: in its select, in a reload for SIGHUP, ended. *)
Inductive loop := Select | Reloading (r : reload) | Ended.

(** The manager with its file, the state behind the callback, the events of fsnotify in order
    ([true] for Write and Create), whether the file is watched, the clock in ms, the timer, the
    loop, the reloads of timers, a waiting SIGHUP, and whether [stopCh] is closed. *)
Record Watcher := mkWatcher {
  wa_mgr : Manager;
  wa_obj : D;
  wa_events : list bool;
  wa_watched : bool;
  wa_now : Z;
  wa_timer : option Z;
  wa_loop : loop;
  wa_reloads : list reload;
  wa_sighup : bool;
  wa_stopped : bool;
}.
Definition debounce_ms : Z := 200.
(** [Start]: the file is watched, and the loop waits. *)
Definition Watch_Start (m : Manager) (d : D) : Watcher := mkWatcher m d [] true 0 None Select [] false false.

(** What becomes of a handler's save once the configuration is encoded: the file is opened, which
    truncates it, and written, or it cannot be opened and stays as it is. *)
Inductive save_fate := Opened (w : write_fate) | NotOpened (e : gostring).
Definition write_of (f : save_fate) (file : option yaml_Text) : write_fate :=
  match f with Opened w => w | NotOpened e => NotWritten e file end.

Inductive watch_event :=
| WSave (t : yaml_Text)                                (* somebody writes to the file *)
| WReplace (t : yaml_Text)                             (* somebody renames a new file over it *)
| WTouch                                               (* another event: chmod *)
| WUpdate (f : save_fate) (fn : Config → Config) (d : D)  (* a handler saves and applies a change *)
| WTime (ms : Z)
| WSignal                                              (* SIGHUP *)
| WReceive                                             (* the loop takes an event *)
| WTakeSignal
| WFire                                                (* the timer starts its function *)
| WLoopStep (rd : option gostring)                     (* the next step of the loop's reload *)
| WTimerStep (i : nat) (rd : option gostring)          (* and of a timer's *)
| WStop
| WEnd.                                                (* the loop sees that it is stopped *)

Definition set_wmgr (m : Manager) (w : Watcher) : Watcher :=
  mkWatcher m (wa_obj w) (wa_events w) (wa_watched w) (wa_now w) (wa_timer w) (wa_loop w) (wa_reloads w) (wa_sighup w) (wa_stopped w).
Definition set_wobj (d : D) (w : Watcher) : Watcher :=
  mkWatcher (wa_mgr w) d (wa_events w) (wa_watched w) (wa_now w) (wa_timer w) (wa_loop w) (wa_reloads w) (wa_sighup w) (wa_stopped w).
Definition set_wloop (l : loop) (w : Watcher) : Watcher :=
  mkWatcher (wa_mgr w) (wa_obj w) (wa_events w) (wa_watched w) (wa_now w) (wa_timer w) l (wa_reloads w) (wa_sighup w) (wa_stopped w).
Definition set_wreloads (l : list reload) (w : Watcher) : Watcher :=
  mkWatcher (wa_mgr w) (wa_obj w) (wa_events w) (wa_watched w) (wa_now w) (wa_timer w) (wa_loop w) l (wa_sighup w) (wa_stopped w).
Definition set_wtimer (t : option Z) (w : Watcher) : Watcher :=
  mkWatcher (wa_mgr w) (wa_obj w) (wa_events w) (wa_watched w) (wa_now w) t (wa_loop w) (wa_reloads w) (wa_sighup w) (wa_stopped w).
Definition set_wevents (evs : list bool) (w : Watcher) : Watcher :=
  mkWatcher (wa_mgr w) (wa_obj w) evs (wa_watched w) (wa_now w) (wa_timer w) (wa_loop w) (wa_reloads w) (wa_sighup w) (wa_stopped w).
Definition set_wsighup (s : bool) (w : Watcher) : Watcher :=
  mkWatcher (wa_mgr w) (wa_obj w) (wa_events w) (wa_watched w) (wa_now w) (wa_timer w) (wa_loop w) (wa_reloads w) s (wa_stopped w).
(** An event of the file, if it is watched. *)
Definition notify (matters : bool) (w : Watcher) : Watcher :=
  if wa_watched w then set_wevents (wa_events w ++ [matters]) w else w.
Definition set_wfile (t : option yaml_Text) (w : Watcher) : Watcher := set_wmgr (mkManager (mg_cfg (wa_mgr w)) t) w.

(** One step of [reload], which is [Manager.Reload] and the callback: the state, and what is left. *)
Definition reload_step (rd : option gostring) (r : reload) (w : Watcher) : Watcher * option reload :=
  match r with
  | RRead =>
      (w, match ReadFile rd (mg_file (wa_mgr w)) with
          | inl _ => None
          | inr t => match yaml_Unmarshal t DefaultConfig with inl _ => None | inr cfg => Some (RStore cfg) end
          end)
  | RStore cfg => (set_wmgr (mkManager cfg (mg_file (wa_mgr w))) w, Some (RLoad cfg))
  | RLoad cfg => (set_wobj (lt_onLoad cfg (wa_obj w)) w, None)
  end.
Definition timer_due (w : Watcher) : bool := match wa_timer w with Some t => t <=? wa_now w | None => false end.

(** A step; [None] if it cannot be taken.  A second [Stop] would close a closed channel. *)
Definition watch_step (ev : watch_event) (w : Watcher) : option Watcher :=
  match ev with
  | WSave t => Some (notify true (set_wfile (Some t) w))
  | WReplace t =>
      let w := notify false (set_wfile (Some t) w) in
      Some (mkWatcher (wa_mgr w) (wa_obj w) (wa_events w) false (wa_now w) (wa_timer w) (wa_loop w) (wa_reloads w) (wa_sighup w) (wa_stopped w))
  | WTouch => Some (notify false w)
  | WUpdate f fn d =>
      let m := wa_mgr w in
      let w := set_wobj d (set_wmgr (Update (write_of f (mg_file m)) fn m).1 w) in
      Some (match yaml_Marshal (fn (mg_cfg m)), f with inr _, Opened _ => notify true w | _, _ => w end)
  | WTime ms =>
      if 0 <=? ms then
        Some (mkWatcher (wa_mgr w) (wa_obj w) (wa_events w) (wa_watched w) (wa_now w + ms) (wa_timer w) (wa_loop w) (wa_reloads w) (wa_sighup w) (wa_stopped w))
      else None
  | WSignal => Some (set_wsighup true w)
  | WReceive =>
      match wa_loop w, wa_events w with
      | Select, true :: evs => Some (set_wtimer (Some (wa_now w + debounce_ms)) (set_wevents evs w))
      | Select, false :: evs => Some (set_wevents evs w)
      | _, _ => None
      end
  | WTakeSignal =>
      match wa_loop w with
      | Select => if wa_sighup w then Some (set_wloop (Reloading RRead) (set_wsighup false w)) else None
      | _ => None
      end
  | WFire => if timer_due w then Some (set_wreloads (RRead :: wa_reloads w) (set_wtimer None w)) else None
  | WLoopStep rd =>
      match wa_loop w with
      | Reloading r =>
          let '(w, rest) := reload_step rd r w in
          Some (set_wloop (match rest with Some r => Reloading r | None => Select end) w)
      | _ => None
      end
  | WTimerStep i rd =>
      match wa_reloads w !! i with
      | Some r =>
          let '(w, rest) := reload_step rd r w in
          Some (set_wreloads (match rest with Some r => <[i := r]> (wa_reloads w) | None => delete i (wa_reloads w) end) w)
      | None => None
      end
  | WStop =>
      if wa_stopped w then None
      else Some (mkWatcher (wa_mgr w) (wa_obj w) (wa_events w) (wa_watched w) (wa_now w) (wa_timer w) (wa_loop w) (wa_reloads w) (wa_sighup w) true)
  | WEnd =>
      match wa_loop w with
      | Select =>
          if wa_stopped w then
            Some (mkWatcher (wa_mgr w) (wa_obj w) [] false (wa_now w) (wa_timer w) Ended (wa_reloads w) (wa_sighup w) true)
          else None
      | _ => None
      end
  end.
Fixpoint watch_run (evs : list watch_event) (w : Watcher) : option Watcher :=
  match evs with
  | [] => Some w
  | ev :: evs => match watch_step ev w with Some w => watch_run evs w | None => None end
  end.

(** ** The configuration in force *)

Definition parsed_file (w : Watcher) : option Config :=
  match mg_file (wa_mgr w) with
  | Some t => match yaml_Unmarshal t DefaultConfig with inr cfg => Some cfg | inl _ => None end
  | None => None
  end.
Definition running (w : Watcher) : list reload := match wa_loop w with Reloading r => [r] | _ => [] end ++ wa_reloads w.
(** Nothing is left to do. *)
Definition settled (w : Watcher) : Prop :=
  wa_loop w = Select ∧ wa_events w = [] ∧ wa_timer w = None ∧ wa_reloads w = [] ∧ wa_sighup w = false.
(** The file, the manager and the state behind the callback agree. *)
Definition current (w : Watcher) : Prop :=
  ∀ cfg, parsed_file w = Some cfg → mg_cfg (wa_mgr w) = cfg ∧ lt_in_force cfg (wa_obj w).

(** Steps at which nothing goes wrong: the file is not replaced, a read does not fail, a reload
    does not begin while another runs, a handler's change gets as far as the file, and nobody stops the watcher. *)
Definition calm (ev : watch_event) (w : Watcher) : Prop :=
  match ev with
  | WReplace _ | WStop => False
  | WUpdate f fn d => (∃ t, yaml_Marshal (fn (mg_cfg (wa_mgr w))) = inr t) ∧ (∃ fate, f = Opened fate) ∧ lt_ok d
  | WTakeSignal | WFire => running w = []
  | WLoopStep rd | WTimerStep _ rd => rd = None
  | _ => True
  end.
(** The watcher's own steps; time passes by the 200 ms that a timer waits for. *)
Definition own (ev : watch_event) (w : Watcher) : Prop :=
  match ev with
  | WTime ms => debounce_ms ≤ ms ∧ is_Some (wa_timer w) ∧ timer_due w = false
  | WReceive | WTakeSignal | WFire | WLoopStep _ | WTimerStep _ _ => True
  | _ => False
  end.
(** Runs of steps that satisfy a condition. *)
Inductive run_of (ok : watch_event → Watcher → Prop) : list watch_event → Watcher → Watcher → Prop :=
| run_nil w : run_of ok [] w w
| run_cons ev evs w w1 w2 : ok ev w → watch_step ev w = Some w1 → run_of ok evs w1 w2 → run_of ok (ev :: evs) w w2.
Definition alone (ev : watch_event) (w : Watcher) : Prop := calm ev w ∧ own ev w.
(** How much is left to do. *)
Definition phase_work (r : reload) : nat := match r with RRead => 3 | RStore _ => 2 | RLoad _ => 1 end.
Definition timer_work (w : Watcher) : nat := match wa_timer w with None => 0 | Some _ => if timer_due w then 4 else 5 end.
Definition work (w : Watcher) : nat :=
  6 * length (wa_events w) + timer_work w + sum_list_with phase_work (running w) + (if wa_sighup w then 4 else 0).

(** What waits to be reloaded, and how far the one reload is. *)
Definition pending (w : Watcher) : Prop := true ∈ wa_events w ∨ is_Some (wa_timer w) ∨ running w = [RRead].
Definition underway (w : Watcher) : Prop :=
  ∀ cfg, parsed_file w = Some cfg →
    (running w = [] ∧ mg_cfg (wa_mgr w) = cfg ∧ lt_in_force cfg (wa_obj w))
    ∨ running w = [RStore cfg] ∨ (running w = [RLoad cfg] ∧ mg_cfg (wa_mgr w) = cfg).
Record watching (w : Watcher) : Prop := {
  wt_watched : wa_watched w = true;
  wt_loop : wa_loop w ≠ Ended;
  wt_stopped : wa_stopped w = false;
  wt_ok : lt_ok (wa_obj w);
  wt_serial : (length (running w) ≤ 1)%nat;
  wt_work : pending w ∨ underway w;
}.

Lemma reload_step_read w : (reload_step None RRead w) = (w, match parsed_file w with Some cfg => Some (RStore cfg) | None => None end).
Proof. unfold reload_step, parsed_file, ReadFile. destruct (mg_file (wa_mgr w)) as [t|]; [|done]. by destruct (yaml_Unmarshal t DefaultConfig). Qed.

Lemma reload_step_rest rd r w w1 rest : reload_step rd r w = (w1, rest) →
  wa_events w1 = wa_events w ∧ wa_watched w1 = wa_watched w ∧ wa_now w1 = wa_now w ∧ wa_timer w1 = wa_timer w ∧ wa_loop w1 = wa_loop w
  ∧ wa_reloads w1 = wa_reloads w ∧ wa_sighup w1 = wa_sighup w ∧ wa_stopped w1 = wa_stopped w ∧ mg_file (wa_mgr w1) = mg_file (wa_mgr w).
Proof. by destruct r; intros [= <- _]. Qed.

(** A change of the file is pending. *)
Lemma notify_watching w w' : wa_watched w = true → wa_loop w' = wa_loop w → wa_reloads w' = wa_reloads w → wa_stopped w' = wa_stopped w →
  wa_watched w' = true → lt_ok (wa_obj w') → watching w → watching (notify true w').
Proof.
  intros Hw Hl Hr Hs Hw' Hok []. unfold notify. rewrite Hw'. split; cbn; try congruence; try done.
  - unfold running. cbn. rewrite Hl, Hr. done.
  - left. left. cbn. set_solver.
Qed.
Lemma watching_ext w w' : watching w → wa_mgr w' = wa_mgr w → wa_obj w' = wa_obj w → (true ∈ wa_events w → true ∈ wa_events w') →
  wa_watched w' = wa_watched w → (is_Some (wa_timer w) → is_Some (wa_timer w')) → wa_loop w' = wa_loop w → wa_reloads w' = wa_reloads w →
  wa_stopped w' = wa_stopped w → watching w'.
Proof.
  intros [] Em Eo Ee Ew Et El Er Es. assert (running w' = running w) as Erun by (unfold running; by rewrite El, Er).
  split; try congruence.
  - destruct wt_work0 as [[?|[?|?]]|Hu]; [left; left; auto|left; right; left; auto|left; right; right; congruence|].
    right. intros cfg. unfold parsed_file. rewrite Em, Erun, Eo. apply Hu.
Qed.
(** A reload begins when none runs. *)
Lemma begin_watching w w' : watching w → wa_watched w' = true → wa_stopped w' = false → wa_loop w' ≠ Ended → wa_obj w' = wa_obj w →
  running w' = [RRead] → watching w'.
Proof. intros [] Hw Hs Hl Ho Hr. split; try done; [congruence|rewrite Hr; cbn; lia|]. left. by right; right. Qed.

(** The one reload takes a step: [w1] is the state it leaves, [w'] the state with what is left of it. *)
Lemma step_watching w r w1 rest w' : watching w → running w = [r] → reload_step None r w = (w1, rest) →
  wa_mgr w' = wa_mgr w1 → wa_obj w' = wa_obj w1 → wa_events w' = wa_events w → wa_watched w' = wa_watched w → wa_timer w' = wa_timer w →
  wa_stopped w' = wa_stopped w → wa_loop w' ≠ Ended → running w' = match rest with Some r => [r] | None => [] end → watching w'.
Proof.
  intros [] Hrun Hstep Em Eo Ee Ew Et Es El Er.
  assert (lt_ok (wa_obj w')) as Hok.
  { rewrite Eo. destruct r as [|c|c]; injection Hstep as <- _; try done. by apply lt_stays. }
  split; try congruence; [rewrite Er; destruct rest; cbn; lia|].
  assert (true ∈ wa_events w ∨ is_Some (wa_timer w) ∨ ¬ (true ∈ wa_events w ∨ is_Some (wa_timer w))) as [He|[Ht|Hno]].
  { destruct (decide (true ∈ wa_events w)); [auto|]. destruct (wa_timer w) eqn:E; [right; left; by eexists|]. right; right. intros [?|[??]]; done. }
  { left. left. congruence. }
  { left. right. left. congruence. }
  right. intros cfg Hcfg. destruct r as [|c|c].
  - rewrite reload_step_read in Hstep. injection Hstep as <- <-. unfold parsed_file in Hcfg. rewrite Em in Hcfg.
    fold (parsed_file w) in Hcfg. rewrite Hcfg in Er. auto.
  - injection Hstep as <- <-.
    assert (parsed_file w = Some cfg) as Hp by (unfold parsed_file in *; by rewrite Em in Hcfg).
    destruct wt_work0 as [[?|[?|?]]|Hu]; [tauto|tauto|congruence|].
    destruct (Hu _ Hp) as [[? _]|[Hc|[? _]]]; [congruence| |congruence]. rewrite Hrun in Hc. injection Hc as ->.
    right; right. split; [done|by rewrite Em].
  - injection Hstep as <- <-.
    assert (parsed_file w = Some cfg) as Hp by (unfold parsed_file in *; by rewrite Em in Hcfg).
    destruct wt_work0 as [[?|[?|?]]|Hu]; [tauto|tauto|congruence|].
    destruct (Hu _ Hp) as [[? _]|[?|[Hc Hm]]]; [congruence..|]. rewrite Hrun in Hc. injection Hc as ->.
    left. split_and!; [done|by rewrite Em|]. rewrite Eo. by apply lt_loads.
Qed.

Lemma calm_step ev w w' : watching w → calm ev w → watch_step ev w = Some w' → watching w'.
Proof.
  intros Hw Hc Hs. pose proof Hw as [Hwt Hl Hst Hok Hser Hwk]. destruct ev; cbn [watch_step calm] in *.
  - injection Hs as <-. by apply (notify_watching w).
  - done.
  - injection Hs as <-. unfold notify. rewrite Hwt. apply (watching_ext w); try done. cbn. set_solver.
  - destruct Hc as ([t Ht] & [fate ->] & Hd). rewrite Ht in Hs. injection Hs as <-. by apply (notify_watching w).
  - destruct (0 <=? ms); [|done]. injection Hs as <-. by apply (watching_ext w).
  - injection Hs as <-. by apply (watching_ext w).
  - destruct (wa_loop w) eqn:El; try done. destruct (wa_events w) as [|[] evs] eqn:Ee; try done; injection Hs as <-.
    + split; cbn; try done; try congruence. left. right. left. by eexists.
    + apply (watching_ext w); try done. cbn. rewrite Ee. set_solver.
  - destruct (wa_loop w) eqn:El; try done. destruct (wa_sighup w); [|done]. injection Hs as <-.
    apply (begin_watching w); try done. unfold running in *. rewrite El in Hc. cbn in *. by rewrite Hc.
  - destruct (timer_due w); [|done]. injection Hs as <-. apply (begin_watching w); try done.
    unfold running in *. cbn [wa_loop wa_reloads set_wreloads set_wtimer] in *.
    apply app_eq_nil in Hc as [-> ->]. done.
  - subst rd. destruct (wa_loop w) as [|r|] eqn:El; try done.
    assert (running w = [r]) as Hrun.
    { unfold running in *. rewrite El in *. destruct (wa_reloads w); [done|cbn in Hser; lia]. }
    destruct (reload_step None r w) as [w1 rest] eqn:Hr. injection Hs as <-.
    assert (wa_reloads w1 = [] ∧ wa_events w1 = wa_events w ∧ wa_watched w1 = wa_watched w ∧ wa_timer w1 = wa_timer w ∧ wa_stopped w1 = wa_stopped w) as (E1 & E2 & E3 & E4 & E5).
    { unfold running in Hrun. rewrite El in Hrun. injection Hrun as Hrun. by destruct r; injection Hr as <- _. }
    apply (step_watching w r w1 rest); try done; unfold running; cbn; destruct rest; by rewrite ?E1.
  - subst rd. destruct (wa_reloads w !! i) as [r|] eqn:Ei; [|done].
    assert (wa_loop w = Select ∧ wa_reloads w = [r] ∧ i = O) as (El & Er & ->).
    { unfold running in Hser. destruct (wa_loop w) as [|r'|]; [|rewrite length_app in Hser; cbn in Hser; apply lookup_lt_Some in Ei; lia|done].
      destruct (wa_reloads w) as [|r0 [|? ?]]; [done| |cbn in Hser; lia]. destruct i; [|done]. by injection Ei as ->. }
    destruct (reload_step None r w) as [w1 rest] eqn:Hr. injection Hs as <-.
    assert (wa_reloads w1 = [r] ∧ wa_loop w1 = Select ∧ wa_events w1 = wa_events w ∧ wa_watched w1 = wa_watched w ∧ wa_timer w1 = wa_timer w ∧ wa_stopped w1 = wa_stopped w) as (E0 & E1 & E2 & E3 & E4 & E5).
    { by destruct r; injection Hr as <- _. }
    apply (step_watching w r w1 rest); try done; unfold running; cbn; rewrite ?El, ?Er, ?E0, ?E1; by destruct rest.
  - done.
  - destruct (wa_loop w); try done. by rewrite Hst in Hs.
Qed.
Definition timely (w : Watcher) : Prop := ∀ t, wa_timer w = Some t → t ≤ wa_now w + debounce_ms.
Lemma step_timely ev w w' : watch_step ev w = Some w' → timely w → timely w'.
Proof.
  unfold timely. intros Hs Ht t'. destruct ev; cbn [watch_step] in Hs; unfold notify in Hs.
  all: repeat case_match; try done; injection Hs as <-; cbn; try apply Ht; intros; simplify_eq; try lia.
  all: bool_hyps; repeat match goal with Hx : wa_timer _ = Some _ |- _ => first [apply Ht in Hx|revert Hx] end; try lia.
  all: match goal with Hr : reload_step _ _ _ = _ |- _ => apply reload_step_rest in Hr; destruct_and! Hr end; intros Ht';
    assert (t' ≤ wa_now w + debounce_ms) by (apply Ht; congruence); lia.
Qed.
Lemma calm_run_keeps evs w w' : run_of calm evs w w' → watching w → timely w → watching w' ∧ timely w'.
Proof. induction 1; [done|]. intros Hw Ht. apply IHrun_of; [by eapply calm_step|by eapply step_timely]. Qed.

(** Each step of the watcher's own does some of the work. *)
Lemma reload_step_work rd r w w1 rest : reload_step rd r w = (w1, rest) →
  (match rest with Some r' => phase_work r' | None => 0 end < phase_work r)%nat.
Proof. destruct r; intros [= _ <-]; cbn; [repeat case_match; simplify_eq; cbn; lia|lia|lia]. Qed.
Lemma sum_update (l : list reload) i r r' : l !! i = Some r →
  (sum_list_with phase_work (<[i:=r']> l) + phase_work r = sum_list_with phase_work l + phase_work r')%nat.
Proof.
  revert i. induction l as [|x l IH]; intros [|i] Hi; [done..|injection Hi as ->; cbn; lia|].
  change (<[S i:=r']> (x :: l)) with (x :: <[i:=r']> l). specialize (IH i Hi). cbn [sum_list_with]. lia.
Qed.
Lemma sum_remove (l : list reload) i r : l !! i = Some r →
  (sum_list_with phase_work (delete i l) + phase_work r = sum_list_with phase_work l)%nat.
Proof.
  revert i. induction l as [|x l IH]; intros [|i] Hi; [done..|injection Hi as ->; cbn; lia|].
  change (delete (S i) (x :: l)) with (x :: delete i l). specialize (IH i Hi). cbn [sum_list_with]. lia.
Qed.
Lemma own_work ev w w' : own ev w → timely w → watch_step ev w = Some w' → (work w' < work w)%nat ∧ mg_file (wa_mgr w') = mg_file (wa_mgr w).
Proof.
  intros Ho Ht Hs. unfold work, timer_work, running. destruct ev; cbn [own watch_step] in *; try done.
  - destruct Ho as (Hms & [t Hti] & Hd). case_match; [|done]. injection Hs as <-. cbn [wa_timer wa_events wa_loop wa_reloads wa_sighup wa_mgr].
    split; [|done]. unfold timer_due. cbn [wa_timer wa_now]. rewrite Hti. specialize (Ht _ Hti).
    rewrite (proj2 (Z.leb_le t (wa_now w + ms))) by lia. unfold timer_due in Hd. rewrite Hti in Hd. rewrite Hd. lia.
  - destruct (wa_loop w) eqn:El; try done. destruct (wa_events w) as [|[] evs]; try done; injection Hs as <-; cbn; rewrite El; cbn.
    + destruct (_ <=? _); split; (done || lia).
    + unfold timer_due. cbn. split; [lia|done].
  - destruct (wa_loop w) eqn:El; try done. destruct (wa_sighup w); [|done]. injection Hs as <-. cbn. unfold timer_due. cbn. split; [lia|done].
  - destruct (timer_due w) eqn:Hd; [|done]. injection Hs as <-. unfold timer_due in *. destruct (wa_timer w); [|done]. cbn.
    split; [|done]. rewrite !sum_list_with_app. cbn. lia.
  - destruct (wa_loop w) as [|r|]; try done. destruct (reload_step rd r w) as [w1 rest] eqn:Hr. injection Hs as <-.
    pose proof (reload_step_work _ _ _ _ _ Hr). apply reload_step_rest in Hr as (E1 & E2 & E3 & E4 & E5 & E6 & E7 & E8 & E9).
    cbn. unfold timer_due. cbn. rewrite E1, E3, E4, E6, E7. destruct rest; cbn; split; (done || lia).
  - destruct (wa_reloads w !! i) as [r|] eqn:Hi; try done. destruct (reload_step rd r w) as [w1 rest] eqn:Hr. injection Hs as <-.
    pose proof (reload_step_work _ _ _ _ _ Hr). apply reload_step_rest in Hr as (E1 & E2 & E3 & E4 & E5 & E6 & E7 & E8 & E9).
    cbn. unfold timer_due. cbn. rewrite E1, E3, E4, E5, E6, E7, !sum_list_with_app. split; [|done].
    destruct rest as [r'|]; [pose proof (sum_update _ _ _ r' Hi)|pose proof (sum_remove _ _ _ Hi)]; lia.
Qed.
(** While it is not settled there is such a step. *)
Lemma own_step w : watching w → settled w ∨ ∃ ev w', alone ev w ∧ watch_step ev w = Some w'.
Proof.
  intros [Hwt Hl Hst Hok Hser Hwk]. unfold settled, alone, running in *. destruct (wa_loop w) as [|r|] eqn:El; [|right|done].
  2: { exists (WLoopStep None). cbn. rewrite El. destruct (reload_step None r w). by eexists. }
  cbn in *. destruct (wa_reloads w) as [|r rs] eqn:Er.
  2: { right. exists (WTimerStep 0 None). cbn. rewrite Er. cbn. destruct (reload_step None r w). by eexists. }
  destruct (wa_events w) as [|b evs] eqn:Ee.
  2: { right. exists WReceive. cbn. rewrite El, Ee. destruct b; by eexists. }
  destruct (wa_sighup w) eqn:Es.
  { right. exists WTakeSignal. cbn. unfold running. rewrite El, Er, Es. by eexists. }
  destruct (wa_timer w) as [t|] eqn:Eti; [right|by left].
  destruct (timer_due w) eqn:Ed.
  - exists WFire. cbn. unfold running. rewrite El, Er, Ed. by eexists.
  - exists (WTime debounce_ms). cbn. rewrite Eti, Ed. eexists. by split_and!.
Qed.
Lemma alone_run evs w w' : run_of alone evs w w' → watching w → timely w →
  watching w' ∧ (length evs + work w' ≤ work w)%nat ∧ mg_file (wa_mgr w') = mg_file (wa_mgr w).
Proof.
  induction 1 as [|ev evs w w1 w2 [Hc Ho] Hs _ IH]; [by intros; split_and!|]. intros Hw Ht.
  destruct (own_work _ _ _ Ho Ht Hs) as [Hlt Hf].
  destruct (IH (calm_step _ _ _ Hw Hc Hs) (step_timely _ _ _ Hs Ht)) as (Hw2 & Hle & Hf2). split_and!; [done|cbn [length]; lia|congruence].
Qed.
Lemma settled_current w : watching w → settled w → current w.
Proof.
  intros [Hwt Hl Hst Hok Hser Hwk] (El & Ee & Et & Er & Es) cfg Hcfg. unfold pending, underway, running in Hwk. rewrite El, Ee, Et, Er in Hwk.
  destruct Hwk as [[Hin|[[? ?]|?]]|Hu]; [by apply not_elem_of_nil in Hin|done..|].
  destruct (Hu cfg Hcfg) as [(_ & ? & ?)|[?|[? _]]]; done.
Qed.

(** C10: the configuration file is reloaded.  Start with the file, the manager and what the callback
    changes in agreement, and let anybody write the file, send SIGHUP and save changes in any
    order, while no reload overlaps another and none fails to read.  Left alone from there, the
    watcher does at most [work] further steps, however they are scheduled and with 200 ms for a
    timer, and is done only when it is settled: then, if the file parses, the configuration it
    holds is the manager's and is in force. *)
Theorem changes_take_effect m d evs w :
  lt_ok d → current (Watch_Start m d) → run_of calm evs (Watch_Start m d) w →
  ∀ evs' w', run_of alone evs' w w' →
    (length evs' ≤ work w)%nat
    ∧ (settled w' ∨ ∃ ev w'', alone ev w' ∧ watch_step ev w' = Some w'')
    ∧ (settled w' → mg_file (wa_mgr w') = mg_file (wa_mgr w)
         ∧ ∀ cfg, parsed_file w = Some cfg → mg_cfg (wa_mgr w') = cfg ∧ lt_in_force cfg (wa_obj w')).
Proof.
  intros Hok Hcur Hrun evs' w' Halone.
  assert (watching (Watch_Start m d)) as Hstart.
  { split; try done; [cbn; lia|]. right. intros cfg Hcfg. left. by destruct (Hcur cfg Hcfg). }
  destruct (calm_run_keeps _ _ _ Hrun Hstart ltac:(by intros t)) as [Hw Ht].
  destruct (alone_run _ _ _ Halone Hw Ht) as (Hw' & Hle & Hf). split_and!; [lia|by apply own_step|].
  intros Hs. split; [done|]. intros cfg Hcfg. apply (settled_current w'); [done..|]. unfold parsed_file in *. by rewrite Hf.
Qed.
End watch.
Arguments watch_event D {H}.
Arguments Watcher D {H}.

(** The daemon's callback. *)
Section daemon_target.
Context `{RegexpEngine} `{UnicodeData} `{GoSort} `{EntropyEnv} `{HttpClient} `{Yaml}.

#[export] Program Instance daemon_target : LoadTarget Daemon := {
  lt_onLoad := onLoad;
  lt_ok d := ∃ a, rules_in_force a d;
  lt_in_force cfg d := rules_in_force cfg d ∧ rest_in_force cfg d;
}.
Next Obligation. intros cfg d [a Ha]. by eapply onLoad_in_force. Qed.
Next Obligation. intros cfg d [a Ha]. exists cfg. by eapply onLoad_in_force. Qed.
End daemon_target.

(** ** What goes wrong elsewhere *)

Local Existing Instance toy_yaml.
(** A callback that notes the configuration it is given. *)
#[export] Program Instance noted : LoadTarget Config := {
  lt_onLoad cfg _ := cfg; lt_ok _ := True; lt_in_force cfg d := d = cfg }.
Solve All Obligations with done.

Definition cfg_of_port (port : Z) : Config :=
  mkConfig (cf_Proxy DefaultConfig) (cf_Scanning DefaultConfig) (cf_FileBlocking DefaultConfig) (cf_Hooks DefaultConfig)
    (cf_MCP DefaultConfig) (cf_Logging DefaultConfig) port [].
Definition text_of (port : Z) : yaml_Text := Some (cfg_of_port port, mkLegacy None None None).
Definition started : Watcher Config := Watch_Start (mkManager (cfg_of_port 1) (Some (text_of 1))) (cfg_of_port 1).
(** The ports of the manager's configuration, of the one in force and of the one in the file, and
    whether the watcher is settled. *)
Definition ports (w : option (Watcher Config)) : option (Z * Z * Z * bool) :=
  w ← w; Some (cf_AdminPort (mg_cfg (wa_mgr w)), cf_AdminPort (wa_obj w),
    match mg_file (wa_mgr w) with Some (Some (c, _)) => cf_AdminPort c | _ => 0 end,
    match wa_loop w, wa_events w, wa_timer w, wa_reloads w, wa_sighup w with Select, [], None, [], false => true | _, _, _, _, _ => false end).
Definition reload_all : list (watch_event Config) := [WTimerStep 0 None; WTimerStep 0 None; WTimerStep 0 None].
Definition one_change : list (watch_event Config) := [WReceive; WTime 200; WFire] ++ reload_all.

(** A file renamed over the old one is not seen, and no later change of it is. *)
Lemma replaced_file_unseen :
  ports (watch_run ([WReplace (text_of 2); WReceive; WTime 200; WSave (text_of 3); WTime 200]) started) = Some (1, 1, 3, true).
Proof. vm_compute. reflexivity. Qed.
(** Two reloads that overlap can leave the older configuration in force. *)
Lemma overlapping_reloads_stale :
  ports (watch_run ([WSave (text_of 2); WReceive; WTime 200; WFire; WTimerStep 0 None; WTimerStep 0 None]
    ++ [WSave (text_of 3); WReceive; WTime 200; WFire] ++ reload_all ++ [WTimerStep 0 None]) started) = Some (3, 2, 3, true).
Proof. vm_compute. reflexivity. Qed.
(** The timer is not stopped with the watcher: its function runs after the end. *)
Lemma reload_after_stop :
  ∃ w, watch_run ([WSave (text_of 2); WReceive; WStop; WEnd; WTime 200; WFire] ++ reload_all) started = Some w
    ∧ wa_loop w = Ended ∧ cf_AdminPort (wa_obj w) = 2.
Proof. eexists. split; [vm_compute; reflexivity|]. by vm_compute. Qed.
(** A reload that has read the old file sets the manager back after a handler's update; a second
    update then saves without the first. *)
Definition set_port (p : Z) (c : Config) : Config :=
  mkConfig (cf_Proxy c) (cf_Scanning c) (cf_FileBlocking c) (cf_Hooks c) (cf_MCP c) (cf_Logging c) p (cf_LicenseKey c).
Definition set_key (k : gostring) (c : Config) : Config :=
  mkConfig (cf_Proxy c) (cf_Scanning c) (cf_FileBlocking c) (cf_Hooks c) (cf_MCP c) (cf_Logging c) (cf_AdminPort c) k.
Lemma update_lost : ∃ w,
  watch_run [WSignal; WTakeSignal; WLoopStep None; WUpdate (Opened Written) (set_port 7) (cfg_of_port 7); WLoopStep None;
    WUpdate (Opened Written) (set_key (go "k")) (cfg_of_port 7)] started = Some w
  ∧ mg_file (wa_mgr w) = Some (Some (set_key (go "k") (cfg_of_port 1), mkLegacy None None None)).
Proof. eexists. split; vm_compute; reflexivity. Qed.

(** A change while a reload for SIGHUP runs, and what follows. *)
Definition changed : Watcher Config :=
  mkWatcher (mkManager (cfg_of_port 1) (Some (text_of 2))) (cfg_of_port 1) [true] true 0 None (Reloading (RStore (cfg_of_port 1))) [] false false.
Definition reloaded : Watcher Config :=
  mkWatcher (mkManager (cfg_of_port 2) (Some (text_of 2))) (cfg_of_port 2) [] true 200 None Select [] false false.
Lemma run_changed : run_of calm [WSignal; WTakeSignal; WLoopStep None; WSave (text_of 2)] started changed.
Proof. repeat (eapply run_cons; [done|reflexivity|]). apply run_nil. Qed.
Lemma run_reloaded : run_of alone ([WLoopStep None; WLoopStep None] ++ one_change) changed reloaded.
Proof. repeat (eapply run_cons; [by split|reflexivity|]). apply run_nil. Qed.
Theorem changes_take_effect_witness : mg_cfg (wa_mgr reloaded) = cfg_of_port 2 ∧ lt_in_force (cfg_of_port 2) (wa_obj reloaded).
Proof.
  assert (current (Watch_Start (mkManager (cfg_of_port 1) (Some (text_of 1))) (cfg_of_port 1))) as Hstart by (by intros cfg [= <-]).
  destruct (@changes_take_effect Config toy_yaml noted (mkManager (cfg_of_port 1) (Some (text_of 1))) (cfg_of_port 1) _ _ I Hstart run_changed _ _ run_reloaded) as (_ & _ & Hend).
  destruct (Hend ltac:(by split_and!)) as [_ Hcfg]. exact (Hcfg (cfg_of_port 2) eq_refl).
Defined.
