(* ===== verification/Policy.v ===== *)
(** * Policy distribution to a device — internal/policysync, internal/policy, internal/enrollment

    [Sync] fetches the organisation's signed bundle, checks its signature against
    the key stored at enrolment, and replaces the cached policy.  The files under
    the base directory are the record [Disk]: what they hold once parsed. *)
From S2P Require Import Prelude GoStr Utf8 Sha256 Json JsonRound JsonDecode JsonStruct Base64 Signing Token Bundle Sessions Store ServerAuth Httpapi.
Local Open Scope Z_scope.

Record Enrollment := mkEnrollment {
  en_ServerURL : gostring;
  en_DeviceToken : gostring;
  en_ServerPublicKey : gostring;
  en_DeviceID : gostring;
  en_OrgID : gostring;
}.
Record Policy := mkPolicy {
  py_Image : gostring;
  py_MountMode : gostring;
  py_Denylist : option (list gostring);
  py_Version : Z;
  py_FetchedAt : Z;
}.

(** [dk_enrollment] is [None] without the file, [Some (inl e)] when it cannot be
    read. *)
Record Disk := mkDisk {
  dk_enrollment : option (gostring + Enrollment);
  dk_policy : option Policy;
  dk_etag : gostring;
}.

(** policy.go *)
Definition SeedPolicy (denylist : option (list gostring)) : Policy :=
  mkPolicy (go "redactr-base:local") (go "bind") denylist 0 zero_time.
Definition LoadPolicy (disk : Disk) (denylist : option (list gostring)) : Policy :=
  default (SeedPolicy denylist) (dk_policy disk).

(** What becomes of the file operations of a sync: whether the enrolment can be inspected, an
    error of its read; what was read of the tag when its read fails; an error of replacing the
    policy, which is written to a temporary file and renamed; and what the tag file reads as
    when writing it fails, which it does in place. *)
Record SyncIO := mkSyncIO {
  io_stat : bool; io_read : option gostring; io_read_tag : option gostring;
  io_save : option gostring; io_tag : option gostring;
}.
Definition all_well : SyncIO := mkSyncIO true None None None None.
Definition seen_enrollment (io : SyncIO) (d : Disk) : option (gostring + Enrollment) :=
  if io_stat io then (λ r, from_option inl r (io_read io)) <$> dk_enrollment d else None.
Definition seen_tag (io : SyncIO) (d : Disk) : gostring := default (dk_etag d) (io_read_tag io).

(** The HTTP client: given the URL, the authorization and the entity tag, an
    error or a status, an entity tag and a body. *)
Definition Fetch : Type := gostring → gostring → gostring → gostring + Z * gostring * gostring.

Section sync.
Context `{UnicodeData} `{PublicKeyText}.
(** The text of a decoding error of encoding/json or encoding/base64. *)
Context (lib_error : gostring → gostring).

Definition policy_of (b : PolicyBundle) (now : Z) : Policy :=
  mkPolicy (pb_Image b) (pb_MountMode b) (pb_Denylist b) (pb_Version b) now.

Definition Sync (fetch : Fetch) (now : Z) (io : SyncIO) (disk : Disk) : Disk * option gostring :=
  match seen_enrollment io disk with
  | None => (disk, None)
  | Some (inl e) => (disk, Some e)
  | Some (inr enr) =>
      match ParsePublicKeyPEM (en_ServerPublicKey enr) with
      | inl e => (disk, Some (go "bad stored server key: " ++ e))
      | inr pub =>
          match fetch (TrimRight (en_ServerURL enr) (go "/") ++ go "/v1/policy")
                      (go "Bearer " ++ en_DeviceToken enr) (seen_tag io disk) with
          | inl e => (disk, Some e)
          | inr (status, etag, body) =>
              if status =? 304 then (disk, None)
              else if negb (status =? 200) then (disk, Some (go "policy fetch failed: " ++ Itoa status))
              else
                match v ← DecodeFirst body; dec_signed zero_signed v with
                | None => (disk, Some (lib_error body))
                | Some sp =>
                    match b64_decode (sp_Bundle sp) with
                    | None => (disk, Some (lib_error (sp_Bundle sp)))
                    | Some bundleJSON =>
                        match Verify pub bundleJSON (sp_Signature sp) with
                        | Some e => (disk, Some (go "policy signature rejected: " ++ e))
                        | None =>
                            match v ← Unmarshal bundleJSON; dec_bundle zero_bundle v with
                            | None => (disk, Some (lib_error bundleJSON))
                            | Some b =>
                                match io_save io with
                                | Some e => (disk, Some e)
                                | None =>
                                    (mkDisk (dk_enrollment disk) (Some (policy_of b now))
                                       (if bool_decide (etag = []) then dk_etag disk else default etag (io_tag io)), None)
                                end
                            end
                        end
                    end
                end
          end
      end
  end.
End sync.

(** ** Only what the server signed as a policy is cached *)

Section authenticity.
Context `{UnicodeData} `{PublicKeyText}.

(** The bundle a response carries. *)
Definition carried (body : gostring) : option gostring :=
  sp ← (v ← DecodeFirst body; dec_signed zero_signed v); b64_decode (sp_Bundle sp).

Lemma Sync_cases lib_error fetch now io disk disk' err :
  Sync lib_error fetch now io disk = (disk', err) →
  disk' = disk
  ∨ err = None ∧ io_save io = None ∧ ∃ enr pub etag body payload r s b,
      dk_enrollment disk = Some (inr enr) ∧ ParsePublicKeyPEM (en_ServerPublicKey enr) = inr pub
      ∧ fetch (TrimRight (en_ServerURL enr) (go "/") ++ go "/v1/policy")
          (go "Bearer " ++ en_DeviceToken enr) (seen_tag io disk) = inr (200, etag, body)
      ∧ carried body = Some payload ∧ ec_Verify pub (Sum256 payload) r s = true
      ∧ (v ← Unmarshal payload; dec_bundle zero_bundle v) = Some b
      ∧ disk' = mkDisk (dk_enrollment disk) (Some (policy_of b now))
          (if bool_decide (etag = []) then dk_etag disk else default etag (io_tag io)).
Proof.
  unfold Sync. destruct (seen_enrollment io disk) as [[e|enr]|] eqn:Hseen; [by intros [= <- _]; left| |by intros [= <- _]; left].
  assert (dk_enrollment disk = Some (inr enr)) as Henr.
  { unfold seen_enrollment in Hseen. destruct (io_stat io), (io_read io), (dk_enrollment disk); by simplify_eq/=. }
  destruct (ParsePublicKeyPEM _) as [e|pub] eqn:Hpub; [by intros [= <- _]; left|].
  destruct (fetch _ _ _) as [e|[[status etag] body]] eqn:Hf; [by intros [= <- _]; left|].
  destruct (Z.eqb_spec status 304); [by intros [= <- _]; left|].
  destruct (Z.eqb_spec status 200) as [->|]; [|by intros [= <- _]; left]. cbn [negb].
  destruct (v ← DecodeFirst body; dec_signed zero_signed v) as [sp|] eqn:Hsp; [|by intros [= <- _]; left].
  destruct (b64_decode (sp_Bundle sp)) as [payload|] eqn:Hb; [|by intros [= <- _]; left].
  destruct (Verify pub payload (sp_Signature sp)) eqn:Hv; [by intros [= <- _]; left|].
  apply Verify_inv in Hv as (r & s & _ & Hv).
  destruct (v ← Unmarshal payload; dec_bundle zero_bundle v) as [b|] eqn:Hd; [|by intros [= <- _]; left].
  destruct (io_save io); [by intros [= <- _]; left|]. intros [= <- <-]. right. split_and!; try done.
  exists enr, pub, etag, body, payload, r, s, b. split_and!; try done. unfold carried. by rewrite Hsp.
Qed.

Lemma Unmarshal_segment c : Unmarshal (claims_segment c) = None.
Proof. reflexivity. Qed.

Lemma Sync_signed lib_error issued bundles fetch now io disk disk' err :
  (∀ enr pub h r s, dk_enrollment disk = Some (inr enr) → ParsePublicKeyPEM (en_ServerPublicKey enr) = inr pub →
     ec_Verify pub h r s = true → h ∈ Sum256 <$> (claims_segment <$> issued) ++ bundles) →
  (∀ url auth etag body payload m, fetch url auth (seen_tag io disk) = inr (200, etag, body) → carried body = Some payload →
     m ∈ (claims_segment <$> issued) ++ bundles → Sum256 m = Sum256 payload → m = payload) →
  Sync lib_error fetch now io disk = (disk', err) →
  disk' = disk
  ∨ err = None ∧ dk_enrollment disk' = dk_enrollment disk
    ∧ ∃ payload b, payload ∈ bundles ∧ (v ← Unmarshal payload; dec_bundle zero_bundle v) = Some b
        ∧ dk_policy disk' = Some (policy_of b now).
Proof.
  intros Hforge Hcoll [->|(-> & _ & enr & pub & etag & body & payload & r & s & b & Henr & Hpub & Hf & Hc & Hv & Hd & ->)]%Sync_cases;
    [by left|right]. split_and!; [done..|].
  apply (Hforge enr pub) in Hv; [|done..]. apply list_elem_of_fmap in Hv as (m & Heq & Hm).
  assert (m = payload) as -> by (by eapply Hcoll). exists payload, b. split_and!; try done.
  apply elem_of_app in Hm as [(c & -> & _)%list_elem_of_fmap|Hm]; [|done].
  by rewrite Unmarshal_segment in Hd.
Qed.

(** C26: the cached policy changes only to a bundle the server signed as a policy.
    If a digest verifies only when the key signed it, for a device token or for a
    bundle, and the bundle received collides with none of those under SHA-256,
    then a sync, whose reads and writes may fail, either leaves the disk as it
    was, as it does on every error, or caches a bundle the server signed; the
    signature of a device token never carries a policy. *)
Theorem Sync_authentic lib_error issued bundles fetch now io disk disk' err :
  (∀ enr pub h r s, dk_enrollment disk = Some (inr enr) → ParsePublicKeyPEM (en_ServerPublicKey enr) = inr pub →
     ec_Verify pub h r s = true → h ∈ Sum256 <$> (claims_segment <$> issued) ++ bundles) →
  (∀ url auth etag body payload m, fetch url auth (seen_tag io disk) = inr (200, etag, body) → carried body = Some payload →
     m ∈ (claims_segment <$> issued) ++ bundles → Sum256 m = Sum256 payload → m = payload) →
  Sync lib_error fetch now io disk = (disk', err) →
  disk' = disk
  ∨ err = None ∧ dk_enrollment disk' = dk_enrollment disk
    ∧ ∃ payload b, payload ∈ bundles ∧ (v ← Unmarshal payload; dec_bundle zero_bundle v) = Some b
        ∧ dk_policy disk' = Some (policy_of b now).
Proof. apply Sync_signed. Qed.
End authenticity.

(** ** From the administrator to the device *)

Section delivery.
Context `{UnicodeData} `{Sqlite} `{PublicKeyText} `{TimeText}.

(** The bytes of a response body. *)
Definition body_text (b : HttpBody) : gostring :=
  match b with JsonBody v => compact v ++ [byte_of 10] | TextBody t => t ++ [byte_of 10] | NoBody => [] end.
(** The server as the device's HTTP client sees it. *)
Definition server_fetch (sv : Server) (env : HttpEnv) (db : Db) : Fetch := λ _ auth etag,
  let resp := (ServeHTTP sv env (mkHttpRequest RGetPolicy auth [] etag (λ _, []) []) db).2 in
  inr (hs_status resp, hs_etag resp, body_text (hs_body resp)).

Lemma handlePutPolicy_Ok env req org db db1 resp :
  handlePutPolicy env req org db = (db1, resp) → hs_status resp = 200 →
  ∃ b, (v ← DecodeFirst (hr_body req); dec_bundle zero_bundle v) = Some b ∧ bundle_utf8 b ∧ pb_MountMode b ≠ []
    ∧ let version := match db_policies db !! org with Some p => pl_version p | None => 0 end + 1 in
      db_policies db1 !! org = Some (mkPolicyRow (canonicalBundle b) version (he_now env)).
Proof.
  unfold handlePutPolicy, requireOrg. destruct (GetOrg _ _ _); [|by intros [= _ <-]..].
  destruct (DecodeFirst (hr_body req)) as [v|]; [|by intros [= _ <-]]. cbn [mbind option_bind].
  destruct (dec_bundle zero_bundle v) as [b|] eqn:Hb; [|by intros [= _ <-]].
  destruct (bool_decide (pb_Image b = []) || bool_decide (pb_MountMode b = [])) eqn:He; [by intros [= _ <-]|].
  apply orb_false_iff in He as [_ Hm%bool_decide_eq_false].
  unfold PutPolicy, db_call. destruct (he_io env 1 0%nat); [by intros [= _ <-]|].
  destruct (he_io env 1 1%nat); [by intros [= _ <-]|]. destruct (he_io env 1 2%nat); [by intros [= _ <-]|].
  destruct (he_io env 1 3%nat); [by intros [= _ <-]|]. intros [= <- _] _. exists b.
  split_and!; [done|by eapply dec_bundle_utf8|done|]. cbn. by rewrite lookup_insert_eq.
Qed.

(** What the stored text of a bundle gives a device. *)
Lemma with_version_canonical b version :
  bundle_utf8 b → pb_MountMode b ≠ [] →
  with_version (canonicalBundle b) version = mkBundle (pb_Image b) (pb_MountMode b) (Some (default [] (pb_Denylist b))) version.
Proof.
  intros (Hi & Hm & Hd) Hne. unfold with_version, bundle_of, canonicalBundle.
  rewrite bool_decide_eq_false_2 by done. rewrite bundle_read by (cbn; lia). cbn [default from_option]. unfold id.
  rewrite wire_bundle_utf8; [done|by split_and!].
Qed.

Lemma signed_reply_read sv rnd b version sig :
  0 ≤ version < 2 ^ 63 → Sign (sv_priv sv) rnd (bundle_json b) = Ok sig →
  (v ← DecodeFirst (body_text (JsonBody (JObj (signed_members (mkSignedPolicy (b64_encode (bundle_json b)) sig version)))));
   dec_signed zero_signed v) = Some (mkSignedPolicy (b64_encode (bundle_json b)) sig version).
Proof.
  intros Hv Hs. apply signed_read; [done|apply b64_encode_utf8|]. cbn [sp_Signature].
  unfold Sign in Hs. destruct (ec_Sign _ _ _) as [|[r s]]; [done|]. apply (inj Ok) in Hs as <-. apply b64_encode_utf8.
Qed.

(** Entity tags differ from each other, and from what is left of one by a write cut short. *)
Lemma etag_of_inj v v' rest : 0 ≤ v < 2 ^ 63 → 0 ≤ v' < 2 ^ 63 → etag_of v = etag_of v' ++ rest → rest = [] ∧ v = v'.
Proof.
  intros Hv Hv'. unfold etag_of. rewrite <- !app_assoc. intros Heq. do 2 apply app_inv_head in Heq.
  destruct (Itoa_decimal v Hv) as (_ & Hd & _). destruct (Itoa_decimal v' Hv') as (_ & Hd' & _).
  assert (Itoa v = Itoa v' ∧ rest = []) as [Hi ->].
  { revert Heq Hd Hd'. generalize (Itoa v') as t'. generalize (Itoa v) as t.
    induction t as [|c t IH]; intros [|c' t'] Heq; cbn [app forallb] in *; intros Hd Hd'.
    - by injection Heq as ->.
    - injection Heq as <- _. by apply andb_true_iff in Hd' as [Hq _].
    - injection Heq as -> _. by apply andb_true_iff in Hd as [Hq _].
    - injection Heq as <- Heq. apply andb_true_iff in Hd as [_ Hd], Hd' as [_ Hd']. by destruct (IH t' Heq Hd Hd') as [-> ->]. }
  split; [done|]. apply (inj Some). rewrite <- (Atoi_Itoa v), <- (Atoi_Itoa v') by done. by rewrite Hi.
Qed.

End delivery.

(** ** A bundle on its way *)

Definition demo_bundle : PolicyBundle := mkBundle (go "img@sha256:1") (go "bind") (Some [go ".env"]) 3.
Definition demo_digest_of_bundle : gostring := Sum256 (bundle_json demo_bundle).
Definition bundle_pem : @PublicKeyText (one_ecdsa demo_digest_of_bundle) := {|
  PublicKeyPEM := unit_pem : @ec_PublicKey (one_ecdsa demo_digest_of_bundle) → gostring + gostring;
  ParsePublicKeyPEM _ := inr tt : gostring + @ec_PublicKey (one_ecdsa demo_digest_of_bundle);
  ParsePublicKeyPEM_ok := unit_pem_ok;
|}.
Definition demo_enrollment : Enrollment := mkEnrollment (go "https://c/") demo_token (go "pem") (go "d1") (go "acme").
Definition demo_disk : Disk := mkDisk (Some (inr demo_enrollment)) None [].
Definition demo_body : gostring :=
  compact (JObj (signed_members (mkSignedPolicy (b64_encode (bundle_json demo_bundle)) (signature_text 1 7) 3))).
Definition demo_reply : Fetch := λ _ _ _, inr (200, go "e3", demo_body).

Lemma demo_carried : @carried sample_unicode demo_body = Some (bundle_json demo_bundle).
Proof. vm_compute. reflexivity. Qed.

Definition demo_synced : Disk * option gostring :=
  @Sync sample_unicode (one_ecdsa demo_digest_of_bundle) bundle_pem id demo_reply 5 all_well demo_disk.

Theorem Sync_authentic_witness :
  demo_synced.1 = demo_disk ∨
  ∃ payload b, payload ∈ [bundle_json demo_bundle]
    ∧ (v ← Unmarshal payload; @dec_bundle sample_unicode zero_bundle v) = Some b
    ∧ dk_policy demo_synced.1 = Some (policy_of b 5).
Proof.
  destruct (@Sync_authentic sample_unicode (one_ecdsa demo_digest_of_bundle) bundle_pem id [] [bundle_json demo_bundle]
    demo_reply 5 all_well demo_disk demo_synced.1 demo_synced.2) as [Hsame|(_ & _ & Hnew)].
  - intros enr pub h r s _ _ [Hh%bool_decide_eq_true _]%andb_true_iff. subst h. by apply elem_of_cons; left.
  - intros url auth etag body payload m [= _ <-] Hc Hm _. rewrite demo_carried in Hc. injection Hc as <-.
    by apply list_elem_of_singleton in Hm.
  - apply surjective_pairing.
  - by left.
  - by right.
Defined.

(** The administrator's request, and a device of the organisation. *)
Definition demo_put : HttpRequest :=
  mkHttpRequest (RPutPolicy (go "acme")) [] (go "key") [] (λ _, []) (bundle_json demo_bundle).
Definition demo_put_db : Db :=
  set_devices demo_org_db {[go "d1" := mkDevice (go "d1") (go "acme") (go "laptop") (go "linux") 0 None false]}.
Definition demo_put_result : Handled_http :=
  @handlePutPolicy sample_unicode demo_env demo_put (go "acme") demo_put_db.

Lemma demo_put_ok : hs_status demo_put_result.2 = 200.
Proof. vm_compute. reflexivity. Qed.
Lemma demo_put_device :
  (@RequireDevice sample_unicode toy_ecdsa (he_io demo_env 0) (@sv_priv toy_ecdsa demo_server) (he_now demo_env)
     (go "Bearer " ++ en_DeviceToken demo_enrollment) demo_put_result.1).2 = Some (go "acme", go "d1").
Proof. vm_compute. reflexivity. Qed.

