(* ===== verification/Control.v ===== *)
(** * Switching the proxy, and launching agents — proxy.go Start/Stop, api/routes.go, daemon/socket.go, cli/client.go, cli/agent.go

    The listeners the proxy opens and closes, the dashboard's handlers that switch
    it together with the firewall and the configuration, the control socket that
    relays to them, and the agent launcher that calls the socket. *)
From S2P Require Import Prelude GoStr Utf8 GoFloat GoSort Spans Scanner Redactor Sha256 Cache Regex Rules FileBlock Coordinator Presidio Entropy Json JsonRound JsonDecode JsonStruct Gliner Domain Extract Proxy Config Sandbox Firewall Base64 Signing Token Bundle Sessions Store ServerAuth Httpapi Daemon Policy.
Local Open Scope Z_scope.

(** ** proxy.go: listeners *)

(** [px_open]: the listeners that accept connections, by the server that serves
    them; the other fields are those of the proxy. *)
Record Listening := mkListening {
  px_open : gmap nat gostring;
  px_next : nat;
  px_listener : option gostring;
  px_server : option nat;
  px_running : bool;
}.
Definition not_listening : Listening := mkListening ∅ 0 None None false.

(** [bind]: the error of [net.Listen] or the address it bound; the assignment of a
    failed call leaves the listener nil. *)
Definition Proxy_Start (bind : gostring + gostring) (p : Listening) : Listening * (gostring + gostring) :=
  match bind with
  | inl e => (mkListening (px_open p) (px_next p) None (px_server p) (px_running p), inl e)
  | inr addr =>
      (mkListening (<[px_next p := addr]> (px_open p)) (S (px_next p)) (Some addr) (Some (px_next p)) true, inr addr)
  end.
Definition Proxy_Stop (p : Listening) : Listening :=
  if negb (px_running p) then p
  else mkListening (match px_server p with Some i => delete i (px_open p) | None => px_open p end)
         (px_next p) (px_listener p) (px_server p) false.
Definition Proxy_Addr (p : Listening) : gostring := default [] (px_listener p).

Section control.
Context `{RegexpEngine} `{UnicodeData} `{GoSort} `{EntropyEnv} `{HttpClient} `{Yaml} `{FwManager}.

(** The daemon's objects, the proxy's listeners, the firewall, the state file
    proxy.pid, and the two addresses fixed at the start. *)
Record World := mkWorld {
  wd_daemon : Daemon;
  wd_proxy : Listening;
  wd_fw : FwWorld;
  wd_pid : option gostring;
  wd_transparent : gostring;
  wd_dashboard : gostring;
}.
Definition cfg_of (w : World) : Config := mg_cfg (dm_mgr (wd_daemon w)).
Definition set_proxy (p : Listening) (w : World) : World :=
  mkWorld (wd_daemon w) p (wd_fw w) (wd_pid w) (wd_transparent w) (wd_dashboard w).
Definition set_fw (f : FwWorld) (w : World) : World :=
  mkWorld (wd_daemon w) (wd_proxy w) f (wd_pid w) (wd_transparent w) (wd_dashboard w).
Definition set_pid (v : option gostring) (w : World) : World :=
  mkWorld (wd_daemon w) (wd_proxy w) (wd_fw w) v (wd_transparent w) (wd_dashboard w).

(** What the surroundings contribute to one request. *)
Record SwitchEnv := mkSwitch {
  se_bind : gostring + gostring;
  se_save : write_fate;
  se_pid_ok : bool;
  se_fw : FwEnv;
}.

(** ** api/routes.go *)

Definition portFromAddr (addr : gostring) : Z :=
  match SplitHostPort addr with Some (_, port) => default 0 (Atoi port) | None => 0 end.
(** [cfgMgr.Update] of the flag; its error is ignored. *)
Definition flag_proxy (e : SwitchEnv) (on : bool) (w : World) : World :=
  mkWorld (set_mgr (wd_daemon w) (Update (se_save e) (set_proxy_enabled on) (dm_mgr (wd_daemon w))).1)
    (wd_proxy w) (wd_fw w) (wd_pid w) (wd_transparent w) (wd_dashboard w).
Definition writeProxyState (e : SwitchEnv) (addr : gostring) (w : World) : World :=
  if se_pid_ok e then set_pid (Some addr) w else w.
Definition clearProxyState (e : SwitchEnv) (w : World) : World :=
  if se_pid_ok e then set_pid None w else w.

Definition handleProxyEnable (e : SwitchEnv) (w : World) : World * ApiResponse :=
  match Proxy_Start (se_bind e) (wd_proxy w) with
  | (p, inl err) => (set_proxy p w, mkApi 500 (AError err))
  | (p, inr addr) =>
      let w := writeProxyState e addr (flag_proxy e true (set_proxy p w)) in
      let port := portFromAddr (wd_transparent w) in
      match Enable (se_fw e) (wd_fw w) (pr_InterceptedDomains (cf_Proxy (cfg_of w))) addr port with
      | (f, Some err) =>
          (set_fw f w, mkApi 200 (AJson (string_map [("status", go "listening"); ("addr", addr);
                                                     ("routing", go "failed"); ("reason", err)])))
      | (f, None) =>
          (set_fw f w, mkApi 200 (AJson (string_map [("status", go "ok"); ("addr", addr); ("routing", go "active")])))
      end
  end.

(** The error of [Disable] is logged only. *)
Definition handleProxyDisable (e : SwitchEnv) (w : World) : World * ApiResponse :=
  let w := set_fw (Disable (se_fw e) (wd_fw w)).1 w in
  let w := set_proxy (Proxy_Stop (wd_proxy w)) w in
  (clearProxyState e (flag_proxy e false w), status_ok).

Record ProxyReport := mkProxyReport { pt_enabled : bool; pt_addr : gostring; pt_routing : bool }.
Definition handleProxyStatus (w : World) : ProxyReport :=
  mkProxyReport (pr_Enabled (cf_Proxy (cfg_of w))) (Proxy_Addr (wd_proxy w)) (IsActive (wd_fw w)).

(** ** daemon/daemon.go: the proxy in Start and Stop *)

Definition start_proxy (e : SwitchEnv) (w : World) : World * option gostring :=
  if pr_Enabled (cf_Proxy (cfg_of w)) then
    match Proxy_Start (se_bind e) (wd_proxy w) with
    | (p, inl err) => (set_proxy p w, Some (go "proxy start: " ++ err))
    | (p, inr addr) => (writeProxyState e addr (set_proxy p w), None)
    end
  else (w, None).
Definition stop_proxy (e : SwitchEnv) (w : World) : World :=
  let w := set_fw (Disable (se_fw e) (wd_fw w)).1 w in
  clearProxyState e (set_proxy (Proxy_Stop (wd_proxy w)) w).

(** ** daemon/socket.go *)

(** What becomes of the request the socket handler sends to the dashboard. *)
Inductive relay_fate := Relayed | NotSent (e : gostring) | NoAnswer (e : gostring).
Definition relayDashboard (fate : relay_fate) (path : gostring) (handler : World → World * ApiResponse) (w : World)
    : World * option gostring :=
  if bool_decide (wd_dashboard w = []) then (w, Some (go "dashboard not available"))
  else
    match fate with
    | NotSent e => (w, Some e)
    | NoAnswer e => ((handler w).1, Some e)
    | Relayed =>
        let '(w, r) := handler w in
        if 300 <=? ap_status r then (w, Some (go "dashboard " ++ path ++ go " returned " ++ Itoa (ap_status r))) else (w, None)
    end.
Record ControlStatus := mkControlStatus { ct_enabled : bool; ct_addr : gostring; ct_dashboard : gostring }.
Definition statusValue (w : World) : ControlStatus :=
  mkControlStatus (pr_Enabled (cf_Proxy (cfg_of w))) (Proxy_Addr (wd_proxy w)) (wd_dashboard w).
(** The status of the reply, and its value when it is 200. *)
Definition socketEnable (fate : relay_fate) (e : SwitchEnv) (w : World) : World * (gostring + ControlStatus) :=
  match relayDashboard fate (go "/api/proxy/enable") (handleProxyEnable e) w with
  | (w, Some err) => (w, inl err)
  | (w, None) => (w, inr (statusValue w))
  end.
Definition socketDisable (fate : relay_fate) (e : SwitchEnv) (w : World) : World * (gostring + ControlStatus) :=
  match relayDashboard fate (go "/api/proxy/disable") (handleProxyDisable e) w with
  | (w, Some err) => (w, inl err)
  | (w, None) => (w, inr (statusValue w))
  end.
(** [load]: the error of reading the cached policy.  (A nil list of blocked domains counts as an
    empty one.) *)
Definition handleLaunchPolicy (load : option gostring) (disk : Disk) (w : World) : gostring + LaunchInfo :=
  match load with
  | Some e => inl e
  | None =>
      let p := LoadPolicy disk (Some (pr_BlockedDomains (cf_Proxy (cfg_of w)))) in
      inr (mkLaunchInfo (py_Image p) (py_MountMode p) (py_Denylist p) (Proxy_Addr (wd_proxy w)))
  end.

(** ** cli/client.go, cli/agent.go *)

(** [dial i]: whether the socket answers the [i]th time; 51 times at most. *)
Fixpoint await_socket (dial : nat → bool) (i tries : nat) : bool :=
  match tries with O => false | S tries => dial i || await_socket dial (S i) tries end.
Definition ensureDaemon (dial : nat → bool) (spawn : option gostring) : option gostring :=
  if dial 0%nat then None
  else
    match spawn with
    | Some e => Some (go "failed to start redactr daemon: " ++ e)
    | None => if await_socket dial 1 50 then None else Some (go "redactr daemon did not come up")
    end.

(** What the client makes of an error status: the text of the error stays behind (see [Client]). *)
Definition enable_refused : gostring := go "proxy enable failed (status 502)".
(** [url.QueryEscape] *)
Definition upper_hex (n : Z) : Ascii.ascii := byte_of (if n <? 10 then 48 + n else 55 + n).
Definition query_plain (c : Z) : bool :=
  ((48 <=? c) && (c <=? 57)) || ((65 <=? c) && (c <=? 90)) || ((97 <=? c) && (c <=? 122)) || (c =? 45) || (c =? 46) || (c =? 95) || (c =? 126).
Definition QueryEscape (s : gostring) : gostring :=
  s ≫= λ c, let n := byteZ c in
    if query_plain n then [c] else if n =? 32 then [byte_of 43] else [byte_of 37; upper_hex (n / 16); upper_hex (n mod 16)].
Example query_escaped : QueryEscape (go "a-b c/~é") = go "a-b+c%2F~%C3%A9". Proof. vm_compute. reflexivity. Qed.
Definition launch_path (tool : gostring) : gostring := go "/launch-policy?tool=" ++ QueryEscape tool.
Definition launch_refused (tool : gostring) : gostring := go "GET " ++ launch_path tool ++ go " failed (status 500)".
(** [RunAgent]: the daemon, the proxy, the policy, the container. *)
Definition agent (dial : nat → bool) (spawn : option gostring) (fate : relay_fate) (e : SwitchEnv)
    (load : option gostring) (disk : Disk) (lookPath : gostring → bool) (tool : gostring)
    (extraArgs : list gostring) (cwd caPath : gostring) (w : World) : World * (gostring + LaunchError + list gostring) :=
  match knownAgentEntrypoint tool with
  | None => (w, inl (inr (UnknownAgent tool)))
  | Some _ =>
      match ensureDaemon dial spawn with
      | Some err => (w, inl (inl err))
      | None =>
          match socketEnable fate e w with
          | (w, inl _) => (w, inl (inl (go "could not enable proxy: " ++ enable_refused)))
          | (w, inr _) =>
              match handleLaunchPolicy load disk w with
              | inl _ => (w, inl (inl (go "could not fetch launch policy: " ++ launch_refused tool)))
              | inr info =>
                  (w, match RunAgent lookPath tool extraArgs cwd caPath info with
                      | inl err => inl (inr err)
                      | inr argv => inr argv
                      end)
              end
          end
      end
  end.
End control.

(** ** Runs *)

Section runs.
Context `{RegexpEngine} `{UnicodeData} `{GoSort} `{EntropyEnv} `{HttpClient} `{Yaml} `{FwManager}.

(** Everything that touches the proxy, the firewall or the state file; [COther] is
    any other event of the daemon, such as those of [System.daemon_step]. *)
Inductive control_op :=
| CStart (e : SwitchEnv)
| CEnable (e : SwitchEnv)
| CDisable (e : SwitchEnv)
| CReconcile (e : FwEnv)
| CStop (e : SwitchEnv)
| COther (d : Daemon).
Definition control_exec (op : control_op) (w : World) : World :=
  match op with
  | CStart e => (start_proxy e w).1
  | CEnable e => (handleProxyEnable e w).1
  | CDisable e => (handleProxyDisable e w).1
  | CReconcile e => set_fw (Reconcile e (wd_fw w)).1 w
  | CStop e => stop_proxy e w
  | COther d => mkWorld d (wd_proxy w) (wd_fw w) (wd_pid w) (wd_transparent w) (wd_dashboard w)
  end.
(** Starting the listener only when it is not running. *)
Definition orderly (op : control_op) (w : World) : Prop :=
  match op with CStart _ | CEnable _ => px_running (wd_proxy w) = false | _ => True end.
Inductive control_reach : World → Prop :=
| control_new w : wd_proxy w = not_listening → control_reach w
| control_more op w : control_reach w → orderly op w → control_reach (control_exec op w).

(** ** What an operation does to the listeners *)

Definition bind_of (op : control_op) (w : World) : option (gostring + gostring) :=
  match op with
  | CStart e => if pr_Enabled (cf_Proxy (cfg_of w)) then Some (se_bind e) else None
  | CEnable e => Some (se_bind e)
  | _ => None
  end.
Definition stops (op : control_op) : bool := match op with CDisable _ | CStop _ => true | _ => false end.
Lemma control_exec_proxy op w :
  wd_proxy (control_exec op w) =
    match bind_of op w with
    | Some bind => (Proxy_Start bind (wd_proxy w)).1
    | None => if stops op then Proxy_Stop (wd_proxy w) else wd_proxy w
    end.
Proof.
  destruct op as [e|e|e|e|e|d]; cbn [control_exec bind_of stops]; try done.
  - unfold start_proxy. destruct (pr_Enabled _); [|done].
    destruct (se_bind e); cbn; [done|]. unfold writeProxyState. by destruct (se_pid_ok e).
  - unfold handleProxyEnable. destruct (se_bind e) as [err|addr]; cbn [Proxy_Start]; [done|].
    cbv zeta. destruct (Enable _ _ _ _ _) as [f [err|]]; cbn; unfold writeProxyState; by destruct (se_pid_ok e).
  - unfold handleProxyDisable, clearProxyState. cbn. by destruct (se_pid_ok e).
  - unfold stop_proxy, clearProxyState. by destruct (se_pid_ok e).
Qed.

(** The proxy knows its listener. *)
Definition knows_listener (p : Listening) : Prop :=
  (∀ i, is_Some (px_open p !! i) → (i < px_next p)%nat)
  ∧ if px_running p
    then ∃ i addr, px_server p = Some i ∧ px_listener p = Some addr ∧ px_open p = {[i := addr]}
    else px_open p = ∅.
Lemma Proxy_Start_knows bind p : knows_listener p → px_running p = false → knows_listener (Proxy_Start bind p).1.
Proof.
  unfold knows_listener. intros [Hlt Hopen] Hr. rewrite Hr in Hopen.
  destruct bind as [err|addr]; cbn; [by rewrite Hr|]. rewrite Hopen. split.
  - intros i [a Ha]. apply lookup_insert_Some in Ha as [[<- _]|[_ Ha]]; [lia|by rewrite lookup_empty in Ha].
  - by exists (px_next p), addr.
Qed.
Lemma Proxy_Stop_knows p : knows_listener p → knows_listener (Proxy_Stop p) ∧ px_open (Proxy_Stop p) = ∅.
Proof.
  unfold knows_listener, Proxy_Stop. intros [Hlt Hopen]. destruct (px_running p) eqn:Hr; cbn [negb]; [|by rewrite Hr].
  destruct Hopen as (i & addr & Hs & _ & Ho). rewrite Hs, Ho. cbn [px_open px_next px_running].
  rewrite delete_singleton_eq. split; [split; [|done]|done]. intros j [a Ha]. by rewrite lookup_empty in Ha.
Qed.
Lemma control_reach_knows w : control_reach w → knows_listener (wd_proxy w).
Proof.
  induction 1 as [w ->|op w _ IH Ho].
  - split; [|done]. intros i [a Ha]. cbn in Ha. by rewrite lookup_empty in Ha.
  - rewrite control_exec_proxy. destruct (bind_of op w) as [bind|] eqn:Hb.
    + apply Proxy_Start_knows; [done|]. destruct op; try done.
    + destruct (stops op); [by apply Proxy_Stop_knows|done].
Qed.

(** ** Switching on and off *)

Lemma Enable_installs e f domains addr port f' :
  Enable e f domains addr port = (f', None) →
  ∃ ips, resolveAll (fe_resolver e) domains = inr ips
    ∧ fm_Redirect (fw_mgr f) ips port = (fw_mgr f', None)
    ∧ (fm_accepts (fw_mgr f) (CallRedirect ips port) = true → fm_installs (fw_mgr f') (Some (ips, port)))
    ∧ IsActive f' = true.
Proof.
  unfold Enable. destruct (resolveAll _ _) as [msg|ips]; [done|].
  destruct (fm_Redirect _ _ _) as [m' [msg|]] eqn:Hm; [done|]. intros [= <-].
  exists ips. split_and!; [done|done| |done]. intros Ha. by eapply fm_Redirect_ok.
Qed.
Lemma Disable_removes e f f' : IsActive f = true → Disable e f = (f', None) →
  (fm_accepts (fw_mgr f) CallUnredirect = true → fm_installs (fw_mgr f') None) ∧ IsActive f' = false.
Proof.
  unfold IsActive, Disable. intros ->. cbn [negb].
  destruct (fm_Unredirect _) as [m' [msg|]] eqn:Hm; [done|]. intros [= <-]. split; [|done]. intros Ha. by eapply fm_Unredirect_ok.
Qed.
Lemma Disable_error e f : IsActive f = true → (Disable e f).2 = (fm_Unredirect (fw_mgr f)).2.
Proof.
  unfold IsActive, Disable. intros ->. cbn [negb]. by destruct (fm_Unredirect _) as [m' [msg|]].
Qed.
Lemma flag_proxy_enabled e on w : pr_Enabled (cf_Proxy (cfg_of (flag_proxy e on w))) = on.
Proof. unfold cfg_of, flag_proxy, Update. cbn. by destruct (Save _ _ _). Qed.
Lemma flag_proxy_domains e on w :
  pr_InterceptedDomains (cf_Proxy (cfg_of (flag_proxy e on w))) = pr_InterceptedDomains (cf_Proxy (cfg_of w)).
Proof. unfold cfg_of, flag_proxy, Update. cbn. by destruct (Save _ _ _). Qed.

Lemma enabled_world e addr p w :
  let w1 := writeProxyState e addr (flag_proxy e true (set_proxy p w)) in
  wd_proxy w1 = p ∧ wd_fw w1 = wd_fw w ∧ wd_transparent w1 = wd_transparent w
  ∧ pr_Enabled (cf_Proxy (cfg_of w1)) = true ∧ (se_pid_ok e = true → wd_pid w1 = Some addr)
  ∧ pr_InterceptedDomains (cf_Proxy (cfg_of w1)) = pr_InterceptedDomains (cf_Proxy (cfg_of w)).
Proof.
  pose proof (flag_proxy_enabled e true (set_proxy p w)) as He. pose proof (flag_proxy_domains e true (set_proxy p w)) as Hd.
  cbv zeta. unfold writeProxyState. destruct (se_pid_ok e); (split; [reflexivity|]; split; [reflexivity|]; split; [reflexivity|]; split; [exact He|]; split; [by intros|exact Hd]).
Qed.

(** C14: the switch of the proxy.  Whatever starts, stops, switches, reconciliations
    and other events came before, as long as the listener was started only when it
    was not running: switching on opens exactly the listener whose address the
    reply, the status, the state file and the launch policy name, turns the flag of
    the configuration on, and, when it reports active routing, has had the manager
    redirect the addresses of the intercepted domains to the port of the
    transparent listener, without an error; and those are the rules installed if
    the platform's tools accepted them.  A failed bind changes nothing but the
    address.  Switching off closes every listener and turns the flag off, and
    removes the redirection if the manager does not fail and the tools do not. *)
Theorem proxy_switch w e (Hreach : control_reach w) :
  (px_running (wd_proxy w) = false →
     let '(w', r) := handleProxyEnable e w in
     match se_bind e with
     | inl err => w' = set_proxy (wd_proxy w') w ∧ px_open (wd_proxy w') = ∅ ∧ ap_status r = 500
     | inr addr =>
         ap_status r = 200 ∧ (∃ i, px_open (wd_proxy w') = {[i := addr]})
         ∧ handleProxyStatus w' = mkProxyReport true addr (IsActive (wd_fw w'))
         ∧ (se_pid_ok e = true → wd_pid w' = Some addr)
         ∧ (∀ disk info, handleLaunchPolicy None disk w' = inr info → li_ProxyAddr info = addr)
         ∧ (ap_body r = AJson (string_map [("status", go "ok"); ("addr", addr); ("routing", go "active")]) →
              ∃ ips, resolveAll (fe_resolver (se_fw e)) (pr_InterceptedDomains (cf_Proxy (cfg_of w))) = inr ips
                ∧ let port := portFromAddr (wd_transparent w) in
                  fm_Redirect (fw_mgr (wd_fw w)) ips port = (fw_mgr (wd_fw w'), None)
                  ∧ (fm_accepts (fw_mgr (wd_fw w)) (CallRedirect ips port) = true →
                       fm_installs (fw_mgr (wd_fw w')) (Some (ips, port))))
     end)
  ∧ let w' := (handleProxyDisable e w).1 in
    px_open (wd_proxy w') = ∅ ∧ pr_Enabled (cf_Proxy (cfg_of w')) = false ∧ (se_pid_ok e = true → wd_pid w' = None)
    ∧ (IsActive (wd_fw w) = true → (fm_Unredirect (fw_mgr (wd_fw w))).2 = None →
         IsActive (wd_fw w') = false
         ∧ (fm_accepts (fw_mgr (wd_fw w)) CallUnredirect = true → fm_installs (fw_mgr (wd_fw w')) None)).
Proof.
  apply control_reach_knows in Hreach as Hk. split.
  - intros Hr. destruct Hk as [_ Hopen]. rewrite Hr in Hopen. unfold handleProxyEnable.
    destruct (se_bind e) as [err|addr]; cbn [Proxy_Start]; [by rewrite Hopen|]. cbv zeta. rewrite Hopen.
    destruct (enabled_world e addr (mkListening (<[px_next (wd_proxy w):=addr]> ∅) (S (px_next (wd_proxy w)))
      (Some addr) (Some (px_next (wd_proxy w))) true) w) as (Hp & Hf & Ht & He & Hpid & Hd).
    set (w1 := writeProxyState e addr _) in *.
    rewrite Hf, Ht, Hd. clearbody w1.
    assert (∀ f', handleProxyStatus (set_fw f' w1) = mkProxyReport true addr (IsActive f')) as Hstatus.
    { intros f'. unfold handleProxyStatus. cbn [set_fw wd_fw wd_proxy]. change (cfg_of (set_fw f' w1)) with (cfg_of w1).
      by rewrite Hp, He. }
    assert (∀ f' disk info, handleLaunchPolicy None disk (set_fw f' w1) = inr info → li_ProxyAddr info = addr) as Hlaunch.
    { intros f' disk info Hl. unfold handleLaunchPolicy in Hl. injection Hl as <-. cbn [li_ProxyAddr set_fw wd_proxy].
      by rewrite Hp. }
    destruct (Enable _ _ _ _ _) as [f' [err|]] eqn:Hen; cbn [ap_status ap_body wd_proxy set_fw wd_pid wd_fw];
      (split; [reflexivity|]; split; [rewrite Hp; eexists; reflexivity|]; split; [apply Hstatus|];
       split; [exact Hpid|]; split; [apply Hlaunch|]).
    + intros Hb. apply (f_equal (λ b, match b with AJson (JObj l) => length l | _ => 0%nat end)) in Hb.
      by vm_compute in Hb.
    + intros _. apply Enable_installs in Hen as (ips & Hres & Hcall & Hrules & _). eauto.
  - cbv zeta. unfold handleProxyDisable. cbn [fst].
    set (w1 := set_proxy _ _).
    assert (wd_proxy (clearProxyState e (flag_proxy e false w1)) = wd_proxy w1
      ∧ wd_fw (clearProxyState e (flag_proxy e false w1)) = (Disable (se_fw e) (wd_fw w)).1
      ∧ cfg_of (clearProxyState e (flag_proxy e false w1)) = cfg_of (flag_proxy e false w1)) as (-> & -> & ->).
    { unfold clearProxyState. by destruct (se_pid_ok e). }
    rewrite flag_proxy_enabled. split_and!; [by apply Proxy_Stop_knows|done| |].
    + unfold clearProxyState. by intros ->.
    + intros Ha Hd. rewrite <- (Disable_error (se_fw e)) in Hd by done.
      destruct (Disable (se_fw e) (wd_fw w)) as [f' err] eqn:E. cbn [snd] in Hd. subst err.
      by apply Disable_removes in E as [? ?].
Qed.

(** ** A second start *)

(** Starting the listener while one is running leaks the old one: it still accepts
    connections, and nothing done afterwards closes it. *)
Definition leaked (i : nat) (addr : gostring) (p : Listening) : Prop :=
  px_open p !! i = Some addr ∧ px_server p ≠ Some i ∧ (i < px_next p)%nat.
Lemma second_start_leaks bind w addr : knows_listener (wd_proxy w) → px_running (wd_proxy w) = true →
  px_listener (wd_proxy w) = Some addr → ∃ i, leaked i addr (Proxy_Start (inr bind) (wd_proxy w)).1.
Proof.
  intros [Hlt Hopen] Hr Ha. rewrite Hr in Hopen. destruct Hopen as (i & a & Hs & Hl & Ho). exists i.
  assert (i < px_next (wd_proxy w))%nat as Hi by (apply Hlt; rewrite Ho, lookup_singleton_eq; eauto).
  unfold leaked. cbn. rewrite Ho, lookup_insert_ne, lookup_singleton_eq by lia. split_and!; [congruence|intros [=]; lia|lia].
Qed.
Lemma leaked_forever i addr op w : leaked i addr (wd_proxy w) → leaked i addr (wd_proxy (control_exec op w)).
Proof.
  rewrite control_exec_proxy. unfold leaked. intros (Ho & Hs & Hi).
  destruct (bind_of op w) as [[err|a]|]; cbn.
  - done.
  - rewrite lookup_insert_ne by lia. split_and!; [done|intros [=]; lia|lia].
  - destruct (stops op); [|done]. unfold Proxy_Stop. destruct (px_running _); cbn; [|done].
    split_and!; [|done..]. destruct (px_server (wd_proxy w)) as [j|]; [|done]. rewrite lookup_delete_ne; [done|congruence].
Qed.
End runs.

(** ** From the control plane to the container *)

Section agents.
Context `{RegexpEngine} `{UnicodeData} `{GoSort} `{EntropyEnv} `{HttpClient} `{Yaml} `{FwManager}.
Context `{ContainerLaws} `{PublicKeyText} (lib_error : gostring → gostring).

(** The device tokens and the policy payloads the server has signed. *)
Context (issued : list Claims) (bundles : list gostring).
Definition signed_texts : list gostring := (claims_segment <$> issued) ++ bundles.
Definition honest_key (disk : Disk) : Prop :=
  ∀ enr pub h r s, dk_enrollment disk = Some (inr enr) → ParsePublicKeyPEM (en_ServerPublicKey enr) = inr pub →
    ec_Verify pub h r s = true → h ∈ Sum256 <$> signed_texts.
(** The bundle of a reply collides with nothing the server signed. *)
Definition no_collision (fetch : Fetch) (tag : gostring) : Prop :=
  ∀ url auth etag body payload m, fetch url auth tag = inr (200, etag, body) → carried body = Some payload →
    m ∈ signed_texts → Sum256 m = Sum256 payload → m = payload.

(** The disks of a device that started without a cached policy, after any number of syncs over
    any network. *)
Inductive synced : Disk → Prop :=
| synced_new disk : dk_policy disk = None → honest_key disk → synced disk
| synced_more disk fetch now io disk' err :
    synced disk → no_collision fetch (seen_tag io disk) → Sync lib_error fetch now io disk = (disk', err) → synced disk'.

(** The images of the signed bundles. *)
Definition bundled (image : gostring) : Prop :=
  ∃ payload b, payload ∈ bundles ∧ (v ← Unmarshal payload; dec_bundle zero_bundle v) = Some b ∧ image = pb_Image b.
Lemma synced_image disk denylist : synced disk →
  honest_key disk ∧ match dk_policy disk with
                    | None => py_Image (LoadPolicy disk denylist) = go "redactr-base:local"
                    | Some _ => bundled (py_Image (LoadPolicy disk denylist))
                    end.
Proof.
  induction 1 as [disk Hn Hk|disk fetch now io disk' err _ [Hk IH] Hc Hs].
  - split; [done|]. unfold LoadPolicy. by rewrite Hn.
  - apply (Sync_signed lib_error issued bundles) in Hs as [->|(_ & He & payload & b & Hp & Hb & Hd)]; [done| |exact Hk|exact Hc].
    split; [unfold honest_key; by rewrite He|]. unfold LoadPolicy. rewrite Hd. exists payload, b. done.
Qed.

Lemma socketEnable_on fate e w w' st : socketEnable fate e w = (w', inr st) →
  ∃ addr i, se_bind e = inr addr ∧ px_open (wd_proxy w') !! i = Some addr ∧ Proxy_Addr (wd_proxy w') = addr
    ∧ pr_Enabled (cf_Proxy (cfg_of w')) = true.
Proof.
  unfold socketEnable, relayDashboard. destruct (bool_decide _); [done|]. destruct fate; [|done..].
  unfold handleProxyEnable. destruct (se_bind e) as [err|addr]; cbn [Proxy_Start]; [by intros [= _ ?]|]. cbv zeta.
  set (p := mkListening _ _ _ _ _). destruct (enabled_world e addr p w) as (Hp & _ & _ & He & _).
  set (w1 := writeProxyState e addr _) in *. clearbody w1.
  destruct (Enable _ _ _ _ _) as [f' [err|]]; intros [= <- _]; exists addr, (px_next (wd_proxy w));
    cbn [set_fw wd_proxy]; rewrite Hp; unfold p; cbn [px_open]; rewrite lookup_insert_eq; done.
Qed.

(** C5: what an agent runs in.  Take a device that started without a cached policy and
    has synced any number of times, over any network, with a server whose key signs
    only the tokens and bundles given.  Whenever the launcher gets as far as running
    a container: as long as no sync has stored a bundle the image is the local
    image of the seed, which nobody signed, and afterwards it is the image that a
    signed bundle names (the bundles are assumed to name images, not texts that the
    container tool reads as options); the command is the agent's with the user's
    arguments, the container is sealed, and its proxy variables lead to the port of
    a listener that the daemon has open at that moment, with the proxy enabled. *)
Theorem agent_confined disk dial spawn fate e load lookPath tool extraArgs cwd caPath w w' argv
    (Hdisk : synced disk) (Himages : ∀ image, bundled image → option_like image = false)
    (Hrun : agent dial spawn fate e load disk lookPath tool extraArgs cwd caPath w = (w', inr argv)) :
  ∃ runtime bin image denylist addr i args opts,
    argv = runtime :: go "run" :: args ∧ runtime ∈ preferredRuntimes ∧ knownAgents !! tool = Some bin
    ∧ match dk_policy disk with
      | None => image = go "redactr-base:local"
      | Some _ => bundled image
      end
    ∧ px_open (wd_proxy w') !! i = Some addr ∧ pr_Enabled (cf_Proxy (cfg_of w')) = true
    ∧ parse_run args = Some (opts, image, bin :: extraArgs)
    ∧ sealed runtime (agent_spec bin extraArgs cwd caPath (mkLaunchInfo image (go "bind") denylist addr)) opts.
Proof.
  unfold agent in Hrun. destruct (knownAgentEntrypoint tool); [|done].
  destruct (ensureDaemon _ _); [done|].
  destruct (socketEnable _ _ _) as [w1 [err|st]] eqn:Hen; [done|].
  apply socketEnable_on in Hen as (addr & i & _ & Ho & Ha & He).
  unfold handleLaunchPolicy in Hrun. destruct load; [done|].
  set (denylist := Some _) in Hrun. destruct (synced_image disk denylist Hdisk) as [_ Happ].
  set (p := LoadPolicy disk denylist) in *. clearbody p.
  assert (option_like (py_Image p) = false) as Hopt.
  { destruct (dk_policy disk); [by apply Himages|by rewrite Happ]. }
  destruct (RunAgent _ _ _ _ _ _) as [err|argv'] eqn:Hr; [done|]. injection Hrun as <- <-.
  apply RunAgent_image in Hr as (runtime & bin & args & opts & -> & Hpref & _ & Hk & Hm & Hp & Hs); [|exact Hopt].
  cbn [li_Image li_MountMode] in *.
  exists runtime, bin, (py_Image p), (py_Denylist p), addr, i, args, opts. split_and!; try done.
  by rewrite Hm, Ha in Hs.
Qed.
End agents.

(** ** Evaluation *)

Section evaluation.
Local Existing Instance re2.
Local Existing Instance sample_unicode.
Local Existing Instance insertion_sort.
Local Existing Instance sample_entropy.
Local Existing Instance toy_yaml.
Local Existing Instance demo_manager.
#[local] Instance offline : HttpClient := {|
  http_get _ _ := HttpError (go "refused"); http_post _ _ _ := HttpError (go "refused"); decode_error _ := go "json";
|}.

Definition idle_daemon : Daemon :=
  mkDaemon (mkManager DefaultConfig None) (NewWithEnabled (λ _, true)) (NewEntropy (f64_of_Z 4) 20)
    (NewGliner (go "http://127.0.0.1:0") []) 5000 (NewCache 10) (NewBlocker [] false) ∅ [] (NewFilter [] []) [].
Definition idle_world : World :=
  mkWorld idle_daemon not_listening (mkFwWorld NewController None None true) None (go "127.0.0.1:58601") (go "[::]:9080").
Definition switch_env : SwitchEnv :=
  mkSwitch (inr (go "[::]:61616")) Written true (mkFwEnv (λ _, Some [go "10.0.0.1"]) 7 true).

Theorem proxy_switch_witness :
  control_reach idle_world ∧ ap_status (handleProxyEnable switch_env idle_world).2 = 200
  ∧ px_open (wd_proxy (handleProxyDisable switch_env idle_world).1) = ∅.
Proof.
  assert (control_reach idle_world) as Hreach by (by apply control_new).
  destruct (proxy_switch idle_world switch_env Hreach) as [Hon (Hoff & _)].
  specialize (Hon eq_refl). split; [exact Hreach|]. split; [|exact Hoff].
  destruct (handleProxyEnable switch_env idle_world) as [w' r]. cbn [switch_env se_bind] in Hon. apply Hon.
Defined.

(** An agent on a device that has synced a bundle. *)
#[local] Instance bundle_ecdsa : Ecdsa := one_ecdsa demo_digest_of_bundle.
#[local] Instance bundle_text : PublicKeyText := bundle_pem.
Local Existing Instance SandboxExample.toy_cli.
Local Existing Instance SandboxExample.toy_cli_laws.
Definition agent_result :=
  agent (λ _, true) None Relayed switch_env None demo_synced.1 (λ _, true) (go "claude") [go "--resume"]
    (go "/home/me/project") (go "/home/me/.redactr/certs/ca.crt") idle_world.
Definition agent_argv : list gostring := match agent_result.2 with inr argv => argv | inl _ => [] end.
Lemma agent_runs : agent_result = (agent_result.1, inr agent_argv) ∧ (∃ l, agent_argv = go "docker" :: l).
Proof.
  assert (∃ l, (λ r : gostring + LaunchError + list gostring, match r with inr argv => argv | inl _ => [] end) agent_result.2
    = go "docker" :: l) as [l Hl] by (eexists; vm_compute; reflexivity).
  unfold agent_argv. destruct agent_result as [w' [err|argv]]; cbn [snd fst] in *; [done|]. split; [done|by exists l].
Qed.
Lemma demo_device_synced : synced id [] [bundle_json demo_bundle] demo_synced.1.
Proof.
  apply (synced_more id [] [bundle_json demo_bundle] demo_disk demo_reply 5 all_well _ demo_synced.2).
  - apply synced_new; [done|]. intros enr pub h r s _ _ [Hh%bool_decide_eq_true _]%andb_true_iff. subst h.
    by apply elem_of_cons; left.
  - intros url auth etag body payload m [= _ <-] Hc Hm _. rewrite demo_carried in Hc. injection Hc as <-.
    by apply list_elem_of_singleton in Hm.
  - apply surjective_pairing.
Qed.
Lemma demo_images image : bundled [bundle_json demo_bundle] image → option_like image = false.
Proof.
  intros (payload & b & Hp & Hb & ->). apply list_elem_of_singleton in Hp as ->.
  assert (pb_Image <$> (v ← Unmarshal (bundle_json demo_bundle); dec_bundle zero_bundle v) = Some (go "img@sha256:1")) as E
    by (vm_compute; reflexivity).
  rewrite Hb in E. cbn [fmap option_fmap option_map] in E. injection E as ->. reflexivity.
Qed.

Theorem agent_confined_witness :
  ∃ runtime bin image denylist addr i args opts,
    agent_argv = runtime :: go "run" :: args ∧ runtime ∈ preferredRuntimes ∧ knownAgents !! go "claude" = Some bin
    ∧ match dk_policy demo_synced.1 with
      | None => image = go "redactr-base:local"
      | Some _ => bundled [bundle_json demo_bundle] image
      end
    ∧ px_open (wd_proxy agent_result.1) !! i = Some addr
    ∧ pr_Enabled (cf_Proxy (cfg_of agent_result.1)) = true
    ∧ parse_run args = Some (opts, image, bin :: [go "--resume"])
    ∧ sealed runtime (agent_spec bin [go "--resume"] (go "/home/me/project") (go "/home/me/.redactr/certs/ca.crt")
        (mkLaunchInfo image (go "bind") denylist addr)) opts.
Proof.
  apply (agent_confined id [] [bundle_json demo_bundle] demo_synced.1 (λ _, true) None Relayed switch_env None
    (λ _, true) (go "claude") [go "--resume"] (go "/home/me/project") (go "/home/me/.redactr/certs/ca.crt") idle_world
    agent_result.1 agent_argv demo_device_synced demo_images (proj1 agent_runs)).
Defined.
End evaluation.
