(* ===== verification/Client.v ===== *)
(** * The control socket's client — cli/client.go against daemon/socket.go and internal/control

    What the daemon's handlers write to the socket as JSON, and what the command
    line and the tray read from it. *)
From S2P Require Import Prelude GoStr Utf8 GoFloat GoSort Spans Scanner Redactor Sha256 Cache Regex Rules FileBlock Coordinator Presidio Entropy Json JsonRound JsonDecode JsonStruct Gliner Domain Extract Proxy Config Sandbox Firewall Base64 Signing Token Bundle Sessions Store ServerAuth Httpapi Daemon Policy Control.
Local Open Scope Z_scope.

(** ** control.go *)

Definition status_json (s : ControlStatus) : json := JObj [
  (go "proxy", JObj [(go "enabled", JBool (ct_enabled s)); (go "addr", quoted (ct_addr s))]);
  (go "dashboard", quoted (ct_dashboard s)); (go "version", quoted (go "v2-dev"))].
Definition launch_json (li : LaunchInfo) : json := JObj [
  (go "image", quoted (li_Image li)); (go "mountMode", quoted (li_MountMode li));
  (go "denylist", match li_Denylist li with Some l => strings_json l | None => JNull end);
  (go "proxyAddr", quoted (li_ProxyAddr li))].

Section reading.
Context `{UnicodeData}.

(** Decoding into [Status], of which the version is not used, and into [LaunchInfo]. *)
Definition proxy_fields : list (gostring * decoder (bool * gostring)) := [
  (go "enabled", λ p v, (λ x, (x, p.2)) <$> dec_bool p.1 v); (go "addr", λ p v, (λ x, (p.1, x)) <$> dec_string p.2 v)].
Definition control_fields : list (gostring * decoder ControlStatus) := [
  (go "proxy", λ s v, (λ p, mkControlStatus p.1 p.2 (ct_dashboard s)) <$> dec_struct proxy_fields (ct_enabled s, ct_addr s) v);
  (go "dashboard", λ s v, (λ x, mkControlStatus (ct_enabled s) (ct_addr s) x) <$> dec_string (ct_dashboard s) v);
  (go "version", λ s v, (λ _, s) <$> dec_string [] v)].
Definition launch_fields : list (gostring * decoder LaunchInfo) := [
  (go "image", λ l v, (λ x, mkLaunchInfo x (li_MountMode l) (li_Denylist l) (li_ProxyAddr l)) <$> dec_string (li_Image l) v);
  (go "mountMode", λ l v, (λ x, mkLaunchInfo (li_Image l) x (li_Denylist l) (li_ProxyAddr l)) <$> dec_string (li_MountMode l) v);
  (go "denylist", λ l v, (λ x, mkLaunchInfo (li_Image l) (li_MountMode l) x (li_ProxyAddr l)) <$> dec_strings_opt (li_Denylist l) v);
  (go "proxyAddr", λ l v, (λ x, mkLaunchInfo (li_Image l) (li_MountMode l) (li_Denylist l) x) <$> dec_string (li_ProxyAddr l) v)].

(** ** client.go *)

(** What becomes of a request: an error of the transport, or a status and a body. *)
Inductive socket_answer := NoSocket (e : gostring) | Answered (status : Z) (body : gostring).
(** [refused]: the text for a status that reports an error; [lib_error]: that of the decoder. *)
Definition read_answer {A : Type} (lib_error : gostring → gostring) (refused : Z → gostring) (fields : list (gostring * decoder A)) (zero : A)
    (a : socket_answer) : gostring + A :=
  match a with
  | NoSocket e => inl e
  | Answered status body =>
      if 300 <=? status then inl (refused status)
      else match v ← DecodeFirst body; dec_struct fields zero v with Some x => inr x | None => inl (lib_error body) end
  end.
Definition status_refused (what : gostring) (status : Z) : gostring := what ++ go " failed (status " ++ Itoa status ++ go ")".
(** [return s, decode(&s)]: Go leaves the order of the two open, and its compiler reads [s] after
    the call, as the model does; with an error the value is not used. *)
Definition zero_status : ControlStatus := mkControlStatus false [] [].
Definition zero_launch : LaunchInfo := mkLaunchInfo [] [] None [].
Definition ClientStatus lib_error := read_answer lib_error (status_refused (go "GET /status")) control_fields zero_status.
Definition EnableProxy lib_error := read_answer lib_error (status_refused (go "proxy enable")) control_fields zero_status.
Definition DisableProxy lib_error := read_answer lib_error (status_refused (go "proxy disable")) control_fields zero_status.
Definition LaunchPolicy lib_error tool :=
  read_answer lib_error (status_refused (go "GET " ++ launch_path tool)) launch_fields zero_launch.

End reading.

(** ** socket.go: the replies *)

Definition writeControlJSON (v : json) : socket_answer := Answered 200 (compact v ++ [byte_of 10]).
(** [http.Error] *)
Definition socket_error (status : Z) (e : gostring) : socket_answer := Answered status (e ++ [byte_of 10]).

Section client.
Context `{RegexpEngine} `{UnicodeData} `{GoSort} `{EntropyEnv} `{HttpClient} `{Yaml} `{FwManager}.

Definition serveStatus (w : World) : socket_answer := writeControlJSON (status_json (statusValue w)).
Definition serveLaunchPolicy (load : option gostring) (disk : Disk) (w : World) : socket_answer :=
  match handleLaunchPolicy load disk w with inl e => socket_error 500 e | inr info => writeControlJSON (launch_json info) end.
Definition serveEnable (fate : relay_fate) (e : SwitchEnv) (w : World) : World * socket_answer :=
  match socketEnable fate e w with
  | (w, inl err) => (w, socket_error 502 err)
  | (w, inr st) => (w, writeControlJSON (status_json st))
  end.
Definition serveDisable (fate : relay_fate) (e : SwitchEnv) (w : World) : World * socket_answer :=
  match socketDisable fate e w with
  | (w, inl err) => (w, socket_error 502 err)
  | (w, inr st) => (w, writeControlJSON (status_json st))
  end.

(** The values as they come back: JSON text is UTF-8. *)
Definition wire_status (s : ControlStatus) : ControlStatus :=
  mkControlStatus (ct_enabled s) (valid_utf8 (ct_addr s)) (valid_utf8 (ct_dashboard s)).
Definition wire_launch (li : LaunchInfo) : LaunchInfo :=
  mkLaunchInfo (valid_utf8 (li_Image li)) (valid_utf8 (li_MountMode li)) (option_map (map valid_utf8) (li_Denylist li)) (valid_utf8 (li_ProxyAddr li)).

Lemma proxy_read enabled addr cur :
  dec_struct proxy_fields cur (canon (JObj [(go "enabled", JBool enabled); (go "addr", quoted addr)])) = Some (enabled, valid_utf8 addr).
Proof. erewrite dec_struct_member; [|reflexivity|reflexivity]. read_member. by rewrite dec_struct_nil. Qed.
Lemma control_read lib_error refused s :
  read_answer lib_error refused control_fields zero_status (writeControlJSON (status_json s)) = inr (wire_status s).
Proof.
  unfold writeControlJSON, read_answer, status_json. change (300 <=? 200) with false. cbv iota.
  set (ms := [_; _; _]). assert (Forall wire_member ms) as Hms.
  { apply Forall_cons_2; [|by wire]. destruct (members_ok [(go "enabled", JBool (ct_enabled s)); (go "addr", quoted (ct_addr s))]) as [Hok _]; [by wire|].
    split_and!; [reflexivity|exact Hok|cbn; lia]. }
  rewrite DecodeFirst_members by done. cbn [mbind option_bind]. unfold ms.
  erewrite dec_struct_member; [|reflexivity|cbv beta; rewrite proxy_read; reflexivity].
  read_member. read_member. by rewrite dec_struct_nil.
Qed.
Lemma launch_read lib_error refused li :
  read_answer lib_error refused launch_fields zero_launch (writeControlJSON (launch_json li)) = inr (wire_launch li).
Proof.
  unfold writeControlJSON, read_answer, launch_json. change (300 <=? 200) with false. cbv iota.
  set (ms := [_; _; _; _]). assert (Forall wire_member ms) as Hms by (unfold ms; destruct (li_Denylist li); wire; done).
  rewrite DecodeFirst_members by done. cbn [mbind option_bind]. unfold ms. do 2 read_member.
  destruct (li_Denylist li) as [l|] eqn:Hl.
  - erewrite dec_struct_member; [|reflexivity|cbv beta; rewrite dec_strings_opt_list; reflexivity].
    read_member. rewrite dec_struct_nil. unfold wire_launch. by rewrite Hl.
  - erewrite dec_struct_member; [|reflexivity|reflexivity]. read_member. rewrite dec_struct_nil. unfold wire_launch. by rewrite Hl.
Qed.

(** C15: the socket carries what the daemon says. The client reads from the reply to each request
    exactly the status, or the launch policy with its denylist absent or present, that the daemon
    computed for it, as UTF-8; a request that the daemon refuses comes back as an error that
    names the request and the status, never as a value. *)
Theorem socket_roundtrip lib_error fate e load disk tool w :
  ClientStatus lib_error (serveStatus w) = inr (wire_status (statusValue w))
  ∧ (let '(w', answer) := serveEnable fate e w in w' = (socketEnable fate e w).1
       ∧ EnableProxy lib_error answer = match (socketEnable fate e w).2 with
           | inr st => inr (wire_status st) | inl _ => inl enable_refused end)
  ∧ (let '(w', answer) := serveDisable fate e w in w' = (socketDisable fate e w).1
       ∧ DisableProxy lib_error answer = match (socketDisable fate e w).2 with
           | inr st => inr (wire_status st) | inl _ => inl (go "proxy disable failed (status 502)") end)
  ∧ LaunchPolicy lib_error tool (serveLaunchPolicy load disk w) = match handleLaunchPolicy load disk w with
      | inr info => inr (wire_launch info) | inl _ => inl (launch_refused tool) end.
Proof.
  split; [apply control_read|]. split; [|split].
  - unfold serveEnable. destruct (socketEnable fate e w) as [w' [err|st]]; (split; [done|]); [done|apply control_read].
  - unfold serveDisable. destruct (socketDisable fate e w) as [w' [err|st]]; (split; [done|]); [done|apply control_read].
  - unfold serveLaunchPolicy. destruct (handleLaunchPolicy load disk w) as [err|info]; [|apply launch_read].
    unfold LaunchPolicy, read_answer, socket_error, status_refused, launch_refused. change (300 <=? 500) with true. cbv iota.
    by rewrite <- !(assoc_L (++)).
Qed.
End client.
