(* ===== verification/History.v ===== *)
(** * The local history — internal/store/store.go

    The reports the proxy and the dashboard write are kept as JSON in a bucket of a
    bbolt file, keyed by their time, and are queried by the dashboard.  The bucket
    is the class [Bolt]; the encoding is executable. *)
From S2P Require Import Prelude GoStr Utf8 GoFloat GoSort Spans Scanner Redactor Sha256 Cache Regex Rules FileBlock Coordinator Json JsonRound JsonDecode JsonStruct Domain Extract Proxy Firewall Base64 Signing Token Bundle Sessions Store ServerAuth Httpapi.
Local Open Scope Z_scope.

(** go.etcd.io/bbolt: a bucket maps byte strings to byte strings, and [ForEach] visits the pairs
    in the order of their keys. *)
Class Bolt := {
  bk_State : Type;
  bk_empty : bk_State;
  bk_Get : bk_State → gostring → option gostring;
  bk_Put : bk_State → gostring → gostring → bk_State;
  bk_ForEach : bk_State → list (gostring * gostring);
}.
Class BoltLaws `{Bolt} : Prop := {
  bk_Get_empty k : bk_Get bk_empty k = None;
  bk_Get_Put db k v k' : bk_Get (bk_Put db k v) k' = if bool_decide (k' = k) then Some v else bk_Get db k';
  bk_ForEach_elem db k v : (k, v) ∈ bk_ForEach db ↔ bk_Get db k = Some v;
  bk_ForEach_keys db : NoDup (bk_ForEach db).*1;
  bk_ForEach_sorted db : StronglySorted str_le (bk_ForEach db).*1;
}.

(** ** The JSON of a report *)

Section report_json.
Context `{UnicodeData} `{TimeText}.

Definition redaction_members (r : Redaction) : list (gostring * json) := [
  (go "label", quoted (rd_label r)); (go "original", quoted (rd_original r));
  (go "start", JNum (Itoa (rd_start r))); (go "end", JNum (Itoa (rd_end r))); (go "layer", quoted (rd_layer r))].
Definition layer_members (l : LayerResult) : list (gostring * json) := [
  (go "name", quoted (lr_name l)); (go "findings_count", JNum (Itoa (lr_count l)));
  (go "latency_ms", JNum (Itoa (lr_ms l)))].
(** A slice is nil while nothing was appended to it. *)
Definition slice_json {A} (members : A → list (gostring * json)) (l : list A) : json :=
  match l with [] => JNull | _ => JArr ((λ x, JObj (members x)) <$> l) end.
Definition report_members (r : ScanReport) : list (gostring * json) := [
  (go "id", quoted (sc_id r)); (go "timestamp", quoted (time_text (sc_time r)));
  (go "provider", quoted (sc_provider r)); (go "source", quoted (sc_source r));
  (go "latency_ms", JNum (Itoa (sc_ms r)));
  (go "redactions", slice_json redaction_members (sc_redactions r));
  (go "layers", slice_json layer_members (sc_layers r));
  (go "blocked", JBool (sc_blocked r)); (go "reason", quoted (sc_reason r))].
(** [json.Marshal] *)
Definition report_json (r : ScanReport) : gostring := compact (JObj (report_members r)).

Definition zero_redaction : Redaction := mkRedaction [] [] 0 0 [].
Definition zero_layer : LayerResult := mkLayerResult [] 0 0.
Definition zero_report : ScanReport := mkScanReport [] zero_time [] [] 0 [] [] false [].
Definition redaction_fields : list (gostring * decoder Redaction) := [
  (go "label", λ r v, (λ x, mkRedaction x (rd_original r) (rd_start r) (rd_end r) (rd_layer r)) <$> dec_string (rd_label r) v);
  (go "original", λ r v, (λ x, mkRedaction (rd_label r) x (rd_start r) (rd_end r) (rd_layer r)) <$> dec_string (rd_original r) v);
  (go "start", λ r v, (λ x, mkRedaction (rd_label r) (rd_original r) x (rd_end r) (rd_layer r)) <$> dec_int (rd_start r) v);
  (go "end", λ r v, (λ x, mkRedaction (rd_label r) (rd_original r) (rd_start r) x (rd_layer r)) <$> dec_int (rd_end r) v);
  (go "layer", λ r v, (λ x, mkRedaction (rd_label r) (rd_original r) (rd_start r) (rd_end r) x) <$> dec_string (rd_layer r) v)].
Definition layer_fields : list (gostring * decoder LayerResult) := [
  (go "name", λ l v, (λ x, mkLayerResult x (lr_count l) (lr_ms l)) <$> dec_string (lr_name l) v);
  (go "findings_count", λ l v, (λ x, mkLayerResult (lr_name l) x (lr_ms l)) <$> dec_int (lr_count l) v);
  (go "latency_ms", λ l v, (λ x, mkLayerResult (lr_name l) (lr_count l) x) <$> dec_int (lr_ms l) v)].
Definition report_fields : list (gostring * decoder ScanReport) := [
  (go "id", λ r v, (λ x, mkScanReport x (sc_time r) (sc_provider r) (sc_source r) (sc_ms r) (sc_redactions r) (sc_layers r) (sc_blocked r) (sc_reason r)) <$> dec_string (sc_id r) v);
  (go "timestamp", λ r v, (λ x, mkScanReport (sc_id r) x (sc_provider r) (sc_source r) (sc_ms r) (sc_redactions r) (sc_layers r) (sc_blocked r) (sc_reason r)) <$> dec_time (sc_time r) v);
  (go "provider", λ r v, (λ x, mkScanReport (sc_id r) (sc_time r) x (sc_source r) (sc_ms r) (sc_redactions r) (sc_layers r) (sc_blocked r) (sc_reason r)) <$> dec_string (sc_provider r) v);
  (go "source", λ r v, (λ x, mkScanReport (sc_id r) (sc_time r) (sc_provider r) x (sc_ms r) (sc_redactions r) (sc_layers r) (sc_blocked r) (sc_reason r)) <$> dec_string (sc_source r) v);
  (go "latency_ms", λ r v, (λ x, mkScanReport (sc_id r) (sc_time r) (sc_provider r) (sc_source r) x (sc_redactions r) (sc_layers r) (sc_blocked r) (sc_reason r)) <$> dec_int (sc_ms r) v);
  (go "redactions", λ r v, (λ x, mkScanReport (sc_id r) (sc_time r) (sc_provider r) (sc_source r) (sc_ms r) x (sc_layers r) (sc_blocked r) (sc_reason r)) <$> dec_slice zero_redaction (dec_struct redaction_fields) (sc_redactions r) v);
  (go "layers", λ r v, (λ x, mkScanReport (sc_id r) (sc_time r) (sc_provider r) (sc_source r) (sc_ms r) (sc_redactions r) x (sc_blocked r) (sc_reason r)) <$> dec_slice zero_layer (dec_struct layer_fields) (sc_layers r) v);
  (go "blocked", λ r v, (λ x, mkScanReport (sc_id r) (sc_time r) (sc_provider r) (sc_source r) (sc_ms r) (sc_redactions r) (sc_layers r) x (sc_reason r)) <$> dec_bool (sc_blocked r) v);
  (go "reason", λ r v, (λ x, mkScanReport (sc_id r) (sc_time r) (sc_provider r) (sc_source r) (sc_ms r) (sc_redactions r) (sc_layers r) (sc_blocked r) x) <$> dec_string (sc_reason r) v)].
Definition read_report (data : gostring) : option ScanReport :=
  v ← Unmarshal data; dec_struct report_fields zero_report v.
End report_json.

(** ** Operations *)

Record QueryFilter := mkQuery {
  qf_Provider : gostring; qf_Source : gostring; qf_Blocked : option bool;
  qf_Since : Z; qf_Until : Z; qf_Limit : Z;
}.
Record Stats := mkStats { st_TotalScanned : Z; st_TotalRedactions : Z; st_TotalBlocked : Z; st_AvgLatencyMs : float64 }.
Definition set_id (id : gostring) (r : ScanReport) : ScanReport :=
  mkScanReport id (sc_time r) (sc_provider r) (sc_source r) (sc_ms r) (sc_redactions r) (sc_layers r)
    (sc_blocked r) (sc_reason r).

Section history.
Context `{UnicodeData} `{TimeText} `{Bolt} `{GoSort}.

(** The key is [Timestamp.UnixNano] in decimal. *)
Definition report_id (r : ScanReport) : gostring := Itoa (wrap64 (sc_time r)).
(** [io]: the error of the transaction. *)
Definition SaveReport (io : option gostring) (r : ScanReport) (db : bk_State)
    : bk_State * gostring * option gostring :=
  let id := report_id r in
  let r := set_id id r in
  match io with
  | Some e => (db, id, Some e)
  | None => (bk_Put db id (report_json r), id, None)
  end.
Definition GetReport (io : option gostring) (id : gostring) (db : bk_State) : gostring + ScanReport :=
  match io with
  | Some e => inl e
  | None =>
      match bk_Get db id with
      | None => inl (go "report " ++ id ++ go " not found")
      | Some data => match read_report data with Some r => inr r | None => inl (go "json") end
      end
  end.

Definition query_keeps (f : QueryFilter) (r : ScanReport) : bool :=
  negb (negb (bool_decide (qf_Provider f = [])) && negb (bool_decide (sc_provider r = qf_Provider f)))
  && negb (negb (bool_decide (qf_Source f = [])) && negb (bool_decide (sc_source r = qf_Source f)))
  && match qf_Blocked f with Some b => bool_decide (sc_blocked r = b) | None => true end
  && negb (negb (qf_Since f =? zero_time) && (sc_time r <? qf_Since f))
  && negb (negb (qf_Until f =? zero_time) && (qf_Until f <? sc_time r)).
(** The reports of the bucket that can be read, in the order of the keys. *)
Definition stored (db : bk_State) : list ScanReport := omap (λ kv, read_report kv.2) (bk_ForEach db).
Definition QueryReports (io : option gostring) (f : QueryFilter) (db : bk_State) : gostring + list ScanReport :=
  match io with
  | Some e => inl e
  | None =>
      let results := sort_slice (λ a b, sc_time b <? sc_time a) (filter (λ r, query_keeps f r = true) (stored db)) in
      inr (if (0 <? qf_Limit f) && (qf_Limit f <? len results) then take (Z.to_nat (qf_Limit f)) results else results)
  end.

(** The counters of [GetStats]: scanned, redactions, blocked, total latency. *)
Definition count_report (since until : Z) (acc : Z * Z * Z * Z) (r : ScanReport) : Z * Z * Z * Z :=
  if (sc_time r <? since) || (until <? sc_time r) then acc
  else
    let '(scanned, redactions, blocked, latency) := acc in
    (scanned + 1, redactions + len (sc_redactions r), blocked + (if sc_blocked r then 1 else 0),
     wrap64 (latency + sc_ms r)).
Definition GetStats (io : option gostring) (since until : Z) (db : bk_State) : gostring + Stats :=
  match io with
  | Some e => inl e
  | None =>
      let '(scanned, redactions, blocked, latency) := foldl (count_report since until) (0, 0, 0, 0) (stored db) in
      inr (mkStats scanned redactions blocked
             (if 0 <? scanned then f64_div (f64_of_Z latency) (f64_of_Z scanned) else f64_of_Z 0))
  end.

(** ** api/routes.go *)

(** [limit], [provider]: the query parameters, empty when absent. *)
Definition handleGetLogs (io : option gostring) (limit provider : gostring) (db : bk_State) : gostring + list ScanReport :=
  let n := if bool_decide (limit = []) then 50 else default 50 (Atoi limit) in
  QueryReports io (mkQuery provider [] None zero_time zero_time n) db.
Definition handleGetStats (io : option gostring) (now : Z) (db : bk_State) : gostring + Stats :=
  GetStats io (now - 24 * 3600 * 10 ^ 9) now db.
End history.

(** ** Encoding and decoding *)

(** What the texts of times promise: RFC 3339 with nanoseconds reads back. *)
Class TimeLaws `{TimeText} : Prop :=
  time_reads_back t : 0 ≤ t < 2 ^ 63 → time_parse (quote_lit (time_text t)) = Some t.

(** JSON keeps integers of 63 bits and UTF-8 text; other bytes are replaced. *)
Definition nat63 (n : Z) : Prop := 0 ≤ n < 2 ^ 63.
Record storable (r : ScanReport) : Prop := {
  so_time : nat63 (sc_time r);
  so_ms : nat63 (sc_ms r);
  so_redactions : Forall (λ x, nat63 (rd_start x) ∧ nat63 (rd_end x)) (sc_redactions r);
  so_layers : Forall (λ x, nat63 (lr_count x) ∧ nat63 (lr_ms x)) (sc_layers r);
}.
Definition wire_redaction (r : Redaction) : Redaction :=
  mkRedaction (valid_utf8 (rd_label r)) (valid_utf8 (rd_original r)) (rd_start r) (rd_end r) (valid_utf8 (rd_layer r)).
Definition wire_layer (l : LayerResult) : LayerResult := mkLayerResult (valid_utf8 (lr_name l)) (lr_count l) (lr_ms l).
Definition wire_report (r : ScanReport) : ScanReport :=
  mkScanReport (valid_utf8 (sc_id r)) (sc_time r) (valid_utf8 (sc_provider r)) (valid_utf8 (sc_source r)) (sc_ms r)
    (wire_redaction <$> sc_redactions r) (wire_layer <$> sc_layers r) (sc_blocked r) (valid_utf8 (sc_reason r)).

Section encoding.
Context `{UnicodeData} `{TimeLaws}.

(** A slice of structs. *)
Lemma slice_wire {A} (members : A → list (gostring * json)) (l : list A) :
  Forall (λ x, Forall (λ kv, wire_member kv ∧ (jdepth kv.2 ≤ 0)%N) (members x)) l →
  json_ok (slice_json members l) ∧ (jdepth (slice_json members l) ≤ 2)%N.
Proof.
  intros Hl. assert (json_ok (JArr ((λ x, JObj (members x)) <$> l))
    ∧ (jdepth (JArr ((λ x, JObj (members x)) <$> l)) ≤ 2)%N) as Hm; [|by destruct l].
  split.
  - apply json_ok_arr, Forall_fmap. eapply Forall_impl; [exact Hl|]. intros x Hx. apply members_ok.
    eapply Forall_impl; [exact Hx|]. by intros kv [? _].
  - cbn [jdepth]. assert (foldr (λ x n, N.max (jdepth x) n) 0%N ((λ x, JObj (members x)) <$> l) ≤ 1)%N; [|lia].
    induction Hl as [|x l Hx _ IH]; [done|]. rewrite fmap_cons. cbn [foldr jdepth].
    assert (foldr (λ kv n, N.max (jdepth kv.2) n) 0%N (members x) ≤ 0)%N as Hd; [|lia].
    induction Hx as [|kv ms [_ Hkv] _ IHm]; cbn [foldr]; [done|lia].
Qed.
Lemma dec_slice_structs {A} (members : A → list (gostring * json)) fields zero (f : A → A) (l : list A) cur :
  Forall (λ x, dec_struct fields zero (canon (JObj (members x))) = Some (f x)) l →
  dec_slice zero (dec_struct fields) cur (canon (slice_json members l)) = Some (f <$> l).
Proof.
  intros Hl. assert (dec_slice zero (dec_struct fields) cur (canon (JArr ((λ x, JObj (members x)) <$> l))) = Some (f <$> l)) as Hm;
    [|by destruct l].
  cbn [canon dec_slice]. induction Hl as [|x l Hx _ IH]; [done|]. rewrite !fmap_cons. cbn [mapM]. by rewrite Hx, IH.
Qed.

Lemma redaction_wire x : nat63 (rd_start x) → nat63 (rd_end x) →
  Forall (λ kv, wire_member kv ∧ (jdepth kv.2 ≤ 0)%N) (redaction_members x).
Proof.
  intros Hs He. unfold redaction_members.
  repeat (apply Forall_cons_2; [split; [|done]; first [by apply wire_quoted|by apply wire_int]|]). constructor.
Qed.
Lemma redaction_read x : nat63 (rd_start x) → nat63 (rd_end x) →
  dec_struct redaction_fields zero_redaction (canon (JObj (redaction_members x))) = Some (wire_redaction x).
Proof. intros Hs He. unfold redaction_members. do 5 read_member. by rewrite dec_struct_nil. Qed.
Lemma layer_wire x : nat63 (lr_count x) → nat63 (lr_ms x) →
  Forall (λ kv, wire_member kv ∧ (jdepth kv.2 ≤ 0)%N) (layer_members x).
Proof.
  intros Hs He. unfold layer_members.
  repeat (apply Forall_cons_2; [split; [|done]; first [by apply wire_quoted|by apply wire_int]|]). constructor.
Qed.
Lemma layer_read x : nat63 (lr_count x) → nat63 (lr_ms x) →
  dec_struct layer_fields zero_layer (canon (JObj (layer_members x))) = Some (wire_layer x).
Proof. intros Hs He. unfold layer_members. do 3 read_member. by rewrite dec_struct_nil. Qed.

Lemma dec_time_text cur t : 0 ≤ t < 2 ^ 63 → dec_time cur (canon (quoted (time_text t))) = Some t.
Proof. intros Ht. rewrite canon_quoted. by apply time_reads_back. Qed.

Lemma report_wire r : storable r → Forall wire_member (report_members r).
Proof.
  intros [Ht Hm Hr Hl]. unfold report_members.
  destruct (slice_wire redaction_members (sc_redactions r)) as [Hr1 Hr2].
  { eapply Forall_impl; [exact Hr|]. intros x []. by apply redaction_wire. }
  destruct (slice_wire layer_members (sc_layers r)) as [Hl1 Hl2].
  { eapply Forall_impl; [exact Hl|]. intros x []. by apply layer_wire. }
  wire; by split_and!.
Qed.
Lemma report_field_names : NoDup report_fields.*1.
Proof. apply (bool_decide_unpack _). vm_compute. exact I. Qed.
Local Ltac member i value := read_member_at i report_field_names value
  ltac:(cbn [sc_id sc_time sc_provider sc_source sc_ms sc_redactions sc_layers sc_blocked sc_reason]).
(** A report reads back as it was written, its texts as UTF-8. *)
Lemma report_read r : storable r → read_report (report_json r) = Some (wire_report r).
Proof.
  intros Hs. pose proof (report_wire r Hs) as Hw. destruct Hs as [Ht Hm Hr Hl].
  assert (Forall (λ x, dec_struct redaction_fields zero_redaction (canon (JObj (redaction_members x))) = Some (wire_redaction x))
    (sc_redactions r)) as Hr' by (eapply Forall_impl; [exact Hr|]; intros x []; by apply redaction_read).
  assert (Forall (λ x, dec_struct layer_fields zero_layer (canon (JObj (layer_members x))) = Some (wire_layer x))
    (sc_layers r)) as Hl' by (eapply Forall_impl; [exact Hl|]; intros x []; by apply layer_read).
  unfold read_report, report_json. rewrite Unmarshal_members by exact Hw. cbn [mbind option_bind].
  unfold report_members, zero_report.
  member 0%nat ltac:(rewrite dec_string_quoted). member 1%nat ltac:(rewrite dec_time_text by exact Ht).
  member 2%nat ltac:(rewrite dec_string_quoted). member 3%nat ltac:(rewrite dec_string_quoted).
  member 4%nat ltac:(rewrite dec_int_Itoa by exact Hm).
  member 5%nat ltac:(rewrite (dec_slice_structs _ _ _ wire_redaction _ _ Hr')).
  member 6%nat ltac:(rewrite (dec_slice_structs _ _ _ wire_layer _ _ Hl')).
  member 7%nat idtac. member 8%nat ltac:(rewrite dec_string_quoted). by rewrite dec_struct_nil.
Qed.
End encoding.

(** ** Runs *)

Section runs.
Context `{UnicodeData} `{TimeLaws} `{BoltLaws} `{GoSort}.

(** The bucket after a sequence of saves, with the outcome of each transaction. *)
Definition save_all (saves : list (option gostring * ScanReport)) : bk_State :=
  foldl (λ db s, (SaveReport s.1 s.2 db).1.1) bk_empty saves.
(** The reference: a finite map from ids to the last report saved under them. *)
Definition saved (saves : list (option gostring * ScanReport)) : gmap gostring ScanReport :=
  foldl (λ m s, match s.1 with Some _ => m | None => <[report_id s.2 := set_id (report_id s.2) s.2]> m end) ∅ saves.
Definition reports_of (saves : list (option gostring * ScanReport)) : list ScanReport :=
  wire_report <$> (map_to_list (saved saves)).*2.

Definition holds (db : bk_State) (m : gmap gostring ScanReport) : Prop :=
  (∀ k, bk_Get db k = report_json <$> m !! k) ∧ map_Forall (λ _ r, storable r) m.
Lemma storable_set_id id r : storable r → storable (set_id id r).
Proof. by intros []. Qed.
Lemma save_all_holds saves : Forall (λ s, storable s.2) saves → holds (save_all saves) (saved saves).
Proof.
  unfold save_all, saved. assert (holds bk_empty ∅) as Hempty.
  { split; [|apply map_Forall_empty]. intros k. by rewrite bk_Get_empty, lookup_empty. }
  revert Hempty. generalize bk_empty (∅ : gmap gostring ScanReport).
  induction saves as [|[io r] saves IH]; intros db m Hh; [done|]. intros [Hr Hs]%Forall_cons. cbn [foldl fst snd].
  apply IH; [|done]. destruct io as [e|]; cbn [SaveReport fst]; [done|]. destruct Hh as [Hg Hm]. split.
  - intros k. rewrite bk_Get_Put. case_bool_decide as Hk.
    + by rewrite Hk, lookup_insert_eq.
    + by rewrite lookup_insert_ne, Hg by done.
  - apply map_Forall_insert_2; [by apply storable_set_id|done].
Qed.

(** What the loops of the queries see is what the map holds. *)
Lemma stored_reports db m : holds db m → stored db ≡ₚ wire_report <$> (map_to_list m).*2.
Proof.
  intros [Hg Hm]. unfold stored.
  assert (bk_ForEach db ≡ₚ map_to_list (report_json <$> m)) as ->.
  { apply NoDup_Permutation; [eapply NoDup_fmap_1, bk_ForEach_keys|apply NoDup_map_to_list|].
    intros [k v]. by rewrite bk_ForEach_elem, elem_of_map_to_list, Hg, lookup_fmap. }
  rewrite map_to_list_fmap. assert (Forall (λ kr : gostring * ScanReport, storable kr.2) (map_to_list m)) as Hall.
  { apply Forall_forall. intros [k r] Hin%elem_of_map_to_list. by apply (Hm k). }
  induction Hall as [|[k r] l Hr _ IH]; [done|]. cbn [snd] in Hr.
  rewrite !fmap_cons. cbn [omap list_omap prod_map fst snd]. rewrite (report_read r Hr). by rewrite IH.
Qed.

(** ** Sums *)

Definition sumZ (l : list Z) : Z := foldr Z.add 0 l.
Lemma sumZ_perm l1 l2 : l1 ≡ₚ l2 → sumZ l1 = sumZ l2.
Proof. unfold sumZ. induction 1; cbn [foldr]; lia. Qed.
Lemma sumZ_nonneg l : Forall (λ n, 0 ≤ n) l → 0 ≤ sumZ l.
Proof. unfold sumZ. induction 1; cbn [foldr]; lia. Qed.
Lemma sumZ_latency (P : ScanReport → Prop) `{!∀ r, Decision (P r)} l :
  Forall (λ r, 0 ≤ sc_ms r) l → 0 ≤ sumZ (sc_ms <$> filter P l).
Proof.
  intros Hl. apply sumZ_nonneg, Forall_fmap, Forall_forall. intros r [_ Hr]%list_elem_of_filter.
  rewrite Forall_forall in Hl. by apply Hl.
Qed.
Definition in_period (since until : Z) (r : ScanReport) : Prop := since ≤ sc_time r ≤ until.
#[local] Instance in_period_dec since until r : Decision (in_period since until r).
Proof. unfold in_period. apply _. Defined.
Lemma count_report_in since until a b c d r :
  count_report since until (a, b, c, d) r = if decide (in_period since until r)
    then (a + 1, b + len (sc_redactions r), c + (if sc_blocked r then 1 else 0), wrap64 (d + sc_ms r)) else (a, b, c, d).
Proof.
  unfold count_report, in_period. case_decide as Hin.
  - by rewrite !(proj2 (Z.ltb_ge _ _)) by lia.
  - destruct (Z.ltb_spec (sc_time r) since), (Z.ltb_spec until (sc_time r)); cbn [orb]; (done || lia).
Qed.
Lemma count_reports since until l a b c d :
  Forall (λ r, 0 ≤ sc_ms r) l → 0 ≤ d → let kept := filter (in_period since until) l in
  d + sumZ (sc_ms <$> kept) < 2 ^ 63 →
  foldl (count_report since until) (a, b, c, d) l
  = (a + len kept, b + sumZ ((λ r, len (sc_redactions r)) <$> kept), c + len (filter (λ r, sc_blocked r = true) kept),
     d + sumZ (sc_ms <$> kept)).
Proof.
  cbv zeta. revert a b c d. induction l as [|r l IH]; intros a b c d Hms Hd Hsum; cbn [foldl].
  { cbn. unfold len. cbn [length]. apply (f_equal2 pair); [apply (f_equal2 pair); [apply (f_equal2 pair)|]|]; lia. }
  apply Forall_cons in Hms as [Hr Hms].
  pose proof (sumZ_latency (in_period since until) l Hms) as Hpos.
  rewrite filter_cons in Hsum |- *.
  rewrite count_report_in. destruct (decide (in_period since until r)) as [Hw|Hw].
  - rewrite fmap_cons in *. cbn [sumZ foldr] in Hsum.
    fold (sumZ (sc_ms <$> filter (in_period since until) l)) in Hsum.
    rewrite wrap64_small by lia. rewrite IH by (done || lia).
    rewrite !fmap_cons, (filter_cons (λ r, sc_blocked r = true)). cbn [sumZ foldr].
    destruct (sc_blocked r).
    + rewrite decide_True by done. unfold len, sumZ. cbn [length]. rewrite !Nat2Z.inj_succ, !Z.add_assoc.
      by replace (a + Z.succ _) with (a + 1 + Z.of_nat (length (filter (in_period since until) l))) by lia;
        replace (c + Z.succ _) with (c + 1 + Z.of_nat (length (filter (λ r, sc_blocked r = true)
          (filter (in_period since until) l)))) by lia.
    + rewrite decide_False by done. unfold len, sumZ. cbn [length]. rewrite !Nat2Z.inj_succ, !Z.add_assoc, Z.add_0_r.
      by replace (a + Z.succ _) with (a + 1 + Z.of_nat (length (filter (in_period since until) l))) by lia.
  - by apply IH.
Qed.

(** ** The dashboard's queries *)

(** What a filter asks of a report; empty texts, no answer and the zero time ask nothing. *)
Record matches (f : QueryFilter) (r : ScanReport) : Prop := {
  mt_provider : qf_Provider f ≠ [] → sc_provider r = qf_Provider f;
  mt_source : qf_Source f ≠ [] → sc_source r = qf_Source f;
  mt_blocked b : qf_Blocked f = Some b → sc_blocked r = b;
  mt_since : qf_Since f ≠ zero_time → qf_Since f ≤ sc_time r;
  mt_until : qf_Until f ≠ zero_time → sc_time r ≤ qf_Until f;
}.
Lemma query_keeps_spec f r : query_keeps f r = true ↔ matches f r.
Proof.
  unfold query_keeps. rewrite !andb_true_iff, !negb_true_iff, !andb_false_iff, !negb_false_iff, !bool_decide_eq_true,
    !Z.eqb_eq, !Z.ltb_ge. split.
  - intros [[[[Hp Hs] Hb] Ht] Hu]. split; [tauto|tauto| |tauto|tauto]. intros b Hf. rewrite Hf in Hb. by case_bool_decide.
  - intros [Hp Hs Hb Ht Hu]. split_and!.
    + destruct (decide (qf_Provider f = [])); tauto.
    + destruct (decide (qf_Source f = [])); tauto.
    + destruct (qf_Blocked f) as [b|]; [|done]. by apply bool_decide_eq_true, Hb.
    + destruct (decide (qf_Since f = zero_time)); tauto.
    + destruct (decide (qf_Until f = zero_time)); tauto.
Qed.
#[local] Instance matches_dec f r : Decision (matches f r).
Proof. destruct (query_keeps f r) eqn:Hk; [left|right]; rewrite <- query_keeps_spec; congruence. Defined.

Lemma filter_Permutation {A} (P : A → Prop) `{!∀ x, Decision (P x)} (l1 l2 : list A) :
  l1 ≡ₚ l2 → filter P l1 ≡ₚ filter P l2.
Proof. by intros ->. Qed.
Lemma StronglySorted_split {A} (R : A → A → Prop) l1 l2 : StronglySorted R (l1 ++ l2) →
  StronglySorted R l1 ∧ ∀ x y, x ∈ l1 → y ∈ l2 → R x y.
Proof.
  induction l1 as [|a l1 IH]; [split; [constructor|by intros ?? ?%not_elem_of_nil]|]. cbn [app].
  intros [Hs Hf]%StronglySorted_inv. destruct (IH Hs) as [Hs1 Hr]. rewrite Forall_forall in Hf. split.
  - constructor; [done|]. apply Forall_forall. intros x Hx. apply Hf, elem_of_app. by left.
  - intros x y [->|Hx]%elem_of_cons Hy; [|by apply Hr]. apply Hf, elem_of_app. by right.
Qed.

Lemma GetReport_saved saves id : Forall (λ s, storable s.2) saves →
  GetReport None id (save_all saves) =
    match saved saves !! id with Some r => inr (wire_report r) | None => inl (go "report " ++ id ++ go " not found") end.
Proof.
  intros [Hg Hm]%save_all_holds. unfold GetReport. rewrite Hg.
  destruct (saved saves !! id) as [r|] eqn:Hr; cbn [fmap option_fmap option_map]; [|done].
  by rewrite (report_read r (Hm _ _ Hr)).
Qed.

Lemma QueryReports_saved saves f : Forall (λ s, storable s.2) saves →
  let matching := filter (matches f) (reports_of saves) in
  ∃ found rest, QueryReports None f (save_all saves) = inr found
    ∧ found ++ rest ≡ₚ matching ∧ StronglySorted (λ a b, sc_time b ≤ sc_time a) found
    ∧ (∀ x y, x ∈ found → y ∈ rest → sc_time y ≤ sc_time x)
    ∧ len found = if 0 <? qf_Limit f then Z.min (qf_Limit f) (len matching) else len matching.
Proof.
  intros Hs matching. pose proof (stored_reports _ _ (save_all_holds saves Hs)) as Hst.
  unfold QueryReports. set (less := λ a b, sc_time b <? sc_time a).
  assert (StrictWeak less) as Hless by (unfold less; split; intros; bool_hyps; apply Z.ltb_ge; lia).
  rewrite (list_filter_iff _ (matches f)) by apply query_keeps_spec.
  pose proof (sort_slice_perm less (filter (matches f) (stored (save_all saves)))) as Hp.
  pose proof (sort_slice_sorted less (filter (matches f) (stored (save_all saves))) Hless) as Hsort.
  set (results := sort_slice less _) in *. clearbody results.
  assert (results ≡ₚ matching) as Hpm by (rewrite Hp; by apply filter_Permutation). clear Hp.
  assert (len results = len matching) as Hlen by (unfold len; by rewrite Hpm).
  assert (StronglySorted (λ a b, sc_time b ≤ sc_time a) results) as Hnew.
  { clear -Hsort. unfold not_after, less in Hsort. induction Hsort as [|a l _ IH Hf]; constructor; [done|].
    eapply Forall_impl; [exact Hf|]. intros b. apply Z.ltb_ge. }
  set (n := Z.to_nat (if (0 <? qf_Limit f) && (qf_Limit f <? len results) then qf_Limit f else len results)).
  exists (take n results), (drop n results). rewrite <- (take_drop n results) in Hnew.
  apply StronglySorted_split in Hnew as [Hn1 Hn2].
  split_and!; [|by rewrite take_drop|done|done|]; unfold n.
  - destruct (_ && _); [done|]. unfold len. by rewrite Nat2Z.id, firstn_all.
  - unfold len in *. rewrite length_take. destruct (Z.ltb_spec 0 (qf_Limit f)); cbn [andb]; [|lia].
    destruct (Z.ltb_spec (qf_Limit f) (Z.of_nat (length results))); lia.
Qed.

Lemma GetStats_saved saves since until : Forall (λ s, storable s.2) saves →
  let kept := filter (in_period since until) (reports_of saves) in
  sumZ (sc_ms <$> kept) < 2 ^ 63 →
  GetStats None since until (save_all saves) = inr (mkStats (len kept)
    (sumZ ((λ r, len (sc_redactions r)) <$> kept)) (len (filter (λ r, sc_blocked r = true) kept))
    (if 0 <? len kept then f64_div (f64_of_Z (sumZ (sc_ms <$> kept))) (f64_of_Z (len kept)) else f64_of_Z 0)).
Proof.
  intros Hs kept Hsum. pose proof (save_all_holds saves Hs) as Hh. pose proof (stored_reports _ _ Hh) as Hst.
  unfold GetStats. set (kept' := filter (in_period since until) (stored (save_all saves))).
  assert (kept' ≡ₚ kept) as Hk by (by apply filter_Permutation).
  assert (Forall (λ r, 0 ≤ sc_ms r) (stored (save_all saves))) as Hms.
  { rewrite Hst. apply Forall_fmap, Forall_fmap, Forall_forall. intros [k r] Hin%elem_of_map_to_list.
    destruct Hh as [_ Hm]. destruct (Hm k r Hin) as [_ Hr _ _]. exact (proj1 Hr). }
  pose proof (sumZ_perm _ _ (fmap_Permutation sc_ms _ _ Hk)) as Hsum'.
  rewrite count_reports; [|done|lia|fold kept'; by rewrite Hsum'].
  fold kept'. rewrite Hsum', (sumZ_perm _ _ (fmap_Permutation (λ r, len (sc_redactions r)) _ _ Hk)).
  assert (len kept' = len kept) as -> by (unfold len; by rewrite Hk).
  assert (len (filter (λ r, sc_blocked r = true) kept') = len (filter (λ r, sc_blocked r = true) kept)) as ->
    by (unfold len; by rewrite Hk).
  by rewrite !Z.add_0_l.
Qed.

(** C18: the history is exact.  After any sequence of saves, some of which may fail,
    an id reads back the last report saved under it, or is not found; a query with
    any filter answers the matching reports, newest first, all of them or as many
    as its limit admits, and then none it leaves out is newer than one it gives;
    and the statistics of a period count exactly the reports in it, their
    redactions and those blocked, with the quotient of their total latency. *)
Theorem history_exact saves (Hs : Forall (λ s, storable s.2) saves) :
  (∀ id, GetReport None id (save_all saves) =
     match saved saves !! id with Some r => inr (wire_report r) | None => inl (go "report " ++ id ++ go " not found") end)
  ∧ (∀ f, let matching := filter (matches f) (reports_of saves) in
       ∃ found rest, QueryReports None f (save_all saves) = inr found
         ∧ found ++ rest ≡ₚ matching ∧ StronglySorted (λ a b, sc_time b ≤ sc_time a) found
         ∧ (∀ x y, x ∈ found → y ∈ rest → sc_time y ≤ sc_time x)
         ∧ len found = if 0 <? qf_Limit f then Z.min (qf_Limit f) (len matching) else len matching)
  ∧ (∀ since until, let kept := filter (in_period since until) (reports_of saves) in
       sumZ (sc_ms <$> kept) < 2 ^ 63 →
       GetStats None since until (save_all saves) = inr (mkStats (len kept)
         (sumZ ((λ r, len (sc_redactions r)) <$> kept)) (len (filter (λ r, sc_blocked r = true) kept))
         (if 0 <? len kept then f64_div (f64_of_Z (sumZ (sc_ms <$> kept))) (f64_of_Z (len kept)) else f64_of_Z 0))).
Proof.
  split_and!; intros; [by apply GetReport_saved|by apply QueryReports_saved|by apply GetStats_saved].
Qed.

(** Two reports of one nanosecond have one id: the second replaces the first. *)
Lemma same_instant_overwrites r1 r2 saves : sc_time r1 = sc_time r2 →
  saved (saves ++ [(None, r1); (None, r2)]) = saved (saves ++ [(None, r2)]).
Proof.
  intros Ht. unfold saved. rewrite !foldl_app. cbn [foldl fst snd].
  assert (report_id r1 = report_id r2) as -> by (unfold report_id; by rewrite Ht). by rewrite insert_insert_eq.
Qed.
End runs.

(** ** A bucket, for the witness *)

Module HistoryExample.
#[local] Instance toy_bolt : Bolt := {|
  bk_State := gmap gostring gostring; bk_empty := ∅; bk_Get db k := db !! k; bk_Put db k v := <[k := v]> db;
  bk_ForEach db := (λ k, (k, default [] (db !! k))) <$> SortStrings (elements (dom db));
|}.
Lemma toy_keys db : (bk_ForEach db).*1 = SortStrings (elements (dom db)).
Proof. cbn. rewrite <- list_fmap_compose. unfold compose. cbn [fst]. apply list_fmap_id. Qed.
#[local] Instance toy_bolt_laws : BoltLaws.
Proof.
  split.
  - done.
  - intros db k v k'. cbn. case_bool_decide as Hk; [by rewrite Hk, lookup_insert_eq|by rewrite lookup_insert_ne].
  - intros db k v. cbn. rewrite list_elem_of_fmap. split.
    + intros (k' & [= -> ->] & Hk). rewrite SortStrings_Permutation in Hk.
      apply elem_of_elements, elem_of_dom in Hk as [v' Hv]. by rewrite Hv.
    + intros Hv. exists k. rewrite Hv. split; [done|]. rewrite SortStrings_Permutation.
      apply elem_of_elements, elem_of_dom. eauto.
  - intros db. rewrite toy_keys, SortStrings_Permutation. apply NoDup_elements.
  - intros db. rewrite toy_keys. apply Sorted_StronglySorted, SortStrings_Sorted. apply str_le_trans.
Qed.
#[local] Instance decimal_time : TimeText := {| time_text := Itoa; time_parse lit := Atoi (unquote lit) |}.
#[local] Instance decimal_time_laws : TimeLaws.
Proof.
  intros t Ht. change (Atoi (unquote (quote_lit (Itoa t))) = Some t). rewrite unquote_quote_lit, valid_utf8_ascii; [by apply Atoi_Itoa|].
  destruct (Itoa_decimal t Ht) as (_ & Hd & _). unfold ascii_only. apply forallb_forall. intros c Hc.
  rewrite forallb_forall in Hd. apply Hd, is_digit_byte_range in Hc. unfold byteZ in Hc. apply N.ltb_lt. unfold byteN. lia.
Qed.

Definition report_at (t : Z) (provider : string) (ms : Z) : ScanReport :=
  mkScanReport [] t (go provider) (go "proxy") ms [Proxy.mkRedaction (go "EMAIL") (go "bob@x.io") 3 11 (go "presidio")]
    [mkLayerResult (go "presidio") 1 2] false [].
Definition demo_saves : list (option gostring * ScanReport) :=
  [(None, report_at 5 "api.openai.com" 10); (Some (go "timeout"), report_at 6 "api.openai.com" 10);
   (None, report_at 7 "api.anthropic.com" 5)].
Local Existing Instance sample_unicode.
Local Existing Instance insertion_sort.
Theorem history_exact_witness :
  GetReport None (go "6") (save_all demo_saves) = inl (go "report 6 not found")
  ∧ (∃ found, QueryReports None (mkQuery (go "api.openai.com") [] None zero_time zero_time 50) (save_all demo_saves) = inr found
       ∧ len found = 1)
  ∧ GetStats None 0 10 (save_all demo_saves) = inr (mkStats 2 2 0 (f64_lit 15 2)).
Proof.
  destruct (history_exact demo_saves) as (Hget & Hquery & Hstats).
  { repeat constructor; cbn; lia. }
  split_and!.
  - rewrite Hget. reflexivity.
  - destruct (Hquery (mkQuery (go "api.openai.com") [] None zero_time zero_time 50)) as (found & rest & Hf & _ & _ & _ & Hl).
    exists found. split; [exact Hf|]. rewrite Hl. vm_compute. reflexivity.
  - rewrite Hstats by (vm_compute; reflexivity). vm_compute. reflexivity.
Defined.
End HistoryExample.
