(* ===== verification/Fleet.v ===== *)
(** * A device joins and reports — cli/enroll.go, internal/enrollment, internal/monitor against the control plane

    [RunEnroll] exchanges an enrolment token for a device token and stores it;
    [Report] posts the events of a session scan with it.  Both are run here
    against the server of [Httpapi]. *)
From S2P Require Import Prelude GoStr Utf8 GoFloat GoSort Spans Scanner Redactor Sha256 Cache Regex Rules FileBlock Coordinator Json JsonRound JsonDecode JsonStruct Domain Extract Proxy Firewall Base64 Signing Token Bundle Sessions Store ServerAuth Httpapi Policy History.
Local Open Scope Z_scope.

(** ** The device *)

(** What becomes of a POST: the URL does not parse, there is no answer, or a status and a body. *)
Inductive post_fate := BadURL (e : gostring) | NoReply (e : gostring) | Reply (status : Z) (body : gostring).
(** A client: the URL, the authorization header and the body, posted in a world [W] that the
    answering server may change. *)
Definition Post (W : Type) : Type := W → gostring → gostring → gostring → W * post_fate.

Section device.
Context `{UnicodeData} `{TimeText}.

(** The file holds the enrolment's JSON; its texts read back as UTF-8. *)
Definition wire_enrollment (e : Enrollment) : Enrollment :=
  mkEnrollment (valid_utf8 (en_ServerURL e)) (valid_utf8 (en_DeviceToken e)) (valid_utf8 (en_ServerPublicKey e))
    (valid_utf8 (en_DeviceID e)) (valid_utf8 (en_OrgID e)).
(** [enrollment.Save]: a temporary file is written and renamed; [save_err] is the error of
    either. *)
Definition SaveEnrollment (save_err : option gostring) (e : Enrollment) (disk : Disk) : Disk * option gostring :=
  match save_err with
  | Some err => (disk, Some err)
  | None => (mkDisk (Some (inr (wire_enrollment e))) (dk_policy disk) (dk_etag disk), None)
  end.
(** [enrollment.Exists] *)
Definition enrolled (disk : Disk) : bool := bool_decide (is_Some (dk_enrollment disk)).

Definition enroll_body (token host platform : gostring) : gostring :=
  compact (string_map [("enrollment_token", token); ("device_name", host); ("platform", platform)]).
(** The response, as a map of strings. *)
Definition dec_text_map : decoder (gmap gostring gostring) := dec_map [] dec_string.
Definition member (m : gmap gostring gostring) (k : string) : gostring := default [] (m !! go k).

Definition RunEnroll {W} (lib_error : gostring → gostring) (post : Post W) (hostname platform : gostring)
    (save_err : option gostring) (serverURL token : gostring) (w : W) (disk : Disk) : W * (Disk * option gostring) :=
  let host := if bool_decide (hostname = []) then go "unknown" else hostname in
  let '(w', fate) := post w (TrimRight serverURL (go "/") ++ go "/v1/enroll") [] (enroll_body token host platform) in
  (w', match fate with
  | BadURL e => (disk, Some e)
  | NoReply e => (disk, Some (go "enroll request failed: " ++ e))
  | Reply status body =>
      if negb (status =? 200) then (disk, Some (go "enrollment failed (server returned " ++ Itoa status ++ go ")"))
      else
        match v ← DecodeFirst body; dec_text_map ∅ v with
        | None => (disk, Some (lib_error body))
        | Some raw =>
            if bool_decide (member raw "token" = []) then (disk, Some (go "enrollment response missing token"))
            else if bool_decide (member raw "server_public_key" = [])
            then (disk, Some (go "enrollment response missing server_public_key"))
            else
              SaveEnrollment save_err (mkEnrollment (TrimRight serverURL (go "/")) (member raw "token")
                (member raw "server_public_key") (member raw "device_id") (member raw "org_id")) disk
        end
  end).

(** ** monitor.go *)

Definition event_members (e : MonitorEvent) : list (gostring * json) := [
  (go "tool", quoted (me_Tool e)); (go "verdict", quoted (me_Verdict e)); (go "reason", quoted (me_Reason e));
  (go "direct_conn_count", JNum (Itoa (me_DirectConnCount e))); (go "observed_at", quoted (time_text (me_ObservedAt e)))].
Definition events_body (evs : list MonitorEvent) : gostring :=
  compact (JObj [(go "events", slice_json event_members evs)]).
Definition Report {W} (post : Post W) (evs : list MonitorEvent) (w : W) (disk : Disk) : W * option gostring :=
  if (len evs =? 0) || negb (enrolled disk) then (w, None)
  else
    match dk_enrollment disk with
    | None => (w, None)
    | Some (inl e) => (w, Some e)
    | Some (inr enr) =>
        let '(w', fate) := post w (TrimRight (en_ServerURL enr) (go "/") ++ go "/v1/events")
          (go "Bearer " ++ en_DeviceToken enr) (events_body evs) in
        (w', match fate with
             | BadURL e | NoReply e => Some e
             | Reply status _ => if negb (status =? 200) then Some (go "event post failed: " ++ Itoa status) else None
             end)
    end.
End device.

(** ** The server, seen from the device *)

Section server.
Context `{UnicodeData} `{Sqlite} `{PublicKeyText} `{TimeText}.

Definition post_request (route : Route) (auth body : gostring) : HttpRequest :=
  mkHttpRequest route auth [] [] (λ _, []) body.
(** The server listens at [base]; nothing answers at any other address. *)
Definition posted_route (base url : gostring) : option Route :=
  if bool_decide (url = base ++ go "/v1/enroll") then Some REnroll
  else if bool_decide (url = base ++ go "/v1/events") then Some RPostEvents
  else None.
Definition server_post (base : gostring) (sv : Server) (env : HttpEnv) : Post Db := λ db url auth body,
  match posted_route base url with
  | Some route =>
      let '(db', resp) := ServeHTTP sv env (post_request route auth body) db in
      (db', Reply (hs_status resp) (body_text (hs_body resp)))
  | None => (db, NoReply (go "no such host"))
  end.
Lemma server_post_enroll base sv env db url auth body db' status text :
  server_post base sv env db (url ++ go "/v1/enroll") auth body = (db', Reply status text) →
  url = base ∧ ∃ resp, ServeHTTP sv env (post_request REnroll auth body) db = (db', resp)
    ∧ status = hs_status resp ∧ text = body_text (hs_body resp).
Proof.
  unfold server_post, posted_route. case_bool_decide as He.
  - apply app_inv_tail in He as ->. destruct (ServeHTTP _ _ _ _) as [db1 resp]. intros [= -> <- <-]. eauto 6.
  - case_bool_decide as Hv; [|discriminate]. exfalso. apply (f_equal (@rev _)) in Hv.
    rewrite !rev_app_distr in Hv. vm_compute in Hv. discriminate.
Qed.
Lemma server_post_events base sv env db auth body :
  server_post base sv env db (base ++ go "/v1/events") auth body
  = let '(db', resp) := ServeHTTP sv env (post_request RPostEvents auth body) db in
    (db', Reply (hs_status resp) (body_text (hs_body resp))).
Proof.
  unfold server_post, posted_route. rewrite bool_decide_eq_false_2, bool_decide_eq_true_2; [done..|].
  intros Heq. apply app_inv_head in Heq. vm_compute in Heq. discriminate.
Qed.
End server.

(** ** The messages read back *)

Section wire.
Context `{UnicodeData} `{TimeLaws}.

Lemma enroll_read token host platform :
  (v ← DecodeFirst (enroll_body token host platform); dec_struct enroll_fields (mkEnrollInput [] [] []) v)
  = Some (mkEnrollInput (valid_utf8 token) (valid_utf8 host) (valid_utf8 platform)).
Proof.
  unfold enroll_body.
  change (string_map _) with (JObj [(go "device_name", quoted host); (go "enrollment_token", quoted token);
    (go "platform", quoted platform)]).
  set (ms := [_; _; _]). assert (Forall wire_member ms) as [Hok Hd]%members_ok by wire.
  destruct (Unmarshal_compact _ Hok Hd) as [_ ->]. cbn [mbind option_bind]. unfold ms.
  do 3 read_member. by rewrite dec_struct_nil.
Qed.

(** The answer to an enrolment. *)
Lemma enrolled_read dev org tok pem : ∃ m,
  (v ← DecodeFirst (compact (string_map [("device_id", dev); ("org_id", org); ("token", tok); ("server_public_key", pem)])
                    ++ [byte_of 10]); dec_text_map ∅ v) = Some m
  ∧ member m "device_id" = valid_utf8 dev ∧ member m "org_id" = valid_utf8 org
  ∧ member m "token" = valid_utf8 tok ∧ member m "server_public_key" = valid_utf8 pem.
Proof.
  change (string_map _) with (JObj [(go "device_id", quoted dev); (go "org_id", quoted org);
    (go "server_public_key", quoted pem); (go "token", quoted tok)]).
  set (ms := [_; _; _; _]). rewrite DecodeFirst_members by wire. cbn [mbind option_bind]. unfold ms. cbn [canon].
  rewrite !fmap_cons, fmap_nil. unfold dec_text_map, dec_map. cbn [foldl fst snd mbind option_bind].
  rewrite !dec_string_quoted. cbn [mbind option_bind]. eexists. split; [reflexivity|].
  unfold member.
  replace (unquote (html_escape (go "device_id"))) with (go "device_id") by (vm_compute; reflexivity).
  replace (unquote (html_escape (go "org_id"))) with (go "org_id") by (vm_compute; reflexivity).
  replace (unquote (html_escape (go "server_public_key"))) with (go "server_public_key") by (vm_compute; reflexivity).
  replace (unquote (html_escape (go "token"))) with (go "token") by (vm_compute; reflexivity).
  split_and!; by simplify_map_eq.
Qed.

Definition wire_event (e : MonitorEvent) : MonitorEvent :=
  mkMonitorEvent (valid_utf8 (me_Tool e)) (valid_utf8 (me_Verdict e)) (valid_utf8 (me_Reason e))
    (me_DirectConnCount e) (me_ObservedAt e).
Definition sendable (e : MonitorEvent) : Prop := nat63 (me_DirectConnCount e) ∧ nat63 (me_ObservedAt e).
Lemma event_wire e : sendable e → Forall (λ kv, wire_member kv ∧ (jdepth kv.2 ≤ 0)%N) (event_members e).
Proof.
  intros []. unfold event_members.
  repeat (apply Forall_cons_2; [split; [|done]; first [by apply wire_quoted|by apply wire_int]|]). constructor.
Qed.
Lemma event_read e : sendable e →
  dec_struct event_fields zero_event (canon (JObj (event_members e))) = Some (wire_event e).
Proof.
  intros [Hn Ht]. unfold event_members. do 4 read_member.
  erewrite dec_struct_member; [|reflexivity|cbv beta; by rewrite dec_time_text]. by rewrite dec_struct_nil.
Qed.
Lemma events_read evs : Forall sendable evs →
  (v ← DecodeFirst (events_body evs); dec_struct events_fields [] v) = Some (wire_event <$> evs).
Proof.
  intros Hevs. unfold events_body.
  destruct (slice_wire event_members evs) as [Hok Hd].
  { eapply Forall_impl; [exact Hevs|]. apply event_wire. }
  assert (Forall wire_member [(go "events", slice_json event_members evs)]) as [Ho Hdep]%members_ok.
  { apply Forall_singleton. by split_and!. }
  destruct (Unmarshal_compact _ Ho Hdep) as [_ ->]. cbn [mbind option_bind].
  erewrite dec_struct_member; [|reflexivity|].
  2: { apply (dec_slice_structs event_members event_fields zero_event wire_event).
       eapply Forall_impl; [exact Hevs|]. apply event_read. }
  by rewrite dec_struct_nil.
Qed.
End wire.

(** ** Storing a batch *)

Section batch.
Context `{Sqlite}.

Definition event_row (org dev rnd : gostring) (e : MonitorEvent) (now : Z) : Event :=
  mkEvent (newID rnd) org dev (me_Tool e) (me_Verdict e) (me_Reason e) (me_DirectConnCount e) (me_ObservedAt e) now.
Lemma insert_events_all io n rnds org dev evs now db events :
  (∀ k, io k = None) → length rnds = length evs → NoDup (newID <$> rnds) →
  (∀ r, r ∈ rnds → events !! newID r = None) →
  ∃ events', insert_events io n rnds org dev evs now db events = (set_events db events', Ok tt)
    ∧ (∀ i r e, rnds !! i = Some r → evs !! i = Some e → events' !! newID r = Some (event_row org dev r e now))
    ∧ (∀ id, id ∉ newID <$> rnds → events' !! id = events !! id).
Proof.
  intros Hio. revert n rnds events. induction evs as [|e evs IH]; intros n rnds events Hl Hn Hf; cbn [insert_events].
  - destruct rnds; [|done]. unfold db_call. rewrite Hio. by exists events.
  - destruct rnds as [|r rnds]; [done|]. rewrite fmap_cons in Hn. apply NoDup_cons in Hn as [Hr Hn].
    unfold db_call, db_insert. rewrite Hio. cbn [hd tl]. rewrite (Hf r) by by left.
    destruct (IH (S n) rnds (<[newID r := event_row org dev r e now]> events)) as (events' & Hi & Hrow & Hold).
    + by injection Hl.
    + done.
    + intros r' Hr'. rewrite lookup_insert_ne; [by apply Hf; right|]. intros Heq. apply Hr. rewrite Heq.
      by apply list_elem_of_fmap_2.
    + exists events'. split; [exact Hi|]. split.
      * intros [|i] r' e' Hr' He'; cbn in Hr', He'; [|by apply (Hrow i)]. simplify_eq.
        rewrite Hold by done. apply lookup_insert_eq.
      * intros id Hid. rewrite fmap_cons in Hid. apply not_elem_of_cons in Hid as [Hne Hid].
        rewrite Hold by done. by rewrite lookup_insert_ne.
Qed.
End batch.

(** ** Enrolment *)

Section joining.
Context `{UnicodeData} `{Sqlite} `{PublicKeyText} `{TimeLaws}.

Lemma SignClaims_utf8 priv rnd c tok : SignClaims priv rnd c = Ok tok → valid_utf8 tok = tok.
Proof.
  unfold SignClaims. destruct (ec_Sign _ _ _) as [|[r s]]; [done|]. intros <-%(inj Ok).
  apply valid_utf8_ascii. unfold ascii_only, claims_segment, signature_text. rewrite !forallb_app.
  assert (∀ t, forallb (λ c, (byteN c <? 128)%N) (b64_encode t) = true) as Hb.
  { intros t. apply forallb_forall. intros a Ha%list_elem_of_In. pose proof (b64_encode_letters t) as Hl.
    rewrite Forall_forall in Hl. by apply b64_letter_ascii, Hl. }
  by rewrite !Hb.
Qed.

Lemma valid_utf8_idem t : valid_utf8 (valid_utf8 t) = valid_utf8 t.
Proof. unfold valid_utf8 at 2 3. apply valid_utf8_string_of_runes. Qed.

(** What a device and the server hold after a successful enrolment. *)
Lemma RunEnroll_Ok lib_error base sv env db hostname platform save_err url token disk db1 disk' :
  RunEnroll lib_error (server_post base sv env) hostname platform save_err url token db disk = (db1, (disk', None)) →
  ∃ inp res pem,
    TrimRight url (go "/") = base
    ∧ ei_Token inp = valid_utf8 token ∧ ei_Platform inp = valid_utf8 platform
    ∧ ei_DeviceName inp = valid_utf8 (if bool_decide (hostname = []) then go "unknown" else hostname)
    ∧ Enroll (he_io env 1) (he_rnd env 0) (he_rnd env 1) (sv_priv sv) inp (he_now env) db = (db1, Ok res)
    ∧ PublicKeyPEM (ec_public (sv_priv sv)) = inr pem
    ∧ dk_enrollment disk' = Some (inr (mkEnrollment (valid_utf8 base) (valid_utf8 (er_Token res))
        (valid_utf8 pem) (valid_utf8 (er_DeviceID res)) (valid_utf8 (er_OrgID res)))).
Proof.
  unfold RunEnroll. set (host := if bool_decide _ then _ else _).
  destruct (server_post _ _ _ _ _ _ _) as [w [e|e|status text]] eqn:Hpost; [discriminate..|].
  apply server_post_enroll in Hpost as (-> & resp & Hserve & -> & ->). revert Hserve. unfold ServeHTTP.
  cbn [hr_route post_request route_access public_route]. unfold public_route. cbn [hr_route]. unfold handleEnroll. cbn [hr_body post_request].
  rewrite enroll_read. destruct (Enroll _ _ _ _ _ _ _) as [db2 r] eqn:He.
  destruct r as [res|e|]; [|intros [= <- <-]; discriminate..].
  destruct (PublicKeyPEM _) as [e|pem] eqn:Hp; [intros [= <- <-]; discriminate|].
  intros [= <- <-]. cbn [snd fst hs_status hs_body writeJSON Z.eqb Pos.eqb negb body_text].
  destruct (enrolled_read (er_DeviceID res) (er_OrgID res) (er_Token res) pem) as (m & -> & Hdev & Horg & Htok & Hpem).
  rewrite Hdev, Horg, Htok, Hpem. case_bool_decide; [discriminate|]. case_bool_decide; [discriminate|].
  unfold SaveEnrollment. destruct save_err; [discriminate|]. intros [= <- <-].
  exists (mkEnrollInput (valid_utf8 token) (valid_utf8 host) (valid_utf8 platform)), res, pem.
  split_and!; try done. unfold wire_enrollment. cbn [dk_enrollment en_ServerURL en_DeviceToken en_ServerPublicKey en_DeviceID en_OrgID].
  by rewrite !valid_utf8_idem.
Qed.

Lemma Enroll_Ok io rnd_id rnd_sig priv inp now db db1 res :
  Enroll io rnd_id rnd_sig priv inp now db = (db1, Ok res) →
  ∃ t d, db_tokens db !! HashToken (ei_Token inp) = Some t ∧ db_devices db !! dv_ID d = None
    ∧ d = mkDevice (newID rnd_id) (tk_org t) (ei_DeviceName inp) (ei_Platform inp) now None false
    ∧ db_devices db1 = <[dv_ID d := d]> (db_devices db)
    ∧ db_tokens db1 = alter use_row (HashToken (ei_Token inp)) (db_tokens db)
    ∧ er_DeviceID res = dv_ID d ∧ er_OrgID res = dv_OrgID d ∧ valid_utf8 (er_Token res) = er_Token res.
Proof.
  unfold Enroll. destruct (EnrollDevice _ _ _ _ _ _ _) as [db0 [d| |]] eqn:He; try done.
  apply EnrollDevice_Ok in He as (t & Ht & _ & Hd & Hnone & ->).
  destruct (SignClaims _ _ _) as [tok| |] eqn:Hs; try done. intros [= <- <-].
  exists t, d. apply SignClaims_utf8 in Hs. by split_and!.
Qed.

(** A batch posted by an admitted device, and by one that is not. *)
Lemma post_admitted sv env db org dev token evs :
  (RequireDevice (he_io env 0) (sv_priv sv) (he_now env) (go "Bearer " ++ token) db).2 = Some (org, dev) →
  Forall sendable evs → 0 < len evs ≤ maxEventBatch → (∀ k, he_io env 1 k = None) →
  NoDup (newID <$> (he_rnd env <$> seq 0 (length evs))) →
  (∀ r, r ∈ he_rnd env <$> seq 0 (length evs) → db_events db !! newID r = None) →
  let '(db', resp) := ServeHTTP sv env (post_request RPostEvents (go "Bearer " ++ token) (events_body evs)) db in
  hs_status resp = 200
  ∧ (∀ i e, evs !! i = Some e →
       db_events db' !! newID (he_rnd env i) = Some (event_row org dev (he_rnd env i) (wire_event e) (he_now env)))
  ∧ (∀ id, id ∉ newID <$> (he_rnd env <$> seq 0 (length evs)) → db_events db' !! id = db_events db !! id).
Proof.
  intros Hreq Hevs Hlen Hio Hn Hfresh. unfold ServeHTTP. cbn [hr_route post_request route_access hr_authz].
  destruct (RequireDevice _ _ _ _ db) as [db1 r] eqn:Hr. cbn [snd] in Hreq. subst r.
  apply RequireDevice_inv in Hr as (_ & _ & d & _ & _ & _ & _ & _ & _ & _ & Hdb).
  assert (db_events db1 = db_events db) as Hev by (by destruct Hdb as [-> | ->]).
  unfold device_route. cbn [hr_route]. unfold handlePostEvents. cbn [hr_body post_request]. rewrite events_read by done.
  assert (len (wire_event <$> evs) = len evs) as -> by (unfold len; by rewrite length_fmap).
  rewrite (proj2 (Z.ltb_ge _ _)), (proj2 (Z.eqb_neq _ _)) by lia. rewrite length_fmap.
  unfold InsertEvents, db_call. rewrite Hio.
  destruct (insert_events_all (he_io env 1) 1 (he_rnd env <$> seq 0 (length evs)) org dev (wire_event <$> evs) (he_now env)
    db1 (db_events db1)) as (events' & -> & Hrow & Hold).
  - done.
  - by rewrite !length_fmap, length_seq.
  - done.
  - intros r Hr. rewrite Hev. by apply Hfresh.
  - split; [reflexivity|]. cbn [db_events set_events]. split.
    + intros i e Hi. apply (Hrow i); rewrite list_lookup_fmap; [|by rewrite Hi].
      apply lookup_lt_Some in Hi as Hlt. by rewrite lookup_seq_lt.
    + intros id Hid. by rewrite Hold, Hev.
Qed.
Lemma post_refused sv env db token evs :
  (RequireDevice (he_io env 0) (sv_priv sv) (he_now env) (go "Bearer " ++ token) db).2 = None →
  ServeHTTP sv env (post_request RPostEvents (go "Bearer " ++ token) (events_body evs)) db = (db, unauthorized).
Proof.
  intros Hreq. unfold ServeHTTP. cbn [hr_route post_request route_access hr_authz].
  destruct (RequireDevice _ _ _ _ db) as [db1 r] eqn:Hr. cbn [snd] in Hreq. subst r.
  by apply RequireDevice_inv in Hr as ->.
Qed.

(** C6: from the enrolment token to the administrator's view. When [RunEnroll] succeeds against
    a server listening at [base], the device is registered in the organisation of the token,
    whose use is counted, and its disk holds the server's address, the identity the server
    gave it and the server's key. Whatever happens in the database afterwards, the events of
    any later scan reach that server and are stored exactly as collected, under the device's
    own name and organisation, and nothing else changes; once the device has been revoked
    every report is refused and stores nothing. *)
Theorem enrolled_device_reports lib_error base sv env db hostname platform url token disk db1 disk' :
  valid_utf8 base = base →
  RunEnroll lib_error (server_post base sv env) hostname platform None url token db disk = (db1, (disk', None)) →
  (∀ t, db_tokens db !! HashToken (valid_utf8 token) = Some t → valid_utf8 (tk_org t) = tk_org t) →
  0 ≤ he_now env < 10 ^ 9 * 2 ^ 63 →
  let host := if bool_decide (hostname = []) then go "unknown" else hostname in
  ∃ enr d pem, dk_enrollment disk' = Some (inr enr) ∧ en_ServerURL enr = base
    ∧ PublicKeyPEM (ec_public (sv_priv sv)) = inr pem ∧ en_ServerPublicKey enr = valid_utf8 pem
    ∧ db_devices db1 = <[en_DeviceID enr := d]> (db_devices db) ∧ db_devices db !! en_DeviceID enr = None
    ∧ dv_OrgID d = en_OrgID enr ∧ dv_Name d = valid_utf8 host ∧ dv_Revoked d = false
    ∧ (∃ t, db_tokens db !! HashToken (valid_utf8 token) = Some t ∧ tk_org t = en_OrgID enr)
    ∧ db_tokens db1 = alter use_row (HashToken (valid_utf8 token)) (db_tokens db)
    ∧ ∀ ops db2 trace env2 evs, store_run ops db1 = (db2, trace) → he_io env2 0 0%nat = None →
        Forall sendable evs → 0 < len evs ≤ maxEventBatch →
        let ids := newID <$> (he_rnd env2 <$> seq 0 (length evs)) in
        let '(db3, err) := Report (server_post base sv env2) evs db2 disk' in
        if revoked_in (en_DeviceID enr) trace
        then err = Some (go "event post failed: 401") ∧ db3 = db2
        else (∀ k, he_io env2 1 k = None) → NoDup ids → (∀ id, id ∈ ids → db_events db2 !! id = None) →
             err = None
             ∧ (∀ i e, evs !! i = Some e → db_events db3 !! newID (he_rnd env2 i)
                  = Some (event_row (en_OrgID enr) (en_DeviceID enr) (he_rnd env2 i) (wire_event e) (he_now env2)))
             ∧ (∀ id, id ∉ ids → db_events db3 !! id = db_events db2 !! id).
Proof.
  intros Hbase Hrun Horg Hnow host.
  apply RunEnroll_Ok in Hrun as (inp & res & pem & Hurl & Htok & _ & Hname & He & Hpem & Hdisk).
  fold host in Hname. pose proof He as (t & d & Ht & Hnone & Hd & Hdevs & Htoks & Hid & Ho & Hutf)%Enroll_Ok.
  rewrite Htok in Ht, Htoks. specialize (Horg t Ht).
  assert (valid_utf8 (er_OrgID res) = er_OrgID res) as Horg' by (rewrite Ho; by subst d).
  assert (valid_utf8 (er_DeviceID res) = er_DeviceID res) as Hid' by (rewrite Hid; subst d; apply newID_utf8).
  rewrite Hutf, Horg', Hid', Hbase in Hdisk. eexists _, d, pem. split; [exact Hdisk|].
  cbn [en_ServerURL en_ServerPublicKey en_DeviceID en_OrgID en_DeviceToken]. rewrite Hid.
  split; [done|]. split; [exact Hpem|]. split; [reflexivity|]. split; [exact Hdevs|]. split; [exact Hnone|]. split; [by rewrite Ho|].
  split; [by subst d|]. split; [by subst d|]. split; [exists t; split; [exact Ht|rewrite Ho, Hd; reflexivity]|]. split; [exact Htoks|].
  intros ops db2 trace env2 evs Hops Hio Hevs Hlen.
  pose proof (enrolled_access _ _ _ _ _ _ _ _ _ ops db2 trace (he_io env2 0) (he_now env2) He Hnow Horg' Hops Hio) as Hadm.
  rewrite Hid in Hadm. unfold Report. rewrite (proj2 (Z.eqb_neq _ _)) by lia. unfold enrolled. rewrite Hdisk.
  rewrite bool_decide_eq_true_2 by done. cbn [orb negb en_DeviceToken en_ServerURL].
  assert (TrimRight base (go "/") = base) as -> by (by rewrite <- Hurl, TrimRight_idem).
  rewrite server_post_events.
  destruct (revoked_in (dv_ID d) trace).
  - rewrite post_refused by exact Hadm. split; reflexivity.
  - pose proof (post_admitted sv env2 db2 _ _ _ evs Hadm Hevs Hlen) as Hpost.
    destruct (ServeHTTP _ _ _ db2) as [db' resp]. intros Hio1 Hn Hfresh. 
    destruct (Hpost Hio1 Hn) as (Hst & Hrow & Hold).
    + intros r Hr. apply Hfresh, list_elem_of_fmap_2, Hr.
    + rewrite Hst. split; [reflexivity|]. split; [exact Hrow|exact Hold].
Qed.
End joining.

(** ** A device joins, reports, and is revoked *)

Section fleet_example.
#[local] Existing Instance sample_unicode.
#[local] Existing Instance demo_sqlite.
#[local] Existing Instance toy_ecdsa.
#[local] Existing Instance demo_pem.
#[local] Existing Instance HistoryExample.decimal_time.
#[local] Existing Instance HistoryExample.decimal_time_laws.

Definition fresh_disk : Disk := mkDisk None None [].
Definition control_url : gostring := go "https://c".
Definition joined : Db * (Disk * option gostring) :=
  RunEnroll id (server_post control_url demo_server demo_env) (go "laptop") (go "linux") None
    (go "https://c/") (go "tok") demo_enroll_db fresh_disk.
Definition joined_db : Db := joined.1.
Definition join_result : Disk * option gostring := joined.2.
Definition joined_token : gostring :=
  match dk_enrollment join_result.1 with Some (inr enr) => en_DeviceToken enr | _ => [] end.
Definition joined_device : gostring :=
  match dk_enrollment join_result.1 with Some (inr enr) => en_DeviceID enr | _ => [] end.
Definition demo_events : list MonitorEvent := [mkMonitorEvent (go "claude") (go "runaway") (go "direct") 2 77].
Definition revocation : list store_op := [SRevokeDevice no_fault joined_device].

Lemma demo_sendable : Forall sendable demo_events.
Proof. apply Forall_singleton. split; vm_compute; (split; [discriminate|reflexivity]). Qed.
Lemma enrolled_device_reports_witness :
  (Report (server_post control_url demo_server demo_env) demo_events joined_db join_result.1).2 = None
  ∧ (Report (server_post control_url demo_server demo_env) demo_events (store_run revocation joined_db).1 join_result.1).2
    = Some (go "event post failed: 401").
Proof.
  assert (RunEnroll id (server_post control_url demo_server demo_env) (go "laptop") (go "linux") None
    (go "https://c/") (go "tok") demo_enroll_db fresh_disk = (joined_db, (join_result.1, None))) as Hrun by (vm_compute; reflexivity).
  destruct (enrolled_device_reports id control_url demo_server demo_env demo_enroll_db (go "laptop") (go "linux")
    (go "https://c/") (go "tok") fresh_disk joined_db join_result.1 eq_refl Hrun)
    as (enr & d & pem & Hdisk & _ & _ & _ & _ & _ & _ & _ & _ & _ & _ & Hreports).
  - intros t Ht. assert (tk_org <$> db_tokens demo_enroll_db !! HashToken (valid_utf8 (go "tok")) = Some (go "acme")) as Ho
      by (vm_compute; reflexivity). rewrite Ht in Ho. injection Ho as ->. vm_compute. reflexivity.
  - split; vm_compute; [discriminate|reflexivity].
  - assert (en_DeviceID enr = joined_device) as Hid by (unfold joined_device; by rewrite Hdisk).
    rewrite Hid in Hreports. split.
    + pose proof (Hreports [] joined_db [] demo_env demo_events eq_refl eq_refl demo_sendable) as Hr.
      cbv zeta in Hr. destruct (Report _ _ _ _) as [db3 err].
      destruct Hr as [Hr _]; [split; vm_compute; [reflexivity|discriminate]|intros k; reflexivity| | |exact Hr].
      * apply (bool_decide_unpack _). vm_compute. exact I.
      * intros i _. assert (db_events joined_db = ∅) as -> by (vm_compute; reflexivity). apply lookup_empty.
    + pose proof (Hreports revocation (store_run revocation joined_db).1 (store_run revocation joined_db).2 demo_env
        demo_events (surjective_pairing _) eq_refl demo_sendable) as Hr.
      cbv zeta in Hr. assert (revoked_in joined_device (store_run revocation joined_db).2 = true) as Hrev
        by (vm_compute; reflexivity). rewrite Hrev in Hr. destruct (Report _ _ _ _) as [db3 err].
      apply Hr. split; vm_compute; [reflexivity|discriminate].
Defined.
End fleet_example.
