(* ===== verification/Images.v ===== *)
(** * Central image builds — internal/server/imagebuild/imagebuild.go

    An administrator's Dockerfile has to extend the hardened base; the image is
    built, pushed and signed, and the organisation's policy is pinned to the
    digest.  The commands run outside the program: each is an argument vector,
    and what it answers is an argument of the model. *)
From S2P Require Import Prelude GoStr Utf8 Sha256 Json JsonRound JsonDecode JsonStruct Base64 Signing Token Bundle Sessions Store ServerAuth Extract Httpapi Policy.
Local Open Scope Z_scope.

(** ** The two regular expressions *)

(** [\s] *)
Definition re_space (c : Ascii.ascii) : bool :=
  let n := byteN c in ((n =? 9) || (n =? 10) || (n =? 12) || (n =? 13) || (n =? 32))%N.
Fixpoint skip_space (s : gostring) : gostring :=
  match s with c :: s' => if re_space c then skip_space s' else s | [] => [] end.
Fixpoint take_word (s : gostring) : gostring :=
  match s with c :: s' => if re_space c then [] else c :: take_word s' | [] => [] end.
(** Case is ignored for the letters of [w], which fold with no other rune. *)
Definition upper_byte (c : Ascii.ascii) : Ascii.ascii := if (97 <=? byteZ c) && (byteZ c <=? 122) then byte_of (byteZ c - 32) else c.
Definition strip_fold (w s : gostring) : option gostring :=
  if bool_decide (upper_byte <$> take (length w) s = w) then Some (drop (length w) s) else None.

(** [(?im)^\s*FROM\s+(\S+)] at the start of a line: the group. *)
Definition from_here (s : gostring) : option gostring :=
  rest ← strip_fold (go "FROM") (skip_space s);
  match rest with
  | c :: _ => if re_space c then match take_word (skip_space rest) with [] => None | w => Some w end else None
  | [] => None
  end.
Fixpoint from_lines (at_start : bool) (s : gostring) : option gostring :=
  match (if at_start then from_here s else None) with
  | Some w => Some w
  | None => match s with c :: s' => from_lines (bool_decide (c = chr 10)) s' | [] => None end
  end.
Definition fromRe (dockerfile : gostring) : option gostring := from_lines true dockerfile.

(** [digest:\s*(sha256:[0-9a-f]{64})]: the group of the leftmost match. *)
Definition is_low_hex (c : Ascii.ascii) : bool :=
  ((48 <=? byteZ c) && (byteZ c <=? 57)) || ((97 <=? byteZ c) && (byteZ c <=? 102)).
Definition is_digest (d : gostring) : bool :=
  HasPrefix d (go "sha256:") && (len d =? 71) && forallb is_low_hex (drop 7 d).
Definition digest_here (s : gostring) : option gostring :=
  if HasPrefix s (go "digest:") then
    let d := take 71 (skip_space (drop 7 s)) in if is_digest d then Some d else None
  else None.
Fixpoint digestRe (s : gostring) : option gostring :=
  match digest_here s with
  | Some d => Some d
  | None => match s with _ :: s' => digestRe s' | [] => None end
  end.

(** ** Build *)

(** A command: what ran before it, its argument vector; an error, or its output. *)
Definition CommandRunner : Type := list (list gostring) → list gostring → gostring + gostring.

(** [m[1] == spec.BaseRef || ...] *)
Definition extends_base (dockerfile base : gostring) : bool :=
  match fromRe dockerfile with
  | None => false
  | Some from =>
      bool_decide (from = base) || HasPrefix from (base ++ go ":") || HasPrefix from (base ++ go "@")
  end.
Definition build_argv (target dir : gostring) : list gostring :=
  [go "docker"; go "build"; go "-t"; target; go "-f"; dir ++ go "/Dockerfile"; dir].
Definition push_argv (target : gostring) : list gostring := [go "docker"; go "push"; target].
Definition sign_argv (key target digest : gostring) : list gostring :=
  [go "cosign"; go "sign"; go "--key"; key; target ++ go "@" ++ digest].

(** [tmp]: the error of the temporary directory, or its path; [write_err]: of writing the
    Dockerfile.  The commands that were run, and the error, or the reference and its digest. *)
Definition Build (run : CommandRunner) (tmp : gostring + gostring) (write_err : option gostring) (key : gostring)
    (dockerfile base target : gostring) : list (list gostring) * (gostring + gostring * gostring) :=
  if negb (extends_base dockerfile base) then ([], inl (go "Dockerfile must be FROM " ++ base))
  else
    match tmp with
    | inl e => ([], inl e)
    | inr dir =>
        match write_err with
        | Some e => ([], inl e)
        | None =>
            let build := build_argv target dir in
            match run [] build with
            | inl e => ([build], inl (go "docker build: " ++ e))
            | inr _ =>
                let push := push_argv target in
                match run [build] push with
                | inl e => ([build; push], inl (go "docker push: " ++ e))
                | inr out =>
                    match digestRe out with
                    | None => ([build; push], inl (go "could not parse pushed digest from output"))
                    | Some digest =>
                        let sign := sign_argv key target digest in
                        match run [build; push] sign with
                        | inl e => ([build; push; sign], inl (go "cosign sign: " ++ e))
                        | inr _ => ([build; push; sign], inr (target, digest))
                        end
                    end
                end
            end
        end
    end.

(** ** What a build guarantees *)

(** What the two expressions ask for, without the scanners: white space, a keyword in either
    case, a word, and the leftmost place where they stand. *)
Definition white (t : gostring) : Prop := Forall (λ c, byteZ c ∈ [9; 10; 12; 13; 32]) t.
Definition word (t : gostring) : Prop := t ≠ [] ∧ Forall (λ c, byteZ c ∉ [9; 10; 12; 13; 32]) t.
Definition ends_word (rest : gostring) : Prop := match rest with [] => True | c :: _ => byteZ c ∈ [9; 10; 12; 13; 32] end.
Definition either_case (c u : Ascii.ascii) : Prop := c = u ∨ byteZ c = byteZ u + 32.
(** [FROM w], on a line of its own or after white space. *)
Definition from_clause (s w : gostring) : Prop := ∃ sp1 kw sp2 rest, s = sp1 ++ kw ++ sp2 ++ w ++ rest
  ∧ white sp1 ∧ Forall2 either_case kw (go "FROM") ∧ sp2 ≠ [] ∧ white sp2 ∧ word w ∧ ends_word rest.
Definition line_start (before : gostring) : Prop := before = [] ∨ last before = Some (chr 10).
Definition first_from (dockerfile w : gostring) : Prop := ∃ before rest, dockerfile = before ++ rest
  ∧ line_start before ∧ from_clause rest w
  ∧ ∀ before' rest' w', dockerfile = before' ++ rest' → line_start before' → from_clause rest' w' →
      (length before ≤ length before')%nat.
(** The reference of an image of the repository [base]. *)
Definition of_repository (base ref : gostring) : Prop :=
  ref = base ∨ (∃ tag, ref = base ++ go ":" ++ tag) ∨ (∃ digest, ref = base ++ go "@" ++ digest).
(** A digest, and the leftmost one an output reports. *)
Definition sha256_digest (d : gostring) : Prop :=
  ∃ hex, d = go "sha256:" ++ hex ∧ length hex = 64%nat ∧ Forall (λ c, c ∈ go "0123456789abcdef") hex.
Definition digest_clause (s d : gostring) : Prop :=
  ∃ spaces after, s = go "digest:" ++ spaces ++ d ++ after ∧ white spaces ∧ sha256_digest d.
Definition first_digest (out d : gostring) : Prop := ∃ before rest, out = before ++ rest ∧ digest_clause rest d
  ∧ ∀ before' rest' d', out = before' ++ rest' → digest_clause rest' d' → (length before ≤ length before')%nat.

Lemma re_space_spec c : re_space c = true ↔ byteZ c ∈ [9; 10; 12; 13; 32].
Proof.
  rewrite <- (bool_decide_spec (byteZ c ∈ [9; 10; 12; 13; 32])).
  destruct c as [[] [] [] [] [] [] [] []]; vm_compute; done.
Qed.
Lemma re_space_false c : re_space c = false ↔ byteZ c ∉ [9; 10; 12; 13; 32].
Proof. rewrite <- re_space_spec. by destruct (re_space c). Qed.
Lemma upper_either c u : u ∈ go "FROM" → upper_byte c = u ↔ either_case c u.
Proof.
  intros Hu. assert (Forall (λ u, ∀ c, upper_byte c = u ↔ either_case c u) (go "FROM")) as Hall.
  { clear. do 4 (apply Forall_cons_2; [intros c; unfold either_case;
      destruct c as [[] [] [] [] [] [] [] []]; vm_compute; split; intros Hx;
      first [discriminate Hx|destruct Hx as [Hx|Hx]; discriminate Hx|by left|by right|reflexivity]|]). constructor. }
  rewrite Forall_forall in Hall. by apply Hall.
Qed.
Lemma either_case_visible c u : u ∈ go "FROM" → either_case c u → re_space c = false.
Proof.
  intros Hu Hc. apply upper_either in Hc; [|done]. subst u. revert Hu.
  destruct c as [[] [] [] [] [] [] [] []]; vm_compute; try done; intros Hu; set_unfold; naive_solver.
Qed.
Lemma skip_space_split s : ∃ sp, s = sp ++ skip_space s ∧ white sp.
Proof.
  induction s as [|c s (sp & Hs & Hw)]; cbn [skip_space]; [by exists []; split; [|constructor]|].
  destruct (re_space c) eqn:Hc; [|by exists []; split; [|constructor]]. exists (c :: sp).
  split; [cbn [app]; by rewrite <- Hs|]. constructor; [by apply re_space_spec|done].
Qed.
Lemma skip_space_visible s c t : skip_space s = c :: t → re_space c = false.
Proof. induction s as [|d s IH]; cbn [skip_space]; [done|]. destruct (re_space d) eqn:Hd; [done|]. by intros [= -> _]. Qed.
Lemma skip_space_app sp c t : white sp → re_space c = false → skip_space (sp ++ c :: t) = c :: t.
Proof.
  intros Hw Hc. induction Hw as [|d sp Hd _ IH]; cbn [app skip_space]; [by rewrite Hc|].
  apply re_space_spec in Hd. by rewrite Hd.
Qed.
Lemma take_word_split s : ∃ rest, s = take_word s ++ rest ∧ ends_word rest
  ∧ Forall (λ c, byteZ c ∉ [9; 10; 12; 13; 32]) (take_word s).
Proof.
  induction s as [|c s (rest & Hs & He & Hf)]; cbn [take_word]; [exists []; by split_and!|].
  destruct (re_space c) eqn:Hc.
  - exists (c :: s). split_and!; [done| |constructor]. by apply re_space_spec.
  - exists rest. split_and!; [cbn [app]; by rewrite <- Hs|done|]. constructor; [by apply re_space_false|done].
Qed.
Lemma take_word_app w rest : Forall (λ c, byteZ c ∉ [9; 10; 12; 13; 32]) w → ends_word rest → take_word (w ++ rest) = w.
Proof.
  intros Hw He. induction Hw as [|c w Hc _ IH]; cbn [app take_word].
  - destruct rest as [|c rest]; [done|]. cbn [ends_word] in He. apply re_space_spec in He. cbn [take_word]. by rewrite He.
  - apply re_space_false in Hc. by rewrite Hc, IH.
Qed.

Lemma from_keyword_upper kw : Forall2 either_case kw (go "FROM") ↔ upper_byte <$> kw = go "FROM".
Proof.
  assert (∀ us, us ⊆ go "FROM" → ∀ kw, Forall2 either_case kw us ↔ upper_byte <$> kw = us) as Hgen; [|by apply Hgen].
  induction us as [|u us IH]; intros Hus [|c cs]; cbn [fmap list_fmap].
  - done.
  - split; [by intros ?%Forall2_cons_nil_inv|done].
  - split; [by intros ?%Forall2_nil_cons_inv|done].
  - rewrite Forall2_cons, IH by (intros x Hx; apply Hus; by right). rewrite <- upper_either by (apply Hus; by left).
    split; [by intros [-> ->]|by intros [= -> ->]].
Qed.
Lemma from_here_spec s w : from_here s = Some w ↔ from_clause s w.
Proof.
  unfold from_here, strip_fold. split.
  - destruct (skip_space_split s) as (sp1 & Hs & Hw1). revert Hs. generalize (skip_space s) as t. intros t ->.
    case_bool_decide as Hkw; cbn [mbind option_bind]; [|done].
    destruct (drop (length (go "FROM")) t) as [|c rest] eqn:Hd; [done|]. destruct (re_space c) eqn:Hc; [|done].
    destruct (skip_space_split (c :: rest)) as (sp2 & Hr & Hw2).
    destruct (take_word_split (skip_space (c :: rest))) as (rest2 & Ht & He & Hf).
    destruct (take_word (skip_space (c :: rest))) as [|x xs] eqn:Hx; [done|]. intros [= <-].
    exists sp1, (take (length (go "FROM")) t), sp2, rest2.
    split; [by rewrite <- Ht, <- Hr, <- Hd, take_drop|]. split_and!; [done|by apply from_keyword_upper| |done|by split|done].
    intros ->. cbn [app] in Hr. rewrite <- Hr in Ht. injection Ht as Hcx _.
    apply Forall_cons_1 in Hf as [Hv _]. apply Hv. rewrite <- Hcx. by apply re_space_spec.
  - intros (sp1 & kw & sp2 & rest & -> & Hw1 & Hkw & Hne & Hw2 & [Hwn Hww] & He).
    pose proof (Forall2_length _ _ _ Hkw) as Hlen.
    assert (skip_space (sp1 ++ kw ++ sp2 ++ w ++ rest) = kw ++ sp2 ++ w ++ rest) as ->.
    { destruct kw as [|c kw]; [done|]. apply skip_space_app; [done|].
      pose proof (Forall2_cons_1 _ _ _ _ _ Hkw) as [Hc _]. eapply either_case_visible; [|exact Hc]. by left. }
    apply from_keyword_upper in Hkw. rewrite <- Hlen, take_app_length, drop_app_length, bool_decide_eq_true_2 by done.
    cbn [mbind option_bind]. destruct sp2 as [|c sp2]; [done|]. cbn [app].
    pose proof Hw2 as [Hc _]%Forall_cons_1. apply re_space_spec in Hc. rewrite Hc.
    destruct w as [|x w]; [done|]. change (c :: sp2 ++ (x :: w) ++ rest) with ((c :: sp2) ++ x :: (w ++ rest)).
    rewrite skip_space_app; [|done|apply re_space_false; by apply Forall_cons_1 in Hww as [? _]].
    change (x :: w ++ rest) with ((x :: w) ++ rest). by rewrite take_word_app.
Qed.
Definition starts (b : bool) (before : gostring) : Prop := (before = [] ∧ b = true) ∨ last before = Some (chr 10).
Lemma from_lines_spec s b w : from_lines b s = Some w → ∃ before rest, s = before ++ rest ∧ starts b before
  ∧ from_clause rest w
  ∧ ∀ before' rest' w', s = before' ++ rest' → starts b before' → from_clause rest' w' → (length before ≤ length before')%nat.
Proof.
  assert (∀ b s w, b = true → from_here s = Some w → ∃ before rest, s = before ++ rest ∧ starts b before
    ∧ from_clause rest w ∧ ∀ before' rest' w', s = before' ++ rest' → starts b before' → from_clause rest' w' →
      (length before ≤ length before')%nat) as Hhere.
  { intros b' s' w' -> Hh. exists [], s'. split_and!; [done|by left|by apply from_here_spec|intros; cbn; lia]. }
  revert b. induction s as [|c s IH]; intros b; cbn [from_lines].
  - destruct b; [|done]. destruct (from_here []) eqn:Hh; [|done]. intros [= <-]. by apply Hhere.
  - destruct (if b then from_here (c :: s) else None) as [w'|] eqn:Hh.
    { intros [= <-]. destruct b; [by apply Hhere|done]. }
    intros (before & rest & -> & Hst & Hf & Hmin)%IH. exists (c :: before), rest. split_and!; [done| |done|].
    + right. destruct Hst as [[-> Hc]|Hl]; [apply bool_decide_eq_true in Hc; by rewrite Hc|].
      destruct before; [done|exact Hl].
    + intros [|c' before'] rest' w' Heq Hst' Hf'.
      * exfalso. cbn [app] in Heq. subst rest'. destruct Hst' as [[_ ->]|Hl]; [|done]. apply from_here_spec in Hf'. by rewrite Hf' in Hh.
      * injection Heq as <- Heq. cbn [length]. apply le_n_S. eapply Hmin; [exact Heq| |exact Hf'].
        destruct Hst' as [[? _]|Hl]; [done|]. destruct before' as [|x xs]; [left; split; [done|]|right; exact Hl].
        apply bool_decide_eq_true. by injection Hl.
Qed.
Lemma fromRe_first dockerfile w : fromRe dockerfile = Some w → first_from dockerfile w.
Proof.
  intros (before & rest & -> & Hst & Hf & Hmin)%from_lines_spec. exists before, rest.
  assert (∀ t, starts true t ↔ line_start t) as Heq by (unfold starts, line_start; intros t; tauto).
  split_and!; [done|by apply Heq|done|]. intros before' rest' w' Hs Hl. apply Hmin; [done|by apply Heq].
Qed.
Lemma extends_base_spec dockerfile base : extends_base dockerfile base = true →
  ∃ ref, first_from dockerfile ref ∧ of_repository base ref.
Proof.
  unfold extends_base. destruct (fromRe dockerfile) as [ref|] eqn:Hf; [|done]. intros Hb. exists ref.
  split; [by apply fromRe_first|]. apply orb_true_iff in Hb as [[Hb|Hb]%orb_true_iff|Hb].
  - left. by apply bool_decide_eq_true in Hb.
  - apply HasPrefix_spec in Hb as [t ->]. right; left. exists t. by rewrite <- app_assoc.
  - apply HasPrefix_spec in Hb as [t ->]. right; right. exists t. by rewrite <- app_assoc.
Qed.

Lemma low_hex_spec c : is_low_hex c = true ↔ c ∈ go "0123456789abcdef".
Proof.
  rewrite <- (bool_decide_spec (c ∈ go "0123456789abcdef")).
  destruct c as [[] [] [] [] [] [] [] []]; vm_compute; done.
Qed.
Lemma is_digest_spec d : is_digest d = true ↔ sha256_digest d.
Proof.
  unfold is_digest. rewrite !andb_true_iff, Z.eqb_eq, HasPrefix_spec. split.
  - intros [[[hex ->] Hl] Hh]. exists hex. split; [done|]. unfold len in Hl. rewrite length_app in Hl.
    change (length (go "sha256:")) with 7%nat in Hl. split; [lia|]. apply Forall_forall. intros c Hc. apply low_hex_spec.
    rewrite forallb_forall in Hh. apply Hh, list_elem_of_In. exact Hc.
  - intros (hex & -> & Hl & Hh). split_and!; [by exists hex|unfold len; rewrite length_app, Hl; reflexivity|].
    apply forallb_forall. intros c Hc%list_elem_of_In. apply low_hex_spec. rewrite Forall_forall in Hh. by apply Hh.
Qed.
Lemma digest_length d : sha256_digest d → length d = 71%nat.
Proof. intros (hex & -> & Hl & _). by rewrite length_app, Hl. Qed.
Lemma digest_here_spec s d : digest_here s = Some d ↔ digest_clause s d.
Proof.
  unfold digest_here. split.
  - destruct (HasPrefix s _) eqn:Hp; [|done]. apply HasPrefix_spec in Hp as [rest ->].
    assert (drop 7 (go "digest:" ++ rest) = rest) as -> by reflexivity.
    destruct (is_digest _) eqn:Hd; [|done]. intros [= <-].
    destruct (skip_space_split rest) as (sp & Hr & Hw).
    exists sp, (drop 71 (skip_space rest)). split_and!; [by rewrite take_drop, <- Hr|done|by apply is_digest_spec].
  - intros (sp & after & -> & Hw & Hd).
    assert (HasPrefix (go "digest:" ++ sp ++ d ++ after) (go "digest:") = true) as -> by (apply HasPrefix_spec; by eexists).
    assert (drop 7 (go "digest:" ++ sp ++ d ++ after) = sp ++ d ++ after) as -> by reflexivity.
    assert (∃ t, d = "s"%char :: t) as [t Ht] by (destruct Hd as (hex & -> & _); by eexists).
    assert (skip_space (sp ++ d ++ after) = d ++ after) as -> by (rewrite Ht; by apply skip_space_app).
    pose proof (digest_length d Hd) as Hl. rewrite take_app_le by lia. rewrite take_ge by lia. by apply is_digest_spec in Hd as ->.
Qed.
Lemma digestRe_first out d : digestRe out = Some d → first_digest out d.
Proof.
  induction out as [|c out IH]; cbn [digestRe]; [done|].
  destruct (digest_here (c :: out)) as [d'|] eqn:Hh.
  - intros [= ->]. exists [], (c :: out). split_and!; [done|by apply digest_here_spec|intros; cbn; lia].
  - intros (before & rest & -> & Hd & Hmin)%IH. exists (c :: before), rest. split_and!; [done..|].
    intros [|c' before'] rest' d' Heq Hd'; cbn [app] in Heq; [subst rest'; apply digest_here_spec in Hd'; by rewrite Hd' in Hh|].
    injection Heq as <- Heq. cbn [length]. apply le_n_S. by eapply Hmin.
Qed.

(** A successful build ran exactly the three commands, in order, and each succeeded. *)
Lemma Build_inr run tmp write_err key dockerfile base target argvs ref digest :
  Build run tmp write_err key dockerfile base target = (argvs, inr (ref, digest)) →
  ref = target ∧ extends_base dockerfile base = true ∧ ∃ dir o1 out o2,
    tmp = inr dir ∧ write_err = None
    ∧ argvs = [build_argv target dir; push_argv target; sign_argv key target digest]
    ∧ run [] (build_argv target dir) = inr o1 ∧ run [build_argv target dir] (push_argv target) = inr out
    ∧ digestRe out = Some digest
    ∧ run [build_argv target dir; push_argv target] (sign_argv key target digest) = inr o2.
Proof.
  unfold Build. destruct (extends_base dockerfile base); cbn [negb]; [|done].
  destruct tmp as [|dir]; [done|]. destruct write_err; [done|].
  destruct (run [] _) as [|o1] eqn:H1; [done|]. destruct (run [build_argv target dir] _) as [|out] eqn:H2; [done|].
  destruct (digestRe out) as [d|] eqn:Hd; [|done].
  destruct (run [build_argv target dir; push_argv target] (sign_argv key target d)) as [|o2] eqn:H3; [done|].
  intros [= <- <- <-]. split_and!; [done..|]. by exists dir, o1, out, o2.
Qed.

(** ** From the Dockerfile to the policy *)

Section pinning.
Context `{UnicodeData} `{Sqlite} `{PublicKeyText} `{TimeText}.

Lemma PutPolicy_cases io org bundle now db :
  (∃ e, PutPolicy io org bundle now db = (db, Err e))
  ∨ let version := match db_policies db !! org with Some p => pl_version p | None => 0 end + 1 in
    PutPolicy io org bundle now db
    = (set_policies db (<[org := mkPolicyRow bundle version now]> (db_policies db)), Ok version).
Proof.
  unfold PutPolicy, db_call. destruct (io 0%nat); [left; by eexists|]. destruct (io 1%nat); [left; by eexists|].
  destruct (io 2%nat); [left; by eexists|]. destruct (io 3%nat); [left; by eexists|]. by right.
Qed.
Lemma SetImageResult_policies io id ref digest status db :
  db_policies (SetImageResult io id ref digest status db).1 = db_policies db.
Proof. unfold SetImageResult, db_call. by destruct (io 0%nat). Qed.
Lemma InsertImage_policies io rnd now org tag db db1 r :
  InsertImage io rnd now org tag db = (db1, r) → db_policies db1 = db_policies db.
Proof. unfold InsertImage, db_call, db_insert. destruct (io 0%nat); [by intros [= <- _]|]. case_match; by intros [= <- _]. Qed.

(** The image of a stored bundle. *)
Lemma canonicalBundle_image b : pb_Image (bundle_of (canonicalBundle b)) = valid_utf8 (pb_Image b).
Proof. unfold bundle_of, canonicalBundle. rewrite bundle_read; [done|]. cbn [pb_Version]. lia. Qed.

(** A reply that is not 200. *)
#[local] Ltac refused :=
  intros [= <- <-]; split; [intros _; done|split; [done|intros Hs; vm_compute in Hs; discriminate Hs]].

(** C21: what a policy is pinned to. When a build request succeeds, the Dockerfile's first FROM names
    an image of the hardened base's repository; docker built and pushed the tag of the request in
    the organisation's repository, cosign signed exactly that tag at the first digest the push
    reported, in this order and all without an error; and the organisation's policy, at the next
    version, hands out exactly the signed reference. In every other case no policy changes, and
    nothing is run for a Dockerfile whose first FROM names another base. *)
Theorem built_image_pinned run tmp write_err key sv env req org db db' resp :
  sv_build sv = Some (λ dockerfile base target, (Build run tmp write_err key dockerfile base target).2) →
  handleBuildImage sv env req org db = (db', resp) →
  (hs_status resp ≠ 200 → db_policies db' = db_policies db)
  ∧ (∀ dockerfile target, ¬ (∃ ref, first_from dockerfile ref ∧ of_repository (go "redactr-base") ref) →
       (Build run tmp write_err key dockerfile (go "redactr-base") target).1 = [])
  ∧ (hs_status resp = 200 → ∃ dockerfile tag dir digest ref,
       (v ← DecodeFirst (hr_body req); dec_struct image_fields ([], []) v) = Some (dockerfile, tag)
       ∧ first_from dockerfile ref ∧ of_repository (go "redactr-base") ref ∧ tmp = inr dir
       ∧ let target := sv_registry sv ++ go "/" ++ org ++ go "/" ++ tag in
         let build := [go "docker"; go "build"; go "-t"; target; go "-f"; dir ++ go "/Dockerfile"; dir] in
         let push := [go "docker"; go "push"; target] in
         let sign := [go "cosign"; go "sign"; go "--key"; key; target ++ go "@" ++ digest] in
         (Build run tmp write_err key dockerfile (go "redactr-base") target).1 = [build; push; sign]
         ∧ (∃ out1 out2 out3, run [] build = inr out1 ∧ run [build] push = inr out2
             ∧ run [build; push] sign = inr out3 ∧ first_digest out2 digest)
         ∧ ∃ row, db_policies db' = <[org := row]> (db_policies db)
             ∧ pb_Image (bundle_of (pl_bundle row)) = valid_utf8 (target ++ go "@" ++ digest)
             ∧ pl_version row = match db_policies db !! org with Some p => pl_version p | None => 0 end + 1).
Proof.
  intros Hsv.
  assert (∀ dockerfile target, ¬ (∃ ref, first_from dockerfile ref ∧ of_repository (go "redactr-base") ref) →
    (Build run tmp write_err key dockerfile (go "redactr-base") target).1 = []) as Hno.
  { intros dockerfile target Hno. unfold Build.
    destruct (extends_base dockerfile (go "redactr-base")) eqn:Hb; [|done]. by apply extends_base_spec in Hb. }
  unfold handleBuildImage, requireOrg. rewrite Hsv. destruct (GetOrg _ _ _); [|refused..].
  destruct (DecodeFirst (hr_body req) ≫= _) as [[dockerfile tag]|]; [|refused].
  destruct (_ || _); [refused|]. destruct (bad_tag tag); [refused|].
  destruct (InsertImage _ _ _ _ _ db) as [db1 r] eqn:Hi. apply InsertImage_policies in Hi.
  destruct r as [id| |]; [|refused..]. cbv zeta.
  set (target := sv_registry sv ++ _). destruct (Build run tmp write_err key dockerfile (go "redactr-base") target)
    as [argvs result] eqn:Hb. cbn [snd]. destruct result as [e|[ref digest]].
  { intros [= <- <-]. rewrite SetImageResult_policies. by split_and!. }
  pose proof Hb as Hargv. apply Build_inr in Hb as (-> & Hbase & dir & o1 & out & o2 & -> & -> & -> & Hbuild & Hpush & Hdig & Hsign).
  set (pinned := target ++ go "@" ++ digest). set (db2 := (SetImageResult _ _ _ _ _ db1).1).
  assert (db_policies db2 = db_policies db) as Hdb2 by (unfold db2; by rewrite SetImageResult_policies).
  destruct (GetPolicy _ _ _) as [[raw version]| |]; [|refused..].
  destruct (PutPolicy_cases (he_io env 4) org (canonicalBundle (mkBundle pinned (pb_MountMode (bundle_of raw))
    (pb_Denylist (bundle_of raw)) (pb_Version (bundle_of raw)))) (he_now env) db2) as [[e ->]|Hput];
    [refused|]. cbv zeta in Hput. rewrite Hput. intros [= <- <-]. split; [done|]. split; [done|]. intros _.
  apply extends_base_spec in Hbase as (from & Hfirst & Hrepo).
  exists dockerfile, tag, dir, digest, from. do 4 (split; [done|]). fold target. split; [by rewrite Hargv|].
  split; [exists o1, out, o2; split_and!; [done..|by apply digestRe_first]|].
  eexists. cbn [db_policies set_policies]. rewrite Hdb2. split; [reflexivity|].
  cbn [pl_bundle pl_version]. split; [|reflexivity]. apply canonicalBundle_image.
Qed.

(** Only the first FROM is looked at: the image that is built may come from any other. *)
Definition two_stages : gostring := go "FROM redactr-base" ++ [chr 10] ++ go "FROM attacker/image" ++ [chr 10].
Lemma second_stage_unchecked : extends_base two_stages (go "redactr-base") = true.
Proof. vm_compute. reflexivity. Qed.
End pinning.

(** ** A build *)

Section image_example.
#[local] Existing Instance sample_unicode.
#[local] Existing Instance demo_sqlite.
#[local] Existing Instance toy_ecdsa.
#[local] Existing Instance demo_pem.
#[local] Existing Instance demo_time.

Definition demo_digest : gostring := go "sha256:" ++ (seq 0 64 ≫= λ _, go "a").
Definition demo_runner : CommandRunner := λ _ argv,
  inr (if bool_decide (argv !! 1%nat = Some (go "push")) then go "v1: digest: " ++ demo_digest ++ go " size: 527" else []).
Definition image_server : Server :=
  mkServer tt (go "key") (Some (λ dockerfile base target, (Build demo_runner (inr (go "/tmp/b")) None (go "k") dockerfile base target).2))
    (go "reg.io").
Definition image_request : HttpRequest :=
  mkHttpRequest (RBuildImage (go "acme")) [] (go "key") [] (λ _, [])
    (compact (JObj [(go "dockerfile", quoted (go "FROM redactr-base:1")); (go "tag", quoted (go "v1"))])).
Definition image_result_of : Handled_http := handleBuildImage image_server demo_env image_request (go "acme") demo_org_db.

Lemma built_image_pinned_witness :
  ∃ row, db_policies image_result_of.1 = {[go "acme" := row]}
    ∧ pb_Image (bundle_of (pl_bundle row)) = go "reg.io/acme/v1@" ++ demo_digest.
Proof.
  destruct (built_image_pinned demo_runner (inr (go "/tmp/b")) None (go "k") image_server demo_env image_request (go "acme")
    demo_org_db image_result_of.1 image_result_of.2 eq_refl (surjective_pairing _)) as [_ Hok].
  destruct Hok as (_ & Hok).
  destruct Hok as (dockerfile & tag & dir & digest & ref & Hbody & _ & _ & _ & Hrest); [vm_compute; reflexivity|].
  assert ((v ← DecodeFirst (hr_body image_request); dec_struct image_fields ([], []) v)
    = Some (go "FROM redactr-base:1", go "v1")) as Hdec by (vm_compute; reflexivity).
  rewrite Hdec in Hbody. injection Hbody as <- <-. cbv zeta in Hrest.
  destruct Hrest as (Hargv & (out1 & out & out3 & Hbuild & Hout & _ & Hdig) & row & Hrow & Himage & _).
  assert (digest = demo_digest) as ->.
  { assert ((Build demo_runner (inr (go "/tmp/b")) None (go "k") (go "FROM redactr-base:1") (go "redactr-base")
      (sv_registry image_server ++ go "/acme/v1")).1 !! 2%nat
      = Some [go "cosign"; go "sign"; go "--key"; go "k"; go "reg.io/acme/v1@" ++ demo_digest]) as Hsign by (vm_compute; reflexivity).
    change (sv_registry image_server ++ go "/" ++ go "acme" ++ go "/" ++ go "v1") with (sv_registry image_server ++ go "/acme/v1") in Hargv.
    rewrite Hargv in Hsign. cbn [lookup list_lookup] in Hsign. injection Hsign as Hsign.
    exact Hsign. }
  exists row. split; [exact Hrow|]. rewrite Himage. vm_compute. reflexivity.
Defined.
End image_example.
