(* ===== verification/Platform.v ===== *)
(** * The platform firewalls — internal/firewall/{darwin,redirect_darwin,script_darwin,linux,windows}.go, redactr cleanup

    The managers behind the controller of [Firewall].  They run other programs:
    pfctl from a shell script under osascript, iptables, netsh.  The scripts are
    built, escaped and read back here; what the programs answer is an argument. *)
From S2P Require Import Prelude GoStr Utf8 Json Firewall.
Local Open Scope Z_scope.

(** ** script_darwin.go *)

Definition redactrAnchor : gostring := go "com.redactr".
(** [%q] of a text of letters and dots. *)
Definition plain_quoted (s : gostring) : gostring := [byte_of 34] ++ s ++ [byte_of 34].
Definition nl : gostring := [chr 10].
Definition rule_line (port : Z) (ip : gostring) : gostring :=
  go "rdr pass on lo0 inet proto tcp from any to " ++ ip ++ go " port 443 -> 127.0.0.1 port " ++ Itoa port.
Definition rules_tag : gostring := go "__REDACTR_RULES__".
Definition flush_line (anchor : gostring) : gostring :=
  go "pfctl -a " ++ plain_quoted anchor ++ go " -F all 2>/dev/null || true".
Definition load_line (anchor : gostring) : gostring :=
  go "pfctl -a " ++ plain_quoted anchor ++ go " -f - <<'" ++ rules_tag ++ go "'".
Definition enable_line : gostring := go "pfctl -E 2>/dev/null || true".
Definition buildApplyScript (anchor : gostring) (ips : list gostring) (port : Z) : gostring :=
  go "#!/bin/sh" ++ nl ++ flush_line anchor ++ nl ++ load_line anchor ++ nl
  ++ (ips ≫= λ ip, rule_line port ip ++ nl) ++ rules_tag ++ nl ++ enable_line ++ nl.
Definition buildRemoveScript (anchor : gostring) : gostring :=
  go "#!/bin/sh" ++ nl ++ go "set -e" ++ nl ++ flush_line anchor ++ nl.

(** ** redirect_darwin.go: the AppleScript text *)

Definition ReplaceByte (c : Ascii.ascii) (by_ : gostring) (s : gostring) : gostring :=
  s ≫= λ a, if bool_decide (a = c) then by_ else [a].
Definition back : Ascii.ascii := byte_of 92.
Definition dquote : Ascii.ascii := byte_of 34.
Definition apple_escape (script : gostring) : gostring :=
  ReplaceByte dquote [back; dquote] (ReplaceByte back [back; back] script).
Definition apple_script (script : gostring) : gostring :=
  go "do shell script " ++ dquote :: apple_escape script ++ dquote :: go " with administrator privileges".

(** ** What runs: AppleScript's literal and the shell's reading of these scripts *)

(** A literal of AppleScript after its opening quote: its text and what follows. *)
Fixpoint apple_literal (s : gostring) : option (gostring * gostring) :=
  match s with
  | [] => None
  | c :: s' =>
      if bool_decide (c = dquote) then Some ([], s')
      else if bool_decide (c = back) then
        match s' with
        | [] => None
        | e :: s'' => '(t, rest) ← apple_literal s''; Some (e :: t, rest)
        end
      else '(t, rest) ← apple_literal s'; Some (c :: t, rest)
  end.

(** A command of the scripts; [tolerant] is [|| true]. *)
Inductive sh_cmd :=
| ShSetE
| ShFlush (anchor : gostring) (tolerant : bool)
| ShLoad (anchor rules : gostring)
| ShEnable (tolerant : bool).
(** The lines of a here-document, up to its end mark. *)
Fixpoint here_document (tag : gostring) (lines : list gostring) : option (gostring * list gostring) :=
  match lines with
  | [] => None
  | l :: lines =>
      if bool_decide (l = tag) then Some ([], lines)
      else '(text, rest) ← here_document tag lines; Some (l ++ nl ++ text, rest)
  end.
(** The commands of a script of these lines; comments and empty lines are skipped. *)
Fixpoint sh_read (fuel : nat) (anchor : gostring) (lines : list gostring) : option (list sh_cmd) :=
  match fuel, lines with
  | _, [] => Some []
  | O, _ => None
  | S fuel, l :: lines =>
      if bool_decide (l = []) || HasPrefix l (go "#") then sh_read fuel anchor lines
      else if bool_decide (l = go "set -e") then cons ShSetE <$> sh_read fuel anchor lines
      else if bool_decide (l = flush_line anchor) then cons (ShFlush anchor true) <$> sh_read fuel anchor lines
      else if bool_decide (l = enable_line) then cons (ShEnable true) <$> sh_read fuel anchor lines
      else if bool_decide (l = load_line anchor) then
        '(rules, rest) ← here_document rules_tag lines; cons (ShLoad anchor rules) <$> sh_read fuel anchor rest
      else None
  end.
Definition sh_script (anchor script : gostring) : option (list sh_cmd) :=
  let lines := Split script (chr 10) in sh_read (length lines) anchor lines.

(** pf: the rules loaded in the anchor, whether it is on; and what pfctl accepts. *)
Record Pf := mkPf { pf_rules : option gostring; pf_on : bool }.
Record Pfctl := mkPfctl { pc_flush_ok : bool; pc_load_ok : gostring → bool; pc_enable_ok : bool }.
(** One command: the state, and whether it succeeded. *)
Definition sh_exec (t : Pfctl) (c : sh_cmd) (p : Pf) : Pf * bool :=
  match c with
  | ShSetE => (p, true)
  | ShFlush _ tolerant => (if pc_flush_ok t then mkPf None (pf_on p) else p, pc_flush_ok t || tolerant)
  | ShLoad _ rules => (if pc_load_ok t rules then mkPf (Some rules) (pf_on p) else p, pc_load_ok t rules)
  | ShEnable tolerant => (if pc_enable_ok t then mkPf (pf_rules p) true else p, pc_enable_ok t || tolerant)
  end.
(** The status of a script is that of its last command; [set -e] ends it at the first failure. *)
Fixpoint sh_run (t : Pfctl) (exit_on_error : bool) (ok : bool) (cs : list sh_cmd) (p : Pf) : Pf * bool :=
  match cs with
  | [] => (p, ok)
  | c :: cs =>
      let '(p, ok) := sh_exec t c p in
      if negb ok && exit_on_error then (p, false)
      else sh_run t (exit_on_error || match c with ShSetE => true | _ => false end) ok cs p
  end.

(** ** The macOS manager *)

(** [dw_active]: the process-wide flag of Redirect; [dw_blocking]: the field of BlockDirect. *)
Record Darwin := mkDarwin { dw_pf : Pf; dw_active : bool; dw_blocking : bool }.
(** What becomes of osascript: the user cancels, it is killed after its 60 s when the script has run
    [n] commands, or the script runs to its end; [t] is what pfctl accepts. *)
Inductive sudo_fate := SudoRefused (e : gostring) | SudoKilled (e : gostring) (n : nat) (t : Pfctl) | SudoRan (t : Pfctl).
Definition runWithSudo (sudo : sudo_fate) (script : gostring) (p : Pf) : Pf * option gostring :=
  match '(script, _) ← apple_literal (drop (length (go "do shell script ") + 1) (apple_script script));
        sh_script redactrAnchor script with
  | None => (p, Some (go "osascript: syntax"))
  | Some cs =>
      match sudo with
      | SudoRefused e => (p, Some (go "osascript: " ++ e))
      | SudoKilled e n t => ((sh_run t false true (take n cs) p).1, Some (go "osascript: " ++ e))
      | SudoRan t => let '(p, ok) := sh_run t false true cs p in (p, if ok then None else Some (go "osascript: exit"))
      end
  end.
Definition DarwinRedirect (sudo : sudo_fate) (ips : list gostring) (port : Z) (d : Darwin) : Darwin * option gostring :=
  if (port <=? 0) || (65535 <? port) then (d, Some (go "firewall: invalid transparent port " ++ Itoa port))
  else
    match runWithSudo sudo (buildApplyScript redactrAnchor ips port) (dw_pf d) with
    | (p, Some e) => (mkDarwin p false (dw_blocking d), Some e)
    | (p, None) => (mkDarwin p true (dw_blocking d), None)
    end.
Definition DarwinUnredirect (sudo : sudo_fate) (d : Darwin) : Darwin * option gostring :=
  match runWithSudo sudo (buildRemoveScript redactrAnchor) (dw_pf d) with
  | (p, Some e) => (mkDarwin p (dw_active d) (dw_blocking d), Some e)
  | (p, None) => (mkDarwin p false (dw_blocking d), None)
  end.

(** ** The scripts arrive as they were built *)

Lemma bind_nil {A B} (f : A → list B) : [] ≫= f = [].
Proof. done. Qed.
Lemma apple_escape_cons c s :
  apple_escape (c :: s) = (if bool_decide (c = back) then [back; back] else if bool_decide (c = dquote) then [back; dquote] else [c])
                          ++ apple_escape s.
Proof.
  unfold apple_escape, ReplaceByte. rewrite !bind_cons. case_bool_decide as Hb; [by rewrite bind_app|].
  rewrite bind_app, bind_cons, bind_nil, app_nil_r. done.
Qed.
Lemma apple_literal_escape s rest : apple_literal (apple_escape s ++ dquote :: rest) = Some (s, rest).
Proof.
  induction s as [|c s IH]; [reflexivity|]. rewrite apple_escape_cons, <- app_assoc.
  case_bool_decide as Hb; [|case_bool_decide as Hq].
  - subst c. cbn [app apple_literal]. rewrite bool_decide_eq_false_2, bool_decide_eq_true_2 by done. by rewrite IH.
  - subst c. cbn [app apple_literal]. rewrite bool_decide_eq_false_2, bool_decide_eq_true_2 by done. by rewrite IH.
  - cbn [app apple_literal]. rewrite !bool_decide_eq_false_2 by done. by rewrite IH.
Qed.
Lemma apple_script_literal s :
  apple_literal (drop (length (go "do shell script ") + 1) (apple_script s)) = Some (s, go " with administrator privileges").
Proof. apply (apple_literal_escape s). Qed.

Lemma Split_lines ls rest : Forall (λ l, chr 10 ∉ l) ls →
  Split ((ls ≫= λ l, l ++ nl) ++ rest) (chr 10) = ls ++ Split rest (chr 10).
Proof.
  induction 1 as [|l ls Hl _ IH]; [done|]. rewrite bind_cons, <- !app_assoc. cbn [app nl].
  rewrite Split_app by done. cbn [app]. by f_equal.
Qed.

Definition rules_text (port : Z) (ips : list gostring) : gostring := ips ≫= λ ip, rule_line port ip ++ nl.
(** A text without a line feed, as addresses are. *)
Definition one_line (s : gostring) : Prop := chr 10 ∉ s.
Lemma here_document_rules port ips rest :
  here_document rules_tag ((rule_line port <$> ips) ++ rules_tag :: rest) = Some (rules_text port ips, rest).
Proof.
  induction ips as [|ip ips IH]; cbn [fmap list_fmap app here_document].
  - by rewrite bool_decide_eq_true_2.
  - rewrite bool_decide_eq_false_2 by done. rewrite IH. cbn [mbind option_bind]. unfold rules_text.
    rewrite bind_cons, <- app_assoc. done.
Qed.
Lemma rule_line_one port ip : 0 ≤ port < 2 ^ 63 → one_line ip → one_line (rule_line port ip).
Proof.
  intros Hp Hi. unfold one_line, rule_line. rewrite !not_elem_of_app. split_and!; [by apply (bool_decide_unpack _); vm_compute|done
    |by apply (bool_decide_unpack _); vm_compute|].
  intros Hin%list_elem_of_In. destruct (Itoa_decimal port Hp) as (_ & Hd & _). rewrite forallb_forall in Hd.
  apply Hd in Hin. by vm_compute in Hin.
Qed.

Lemma apply_script_read ips port : 0 ≤ port < 2 ^ 63 → Forall one_line ips →
  sh_script redactrAnchor (buildApplyScript redactrAnchor ips port)
  = Some [ShFlush redactrAnchor true; ShLoad redactrAnchor (rules_text port ips); ShEnable true].
Proof.
  intros Hp Hips. set (ls := [go "#!/bin/sh"; flush_line redactrAnchor; load_line redactrAnchor] ++ (rule_line port <$> ips)
    ++ [rules_tag; enable_line]).
  assert (buildApplyScript redactrAnchor ips port = (ls ≫= λ l, l ++ nl) ++ []) as ->.
  { unfold buildApplyScript, ls. rewrite app_nil_r, !bind_app, !bind_cons, !bind_nil, !app_nil_r, <- !app_assoc.
    assert ((rule_line port <$> ips) ≫= (λ l, l ++ nl) = ips ≫= λ ip, rule_line port ip ++ nl) as ->; [|done].
    clear. induction ips as [|ip ips IH]; [done|]. rewrite fmap_cons, !bind_cons. by f_equal. }
  unfold sh_script. rewrite Split_lines.
  - unfold ls. rewrite <- !app_assoc. cbn [app].
    assert (length ((rule_line port <$> ips) ++ rules_tag :: enable_line :: Split [] (chr 10)) = S (S (S (length ips)))) as Hlen.
    { rewrite length_app, length_fmap. cbn [length Split]. lia. }
    cbn [length]. rewrite Hlen. cbn [sh_read].
    rewrite (bool_decide_eq_false_2 (go "#!/bin/sh" = [])) by done.
    assert (HasPrefix (go "#!/bin/sh") (go "#") = true) as -> by reflexivity. cbn [orb].
    rewrite (bool_decide_eq_false_2 (flush_line redactrAnchor = [])) by done.
    assert (HasPrefix (flush_line redactrAnchor) (go "#") = false) as -> by reflexivity. cbn [orb].
    rewrite (bool_decide_eq_false_2 (flush_line redactrAnchor = go "set -e")) by done.
    rewrite (bool_decide_eq_true_2 (flush_line redactrAnchor = _)) by done.
    rewrite (bool_decide_eq_false_2 (load_line redactrAnchor = [])) by done.
    assert (HasPrefix (load_line redactrAnchor) (go "#") = false) as -> by reflexivity. cbn [orb].
    rewrite (bool_decide_eq_false_2 (load_line redactrAnchor = go "set -e")) by done.
    rewrite (bool_decide_eq_false_2 (load_line redactrAnchor = flush_line _)) by done.
    rewrite (bool_decide_eq_false_2 (load_line redactrAnchor = enable_line)) by done.
    rewrite (bool_decide_eq_true_2 (load_line redactrAnchor = _)) by done.
    rewrite here_document_rules. reflexivity.
  - unfold ls. apply Forall_app. split; [|apply Forall_app; split].
    + repeat constructor; by apply (bool_decide_unpack _); vm_compute.
    + apply Forall_fmap. eapply Forall_impl; [exact Hips|]. intros ip. by apply rule_line_one.
    + repeat constructor; by apply (bool_decide_unpack _); vm_compute.
Qed.
Lemma remove_script_read :
  sh_script redactrAnchor (buildRemoveScript redactrAnchor) = Some [ShSetE; ShFlush redactrAnchor true].
Proof. vm_compute. reflexivity. Qed.

(** ** What the macOS manager does *)

Lemma runWithSudo_apply sudo ips port p : 0 ≤ port < 2 ^ 63 → Forall one_line ips →
  let cs := [ShFlush redactrAnchor true; ShLoad redactrAnchor (rules_text port ips); ShEnable true] in
  runWithSudo sudo (buildApplyScript redactrAnchor ips port) p =
    match sudo with
    | SudoRefused e => (p, Some (go "osascript: " ++ e))
    | SudoKilled e n t => ((sh_run t false true (take n cs) p).1, Some (go "osascript: " ++ e))
    | SudoRan t =>
        (mkPf (if pc_load_ok t (rules_text port ips) then Some (rules_text port ips)
               else if pc_flush_ok t then None else pf_rules p)
           (pc_enable_ok t || pf_on p), None)
    end.
Proof.
  intros Hp Hips cs. unfold runWithSudo. rewrite apple_script_literal. cbn [mbind option_bind].
  rewrite apply_script_read by done. destruct sudo as [e|e n t|t]; [done..|].
  cbn [sh_run sh_exec]. rewrite orb_true_r. cbn [negb andb orb].
  destruct p, (pc_load_ok t _), (pc_flush_ok t), (pc_enable_ok t); reflexivity.
Qed.

Lemma DarwinRedirect_eq sudo ips port d : Forall one_line ips →
  DarwinRedirect sudo ips port d =
    if (port <=? 0) || (65535 <? port) then (d, Some (go "firewall: invalid transparent port " ++ Itoa port))
    else
      match sudo with
      | SudoRan t =>
          (mkDarwin (mkPf (if pc_load_ok t (rules_text port ips) then Some (rules_text port ips)
                           else if pc_flush_ok t then None else pf_rules (dw_pf d))
                      (pc_enable_ok t || pf_on (dw_pf d))) true (dw_blocking d), None)
      | SudoRefused e => (mkDarwin (dw_pf d) false (dw_blocking d), Some (go "osascript: " ++ e))
      | SudoKilled e n t =>
          (mkDarwin (sh_run t false true (take n [ShFlush redactrAnchor true; ShLoad redactrAnchor (rules_text port ips); ShEnable true])
              (dw_pf d)).1 false (dw_blocking d), Some (go "osascript: " ++ e))
      end.
Proof.
  intros Hips. unfold DarwinRedirect. destruct (Z.leb_spec port 0); cbn [orb]; [done|].
  destruct (Z.ltb_spec 65535 port); [done|]. rewrite runWithSudo_apply by (done || lia). by destruct sudo.
Qed.
Lemma DarwinUnredirect_eq sudo d :
  DarwinUnredirect sudo d =
    match sudo with
    | SudoRan t => (mkDarwin (mkPf (if pc_flush_ok t then None else pf_rules (dw_pf d)) (pf_on (dw_pf d))) false (dw_blocking d), None)
    | SudoRefused e => (d, Some (go "osascript: " ++ e))
    | SudoKilled e n t =>
        (mkDarwin (sh_run t false true (take n [ShSetE; ShFlush redactrAnchor true]) (dw_pf d)).1 (dw_active d) (dw_blocking d),
         Some (go "osascript: " ++ e))
    end.
Proof.
  unfold DarwinUnredirect, runWithSudo. rewrite apple_script_literal. cbn [mbind option_bind]. rewrite remove_script_read.
  destruct sudo as [e|e n t|t]; [by destruct d|done|]. cbn [sh_run sh_exec negb andb orb]. rewrite orb_true_r. cbn [negb andb].
  by destruct (pc_flush_ok t), (dw_pf d).
Qed.


(** *** The macOS manager behind the controller *)

(** The manager's state and what becomes of osascript in its next calls. *)
Record DarwinHost := mkDarwinHost { dh_darwin : Darwin; dh_sudo : list sudo_fate }.
Definition next_sudo (h : DarwinHost) : sudo_fate := default (SudoRefused []) (head (dh_sudo h)).
Definition darwin_call (f : sudo_fate → Darwin → Darwin * option gostring) (h : DarwinHost) : DarwinHost * option gostring :=
  let '(d, err) := f (next_sudo h) (dh_darwin h) in (mkDarwinHost d (tail (dh_sudo h)), err).
Definition one_lineb (s : gostring) : bool := bool_decide (one_line s).
Definition darwin_accepts (h : DarwinHost) (c : fw_call) : bool :=
  match next_sudo h, c with
  | SudoRan t, CallRedirect ips port => forallb one_lineb ips && pc_load_ok t (rules_text port ips)
  | SudoRan t, CallUnredirect => pc_flush_ok t
  | _, _ => false
  end.
(** The rules of the anchor are those of the addresses. *)
Definition darwin_installs (h : DarwinHost) (rules : option (list gostring * Z)) : Prop :=
  pf_rules (dw_pf (dh_darwin h)) = (λ r, rules_text r.2 r.1) <$> rules.
#[program] Definition darwin_manager : FwManager := {|
  fm_State := DarwinHost;
  fm_installs := darwin_installs;
  fm_accepts := darwin_accepts;
  fm_Redirect h ips port := darwin_call (λ sudo, DarwinRedirect sudo ips port) h;
  fm_Unredirect h := darwin_call DarwinUnredirect h;
|}.
Next Obligation.
  intros h ips port h'. unfold darwin_call, darwin_accepts, darwin_installs.
  destruct (next_sudo h) as [|e n t|t] eqn:Hn; [by intros|by intros|].
  destruct (DarwinRedirect _ _ _ _) as [d err] eqn:E. intros [= <- ->] [Hips Hl]%andb_true_iff.
  rewrite DarwinRedirect_eq, Hl in E.
  - destruct (_ || _); [done|]. by injection E as <-.
  - apply Forall_forall. intros ip Hip%list_elem_of_In. rewrite forallb_forall in Hips. specialize (Hips ip Hip).
    by apply bool_decide_eq_true in Hips.
Qed.
Next Obligation.
  intros h h'. unfold darwin_call, darwin_accepts, darwin_installs.
  destruct (next_sudo h) as [|e n t|t] eqn:Hn; [by intros|by intros|].
  destruct (DarwinUnredirect _ _) as [d err] eqn:E. intros [= <- ->] Hl. rewrite DarwinUnredirect_eq, Hl in E.
  by injection E as <-.
Qed.

(** pfctl rejects a rule for [inet] with an IPv6 address, and with it the whole text: the
    controller is told that the traffic is redirected while no rule is installed. *)
Definition inet_only : Pfctl := mkPfctl true (λ rules, bool_decide (":"%char ∉ rules)) true.
Lemma redirect_hides_failure :
  DarwinRedirect (SudoRan inet_only) [go "104.18.7.1"; go "2606:4700::1"] 5000 (mkDarwin (mkPf None true) false false)
  = (mkDarwin (mkPf None true) true false, None).
Proof. vm_compute. reflexivity. Qed.

(** ** Blocking: darwin.go, linux.go, windows.go *)

(** The addresses of the domains that resolve, domain by domain. *)
Definition lookups (r : Resolver) (domains : list gostring) : list (gostring * list gostring) :=
  omap (λ d, ips ← r d; Some (d, ips)) domains.
Definition block_rule (ip : gostring) : gostring := go "block drop out proto tcp from any to " ++ ip ++ go " port 443" ++ nl.
(** [pfctl -f] replaces the rules of the anchor. *)
Definition DarwinBlock (load_ok : gostring → bool) (r : Resolver) (domains : list gostring) (d : Darwin) : Darwin :=
  mkDarwin (foldl (λ p ip, if load_ok (block_rule ip) then mkPf (Some (block_rule ip)) (pf_on p) else p) (dw_pf d)
              (lookups r domains ≫= snd)) (dw_active d) true.
(** [Unblock], which is also [Cleanup]: pfctl without a password; its error. *)
Definition DarwinUnblock (flush : option gostring) (d : Darwin) : Darwin * option gostring :=
  (mkDarwin (match flush with None => mkPf None (pf_on (dw_pf d)) | Some _ => dw_pf d end) (dw_active d) false, flush).
(** [Status]: one entry per line that pfctl prints. *)
Definition DarwinStatus (out : gostring + gostring) (d : Darwin) : gostring + nat :=
  if negb (dw_blocking d) then inr 0%nat
  else match out with inl e => inl e | inr out => inr (length (filter (λ l, l ≠ []) (Split out (chr 10)))) end.
Lemma DarwinBlock_last_only r domains d ips ip : lookups r domains ≫= snd = ips ++ [ip] →
  pf_rules (dw_pf (DarwinBlock (λ _, true) r domains d)) = Some (block_rule ip).
Proof. intros Hl. unfold DarwinBlock. rewrite Hl, foldl_app. reflexivity. Qed.

(** iptables: the DROP rules of the OUTPUT chain, of anyone; the manager's memory. [ok] tells whether
    the command for an address succeeds. *)
Record Linux := mkLinux { lx_chain : list gostring; lx_blocked : list gostring }.
Definition linux_add (ok : gostring → bool) (l : Linux) (ip : gostring) : Linux :=
  mkLinux (if ok ip then lx_chain l ++ [ip] else lx_chain l) (lx_blocked l ++ [ip]).
Definition LinuxBlock (ok : gostring → bool) (r : Resolver) (domains : list gostring) (l : Linux) : Linux :=
  foldl (linux_add ok) l (lookups r domains ≫= snd).
(** [iptables -D] removes the first rule that is equal. *)
Fixpoint remove_first (ip : gostring) (chain : list gostring) : list gostring :=
  match chain with [] => [] | x :: chain => if bool_decide (x = ip) then chain else x :: remove_first ip chain end.
Definition LinuxUnblock (ok : gostring → bool) (l : Linux) : Linux :=
  mkLinux (foldl (λ chain ip, if ok ip then remove_first ip chain else chain) (lx_chain l) (lx_blocked l)) [].
(** A process of its own: it remembers nothing. *)
Definition LinuxCleanup (ok : gostring → bool) (chain : list gostring) : list gostring :=
  lx_chain (LinuxUnblock ok (mkLinux chain [])).

Lemma remove_first_perm ip chain : ip ∈ chain → ip :: remove_first ip chain ≡ₚ chain.
Proof.
  induction chain as [|x chain IH]; [by intros ?%not_elem_of_nil|]. cbn [remove_first].
  case_bool_decide as Hx; [by subst|]. intros [->|Hin]%elem_of_cons; [done|].
  rewrite <- (IH Hin) at 2. apply Permutation_swap.
Qed.
Lemma remove_all_perm base blocked chain : chain ≡ₚ base ++ blocked →
  foldl (λ chain ip, remove_first ip chain) chain blocked ≡ₚ base.
Proof.
  revert chain. induction blocked as [|ip blocked IH]; intros chain Hc; cbn [foldl]; [by rewrite app_nil_r in Hc|].
  apply IH. apply (Permutation_cons_inv (a := ip)). rewrite remove_first_perm.
  - by rewrite Hc, Permutation_middle.
  - rewrite Hc. apply elem_of_app. right. by left.
Qed.
(** When every command succeeds, unblocking undoes all that was blocked since the last time, and
    leaves the rules of others as they were. *)
Lemma LinuxUnblock_restores r domains chain :
  lx_chain (LinuxUnblock (λ _, true) (LinuxBlock (λ _, true) r domains (mkLinux chain []))) ≡ₚ chain.
Proof.
  assert (∀ ips l, foldl (linux_add (λ _, true)) l ips = mkLinux (lx_chain l ++ ips) (lx_blocked l ++ ips)) as Hadd.
  { induction ips as [|ip ips IH]; intros l; cbn [foldl]; [by rewrite !app_nil_r; destruct l|].
    rewrite IH. cbn [linux_add lx_chain lx_blocked]. by rewrite <- !app_assoc. }
  unfold LinuxUnblock, LinuxBlock. rewrite Hadd. cbn [lx_chain lx_blocked app]. by apply remove_all_perm.
Qed.
(** A rule that could not be added is remembered as added: unblocking removes an equal rule of
    someone else. And the cleanup command removes nothing at all. *)
Lemma linux_foreign_rule :
  lx_chain (LinuxUnblock (λ _, true) (LinuxBlock (λ _, false) (λ _, Some [go "1.2.3.4"]) [go "api.x"] (mkLinux [go "1.2.3.4"] [])))
  = [].
Proof. vm_compute. reflexivity. Qed.
Lemma LinuxCleanup_nothing ok chain : LinuxCleanup ok chain = chain.
Proof. reflexivity. Qed.

(** netsh: named rules; a name is deleted with all its rules. *)
Record Windows := mkWindows { wn_rules : list (gostring * gostring); wn_names : list gostring }.
Definition windows_name (domain : gostring) : gostring := go "Redactr-Block-" ++ domain.
Definition windows_add (ok : gostring → bool) (w : Windows) (entry : gostring * list gostring) : Windows :=
  let name := windows_name entry.1 in
  mkWindows (if ok name then wn_rules w ++ [(name, Join entry.2 (go ","))] else wn_rules w) (wn_names w ++ [name]).
Definition WindowsBlock (ok : gostring → bool) (r : Resolver) (domains : list gostring) (w : Windows) : Windows :=
  foldl (windows_add ok) w (lookups r domains).
Definition WindowsUnblock (ok : gostring → bool) (w : Windows) : Windows :=
  mkWindows (foldl (λ rules name, if ok name then filter (λ kv, kv.1 ≠ name) rules else rules) (wn_rules w) (wn_names w)) [].
Lemma WindowsUnblock_removes w name addrs : name ∈ wn_names w →
  (name, addrs) ∉ wn_rules (WindowsUnblock (λ _, true) w).
Proof.
  cbn [WindowsUnblock wn_rules]. intros Hn Hin.
  assert (∀ (names : list gostring) (rules : list (gostring * gostring)), (name, addrs) ∈ foldl (λ rules name, filter (λ kv, kv.1 ≠ name) rules) rules names →
    (name, addrs) ∈ rules ∧ name ∉ names) as Hf; [|by apply Hf in Hin as [_ ?]].
  clear. induction names as [|n names IH]; intros rules; cbn [foldl]; [by split; [|apply not_elem_of_nil]|].
  intros [[Hne Hr]%list_elem_of_filter Hn]%IH. split; [done|]. apply not_elem_of_cons. by split.
Qed.

(** ** redactr cleanup *)

(** Both errors are logged only; the state file goes whatever they are. *)
Definition runCleanup (sudo : sudo_fate) (flush : option gostring) (d : Darwin) (file : option FwState)
    : Darwin * option FwState :=
  ((DarwinUnblock flush (DarwinUnredirect sudo d).1).1, None).
(** With the password or as root the rules are gone; otherwise they stay, and the record that says so is deleted. *)
Lemma runCleanup_rules sudo flush d file :
  pf_rules (dw_pf (runCleanup sudo flush d file).1) = None
  ∨ (∃ e, flush = Some e) ∧ pf_rules (dw_pf (runCleanup sudo flush d file).1) = pf_rules (dw_pf (DarwinUnredirect sudo d).1).
Proof. unfold runCleanup, DarwinUnblock. destruct flush as [e|]; [right|left]; cbn; eauto. Qed.

(** ** A machine *)

