(* ===== verification/Certs.v ===== *)
(** * Keys and certificates on disk — internal/certgen/ca.go, internal/server/keys/keys.go

    The daemon's certificate authority and the control plane's signing key: read
    if there, else created and written.  The encodings (PEM, X.509, SEC 1) and the
    creation of keys are the class [KeyFormat]; the files and every failure,
    down to a write cut short, are here. *)
From S2P Require Import Prelude GoStr.
Local Open Scope Z_scope.

(** What [pem.Decode] and the parser of its bytes make of a text. *)
Inductive parsed (A : Type) := NoBlock | Unparsed (e : gostring) | Parsed (a : A).
Arguments NoBlock {A}.
Arguments Unparsed {A} e.
Arguments Parsed {A} a.

(** Certificates and private keys, their PEM texts, and whether a key is on the curve P-256. *)
Class KeyFormat := {
  kf_Cert : Type;
  kf_Key : Type;
  kf_cert_text : kf_Cert → gostring;
  kf_key_text : kf_Key → gostring;
  kf_read_cert : gostring → parsed kf_Cert;
  kf_read_key : gostring → parsed kf_Key;
  kf_p256 : kf_Key → bool;
}.
(** What is written reads back. *)
Class KeyLaws `{KeyFormat} : Prop := {
  kf_cert_back : ∀ c, kf_read_cert (kf_cert_text c) = Parsed c;
  kf_key_back : ∀ k, kf_read_key (kf_key_text k) = Parsed k;
}.

(** A file, and what becomes of a read and of a write: a failed write, or a process that ends
    during it, may leave any text or the file as it was. *)
Definition kfile : Type := option gostring.
Inductive kwrite := KWritten | KNotWritten (e : gostring) (rest : kfile) | KKilled (rest : kfile).
Definition kread (e : option gostring) (f : kfile) : gostring + gostring :=
  match e, f with
  | Some e, _ => inl e
  | None, None => inl (go "no such file")
  | None, Some t => inr t
  end.

(** What a call returns, unless it panics or the process ends in it. *)
Inductive outcome (A : Type) := Returned (a : A) | Failed (e : gostring) | Panicked | Killed.
Arguments Returned {A} a.
Arguments Failed {A} e.
Arguments Panicked {A}.
Arguments Killed {A}.

Section certs.
Context `{KeyFormat}.

(** ** certgen/ca.go *)

Record CA := mkCA { ca_Cert : kf_Cert; ca_Key : kf_Key }.
Record CAFiles := mkCAFiles { cf_cert : kfile; cf_key : kfile }.
(** [cn_fresh]: the error of creating the key and the certificate, or both; [cn_stat]: whether
    [os.Stat] succeeds on a file that is there. *)
Record CAEnv := mkCAEnv {
  cn_fresh : gostring + CA;
  cn_stat : bool;
  cn_read_cert : option gostring;
  cn_read_key : option gostring;
  cn_write_cert : kwrite;
  cn_write_key : kwrite;
}.
Definition ca_write {A : Type} (w : kwrite) (text : gostring) (put : kfile → CAFiles) (k : CAFiles → CAFiles * outcome A)
    : CAFiles * outcome A :=
  match w with
  | KWritten => k (put (Some text))
  | KNotWritten e rest => (put rest, Failed e)
  | KKilled rest => (put rest, Killed)
  end.
Definition GenerateCA (e : CAEnv) (fs : CAFiles) : CAFiles * outcome CA :=
  match cn_fresh e with
  | inl err => (fs, Failed err)
  | inr ca =>
      ca_write (cn_write_cert e) (kf_cert_text (ca_Cert ca)) (λ f, mkCAFiles f (cf_key fs)) (λ fs,
        ca_write (cn_write_key e) (kf_key_text (ca_Key ca)) (λ f, mkCAFiles (cf_cert fs) f) (λ fs, (fs, Returned ca)))
  end.
(** [block.Bytes] of no block is a nil dereference. *)
Definition LoadCA (e : CAEnv) (fs : CAFiles) : outcome CA :=
  match kread (cn_read_cert e) (cf_cert fs) with
  | inl err => Failed err
  | inr certPEM =>
      match kf_read_cert certPEM with
      | NoBlock => Panicked
      | Unparsed err => Failed err
      | Parsed cert =>
          match kread (cn_read_key e) (cf_key fs) with
          | inl err => Failed err
          | inr keyPEM =>
              match kf_read_key keyPEM with
              | NoBlock => Panicked
              | Unparsed err => Failed err
              | Parsed key => Returned (mkCA cert key)
              end
          end
      end
  end.
Definition LoadOrCreateCA (e : CAEnv) (fs : CAFiles) : CAFiles * outcome CA :=
  if bool_decide (is_Some (cf_cert fs)) && cn_stat e then (fs, LoadCA e fs) else GenerateCA e fs.

(** ** server/keys/keys.go *)

Record KeyEnv := mkKeyEnv {
  kn_mkdir : option gostring;
  kn_read : option gostring;
  kn_fresh : gostring + kf_Key;
  kn_write : kwrite;
}.
Definition LoadOrCreate (e : KeyEnv) (f : kfile) : kfile * outcome kf_Key :=
  match kn_mkdir e with
  | Some err => (f, Failed err)
  | None =>
      match kn_read e, f with
      | Some err, _ => (f, Failed err)
      | None, Some raw =>
          (f, match kf_read_key raw with
              | NoBlock => Failed (go "server.key: no PEM block")
              | Unparsed err => Failed err
              | Parsed key => if kf_p256 key then Returned key else Failed (go "server.key: expected P-256 key")
              end)
      | None, None =>
          match kn_fresh e with
          | inl err => (f, Failed err)
          | inr priv =>
              match kn_write e with
              | KWritten => (Some (kf_key_text priv), Returned priv)
              | KNotWritten err rest => (rest, Failed err)
              | KKilled rest => (rest, Killed)
              end
          end
      end
  end.

(** ** Over many starts *)

Fixpoint ca_starts (es : list CAEnv) (fs : CAFiles) : CAFiles * list (outcome CA) :=
  match es with
  | [] => (fs, [])
  | e :: es => let '(fs, o) := LoadOrCreateCA e fs in let '(fs, os) := ca_starts es fs in (fs, o :: os)
  end.
Fixpoint key_starts (es : list KeyEnv) (f : kfile) : kfile * list (outcome kf_Key) :=
  match es with
  | [] => (f, [])
  | e :: es => let '(f, o) := LoadOrCreate e f in let '(f, os) := key_starts es f in (f, o :: os)
  end.

Context `{!KeyLaws}.

(** The files of an authority. *)
Definition ca_stored (ca : CA) (fs : CAFiles) : Prop :=
  ∃ cert key, cf_cert fs = Some cert ∧ cf_key fs = Some key ∧ kf_read_cert cert = Parsed (ca_Cert ca)
    ∧ kf_read_key key = Parsed (ca_Key ca).
Lemma LoadOrCreateCA_returned e fs fs' ca : LoadOrCreateCA e fs = (fs', Returned ca) → ca_stored ca fs'.
Proof.
  unfold LoadOrCreateCA. destruct (_ && _).
  - unfold LoadCA, kread. intros [= <- Hl]. destruct (cn_read_cert e); [done|]. destruct (cf_cert fs) as [cert|] eqn:Hc; [|done].
    destruct (kf_read_cert cert) as [|err|c] eqn:Hrc; [done..|]. destruct (cn_read_key e); [done|].
    destruct (cf_key fs) as [key|] eqn:Hk; [|done]. destruct (kf_read_key key) as [|err|k] eqn:Hrk; [done..|].
    injection Hl as <-. by exists cert, key.
  - unfold GenerateCA. destruct (cn_fresh e) as [err|ca0]; [done|]. unfold ca_write.
    destruct (cn_write_cert e); [|done..]. destruct (cn_write_key e); [|done..]. intros [= <- <-].
    exists (kf_cert_text (ca_Cert ca0)), (kf_key_text (ca_Key ca0)). cbn [cf_cert cf_key]. by rewrite kf_cert_back, kf_key_back.
Qed.
(** With files that can be inspected, a stored authority is what every start returns, if it returns one. *)
Lemma ca_stored_start ca e fs : ca_stored ca fs → cn_stat e = true →
  (LoadOrCreateCA e fs).1 = fs ∧ ((LoadOrCreateCA e fs).2 = Returned ca ∨ ∃ err, (LoadOrCreateCA e fs).2 = Failed err).
Proof.
  intros (cert & key & Hc & Hk & Hrc & Hrk) Hs. unfold LoadOrCreateCA. rewrite Hc, Hs. cbn [andb fst snd].
  split; [done|]. unfold LoadCA, kread. rewrite Hc, Hk. destruct (cn_read_cert e); [by right; eexists|]. rewrite Hrc.
  destruct (cn_read_key e); [by right; eexists|]. rewrite Hrk. left. by destruct ca.
Qed.

Lemma half_written_start e ca : cn_stat e = true →
  let fs := mkCAFiles (Some (kf_cert_text (ca_Cert ca))) None in ∃ err, LoadOrCreateCA e fs = (fs, Failed err).
Proof.
  intros Hs. unfold LoadOrCreateCA, LoadCA, kread. cbn [cf_cert cf_key]. rewrite Hs.
  rewrite bool_decide_eq_true_2 by by eexists. cbn [andb]. destruct (cn_read_cert e); [by eexists|]. rewrite kf_cert_back.
  destruct (cn_read_key e); by eexists.
Qed.

Lemma ca_starts_stored ca fs es : ca_stored ca fs → Forall (λ e, cn_stat e = true) es →
  (ca_starts es fs).1 = fs ∧ Forall (λ o, o = Returned ca ∨ ∃ err, o = Failed err) (ca_starts es fs).2.
Proof.
  intros Hstored. induction 1 as [|e' es He _ IH]; [by split; constructor|].
  cbn [ca_starts]. destruct (ca_stored_start ca e' fs Hstored He) as [Hfs Ho].
  destruct (LoadOrCreateCA e' fs) as [fs1 o]. cbn [fst snd] in *. subst fs1.
  destruct (ca_starts es fs) as [fs2 os]. cbn [fst snd] in *. destruct IH as [-> IH]. split; [done|by constructor].
Qed.
Lemma ca_starts_half ca es : Forall (λ e, cn_stat e = true) es →
  let fs := mkCAFiles (Some (kf_cert_text (ca_Cert ca))) None in
  (ca_starts es fs).1 = fs ∧ Forall (λ o, ∃ err, o = Failed err) (ca_starts es fs).2.
Proof.
  cbv zeta. induction 1 as [|e' es He _ IH]; [by split; constructor|]. cbn [ca_starts].
  destruct (half_written_start e' ca He) as [err ->]. destruct (ca_starts es _) as [f2 os]. cbn [fst snd] in *.
  destruct IH as [-> IH]. split; [done|]. constructor; [by eexists|done].
Qed.
Lemma key_starts_stored raw key es : kf_read_key raw = Parsed key → kf_p256 key = true →
  (key_starts es (Some raw)).1 = Some raw
  ∧ Forall (λ o, o = Returned key ∨ ∃ err, o = Failed err) (key_starts es (Some raw)).2.
Proof.
  intros Hr Hk. induction es as [|e es IH]; [by split; constructor|]. cbn [key_starts].
  assert (∃ o, LoadOrCreate e (Some raw) = (Some raw, o) ∧ (o = Returned key ∨ ∃ err, o = Failed err)) as (o & -> & Ho).
  { unfold LoadOrCreate. destruct (kn_mkdir e); [by eauto|]. destruct (kn_read e); [by eauto|]. rewrite Hr, Hk. by eauto. }
  destruct (key_starts es (Some raw)) as [f2 os]. cbn [fst snd] in *. destruct IH as [-> IH]. split; [done|by constructor].
Qed.

(** What the write of the key, cut short or failed, leaves of its file. *)
Definition key_left (w : kwrite) : option kfile :=
  match w with KWritten => None | KNotWritten _ rest | KKilled rest => Some rest end.

(** C33: keys survive restarts. Once a start has returned a certificate authority, every later
    start on which [os.Stat] succeeds leaves its files alone and returns the same authority, or
    an error of reading them; a start on which it fails takes the certificate for missing and,
    if nothing else fails, writes and returns a new authority over the old. Once the control
    plane has returned its signing key, every later start returns the same key or an error of
    the file system. A first start that ends or fails between the two files of the authority is
    never repaired: if it left no key file every later start fails, and if it left a key that
    reads, of before or its own, every later start pairs the new certificate with that key. *)
Theorem keys_survive_restarts :
  (∀ e fs fs' ca es, LoadOrCreateCA e fs = (fs', Returned ca) → Forall (λ e, cn_stat e = true) es →
     (ca_starts es fs').1 = fs' ∧ Forall (λ o, o = Returned ca ∨ ∃ err, o = Failed err) (ca_starts es fs').2)
  ∧ (∀ e fs ca, cn_stat e = false → cn_fresh e = inr ca → cn_write_cert e = KWritten → cn_write_key e = KWritten →
     LoadOrCreateCA e fs = (mkCAFiles (Some (kf_cert_text (ca_Cert ca))) (Some (kf_key_text (ca_Key ca))), Returned ca))
  ∧ (∀ e f f' key es, LoadOrCreate e f = (f', Returned key) → (∀ k, kn_fresh e = inr k → kf_p256 k = true) →
     (key_starts es f').1 = f' ∧ Forall (λ o, o = Returned key ∨ ∃ err, o = Failed err) (key_starts es f').2)
  ∧ (∀ e old ca rest es, cn_fresh e = inr ca → cn_write_cert e = KWritten → key_left (cn_write_key e) = Some rest →
     Forall (λ e, cn_stat e = true) es →
     let fs := (LoadOrCreateCA e (mkCAFiles None old)).1 in
     match kf_read_key <$> rest with
     | None => (ca_starts es fs).1 = fs ∧ Forall (λ o, ∃ err, o = Failed err) (ca_starts es fs).2
     | Some (Parsed key) => (ca_starts es fs).1 = fs
         ∧ Forall (λ o, o = Returned (mkCA (ca_Cert ca) key) ∨ ∃ err, o = Failed err) (ca_starts es fs).2
     | Some _ => True
     end).
Proof.
  split_and!.
  - intros e fs fs' ca es Hstart%LoadOrCreateCA_returned. by apply ca_starts_stored.
  - intros e fs ca Hs Hf Hc Hk. unfold LoadOrCreateCA, GenerateCA, ca_write. by rewrite Hs, andb_false_r, Hf, Hc, Hk.
  - intros e f f' key es Hstart Hp.
    assert (∃ raw, f' = Some raw ∧ kf_read_key raw = Parsed key ∧ kf_p256 key = true) as (raw & -> & Hr & Hk); [|by apply key_starts_stored].
    revert Hstart. unfold LoadOrCreate. destruct (kn_mkdir e); [done|]. destruct (kn_read e); [done|]. destruct f as [raw|].
    + destruct (kf_read_key raw) as [|err|k] eqn:Hr; [done..|]. destruct (kf_p256 k) eqn:Hk; [|done]. intros [= <- <-]. by exists raw.
    + destruct (kn_fresh e) as [err|k] eqn:Hf; [done|]. destruct (kn_write e); [|done..]. intros [= <- <-].
      exists (kf_key_text k). rewrite kf_key_back. by split_and!; [..|apply Hp].
  - intros e old ca rest es Hf Hc Hk Hes.
    assert ((LoadOrCreateCA e (mkCAFiles None old)).1 = mkCAFiles (Some (kf_cert_text (ca_Cert ca))) rest) as ->.
    { unfold LoadOrCreateCA, GenerateCA, ca_write. rewrite Hf, Hc, bool_decide_eq_false_2 by by intros [? ?].
      destruct (cn_write_key e); cbn in Hk |- *; by simplify_eq. }
    cbv zeta. destruct rest as [text|]; cbn [fmap option_fmap option_map]; [|by apply ca_starts_half].
    destruct (kf_read_key text) as [|err|key] eqn:Hr; [done..|]. apply (ca_starts_stored (mkCA (ca_Cert ca) key)); [|done].
    exists (kf_cert_text (ca_Cert ca)), text. by rewrite kf_cert_back.
Qed.

(** A certificate file without a PEM block (emptied by a write cut short) panics every start. *)
Lemma emptied_certificate_panics e fs : cf_cert fs = Some [] → kf_read_cert [] = NoBlock → cn_stat e = true →
  cn_read_cert e = None → LoadOrCreateCA e fs = (fs, Panicked).
Proof. intros Hc Hr Hs He. unfold LoadOrCreateCA, LoadCA, kread. by rewrite Hc, Hs, He, Hr. Qed.
(** The key is not compared with the certificate: beside a key that was left from before, a new
    certificate whose key was not written is loaded as if they belonged together. *)
Lemma mismatch_loaded e old ca : cn_fresh e = inr ca → cn_write_cert e = KWritten →
  cn_write_key e = KKilled (Some (kf_key_text old)) → ∀ e', cn_stat e' = true → cn_read_cert e' = None → cn_read_key e' = None →
  let fs := (LoadOrCreateCA e (mkCAFiles None (Some (kf_key_text old)))).1 in LoadOrCreateCA e' fs = (fs, Returned (mkCA (ca_Cert ca) old)).
Proof.
  intros Hf Hc Hk e' Hs Hr1 Hr2. unfold LoadOrCreateCA, GenerateCA, ca_write. rewrite Hf, Hc, Hk. cbn.
  rewrite Hs. cbn. unfold LoadCA, kread. cbn. by rewrite Hr1, kf_cert_back, Hr2, kf_key_back.
Qed.
End certs.

(** Certificates and keys that are their own texts. *)
Definition toy_read (t : gostring) : parsed gostring := match t with [] => NoBlock | _ :: t => Parsed t end.
#[export] Instance toy_keys : KeyFormat := {|
  kf_Cert := gostring; kf_Key := gostring; kf_cert_text c := byte_of 67 :: c; kf_key_text k := byte_of 75 :: k;
  kf_read_cert := toy_read; kf_read_key := toy_read; kf_p256 _ := true |}.
#[export] Instance toy_keys_laws : KeyLaws.
Proof. split; reflexivity. Qed.

Definition toy_ca : CA := mkCA (go "cert") (go "key").
Definition toy_start (fresh : CA) (w : kwrite) : CAEnv := mkCAEnv (inr fresh) true None None KWritten w.
Theorem keys_survive_restarts_witness :
  (ca_starts [toy_start (mkCA (go "other") (go "other")) KWritten] (LoadOrCreateCA (toy_start toy_ca KWritten) (mkCAFiles None None)).1).1
    = (LoadOrCreateCA (toy_start toy_ca KWritten) (mkCAFiles None None)).1
  ∧ Forall (λ o, ∃ err, o = Failed err) (ca_starts [toy_start toy_ca KWritten] (LoadOrCreateCA (toy_start toy_ca (KKilled None)) (mkCAFiles None None)).1).2.
Proof.
  destruct keys_survive_restarts as (Hca & _ & _ & Hcut). split.
  - refine (proj1 (Hca (toy_start toy_ca KWritten) (mkCAFiles None None) _ toy_ca _ eq_refl _)). repeat constructor.
  - refine (proj2 (Hcut (toy_start toy_ca (KKilled None)) None toy_ca None _ eq_refl eq_refl eq_refl _)). repeat constructor.
Defined.
