(* ===== verification/Hooks.v ===== *)
(** * Editor hooks — internal/hooks

    The hook of the agent's settings file (claude.go) and the list of commands that
    need no question (safecmd.go).  The settings are read into maps of any values,
    changed and printed anew; no other package calls these. *)
From S2P Require Import Prelude GoStr Utf8 GoFloat Json JsonRound JsonDecode JsonStruct Indent JsonAny Certs.
Local Open Scope Z_scope.

(** ** claude.go *)

(** What [settings] holds after the read: nil only after a file that says [null]. The error of
    [Unmarshal] is not looked at. *)
Definition read_settings (rd : option gostring) (f : kfile) : option (list (gostring * anyval)) :=
  match kread rd f with
  | inl _ => Some []
  | inr raw =>
      match Unmarshal raw with
      | Some JNull => None
      | Some v => match any_of v with AObj m => Some m | _ => Some [] end
      | None => Some []
      end
  end.
Definition hook_entry : anyval :=
  AArr [AObj [(go "hooks", AArr [AObj [(go "command", AStr (go "redactr-hook-check")); (go "type", AStr (go "command"))]]);
              (go "matcher", AStr (go "Bash"))]].
Definition sub_map (k : gostring) (m : list (gostring * anyval)) : option (list (gostring * anyval)) :=
  match obj_get k m with Some (AObj h) => Some h | _ => None end.
Definition with_hook (m : list (gostring * anyval)) : list (gostring * anyval) :=
  obj_set (go "hooks") (AObj (obj_set (go "PreToolUse") hook_entry (default [] (sub_map (go "hooks") m)))) m.
Definition without_hook (m : list (gostring * anyval)) : list (gostring * anyval) :=
  match sub_map (go "hooks") m with
  | None => m
  | Some h =>
      match obj_delete (go "PreToolUse") h with
      | [] => obj_delete (go "hooks") m
      | h' => obj_set (go "hooks") (AObj h') m
      end
  end.

(** [os.WriteFile] *)
Definition write_settings (w : kwrite) (raw : gostring) : kfile * outcome unit :=
  match w with
  | KWritten => (Some raw, Returned tt)
  | KNotWritten e rest => (rest, Failed e)
  | KKilled rest => (rest, Killed)
  end.
(** Assigning to the nil map panics, before anything is written. *)
Definition InstallHook (rd : option gostring) (w : kwrite) (f : kfile) : kfile * outcome unit :=
  match read_settings rd f with
  | None => (f, Panicked)
  | Some m => write_settings w (MarshalIndent (json_of (AObj (with_hook m))))
  end.
Definition RemoveHook (rd : option gostring) (w : kwrite) (f : kfile) : kfile * outcome unit :=
  match read_settings rd f with
  | None => write_settings w (MarshalIndent JNull)
  | Some m => write_settings w (MarshalIndent (json_of (AObj (without_hook m))))
  end.

(** What is written is read back. *)
Lemma read_written m : any_settled (AObj m) = true → (jdepth (json_of (AObj m)) ≤ max_depth)%N →
  read_settings None (Some (MarshalIndent (json_of (AObj m)))) = Some m.
Proof.
  intros Hs Hd. unfold read_settings. cbn [kread]. pose proof (MarshalIndent_any _ Hs Hd) as Hr.
  destruct (Unmarshal _) as [v|]; [|done]. injection Hr as Hr. destruct v; try done; by rewrite Hr.
Qed.

Lemma obj_delete_absent k m : obj_get k m = None → obj_delete k m = m.
Proof.
  unfold obj_get, obj_delete. induction m as [|[k1 v1] m IH]; [done|]. cbn [find fst]. case_bool_decide; [done|].
  intros Hm. rewrite filter_cons_True by done. by rewrite IH.
Qed.
Lemma obj_delete_set k v m : obj_get k m = None → obj_delete k (obj_set k v m) = m.
Proof.
  unfold obj_delete. induction m as [|[k0 v0] m IH]; cbn [obj_set fst].
  - intros _. by rewrite filter_cons_False by (cbn; tauto).
  - intros Hm. pose proof (obj_delete_absent k _ Hm) as Hid. unfold obj_get in Hm. cbn [find fst] in Hm.
    case_bool_decide as H0; [done|]. destruct (key_leb k k0).
    + rewrite filter_cons_False by (cbn; tauto). exact Hid.
    + rewrite filter_cons_True by done. by rewrite IH.
Qed.

(** Installing keeps every other setting and every other hook. *)
Lemma with_hook_get m k : obj_get k (with_hook m) =
  if bool_decide (k = go "hooks") then Some (AObj (obj_set (go "PreToolUse") hook_entry (default [] (sub_map (go "hooks") m))))
  else obj_get k m.
Proof. unfold with_hook. apply obj_get_set. Qed.
(** Removing what was installed leaves every setting as it was, when the user had no hooks of his
    own, or had hooks but none before the use of a tool. *)
Lemma remove_install m h k :
  (obj_get (go "hooks") m = None ∧ h = []) ∨ (obj_get (go "hooks") m = Some (AObj h) ∧ h ≠ [] ∧ obj_get (go "PreToolUse") h = None) →
  obj_get k (without_hook (with_hook m)) = obj_get k m.
Proof.
  intros Hm. assert (sub_map (go "hooks") (with_hook m) = Some (obj_set (go "PreToolUse") hook_entry h)) as Hsub.
  { unfold sub_map at 1. rewrite with_hook_get, bool_decide_true by done. unfold sub_map.
    by destruct Hm as [[-> ->]|(-> & _)]. }
  unfold without_hook. rewrite Hsub. destruct Hm as [[Hm ->]|(Hm & Hne & Hpre)].
  - change (obj_delete _ (obj_set _ _ [])) with (@nil (gostring * anyval)). cbn iota. rewrite obj_get_delete, with_hook_get.
    case_bool_decide as Hk; [by subst|done].
  - rewrite obj_delete_set by done. destruct h as [|kv h]; [done|]. rewrite obj_get_set, with_hook_get.
    case_bool_decide as Hk; [by subst|done].
Qed.

(** ** Where it does less than it means to *)

(** A file of settings, written with single quotes. *)
Definition settings_text (s : string) : gostring := (λ c, if bool_decide (c = chr 39) then quote else c) <$> go s.
Definition after_install (s : string) : option (list (gostring * anyval)) :=
  read_settings None (InstallHook None KWritten (Some (settings_text s))).1.

Lemma install_example :
  RemoveHook None KWritten (InstallHook None KWritten (Some (settings_text "{'model':'m','n':0.5,'hooks':{'Stop':[]}}"))).1
  = (Some (MarshalIndent (json_of (AObj [(go "hooks", AObj [(go "Stop", AArr [])]); (go "model", AStr (go "m")); (go "n", ANum (f64_lit 1 2))]))),
     Returned tt).
Proof. vm_compute. reflexivity. Qed.
(** Settings that do not parse are thrown away: the file is left with the hook alone. *)
Lemma install_discards_settings : after_install "{'model':'m',}" = Some [(go "hooks", AObj [(go "PreToolUse", hook_entry)])].
Proof. vm_compute. reflexivity. Qed.
(** So are they when the file is there and cannot be read. *)
Lemma install_unread_discards e raw : InstallHook (Some e) KWritten (Some raw) = InstallHook None KWritten None.
Proof. reflexivity. Qed.
(** The user's own hooks before the use of a tool are replaced, and do not come back. *)
Lemma install_replaces_hooks :
  after_install "{'hooks':{'PreToolUse':[{'matcher':'Edit'}]}}" = after_install "{}"
  ∧ obj_get (go "hooks") (without_hook (with_hook [(go "hooks", AObj [(go "PreToolUse", AArr [AObj [(go "matcher", AStr (go "Edit"))]])])])) = None.
Proof. vm_compute. split; reflexivity. Qed.
(** An integer above 2^53 is rewritten as its nearest float64. *)
Lemma install_rounds_integers : after_install "{'id':9007199254740993}" = after_install "{'id':9007199254740992}".
Proof. vm_compute. reflexivity. Qed.
(** A file that says [null] ends the installation in a panic. *)
Lemma install_null_panics : InstallHook None KWritten (Some (go "null")) = (Some (go "null"), Panicked).
Proof. vm_compute. reflexivity. Qed.

(** ** safecmd.go *)

Definition DefaultSafeCmds : list gostring := go <$> [
  "cat"; "head"; "tail"; "less"; "more"; "bat";
  "ls"; "tree"; "locate";
  "grep"; "rg"; "ag"; "ack"; "fgrep"; "egrep";
  "cut"; "sort"; "uniq"; "wc"; "tr"; "column";
  "file"; "stat"; "du"; "df"; "which"; "whereis"; "type";
  "diff"; "cmp"; "comm";
  "date"; "cal"; "uptime"; "whoami"; "hostname"; "uname"; "printenv";
  "echo"; "printf"; "basename"; "dirname"; "realpath";
  "git blame"; "git branch"; "git diff"; "git log"; "git ls-files";
  "git remote"; "git rev-parse"; "git show"; "git stash list";
  "git status"; "git tag";
  "pwd"; "find"; "env"]%string.

(** [iter] is the order in which the map is walked. *)
Definition BuildAllowlist (iter : gset gostring → list gostring) (defaults added removed : list gostring) : list gostring :=
  let allowed := foldl (λ (s : gset gostring) c, {[c]} ∪ s) ∅ defaults in
  let allowed := foldl (λ s c, {[c]} ∪ s) allowed added in
  let allowed := foldl (λ s c, s ∖ {[c]}) allowed removed in
  iter allowed.
Lemma foldl_union (l : list gostring) (s : gset gostring) c : c ∈ foldl (λ s c, {[c]} ∪ s) s l ↔ c ∈ s ∨ c ∈ l.
Proof. revert s. induction l as [|x l IH]; intros s; cbn [foldl]; [set_solver|]. rewrite IH. set_solver. Qed.
Lemma foldl_difference (l : list gostring) (s : gset gostring) c : c ∈ foldl (λ s c, s ∖ {[c]}) s l ↔ c ∈ s ∧ c ∉ l.
Proof. revert s. induction l as [|x l IH]; intros s; cbn [foldl]; [set_solver|]. rewrite IH. set_solver. Qed.
(** Each command once; what is removed stays out, even when it is also added. *)
Lemma BuildAllowlist_spec iter defaults added removed : (∀ s, iter s ≡ₚ elements s) →
  NoDup (BuildAllowlist iter defaults added removed) ∧
  ∀ c, c ∈ BuildAllowlist iter defaults added removed ↔ (c ∈ defaults ∨ c ∈ added) ∧ c ∉ removed.
Proof.
  intros Hiter. unfold BuildAllowlist. split; [rewrite Hiter; apply NoDup_elements|]. intros c.
  rewrite Hiter, elem_of_elements, foldl_difference, !foldl_union. set_solver.
Qed.
(** The list of safe commands lets [find] and [env] through, which run any command. *)
Lemma safe_cmds_run_anything :
  go "find" ∈ BuildAllowlist elements DefaultSafeCmds [] [] ∧ go "env" ∈ BuildAllowlist elements DefaultSafeCmds [] [].
Proof.
  split; apply BuildAllowlist_spec; try done; (split; [left|apply not_elem_of_nil]);
    apply (bool_decide_unpack _); vm_compute; exact I.
Qed.
