(* ===== verification/Files.v ===== *)
(** * The device's files — internal/policy, internal/enrollment and internal/policysync byte for byte

    The cached policy and the enrolment are JSON files that are replaced by a rename;
    the entity tag is written in place.  [Policy.Disk] is what these files hold once
    read; here are the files themselves, with every failure and every point at which
    the process may end, and [disk_of] relates the two. *)
From S2P Require Import Prelude GoStr Utf8 GoFloat GoSort Spans Scanner Redactor Sha256 Cache Regex Rules FileBlock Coordinator Json JsonRound JsonDecode JsonStruct Indent Domain Extract Proxy Firewall Base64 Signing Token Bundle Sessions Store ServerAuth Httpapi Policy History Fleet Certs.
Local Open Scope Z_scope.

(** ** Replacing a file *)

(** What becomes of [os.Rename]; the process may end before or after it. *)
Inductive krename := Renamed | NotRenamed (e : gostring) | EndBefore | EndAfter.
Record SaveEnv := mkSaveEnv { se_mkdir : option gostring; se_write : kwrite; se_rename : krename }.
(** The two [Save]s: the directory, the temporary file, the rename.  The file and the temporary one. *)
Definition replace_file (e : SaveEnv) (raw : gostring) (file tmp : kfile) : kfile * kfile * outcome unit :=
  match se_mkdir e with
  | Some err => (file, tmp, Failed err)
  | None =>
      match se_write e with
      | KNotWritten err rest => (file, rest, Failed err)
      | KKilled rest => (file, rest, Killed)
      | KWritten =>
          match se_rename e with
          | Renamed => (Some raw, None, Returned tt)
          | NotRenamed err => (file, Some raw, Failed err)
          | EndBefore => (file, Some raw, Killed)
          | EndAfter => (Some raw, None, Killed)
          end
      end
  end.
(** Why the file was not replaced, if it was not. *)
Definition save_error (e : SaveEnv) : option gostring :=
  match se_mkdir e, se_write e, se_rename e with
  | Some err, _, _ | None, KNotWritten err _, _ | None, KWritten, NotRenamed err => Some err
  | None, KKilled _, _ | None, KWritten, EndBefore => Some []
  | None, KWritten, (Renamed | EndAfter) => None
  end.
Definition takes_effect (e : SaveEnv) : bool := match save_error e with None => true | Some _ => false end.
Lemma replace_file_file e raw file tmp : (replace_file e raw file tmp).1.1 = if takes_effect e then Some raw else file.
Proof. unfold replace_file, takes_effect, save_error. by destruct (se_mkdir e), (se_write e), (se_rename e). Qed.

Record Files := mkFiles {
  fi_policy : kfile; fi_policy_tmp : kfile; fi_enrollment : kfile; fi_enrollment_tmp : kfile; fi_etag : kfile;
}.
Definition no_files : Files := mkFiles None None None None None.

Section files.
Context `{UnicodeData} `{TimeText}.
Context (lib_error : gostring → gostring).

(** ** policy.go *)

Definition zero_policy : Policy := mkPolicy [] [] None 0 zero_time.
Definition policy_members (p : Policy) : list (gostring * json) := [
  (go "image", quoted (py_Image p)); (go "mountMode", quoted (py_MountMode p));
  (go "denylist", match py_Denylist p with Some l => strings_json l | None => JNull end);
  (go "version", JNum (Itoa (py_Version p))); (go "fetchedAt", quoted (time_text (py_FetchedAt p)))].
Definition policy_fields : list (gostring * decoder Policy) := [
  (go "image", λ p v, (λ x, mkPolicy x (py_MountMode p) (py_Denylist p) (py_Version p) (py_FetchedAt p)) <$> dec_string (py_Image p) v);
  (go "mountMode", λ p v, (λ x, mkPolicy (py_Image p) x (py_Denylist p) (py_Version p) (py_FetchedAt p)) <$> dec_string (py_MountMode p) v);
  (go "denylist", λ p v, (λ x, mkPolicy (py_Image p) (py_MountMode p) x (py_Version p) (py_FetchedAt p)) <$> dec_strings_opt (py_Denylist p) v);
  (go "version", λ p v, (λ x, mkPolicy (py_Image p) (py_MountMode p) (py_Denylist p) x (py_FetchedAt p)) <$> dec_int (py_Version p) v);
  (go "fetchedAt", λ p v, (λ x, mkPolicy (py_Image p) (py_MountMode p) (py_Denylist p) (py_Version p) x) <$> dec_time (py_FetchedAt p) v)].
Definition read_policy (raw : gostring) : option Policy := v ← Unmarshal raw; dec_struct policy_fields zero_policy v.

(** [policy.Load]; [rd] is an error of the read other than that there is no file. *)
Definition LoadPolicyFile (rd : option gostring) (denylist : option (list gostring)) (fs : Files) : gostring + Policy :=
  match rd, fi_policy fs with
  | Some e, _ => inl e
  | None, None => inr (SeedPolicy denylist)
  | None, Some raw => match read_policy raw with Some p => inr p | None => inl (lib_error raw) end
  end.
Definition SavePolicyFile (e : SaveEnv) (p : Policy) (fs : Files) : Files * outcome unit :=
  let '(file, tmp, o) := replace_file e (MarshalIndent (JObj (policy_members p))) (fi_policy fs) (fi_policy_tmp fs) in
  (mkFiles file tmp (fi_enrollment fs) (fi_enrollment_tmp fs) (fi_etag fs), o).

(** ** enrollment.go *)

Definition zero_enrollment : Enrollment := mkEnrollment [] [] [] [] [].
Definition enrollment_members (e : Enrollment) : list (gostring * json) := [
  (go "server_url", quoted (en_ServerURL e)); (go "device_token", quoted (en_DeviceToken e));
  (go "server_public_key", quoted (en_ServerPublicKey e)); (go "device_id", quoted (en_DeviceID e)); (go "org_id", quoted (en_OrgID e))].
Definition enrollment_fields : list (gostring * decoder Enrollment) := [
  (go "server_url", λ e v, (λ x, mkEnrollment x (en_DeviceToken e) (en_ServerPublicKey e) (en_DeviceID e) (en_OrgID e)) <$> dec_string (en_ServerURL e) v);
  (go "device_token", λ e v, (λ x, mkEnrollment (en_ServerURL e) x (en_ServerPublicKey e) (en_DeviceID e) (en_OrgID e)) <$> dec_string (en_DeviceToken e) v);
  (go "server_public_key", λ e v, (λ x, mkEnrollment (en_ServerURL e) (en_DeviceToken e) x (en_DeviceID e) (en_OrgID e)) <$> dec_string (en_ServerPublicKey e) v);
  (go "device_id", λ e v, (λ x, mkEnrollment (en_ServerURL e) (en_DeviceToken e) (en_ServerPublicKey e) x (en_OrgID e)) <$> dec_string (en_DeviceID e) v);
  (go "org_id", λ e v, (λ x, mkEnrollment (en_ServerURL e) (en_DeviceToken e) (en_ServerPublicKey e) (en_DeviceID e) x) <$> dec_string (en_OrgID e) v)].
Definition read_enrollment (raw : gostring) : gostring + Enrollment :=
  match v ← Unmarshal raw; dec_struct enrollment_fields zero_enrollment v with Some e => inr e | None => inl (lib_error raw) end.
Definition EnrollmentExists (stat : bool) (fs : Files) : bool := stat && bool_decide (is_Some (fi_enrollment fs)).
Definition LoadEnrollment (rd : option gostring) (fs : Files) : gostring + Enrollment :=
  match kread rd (fi_enrollment fs) with inl e => inl e | inr raw => read_enrollment raw end.
Definition SaveEnrollmentFile (e : SaveEnv) (enr : Enrollment) (fs : Files) : Files * outcome unit :=
  let '(file, tmp, o) := replace_file e (MarshalIndent (JObj (enrollment_members enr))) (fi_enrollment fs) (fi_enrollment_tmp fs) in
  (mkFiles (fi_policy fs) (fi_policy_tmp fs) file tmp (fi_etag fs), o).

(** ** policysync.go *)

(** [sy_stat]: whether the enrolment file can be inspected; the reads of the enrolment and of the
    tag, of which a failed read may give a part; the replacement of the policy; the write of the tag. *)
Record SyncEnv := mkSyncEnv {
  sy_stat : bool; sy_read : option gostring; sy_read_etag : option gostring; sy_save : SaveEnv; sy_etag : kwrite;
}.
Definition set_etag_file (f : kfile) (fs : Files) : Files :=
  mkFiles (fi_policy fs) (fi_policy_tmp fs) (fi_enrollment fs) (fi_enrollment_tmp fs) f.
Context `{PublicKeyText}.
(** [Sync] returns its error, or none. *)
Definition SyncFiles (e : SyncEnv) (fetch : Fetch) (now : Z) (fs : Files) : Files * outcome (option gostring) :=
  if negb (EnrollmentExists (sy_stat e) fs) then (fs, Returned None)
  else
    match LoadEnrollment (sy_read e) fs with
    | inl err => (fs, Returned (Some err))
    | inr enr =>
        match ParsePublicKeyPEM (en_ServerPublicKey enr) with
        | inl err => (fs, Returned (Some (go "bad stored server key: " ++ err)))
        | inr pub =>
            match fetch (TrimRight (en_ServerURL enr) (go "/") ++ go "/v1/policy") (go "Bearer " ++ en_DeviceToken enr)
                    (default (default [] (fi_etag fs)) (sy_read_etag e)) with
            | inl err => (fs, Returned (Some err))
            | inr (status, etag, body) =>
                if status =? 304 then (fs, Returned None)
                else if negb (status =? 200) then (fs, Returned (Some (go "policy fetch failed: " ++ Itoa status)))
                else
                  match v ← DecodeFirst body; dec_signed zero_signed v with
                  | None => (fs, Returned (Some (lib_error body)))
                  | Some sp =>
                      match b64_decode (sp_Bundle sp) with
                      | None => (fs, Returned (Some (lib_error (sp_Bundle sp))))
                      | Some bundleJSON =>
                          match Verify pub bundleJSON (sp_Signature sp) with
                          | Some err => (fs, Returned (Some (go "policy signature rejected: " ++ err)))
                          | None =>
                              match v ← Unmarshal bundleJSON; dec_bundle zero_bundle v with
                              | None => (fs, Returned (Some (lib_error bundleJSON)))
                              | Some b =>
                                  match SavePolicyFile (sy_save e) (policy_of b now) fs with
                                  | (fs, Failed err) => (fs, Returned (Some err))
                                  | (fs, Panicked) => (fs, Panicked)
                                  | (fs, Killed) => (fs, Killed)
                                  | (fs, Returned _) =>
                                      if bool_decide (etag = []) then (fs, Returned None)
                                      else
                                        match sy_etag e with
                                        | KWritten => (set_etag_file (Some etag) fs, Returned None)
                                        | KNotWritten _ rest => (set_etag_file rest fs, Returned None)
                                        | KKilled rest => (set_etag_file rest fs, Killed)
                                        end
                                  end
                              end
                          end
                      end
                  end
            end
        end
    end.

(** ** The files as a [Disk] *)

Definition disk_of (fs : Files) : Disk :=
  mkDisk (read_enrollment <$> fi_enrollment fs) (fi_policy fs ≫= read_policy) (default [] (fi_etag fs)).
Definition readable (fs : Files) : Prop := ∀ raw, fi_policy fs = Some raw → is_Some (read_policy raw).
Definition wire_policy (p : Policy) : Policy :=
  mkPolicy (valid_utf8 (py_Image p)) (valid_utf8 (py_MountMode p)) (option_map (map valid_utf8) (py_Denylist p)) (py_Version p) (py_FetchedAt p).
Definition policy_storable (p : Policy) : Prop := nat63 (py_Version p) ∧ nat63 (py_FetchedAt p).

Context `{!TimeLaws}.
Lemma policy_reads_back p : policy_storable p → read_policy (MarshalIndent (JObj (policy_members p))) = Some (wire_policy p).
Proof.
  intros [Hv Ht]. unfold read_policy. rewrite Unmarshal_indented_members.
  2: { unfold policy_members. destruct (py_Denylist p); wire; done. }
  cbn [mbind option_bind]. unfold policy_members, wire_policy. do 2 read_member. destruct (py_Denylist p) as [l|].
  - erewrite dec_struct_member; [|reflexivity|cbv beta; rewrite dec_strings_opt_list; reflexivity].
    read_member. erewrite dec_struct_member; [|reflexivity|cbv beta; rewrite dec_time_text by exact Ht; reflexivity]. by rewrite dec_struct_nil.
  - erewrite dec_struct_member; [|reflexivity|reflexivity].
    read_member. erewrite dec_struct_member; [|reflexivity|cbv beta; rewrite dec_time_text by exact Ht; reflexivity]. by rewrite dec_struct_nil.
Qed.
Lemma enrollment_reads_back e : read_enrollment (MarshalIndent (JObj (enrollment_members e))) = inr (wire_enrollment e).
Proof.
  unfold read_enrollment. rewrite Unmarshal_indented_members by (unfold enrollment_members; by wire).
  cbn [mbind option_bind]. unfold enrollment_members, wire_enrollment. do 5 read_member. by rewrite dec_struct_nil.
Qed.
Lemma wire_policy_of b now : bundle_utf8 b → wire_policy (policy_of b now) = policy_of b now.
Proof. intros Hb%wire_bundle_utf8. unfold wire_policy, policy_of. cbn. rewrite <- Hb at 5 6 7 8. done. Qed.

(** A replaced file, as a [Disk]. *)
Definition set_dk_policy (p : Policy) (d : Disk) : Disk := mkDisk (dk_enrollment d) (Some p) (dk_etag d).
Lemma SavePolicyFile_disk e p fs : policy_storable p → readable fs →
  readable (SavePolicyFile e p fs).1
  ∧ disk_of (SavePolicyFile e p fs).1 = (if takes_effect e then set_dk_policy (wire_policy p) (disk_of fs) else disk_of fs).
Proof.
  intros Hp Hr. unfold SavePolicyFile. pose proof (replace_file_file e (MarshalIndent (JObj (policy_members p))) (fi_policy fs) (fi_policy_tmp fs)) as Hf.
  destruct (replace_file _ _ _ _) as [[file tmp] o]. cbn [fst snd] in *. subst file. unfold readable, disk_of, set_dk_policy.
  cbn [fi_policy fi_enrollment fi_etag dk_enrollment dk_etag]. destruct (takes_effect e); [|done]. cbn [mbind option_bind]. rewrite policy_reads_back by done. split; [|done]. intros raw [= <-]. by rewrite policy_reads_back.
Qed.
Lemma SaveEnrollmentFile_disk e enr fs : readable fs →
  readable (SaveEnrollmentFile e enr fs).1 ∧ disk_of (SaveEnrollmentFile e enr fs).1 = (SaveEnrollment (save_error e) enr (disk_of fs)).1.
Proof.
  intros Hr. unfold SaveEnrollmentFile. pose proof (replace_file_file e (MarshalIndent (JObj (enrollment_members enr))) (fi_enrollment fs) (fi_enrollment_tmp fs)) as Hf.
  destruct (replace_file _ _ _ _) as [[file tmp] o]. cbn [fst snd] in *. subst file. unfold readable, disk_of, SaveEnrollment, takes_effect.
  cbn [fi_policy fi_enrollment fi_etag]. destruct (save_error e); [done|]. cbn [fmap option_fmap option_map fst]. by rewrite enrollment_reads_back.
Qed.
(** What a [Save] returns says whether it took effect. *)
Definition result_of (e : SaveEnv) (o : outcome unit) : Prop :=
  match o with
  | Returned _ => save_error e = None ∧ se_rename e = Renamed
  | Failed err => save_error e = Some err
  | Killed => save_error e = Some [] ∨ save_error e = None ∧ se_rename e = EndAfter
  | Panicked => False
  end.
Lemma replace_file_result e raw file tmp : result_of e (replace_file e raw file tmp).2.
Proof. unfold replace_file, result_of, save_error. destruct (se_mkdir e), (se_write e), (se_rename e); cbn; auto. Qed.
Lemma SavePolicyFile_result e p fs : result_of e (SavePolicyFile e p fs).2.
Proof.
  unfold SavePolicyFile. pose proof (replace_file_result e (MarshalIndent (JObj (policy_members p))) (fi_policy fs) (fi_policy_tmp fs)).
  by destruct (replace_file _ _ _ _) as [[? ?] ?].
Qed.
Lemma LoadEnrollment_disk fs : LoadEnrollment None fs = match dk_enrollment (disk_of fs) with Some r => r | None => inl (go "no such file") end.
Proof. unfold LoadEnrollment, kread, disk_of. cbn. by destruct (fi_enrollment fs). Qed.

(** The file operations of a sync, as [Sync] has them.  The tag is written in place, after the
    policy: when that fails or the process ends in it the file may hold anything. *)
Definition tag_io (e : SyncEnv) (d : Disk) : option gostring :=
  match se_rename (sy_save e) with
  | Renamed => match sy_etag e with KWritten => None | KNotWritten _ rest | KKilled rest => Some (default [] rest) end
  | _ => Some (dk_etag d)
  end.
Definition sync_io (e : SyncEnv) (d : Disk) : SyncIO :=
  mkSyncIO (sy_stat e) (sy_read e) (sy_read_etag e) (save_error (sy_save e)) (tag_io e d).
(** The time and the version that are stored are not negative. *)
Definition sync_fine (e : SyncEnv) (fetch : Fetch) (now : Z) (d : Disk) : Prop :=
  nat63 now ∧ ∀ p, dk_policy (Sync lib_error fetch now (mkSyncIO (sy_stat e) (sy_read e) (sy_read_etag e) None None) d).1 = Some p →
    nat63 (py_Version p).

Lemma SyncFiles_disk e fetch now fs : readable fs → sync_fine e fetch now (disk_of fs) →
  let '(disk', err) := Sync lib_error fetch now (sync_io e (disk_of fs)) (disk_of fs) in
  readable (SyncFiles e fetch now fs).1 ∧ disk_of (SyncFiles e fetch now fs).1 = disk'
  ∧ ((SyncFiles e fetch now fs).2 = Returned err ∨ (SyncFiles e fetch now fs).2 = Killed).
Proof.
  intros Hr [Hnow Hver]. revert Hver. unfold SyncFiles, Sync, EnrollmentExists, LoadEnrollment, kread, seen_enrollment, seen_tag, sync_io.
  change (dk_enrollment (disk_of fs)) with (read_enrollment <$> fi_enrollment fs).
  change (dk_etag (disk_of fs)) with (default [] (fi_etag fs)).
  cbn [io_stat io_read io_read_tag io_save io_tag default from_option].
  destruct (sy_stat e); cbn [andb negb]; [|by eauto].
  destruct (fi_enrollment fs) as [raw|] eqn:Hraw; cbn [fmap option_fmap option_map]; [|by eauto].
  rewrite bool_decide_eq_true_2 by by eexists. cbn [negb].
  destruct (sy_read e) as [err|]; cbn [from_option]; [by eauto|]. unfold id.
  destruct (read_enrollment raw) as [err|enr] eqn:Hread; [by eauto|].
  destruct (ParsePublicKeyPEM _) as [err|pub]; [by eauto|]. destruct (fetch _ _ _) as [err|[[status etag] body]]; [by eauto|].
  destruct (status =? 304); [by eauto|]. destruct (status =? 200); cbn [negb]; [|by eauto].
  destruct (v ← DecodeFirst body; dec_signed zero_signed v) as [sp|]; [|by eauto]. destruct (b64_decode _) as [bundle|]; [|by eauto].
  destruct (Verify _ _ _); [by eauto|].
  destruct (v ← Unmarshal bundle; dec_bundle zero_bundle v) as [b|] eqn:Hb; [|by eauto].
  intros Hver. specialize (Hver _ eq_refl).
  assert (bundle_utf8 b) as Hutf by (destruct (Unmarshal bundle); [by eapply dec_bundle_utf8|done]).
  destruct (SavePolicyFile_disk (sy_save e) (policy_of b now) fs (conj Hver Hnow) Hr) as [Hr' Hd].
  rewrite wire_policy_of in Hd by done. pose proof (SavePolicyFile_result (sy_save e) (policy_of b now) fs) as Hres.
  destruct (SavePolicyFile _ _ _) as [fs' o]. cbn [fst snd] in *.
  assert (set_dk_policy (policy_of b now) (disk_of fs) = mkDisk (Some (inr enr)) (Some (policy_of b now)) (default [] (fi_etag fs))) as Hset.
  { unfold set_dk_policy, disk_of. cbn. by rewrite Hraw, <- Hread. }
  rewrite Hset in Hd. unfold takes_effect in Hd. unfold tag_io. destruct o as [[]|err| |]; cbn [result_of] in Hres; cbv iota beta; [|rewrite Hres in *; by eauto|done|].
  - destruct Hres as [Hs Hren]. rewrite Hs, Hren in *.
    assert (∀ f, disk_of (set_etag_file f fs') = mkDisk (Some (inr enr)) (Some (policy_of b now)) (default [] f)) as Hf.
    { intros f. change (disk_of (set_etag_file f fs')) with (mkDisk (dk_enrollment (disk_of fs')) (dk_policy (disk_of fs')) (default [] f)). by rewrite Hd. }
    case_bool_decide; [by eauto|]. destruct (sy_etag e); cbn [fst snd default from_option]; rewrite Hf; by eauto.
  - destruct Hres as [Hs|[Hs Hren]]; rewrite Hs, ?Hren in *; [by eauto|]. case_bool_decide; by eauto.
Qed.

(** ** Over many operations *)

Inductive file_op :=
| OSavePolicy (e : SaveEnv) (p : Policy)
| OSaveEnrollment (e : SaveEnv) (enr : Enrollment)
| OSync (e : SyncEnv) (fetch : Fetch) (now : Z).
Definition file_exec (op : file_op) (fs : Files) : Files :=
  match op with
  | OSavePolicy e p => (SavePolicyFile e p fs).1
  | OSaveEnrollment e enr => (SaveEnrollmentFile e enr fs).1
  | OSync e fetch now => (SyncFiles e fetch now fs).1
  end.
(** The same on the [Disk], where a file is replaced or not. *)
Definition disk_exec (op : file_op) (d : Disk) : Disk :=
  match op with
  | OSavePolicy e p => if takes_effect e then set_dk_policy (wire_policy p) d else d
  | OSaveEnrollment e enr => (SaveEnrollment (save_error e) enr d).1
  | OSync e fetch now => (Sync lib_error fetch now (sync_io e d) d).1
  end.
Definition op_fine (op : file_op) (d : Disk) : Prop :=
  match op with
  | OSavePolicy _ p => policy_storable p
  | OSaveEnrollment _ _ => True
  | OSync e fetch now => sync_fine e fetch now d
  end.
Definition file_run (ops : list file_op) (fs : Files) : Files := foldl (λ fs op, file_exec op fs) fs ops.
Definition disk_run (ops : list file_op) (d : Disk) : Disk := foldl (λ d op, disk_exec op d) d ops.
Fixpoint ops_fine (ops : list file_op) (d : Disk) : Prop :=
  match ops with [] => True | op :: ops => op_fine op d ∧ ops_fine ops (disk_exec op d) end.

Lemma file_exec_disk op fs : readable fs → op_fine op (disk_of fs) → readable (file_exec op fs) ∧ disk_of (file_exec op fs) = disk_exec op (disk_of fs).
Proof.
  intros Hr Hop. destruct op as [e p|e enr|e fetch now]; cbn [file_exec disk_exec op_fine] in *.
  - by apply SavePolicyFile_disk.
  - by apply SaveEnrollmentFile_disk.
  - pose proof (SyncFiles_disk e fetch now fs Hr Hop) as Hs. destruct (Sync _ _ _ _ _) as [d err]. by destruct Hs as (? & ? & _).
Qed.
Lemma file_run_disk ops fs : readable fs → ops_fine ops (disk_of fs) → readable (file_run ops fs) ∧ disk_of (file_run ops fs) = disk_run ops (disk_of fs).
Proof.
  revert fs. induction ops as [|op ops IH]; intros fs Hr Hops; [done|]. destruct Hops as [Hop Hops].
  destruct (file_exec_disk op fs Hr Hop) as [Hr' Hd]. rewrite <- Hd in Hops.
  destruct (IH _ Hr' Hops) as [? Hrun]. split; [done|]. unfold disk_run. cbn [foldl]. by rewrite <- Hd.
Qed.

(** C27: the device's files are a [Disk].  Over any saves and syncs, each of whose reads may fail
    and each of whose writes may fail, be cut short or end the process at any point, the texts
    of the two files stay readable, and what they hold is what the same operations make of a
    record in which the policy and the enrolment are saved at once or not at all, while the tag,
    which is written in place, may be left as any text; loading the policy returns the last one
    whose rename took place, or the seed, and loading the enrolment likewise; and a sync returns
    what it returns on the record, unless the process ended in it.  The times and the versions
    that are stored are not negative. *)
Theorem files_refine_disk ops :
  ops_fine ops (disk_of no_files) →
  let fs := file_run ops no_files in
  let d := disk_run ops (mkDisk None None []) in
  disk_of fs = d
  ∧ (∀ denylist, LoadPolicyFile None denylist fs = inr (LoadPolicy d denylist))
  ∧ LoadEnrollment None fs = match dk_enrollment d with Some r => r | None => inl (go "no such file") end
  ∧ (∀ e fetch now, sync_fine e fetch now d →
       let '(d', err) := Sync lib_error fetch now (sync_io e d) d in
       disk_of (SyncFiles e fetch now fs).1 = d'
       ∧ ((SyncFiles e fetch now fs).2 = Returned err ∨ (SyncFiles e fetch now fs).2 = Killed)).
Proof.
  intros Hops fs d. assert (readable no_files) as Hr by by intros raw.
  destruct (file_run_disk ops no_files Hr Hops) as [Hrun Hd]. change (disk_of no_files) with (mkDisk None None []) in Hd.
  fold fs d in Hd, Hrun. split_and!; [done| | |].
  - intros denylist. unfold LoadPolicyFile, LoadPolicy. rewrite <- Hd. unfold disk_of. cbn [dk_policy].
    destruct (fi_policy fs) as [raw|] eqn:Hraw; [|done]. cbn [mbind option_bind]. destruct (Hrun raw Hraw) as [p ->]. done.
  - rewrite LoadEnrollment_disk. by rewrite Hd.
  - intros e fetch now Hfine. rewrite <- Hd in Hfine |- *. pose proof (SyncFiles_disk e fetch now fs Hrun Hfine) as Hs.
    destruct (Sync _ _ _ _ _) as [d' err]. by destruct Hs as (_ & ? & ?).
Qed.
End files.

(** The tag names a version, not an organisation, and enrolling again keeps it: if the policy of the
    new organisation has the version of the cached one, it is never fetched. *)
Section stale_tag.
Context `{UnicodeData} `{PublicKeyText}.
Lemma reenrolled_keeps_policy sv env (request : gostring → HttpRequest) org db raw v lib_error now io enr d text :
  (∀ tag, hr_ifNoneMatch (request tag) = tag) → GetPolicy (he_io env 1) org db = Ok (raw, v) → seen_tag io d = etag_of v →
  let fetch : Fetch := λ _ _ tag, let r := handleGetPolicy sv env (request tag) org db in inr (hs_status r, hs_etag r, text r) in
  dk_policy (Sync lib_error fetch now io (SaveEnrollment None enr d).1).1 = dk_policy d.
Proof.
  intros Hreq Hget Htag fetch. unfold Sync, SaveEnrollment. cbn [fst]. unfold seen_tag in *. cbn [dk_etag] in *.
  destruct (seen_enrollment _ _) as [[?|?]|]; [done| |done]. destruct (ParsePublicKeyPEM _); [done|].
  unfold fetch, handleGetPolicy. rewrite Hget, Hreq, Htag. by rewrite bool_decide_eq_true_2.
Qed.
End stale_tag.

(** ** A policy saved, a save cut short, an enrolment and a sync *)

Section files_example.
#[local] Existing Instance sample_unicode.
#[local] Existing Instance HistoryExample.decimal_time.
#[local] Existing Instance HistoryExample.decimal_time_laws.
#[local] Hint Extern 0 Ecdsa => exact (one_ecdsa demo_digest_of_bundle) : typeclass_instances.
#[local] Existing Instance bundle_pem.

Definition saved : SaveEnv := mkSaveEnv None KWritten Renamed.
Definition cut_short : SaveEnv := mkSaveEnv None (KKilled (Some (go "{"))) Renamed.
Definition ended_after : SaveEnv := mkSaveEnv None KWritten EndAfter.
Definition first_policy : Policy := mkPolicy (go "img:1") (go "bind") (Some [go "a.com"]) 1 4.
Definition second_policy : Policy := mkPolicy (go "img:2") (go "bind") None 2 5.
Definition torn_tag : SyncEnv := mkSyncEnv true None None saved (KKilled (Some (go "e"))).
Definition unread : SyncEnv := mkSyncEnv true (Some (go "input/output error")) None saved KWritten.
Definition demo_file_ops : list file_op :=
  [OSavePolicy saved first_policy; OSavePolicy cut_short second_policy; OSaveEnrollment ended_after demo_enrollment;
   OSync torn_tag demo_reply 5; OSync unread demo_reply 6].
Definition demo_sync : SyncEnv := mkSyncEnv true None None saved KWritten.

Lemma demo_files_fine : ops_fine id demo_file_ops (disk_of id no_files).
Proof.
  unfold demo_file_ops. cbn [ops_fine op_fine]. split; [by vm_compute|]. split; [by vm_compute|]. split; [done|].
  split; [|split; [|done]]; (split; [by vm_compute|]; intros p Hp; vm_compute in Hp; injection Hp as <-; by vm_compute).
Qed.
Definition demo_after : Disk := disk_run id demo_file_ops (mkDisk None None []).
Lemma demo_sync_fine : sync_fine id demo_sync demo_reply 7 demo_after.
Proof. split; [by vm_compute|]. intros p Hp. vm_compute in Hp. injection Hp as <-. by vm_compute. Qed.
Theorem files_refine_disk_witness :
  LoadPolicyFile id None None (file_run id demo_file_ops no_files) = inr (policy_of demo_bundle 5)
  ∧ dk_etag (disk_of id (file_run id demo_file_ops no_files)) = go "e"
  ∧ dk_policy (disk_of id (SyncFiles id demo_sync demo_reply 7 (file_run id demo_file_ops no_files)).1) = Some (policy_of demo_bundle 7).
Proof.
  destruct (files_refine_disk id demo_file_ops demo_files_fine) as (Hdisk & Hload & _ & Hsync). split_and!.
  - rewrite Hload. vm_compute. reflexivity.
  - rewrite Hdisk. vm_compute. reflexivity.
  - pose proof (Hsync demo_sync demo_reply 7 demo_sync_fine) as Hs.
    assert (dk_policy (Sync id demo_reply 7 (sync_io demo_sync demo_after) demo_after).1 = Some (policy_of demo_bundle 7)) as Hp
      by (vm_compute; reflexivity).
    fold demo_after in Hs. destruct (Sync _ _ _ _ _) as [d' err]. by destruct Hs as [-> _].
Defined.
End files_example.
