(* ===== verification/Hub.v ===== *)
(** * The dashboard's live feed — internal/api/ws.go

    One goroutine, [Run], owns the clients: it registers and unregisters
    connections and writes each broadcast message to every client in turn.  The
    dashboard's connections and the callers of [Broadcast] (the proxy and the
    scan handler) run beside it.  The model is a machine of their atomic steps;
    any interleaving of them is a list of events. *)
From S2P Require Import Prelude GoStr.

(** ** ws.go *)

(** A connection of [HandleWS]: waiting to register, read by its goroutine, waiting to
    unregister after a read error, gone. *)
Inductive conn := WaitRegister | Reading | WaitUnregister | Gone.
#[export] Instance conn_eq_dec : EqDecision conn.
Proof. solve_decision. Defined.
(** [Run] waits for an event, or writes a message to the connections left in the order of the
    map's iteration. *)
Inductive hub_loop := Waiting | Writing (msg : gostring) (rest : list nat).

(** The clients, the channel broadcast, the loop, and the connections.  What has happened is
    recorded: the messages taken from the channel, how many were when a connection registered,
    what was written to each, and the connections the hub closed. *)
Record Hub := mkHub {
  hb_clients : gset nat;
  hb_queue : list gostring;
  hb_loop : hub_loop;
  hb_conns : gmap nat conn;
  hb_taken : list gostring;
  hb_since : gmap nat nat;
  hb_got : gmap nat (list gostring);
  hb_closed : list nat;
}.
Definition NewHub : Hub := mkHub ∅ [] Waiting ∅ [] ∅ ∅ [].
Definition channel_size : nat := 256.

Inductive hub_event :=
| HConnect (c : nat)                  (* an upgraded request *)
| HRegister (c : nat)
| HReadError (c : nat)                (* the browser left, or the hub closed the connection *)
| HUnregister (c : nat)
| HBroadcast (data : gostring)        (* the send on the channel *)
| HTake (order : list nat)
| HWrite (ok : bool)                  (* the end of a write to the next client *)
| HDone.

Definition set_loop (l : hub_loop) (h : Hub) : Hub :=
  mkHub (hb_clients h) (hb_queue h) l (hb_conns h) (hb_taken h) (hb_since h) (hb_got h) (hb_closed h).
Definition set_conn (c : nat) (s : conn) (h : Hub) : Hub :=
  mkHub (hb_clients h) (hb_queue h) (hb_loop h) (<[c := s]> (hb_conns h)) (hb_taken h) (hb_since h) (hb_got h) (hb_closed h).
(** [delete(h.clients, conn); conn.Close()] *)
Definition drop_client (c : nat) (h : Hub) : Hub :=
  mkHub (hb_clients h ∖ {[c]}) (hb_queue h) (hb_loop h) (hb_conns h) (hb_taken h) (hb_since h) (hb_got h) (c :: hb_closed h).
Definition got_of (h : Hub) (c : nat) : list gostring := default [] (hb_got h !! c).

Definition hub_step (ev : hub_event) (h : Hub) : option Hub :=
  match ev, hb_loop h with
  | HConnect c, _ => if decide (hb_conns h !! c = None) then Some (set_conn c WaitRegister h) else None
  | HRegister c, Waiting =>
      if decide (hb_conns h !! c = Some WaitRegister) then
        Some (mkHub ({[c]} ∪ hb_clients h) (hb_queue h) Waiting (<[c := Reading]> (hb_conns h)) (hb_taken h)
                (<[c := length (hb_taken h)]> (hb_since h)) (hb_got h) (hb_closed h))
      else None
  | HReadError c, _ => if decide (hb_conns h !! c = Some Reading) then Some (set_conn c WaitUnregister h) else None
  | HUnregister c, Waiting =>
      if decide (hb_conns h !! c = Some WaitUnregister) then
        let h := set_conn c Gone h in
        Some (if decide (c ∈ hb_clients h) then drop_client c h else h)
      else None
  | HBroadcast data, _ =>
      if decide (length (hb_queue h) < channel_size) then
        Some (mkHub (hb_clients h) (hb_queue h ++ [data]) (hb_loop h) (hb_conns h) (hb_taken h) (hb_since h) (hb_got h) (hb_closed h))
      else None
  | HTake order, Waiting =>
      match hb_queue h with
      | msg :: queue =>
          if decide (order ≡ₚ elements (hb_clients h)) then
            Some (mkHub (hb_clients h) queue (Writing msg order) (hb_conns h) (hb_taken h ++ [msg]) (hb_since h) (hb_got h) (hb_closed h))
          else None
      | [] => None
      end
  | HWrite ok, Writing msg (c :: rest) =>
      let h := set_loop (Writing msg rest) h in
      Some (if ok : bool
            then mkHub (hb_clients h) (hb_queue h) (hb_loop h) (hb_conns h) (hb_taken h) (hb_since h)
                   (<[c := got_of h c ++ [msg]]> (hb_got h)) (hb_closed h)
            else drop_client c h)
  | HDone, Writing _ [] => Some (set_loop Waiting h)
  | _, _ => None
  end.
Definition hub_run (evs : list hub_event) (h : Hub) : option Hub := foldl (λ h ev, h ≫= hub_step ev) (Some h) evs.
Definition broadcasts (evs : list hub_event) : list gostring :=
  omap (λ ev, match ev with HBroadcast data => Some data | _ => None end) evs.

Lemma hub_run_cons ev evs h : hub_run (ev :: evs) h = hub_step ev h ≫= hub_run evs.
Proof. unfold hub_run. cbn [foldl mbind option_bind]. destruct (hub_step ev h); [done|]. by induction evs. Qed.
Lemma hub_run_app evs evs' h : hub_run (evs ++ evs') h = hub_run evs h ≫= hub_run evs'.
Proof.
  revert h. induction evs as [|ev evs IH]; intros h; [done|]. cbn [app]. rewrite !hub_run_cons.
  destruct (hub_step ev h); [apply IH|done].
Qed.

(** ** The invariant *)

(** The message a client still has to get. *)
Definition due (h : Hub) (c : nat) : list gostring :=
  match hb_loop h with Writing msg rest => if decide (c ∈ rest) then [msg] else [] | Waiting => [] end.

Record hub_inv (h : Hub) : Prop := {
  hi_queue : length (hb_queue h) ≤ channel_size;
  hi_client : ∀ c, c ∈ hb_clients h → ∃ i, hb_since h !! c = Some i ∧ i ≤ length (hb_taken h)
                ∧ got_of h c ++ due h c = drop i (hb_taken h);
  hi_prefix : ∀ c i, hb_since h !! c = Some i → got_of h c `prefix_of` drop i (hb_taken h);
  hi_new : ∀ c, hb_since h !! c = None → got_of h c = [];
  hi_waiting : ∀ c, hb_conns h !! c = None ∨ hb_conns h !! c = Some WaitRegister → hb_since h !! c = None;
  hi_rest : ∀ msg rest, hb_loop h = Writing msg rest → NoDup rest ∧ (∀ c, c ∈ rest → c ∈ hb_clients h);
  hi_closed : NoDup (hb_closed h) ∧ (∀ c, c ∈ hb_closed h → c ∉ hb_clients h ∧ is_Some (hb_since h !! c));
}.

Lemma NewHub_inv : hub_inv NewHub.
Proof. split; [cbn; lia|set_solver|done|done|done|done|split; [constructor|set_solver]]. Qed.

Ltac hub_simpl := cbn [hb_clients hb_queue hb_loop hb_conns hb_taken hb_since hb_got hb_closed set_conn set_loop drop_client] in *.

(** Steps of one connection that leave clients, messages and deliveries alone. *)
Lemma set_conn_inv c s h : hub_inv h → s ≠ WaitRegister ∨ hb_conns h !! c = None →
  hub_inv (set_conn c s h).
Proof.
  intros [Hq Hc Hp Hn Hw Hr Hcl] Hs. split; hub_simpl; [done..| |done|done].
  intros c'. rewrite !lookup_insert_None, lookup_insert_Some. intros [[Hnone Hne]|[[<- ->]|[Hne Hwait]]]; [by apply Hw; left| |by apply Hw; right].
  destruct Hs as [|Hnone]; [done|]. by apply Hw; left.
Qed.
Lemma drop_client_inv c h : hub_inv h → c ∈ hb_clients h →
  (∀ msg rest, hb_loop h = Writing msg rest → c ∉ rest) → hub_inv (drop_client c h).
Proof.
  intros [Hq Hc Hp Hn Hw Hr [Hnd Hcl]] Hin Hno. split; hub_simpl; [done| |done|done|done| |].
  - intros c' [Hc' _]%elem_of_difference. exact (Hc c' Hc').
  - intros msg rest Hl. destruct (Hr _ _ Hl) as [Hd Hsub]. split; [done|]. intros c' Hc'.
    apply elem_of_difference. split; [by apply Hsub|]. apply not_elem_of_singleton. intros ->. by apply (Hno _ _ Hl).
  - split.
    + constructor; [|done]. intros Hc'. by destruct (Hcl _ Hc').
    + intros c' [->|Hc']%elem_of_cons.
      * split; [set_solver|]. destruct (Hc _ Hin) as (i & Hi & _). by exists i.
      * destruct (Hcl _ Hc') as [Hnot Hsome]. split; [set_solver|done].
Qed.

Lemma register_inv c h : hub_inv h → hb_loop h = Waiting → hb_conns h !! c = Some WaitRegister →
  hub_inv (mkHub ({[c]} ∪ hb_clients h) (hb_queue h) Waiting (<[c := Reading]> (hb_conns h)) (hb_taken h)
             (<[c := length (hb_taken h)]> (hb_since h)) (hb_got h) (hb_closed h)).
Proof.
  intros [Hq Hc Hp Hn Hw Hr [Hnd Hcl]] Hl Hconn. pose proof (Hw c (or_intror Hconn)) as Hnew.
  assert (∀ c', due h c' = []) as Hdue by (intros c'; unfold due; by rewrite Hl).
  split; hub_simpl; [done| | | | |done|].
  - intros c' [->%elem_of_singleton|Hc']%elem_of_union.
    + exists (length (hb_taken h)). rewrite lookup_insert_eq, drop_all. unfold got_of, due. hub_simpl.
      by rewrite app_nil_r; split_and!; [|lia|apply (Hn _ Hnew)].
    + destruct (decide (c' = c)) as [->|Hne]; [destruct (Hc _ Hc') as (i & Hi & _); congruence|].
      destruct (Hc _ Hc') as (i & Hi & Hle & Heq). exists i. rewrite lookup_insert_ne by done.
      rewrite Hdue in Heq. by split_and!.
  - intros c' i [[<- <-]|[Hne Hi]]%lookup_insert_Some; [|by apply Hp].
    unfold got_of. hub_simpl. rewrite drop_all. fold (got_of h c). by rewrite Hn.
  - intros c' [Hc' Hne]%lookup_insert_None. by apply Hn.
  - intros c'. rewrite lookup_insert_None, lookup_insert_Some.
    intros [[Hc' Hne]|[[<- [=]]|[Hne Hc']]]; rewrite lookup_insert_ne by done; apply Hw; by auto.
  - split; [done|]. intros c' Hin. destruct (Hcl _ Hin) as [Hnot [i Hi]].
    assert (c' ≠ c) by congruence. split; [set_solver|]. rewrite lookup_insert_ne by done. by eexists.
Qed.
Lemma take_inv msg queue order h : hub_inv h → hb_loop h = Waiting → hb_queue h = msg :: queue →
  order ≡ₚ elements (hb_clients h) →
  hub_inv (mkHub (hb_clients h) queue (Writing msg order) (hb_conns h) (hb_taken h ++ [msg]) (hb_since h) (hb_got h) (hb_closed h)).
Proof.
  intros [Hq Hc Hp Hn Hw Hr Hcl] Hl Hqueue Ho. rewrite Hqueue in Hq. cbn [length] in Hq.
  assert (∀ c, c ∈ order ↔ c ∈ hb_clients h) as Hin by (intros c; rewrite Ho; apply elem_of_elements).
  split; hub_simpl; [lia| | |done|done| |done].
  - intros c Hcl'. destruct (Hc _ Hcl') as (i & Hi & Hle & Heq). exists i. rewrite length_app. split; [done|]. split; [lia|].
    unfold due in *. hub_simpl. rewrite Hl, app_nil_r in Heq. rewrite decide_True by (by apply Hin).
    rewrite drop_app_le by done. by rewrite <- Heq.
  - intros c i Hi. etrans; [by apply Hp|]. destruct (decide (i ≤ length (hb_taken h))).
    + rewrite drop_app_le by done. by eexists.
    + rewrite drop_ge by lia. apply prefix_nil.
  - intros m rest [= <- <-]. split; [|by intros c; apply Hin]. rewrite Ho. apply NoDup_elements.
Qed.
Lemma write_inv ok msg c rest h : hub_inv h → hb_loop h = Writing msg (c :: rest) →
  ∀ h', hub_step (HWrite ok) h = Some h' → hub_inv h'.
Proof.
  intros Hinv Hl h'. pose proof Hinv as [Hq Hc Hp Hn Hw Hr Hcl]. destruct (Hr _ _ Hl) as [[Hnot Hnd]%NoDup_cons Hsub].
  assert (c ∈ hb_clients h) as Hin by (apply Hsub; by left).
  destruct (Hc _ Hin) as (i & Hi & Hle & Heq).
  assert (∀ c' : nat, c' ≠ c → due (set_loop (Writing msg rest) h) c' = due h c') as Hdue.
  { intros c' Hne. unfold due. rewrite Hl. hub_simpl.
    destruct (decide (c' ∈ rest)); [by rewrite decide_True by (by right)|].
    by rewrite decide_False by (by intros [|]%elem_of_cons). }
  unfold due in Heq. rewrite Hl, decide_True in Heq by (by left).
  cbn [hub_step]. rewrite Hl. intros [= <-]. destruct ok.
  - split; hub_simpl; [done| | | |done| |done].
    + intros c' Hc'. destruct (decide (c' = c)) as [->|Hne].
      * exists i. unfold got_of at 1. hub_simpl. rewrite lookup_insert_eq. cbn [default]. unfold due. hub_simpl.
        rewrite decide_False by done. by rewrite app_nil_r.
      * destruct (Hc _ Hc') as (j & Hj & Hle' & Heq'). exists j. split; [done|]. split; [done|].
        unfold got_of at 1. hub_simpl. rewrite lookup_insert_ne by done. fold (got_of h c').
        rewrite <- (Hdue _ Hne) in Heq'. exact Heq'.
    + intros c' j Hj. unfold got_of at 1. hub_simpl. destruct (decide (c' = c)) as [->|Hne].
      * rewrite lookup_insert_eq. cbn [default]. rewrite Hi in Hj. injection Hj as <-. by rewrite <- Heq.
      * rewrite lookup_insert_ne by done. by apply Hp.
    + intros c' Hc'. unfold got_of at 1. hub_simpl. rewrite lookup_insert_ne by congruence. by apply Hn.
    + intros m r [= <- <-]. split; [done|]. intros c' Hc'. apply Hsub. by right.
  - (* the loop moves on, then the client goes *)
    split; hub_simpl; [done| |done|done|done| |].
    + intros c' [Hc' Hne%not_elem_of_singleton]%elem_of_difference. destruct (Hc _ Hc') as (j & Hj & Hle' & Heq').
      exists j. split; [done|]. split; [done|]. rewrite <- (Hdue _ Hne) in Heq'. exact Heq'.
    + intros m r [= <- <-]. split; [done|]. intros c' Hc'. apply elem_of_difference. split; [apply Hsub; by right|].
      apply not_elem_of_singleton. by intros ->.
    + destruct Hcl as [Hd Hcl]. split.
      * constructor; [|done]. intros Hc'. by destruct (Hcl _ Hc').
      * intros c' [->|Hc']%elem_of_cons; [split; [set_solver|by eexists]|].
        destruct (Hcl _ Hc') as [Hnc Hsome]. split; [set_solver|done].
Qed.

Lemma hub_step_inv ev h h' : hub_inv h → hub_step ev h = Some h' → hub_inv h'.
Proof.
  intros Hinv. destruct ev as [c|c|c|c|data|order|ok|].
  - cbn. destruct (decide _) as [Hn|]; [|done]. intros [= <-]. apply set_conn_inv; auto.
  - cbn. destruct (hb_loop h) eqn:Hl; [|done]. destruct (decide _) as [Hn|]; [|done]. intros [= <-]. by apply register_inv.
  - cbn. destruct (decide _); [|done]. intros [= <-]. apply set_conn_inv; auto.
  - cbn. destruct (hb_loop h) eqn:Hl; [|done]. destruct (decide _); [|done]. intros [= <-].
    assert (hub_inv (set_conn c Gone h)) by (apply set_conn_inv; auto).
    destruct (decide _); [|done]. apply drop_client_inv; [done..|]. hub_simpl. by rewrite Hl.
  - cbn. destruct (decide _) as [Hlt|]; [|done]. intros [= <-]. destruct Hinv. split; hub_simpl; try done.
    rewrite length_app. cbn. lia.
  - cbn. destruct (hb_loop h) eqn:Hl; [|done]. destruct (hb_queue h) eqn:Hqueue; [done|]. destruct (decide _); [|done].
    intros [= <-]. by apply take_inv.
  - intros Hs. destruct (hb_loop h) as [|msg [|c rest]] eqn:Hl; [by cbn in Hs; rewrite Hl in Hs..|]. by eapply write_inv.
  - cbn. destruct (hb_loop h) as [|msg [|c rest]] eqn:Hl; [done| |done]. intros [= <-].
    destruct Hinv as [Hq Hc Hp Hn Hw Hr Hcl]. split; hub_simpl; try done.
    intros c Hin. destruct (Hc _ Hin) as (i & Hi & Hle & Heq). exists i. unfold due in *. rewrite Hl in Heq.
    rewrite decide_False in Heq by apply not_elem_of_nil. by split_and!.
Qed.
Lemma hub_run_inv evs h h' : hub_inv h → hub_run evs h = Some h' → hub_inv h'.
Proof.
  revert h. induction evs as [|ev evs IH]; intros h Hinv; [by intros [= <-]|]. rewrite hub_run_cons.
  destruct (hub_step ev h) as [h1|] eqn:Hs; [|done]. cbn [mbind option_bind]. apply IH. by eapply hub_step_inv.
Qed.

(** ** Order, progress, stalls *)

(** The channel is first in, first out. *)
Lemma hub_step_order ev h h' : hub_step ev h = Some h' →
  hb_taken h' ++ hb_queue h' = (hb_taken h ++ hb_queue h) ++ broadcasts [ev].
Proof.
  destruct ev as [c|c|c|c|data|order|ok|]; cbn; rewrite ?app_nil_r.
  5: { destruct (decide _); [|done]. intros [= <-]. hub_simpl. by rewrite (assoc_L (++)). }
  all: destruct (hb_loop h) as [|msg [|c' rest]]; try done; repeat case_match; try done; intros [= <-]; hub_simpl; try done.
  all: by rewrite <- (assoc_L (++)).
Qed.
Lemma hub_run_order evs h h' : hub_run evs h = Some h' →
  hb_taken h' ++ hb_queue h' = (hb_taken h ++ hb_queue h) ++ broadcasts evs.
Proof.
  revert h. induction evs as [|ev evs IH]; intros h; [intros [= <-]; by rewrite app_nil_r|]. rewrite hub_run_cons.
  destruct (hub_step ev h) as [h1|] eqn:Hs; [|done]. cbn [mbind option_bind]. intros Hrun.
  rewrite (IH _ Hrun), (hub_step_order _ _ _ Hs), <- (assoc_L (++)). f_equal. symmetry. apply (omap_app _ [ev] evs).
Qed.

(** Steps of the hub's own goroutine. *)
Definition hub_own (ev : hub_event) : Prop := match ev with HTake _ | HWrite _ | HDone => True | _ => False end.

Lemma finish_writing msg rest h : hb_loop h = Writing msg rest →
  ∃ h', hub_run (replicate (length rest) (HWrite true) ++ [HDone]) h = Some h' ∧ hb_loop h' = Waiting
    ∧ hb_queue h' = hb_queue h ∧ hb_clients h' = hb_clients h.
Proof.
  revert h. induction rest as [|c rest IH]; intros h Hl; cbn [length replicate app].
  - eexists. rewrite hub_run_cons. cbn [hub_step]. rewrite Hl. by repeat split.
  - rewrite hub_run_cons. cbn [hub_step]. rewrite Hl. cbn [mbind option_bind].
    edestruct IH as (h' & Hrun & Hw & Hq & Hc); [|exists h'; split; [exact Hrun|by hub_simpl]]. done.
Qed.
Lemma hub_makes_room h : hub_inv h →
  ∃ evs h', Forall hub_own evs ∧ length evs ≤ 2 * size (hb_clients h) + 3 ∧ hub_run evs h = Some h'
    ∧ hb_loop h' = Waiting ∧ length (hb_queue h') < channel_size.
Proof.
  intros Hinv. assert (∀ n, Forall hub_own (replicate n (HWrite true) ++ [HDone])) as Hown.
  { intros n. apply Forall_app. split; [by apply Forall_replicate|by constructor]. }
  assert (∃ evs h', Forall hub_own evs ∧ length evs ≤ size (hb_clients h) + 1 ∧ hub_run evs h = Some h'
    ∧ hb_loop h' = Waiting ∧ hb_queue h' = hb_queue h ∧ hb_clients h' = hb_clients h) as (evs & h1 & He & Hlen & Hrun & Hl & Hq & Hc).
  { destruct (hb_loop h) as [|msg rest] eqn:Hl; [exists [], h; split_and!; [constructor|cbn; lia|done..]|].
    destruct (finish_writing _ _ _ Hl) as (h' & Hrun & Hw & Hq & Hc). eexists _, h'. split_and!; [apply Hown| |done..].
    rewrite length_app, length_replicate. cbn. destruct (hi_rest _ Hinv _ _ Hl) as [Hnd Hsub].
    assert (length rest ≤ size (hb_clients h)); [|lia].
    rewrite <- (size_list_to_set (C := gset nat) rest) by done. apply subseteq_size. intros c. rewrite elem_of_list_to_set. apply Hsub. }
  pose proof (hi_queue _ Hinv) as Hle. destruct (decide (length (hb_queue h) < channel_size)) as [Hlt|Hge].
  { exists evs, h1. rewrite Hq. split_and!; [done|lia|done..]. }
  destruct (hb_queue h1) as [|msg queue] eqn:Hq1; [rewrite <- Hq in Hge; cbn in Hge; unfold channel_size in Hge; lia|].
  set (order := elements (hb_clients h1)).
  assert (hub_step (HTake order) h1 = Some (mkHub (hb_clients h1) queue (Writing msg order) (hb_conns h1)
    (hb_taken h1 ++ [msg]) (hb_since h1) (hb_got h1) (hb_closed h1))) as Htake.
  { cbn. rewrite Hl, Hq1, decide_True by done. done. }
  edestruct (finish_writing msg order) as (h2 & Hrun2 & Hl2 & Hq2 & _); [|].
  2: { exists (evs ++ HTake order :: replicate (length order) (HWrite true) ++ [HDone]), h2.
       split_and!; [apply Forall_app; split; [done|by constructor]| |by rewrite hub_run_app, Hrun; cbn [mbind option_bind]; rewrite hub_run_cons, Htake|done|].
       - rewrite length_app. cbn [length]. rewrite length_app, length_replicate. cbn [length].
         unfold order. rewrite Hc. unfold size, set_size in *. cbn in *. lia.
       - rewrite Hq2. hub_simpl. rewrite <- Hq in Hle. cbn [length] in Hle. lia. }
  done.
Qed.

(** A write that does not end: a browser that no longer reads, once the socket's buffer is full.
    The connection has no write deadline. *)
Definition no_write (ev : hub_event) : Prop := match ev with HWrite _ => False | _ => True end.
Lemma stalled_step ev h h' msg c rest : hb_loop h = Writing msg (c :: rest) → no_write ev → hub_step ev h = Some h' →
  hb_loop h' = Writing msg (c :: rest) ∧ hb_queue h' = hb_queue h ++ broadcasts [ev]
  ∧ hb_got h' = hb_got h.
Proof.
  intros Hl Hno. destruct ev; cbn; rewrite ?Hl, ?app_nil_r; try done; destruct (decide _); try done; intros [= <-];
    done.
Qed.
Lemma stalled_run evs h h' msg c rest : hub_inv h → hb_loop h = Writing msg (c :: rest) → Forall no_write evs →
  hub_run evs h = Some h' →
  hb_loop h' = Writing msg (c :: rest) ∧ hb_queue h' = hb_queue h ++ broadcasts evs ∧ hb_got h' = hb_got h ∧ hub_inv h'.
Proof.
  revert h. induction evs as [|ev evs IH]; intros h Hinv Hl Hno; [intros [= <-]; by rewrite app_nil_r|].
  apply Forall_cons in Hno as [Hno Hrest]. rewrite hub_run_cons.
  destruct (hub_step ev h) as [h1|] eqn:Hs; [|done]. cbn [mbind option_bind].
  destruct (stalled_step _ _ _ _ _ _ Hl Hno Hs) as (Hl1 & Hq1 & Hg1). intros Hrun.
  destruct (IH h1) as (Hl2 & Hq2 & Hg2 & Hinv2); [by eapply hub_step_inv|done..|].
  split; [done|]. split; [|split; [by rewrite Hg2|done]]. rewrite Hq2, Hq1, <- (assoc_L (++)). f_equal. symmetry. apply (omap_app _ [ev] evs).
Qed.

(** C20: the live feed. In any interleaving of connections, disconnections, failing writes and
    broadcasts: messages are taken in the order they were broadcast and at most 256 wait; what
    a connection was sent is, without gap, repetition or reordering, a run of the messages taken
    since it registered, all of them for a client between two messages; the hub closes a
    connection at most once and never keeps a closed one as a client. While writes end, well or
    in an error, the hub's next few steps make room for a blocked broadcast; but while one
    write does not end, only so many more broadcasts return as the channel has room, and no
    client gets another message. *)
Theorem feed_delivers evs h :
  hub_run evs NewHub = Some h →
  hb_taken h ++ hb_queue h = broadcasts evs ∧ length (hb_queue h) ≤ channel_size
  ∧ (∀ c i, hb_since h !! c = Some i → got_of h c `prefix_of` drop i (hb_taken h))
  ∧ (∀ c, c ∈ hb_clients h → hb_loop h = Waiting → ∃ i, hb_since h !! c = Some i ∧ got_of h c = drop i (hb_taken h))
  ∧ NoDup (hb_closed h) ∧ (∀ c, c ∈ hb_closed h → c ∉ hb_clients h)
  ∧ (∃ own h', Forall hub_own own ∧ length own ≤ 2 * size (hb_clients h) + 3 ∧ hub_run own h = Some h'
      ∧ length (hb_queue h') < channel_size)
  ∧ ∀ msg c rest evs' h', hb_loop h = Writing msg (c :: rest) → Forall no_write evs' → hub_run evs' h = Some h' →
      length (broadcasts evs') ≤ channel_size - length (hb_queue h) ∧ hb_taken h' = hb_taken h ∧ hb_got h' = hb_got h.
Proof.
  intros Hrun. pose proof (hub_run_inv _ _ _ NewHub_inv Hrun) as Hinv. pose proof (hub_run_order _ _ _ Hrun) as Hord.
  destruct (hub_makes_room _ Hinv) as (own & h1 & Hown & Hlen & Hrun1 & _ & Hroom).
  destruct (hi_closed _ Hinv) as [Hnd Hcl].
  split; [exact Hord|]. split; [apply Hinv|]. split; [apply Hinv|]. split.
  { intros c Hc Hl. destruct (hi_client _ Hinv _ Hc) as (i & Hi & _ & Heq). exists i. split; [done|].
    unfold due in Heq. by rewrite Hl, app_nil_r in Heq. }
  split; [done|]. split; [intros c Hc; by destruct (Hcl _ Hc)|]. split; [by eauto 10|].
  intros msg c rest evs' h' Hl Hno Hrun'. destruct (stalled_run _ _ _ _ _ _ Hinv Hl Hno Hrun') as (_ & Hq & Hgot & Hinv').
  pose proof (hi_queue _ Hinv') as Hle. rewrite Hq, length_app in Hle. split; [lia|]. split; [|done].
  pose proof (hub_run_order _ _ _ Hrun') as Hord'. rewrite Hq, (assoc_L (++)) in Hord'. by apply app_inv_tail in Hord' as ?%app_inv_tail.
Qed.

(** Two browsers; one leaves while a message is written, the other stalls on the next. *)
Definition feed : list hub_event := [HConnect 1; HRegister 1; HConnect 2; HBroadcast (go "a"); HRegister 2;
  HTake [2; 1]; HBroadcast (go "b"); HWrite true; HReadError 2; HWrite true; HDone; HUnregister 2; HTake [1]].
Definition feed_state : Hub := default NewHub (hub_run feed NewHub).
Lemma feed_runs : hub_run feed NewHub = Some feed_state.
Proof. vm_compute. reflexivity. Qed.
Definition late_scans : list hub_event := replicate 256 (HBroadcast (go "c")).

Theorem feed_delivers_witness :
  hb_taken feed_state ++ hb_queue feed_state = [go "a"; go "b"]
  ∧ (∃ h', hub_run late_scans feed_state = Some h' ∧ hb_taken h' = hb_taken feed_state).
Proof.
  destruct (feed_delivers feed feed_state feed_runs) as (Hord & _ & _ & _ & _ & _ & _ & Hstall). split; [exact Hord|].
  destruct (hub_run late_scans feed_state) as [h'|] eqn:Hrun; [|vm_compute in Hrun; discriminate].
  exists h'. split; [reflexivity|]. refine (proj1 (proj2 (Hstall (go "b") 1 [] late_scans h' eq_refl _ Hrun))).
  apply Forall_replicate. exact I.
Defined.
