(* ===== verification/Shell.v ===== *)
(** * Bound shells and dev containers — cli/shell.go, cli/code.go

    [redactr shell] finds the proxy's address and starts a shell whose
    environment sends traffic through it and tags the processes started there;
    the session scan of [Sessions] reads that environment back.  [redactr code]
    writes the dev container file of [Sandbox]. *)
From S2P Require Import Prelude GoStr Utf8 GoFloat GoSort Spans Scanner Redactor Sha256 Cache Regex Rules FileBlock Coordinator Presidio Entropy Json JsonRound JsonDecode JsonStruct Gliner Domain Extract Proxy Config Sandbox Firewall Base64 Signing Token Bundle Sessions Store ServerAuth Httpapi Daemon Policy Control.
Local Open Scope Z_scope.

(** ** shell.go *)

Section shell.
Context `{UnicodeData}.

(** [file]: what a state file holds, or the error of reading it. *)
Definition readState (path : gostring) (file : gostring + gostring) : gostring + gostring :=
  match file with
  | inl e => inl e
  | inr b => let v := TrimSpace b in if bool_decide (v = []) then inl (go "state file " ++ path ++ go " is empty") else inr v
  end.
Definition normalizeAddr (addr : gostring) : gostring :=
  let addr := TrimPrefix (TrimSpace addr) (go "tcp://") in
  if HasPrefix addr (go "[::]:") then go "127.0.0.1:" ++ TrimPrefix addr (go "[::]:")
  else if HasPrefix addr (go "0.0.0.0:") then go "127.0.0.1:" ++ TrimPrefix addr (go "0.0.0.0:")
  else if HasPrefix addr (go "[::1]:") then go "127.0.0.1:" ++ TrimPrefix addr (go "[::1]:")
  else addr.

(** [answer]: the error of the request to the dashboard, or a status and a body. *)
Definition status_fields : list (gostring * decoder (bool * gostring)) := [
  (go "enabled", λ p v, (λ x, (x, p.2)) <$> dec_bool p.1 v); (go "addr", λ p v, (λ x, (p.1, x)) <$> dec_string p.2 v)].
Definition fetchProxyAddrFromDashboard (lib_error : gostring → gostring) (answer : gostring + Z * gostring) : gostring + gostring :=
  match answer with
  | inl e => inl e
  | inr (status, body) =>
      if negb (status =? 200) then inl (go "dashboard returned " ++ Itoa status)
      else
        match v ← DecodeFirst body; dec_struct status_fields (false, []) v with
        | None => inl (lib_error body)
        | Some (enabled, addr) =>
            if negb enabled || bool_decide (addr = []) then inl (go "proxy reported disabled or addr empty") else inr addr
        end
  end.
(** The address and where it came from; [ask] is the dashboard at an address. *)
Definition discoverProxyAddr (lib_error : gostring → gostring) (pid_file dash_file : gostring + gostring)
    (ask : gostring → gostring + Z * gostring) : gostring + gostring * gostring :=
  match readState (go "proxy.pid") pid_file with
  | inr v => inr (v, go "state file")
  | inl _ =>
      match readState (go "dashboard.port") dash_file with
      | inl e => inl (go "redactr proxy is not running." ++ e)
      | inr dash =>
          match fetchProxyAddrFromDashboard lib_error (ask (normalizeAddr dash)) with
          | inl e => inl (go "redactr proxy is not running." ++ e)
          | inr addr => inr (addr, go "dashboard probe")
          end
      end
  end.

Definition bound_env (proxyAddr caCert : gostring) : list (gostring * gostring) := [
  (go "HTTP_PROXY", go "http://" ++ proxyAddr); (go "HTTPS_PROXY", go "http://" ++ proxyAddr);
  (go "http_proxy", go "http://" ++ proxyAddr); (go "https_proxy", go "http://" ++ proxyAddr);
  (go "NODE_EXTRA_CA_CERTS", caCert); (go "SSL_CERT_FILE", caCert); (go "REQUESTS_CA_BUNDLE", caCert);
  (go "REDACTR_BOUND", go "1"); (go "REDACTR_PROXY_ADDR", proxyAddr); (go "REDACTR_CA_CERT", caCert)].
Definition env_text (kv : gostring * gostring) : gostring := kv.1 ++ go "=" ++ kv.2.
Inductive shell_result := ShellError (e : gostring) | ShellExec (shell : gostring) (argv env : list gostring).
(** [exists_]: whether a file is there; [shell]: the variable SHELL; [environ]: the environment. *)
Definition RunShell (found : gostring + gostring * gostring) (exists_ : gostring → bool) (caCert shell : gostring)
    (environ : list gostring) : shell_result :=
  match found with
  | inl e => ShellError e
  | inr (addr, _) =>
      let addr := normalizeAddr addr in
      if negb (exists_ caCert) then ShellError (go "CA certificate not found at " ++ caCert)
      else
        let shell := if bool_decide (shell = []) then go "/bin/bash" else shell in
        if negb (exists_ shell) then ShellError (go "shell " ++ shell ++ go " not found")
        else ShellExec shell [Base shell; go "-i"] (environ ++ (env_text <$> bound_env addr caCert))
  end.
(** ** The tag read back

    The session scan sees the output of ps: the command, then the environment,
    in words. *)

Definition wordy (s : gostring) : bool := ascii_only s && forallb (λ c, negb (IsSpace (byteN c))) s.

#[local] Abbreviation pieces s := ((λ c, (byteN c, [c])) <$> s).

Lemma fields_word w l cur :
  wordy w = true → fields_from (pieces w ++ l) cur = fields_from l (cur ++ w).
Proof.
  unfold wordy. intros [_ Hw]%andb_true_iff. revert cur Hw. induction w as [|c w IH]; intros cur; [by rewrite app_nil_r|].
  cbn. intros [Hc Hw]%andb_true_iff. apply negb_true_iff in Hc. rewrite Hc, IH by done. by rewrite <-(assoc_L (++)).
Qed.
Lemma fields_app_space l l' cur : fields_from (l ++ (32%N, [" "%char]) :: l') cur = fields_from l cur ++ fields_from l' [].
Proof.
  revert cur. induction l as [|[r b] l IH]; intros cur; [done|]. cbn [app fields_from].
  destruct (IsSpace r); [|apply IH]. by rewrite IH, (assoc_L (++)).
Qed.
Lemma ascii_only_app s t : ascii_only (s ++ t) = ascii_only s && ascii_only t.
Proof. apply forallb_app. Qed.

Lemma Fields_app_space s t :
  ascii_only s = true → ascii_only t = true → Fields (s ++ " "%char :: t) = Fields s ++ Fields t.
Proof.
  intros Hs Ht. unfold Fields. rewrite !decode_all_ascii; [|done..|].
  - rewrite fmap_app, fmap_cons. change (byteN " ") with 32%N. apply fields_app_space.
  - rewrite ascii_only_app, Hs. exact Ht.
Qed.
Lemma Fields_word w : wordy w = true → w ≠ [] → Fields w = [w].
Proof.
  intros Hw Hne. assert (ascii_only w = true) as Ha by (by apply andb_true_iff in Hw as []).
  unfold Fields. rewrite decode_all_ascii by done. rewrite <-(app_nil_r (pieces w)), fields_word by done.
  cbn. by rewrite bool_decide_eq_false_2.
Qed.
Lemma Fields_words ws :
  Forall (λ w, wordy w = true ∧ w ≠ []) ws → ascii_only (Join ws (go " ")) = true ∧ Fields (Join ws (go " ")) = ws.
Proof.
  induction 1 as [|w ws [Hw Hne] Hws [IHa IH]]; [done|].
  assert (ascii_only w = true) as Ha by (by apply andb_true_iff in Hw as []).
  destruct ws as [|w' ws]; [split; [done|by apply Fields_word]|].
  rewrite Join_cons by done. change (go " ") with [" "%char] in *. cbn [app].
  rewrite ascii_only_app, Fields_app_space, IH, Fields_word by done. split; [|done].
  rewrite Ha. exact IHa.
Qed.

(** Spaces at the ends are no part of a word. *)
Lemma drop_spaces_ascii s :
  ∃ a t, s = a ++ t ∧ forallb (λ c, IsSpace (byteN c)) a = true ∧ drop_spaces (pieces s) = pieces t.
Proof.
  induction s as [|c s (a & t & -> & Ha & Ht)]; [by exists [], []|]. cbn.
  destruct (IsSpace (byteN c)) eqn:Hc; [|by exists [], (c :: a ++ t)].
  exists (c :: a), t. cbn. by rewrite Hc.
Qed.
Lemma fields_leading a l : forallb (λ c, IsSpace (byteN c)) a = true → fields_from (pieces a ++ l) [] = fields_from l [].
Proof. induction a as [|c a IH]; [done|]. cbn. intros [-> Ha]%andb_true_iff. by apply IH. Qed.
Lemma fields_trailing l a cur : forallb (λ c, IsSpace (byteN c)) a = true → fields_from (l ++ pieces a) cur = fields_from l cur.
Proof.
  intros Ha. revert cur. induction l as [|[r b] l IH]; intros cur.
  - destruct a as [|c a]; [done|]. cbn in *. apply andb_true_iff in Ha as [-> Ha].
    pose proof (fields_leading a [] Ha) as Hl. rewrite app_nil_r in Hl. rewrite Hl. cbn. by rewrite app_nil_r.
  - cbn. destruct (IsSpace r); by rewrite IH.
Qed.
Lemma pieces_bytes s : (pieces s ≫= snd) = s.
Proof. induction s as [|c s IH]; [done|]. cbn. by f_equal. Qed.
Lemma pieces_rev s : pieces (rev s) = rev (pieces s).
Proof. induction s as [|c s IH]; [done|]. cbn [rev]. by rewrite fmap_app, IH. Qed.
Lemma Fields_TrimSpace s : ascii_only s = true → Fields (TrimSpace s) = Fields s.
Proof.
  intros Hs. destruct (drop_spaces_ascii s) as (a & t & -> & Ha & Ht).
  destruct (drop_spaces_ascii (rev t)) as (b & u & Hu & Hb & Hd).
  assert (t = rev u ++ rev b) as -> by (rewrite <-(rev_involutive t), Hu; apply rev_app_distr).
  rewrite !ascii_only_app in Hs. apply andb_true_iff in Hs as [Has [Hus Hbs]%andb_true_iff].
  unfold TrimSpace. rewrite decode_all_ascii by (by rewrite !ascii_only_app, Has, Hus, Hbs).
  rewrite Ht, <-pieces_rev, Hd, <-pieces_rev, pieces_bytes.
  unfold Fields.
  rewrite !decode_all_ascii by (by rewrite ?ascii_only_app, ?Has, ?Hus, ?Hbs).
  rewrite !fmap_app, fields_leading by done. symmetry. apply fields_trailing.
  by rewrite forallb_forall in *; setoid_rewrite <-in_rev.
Qed.
#[local] Ltac known := apply (bool_decide_unpack _); vm_compute; exact I.
(** The value of a variable in the environment of a process: the last assignment counts. *)
Definition assigns (k kv : gostring) : bool := HasPrefix kv (k ++ go "=").
Definition getenv (env : list gostring) (k : gostring) : option gostring :=
  foldl (λ v kv, if assigns k kv then Some (drop (length k + 1) kv) else v) None env.
Lemma assigns_text k v : assigns k (env_text (k, v)) = true.
Proof. unfold assigns, env_text. cbn [fst snd]. apply HasPrefix_spec. exists v. by rewrite <-(assoc_L (++)). Qed.
Lemma assigns_value k kv : assigns k kv = true → kv = env_text (k, drop (length k + 1) kv).
Proof.
  unfold assigns, env_text. cbn [fst snd]. intros [v ->]%HasPrefix_spec. rewrite <-(assoc_L (++)), drop_app_add. done.
Qed.
Lemma getenv_app env env' k :
  getenv (env ++ env') k = match getenv env' k with Some v => Some v | None => getenv env k end.
Proof.
  unfold getenv. rewrite foldl_app. generalize (foldl (λ v kv, if assigns k kv then Some (drop (length k + 1) kv) else v) None env) as r.
  induction env' as [|kv env' IH] using rev_ind; intros r; [done|]. rewrite !foldl_app. cbn [foldl]. destruct (assigns k kv); [done|apply IH].
Qed.
Lemma getenv_Some env k v : getenv env k = Some v →
  ∃ before after, env = before ++ env_text (k, v) :: after ∧ Forall (λ kv, assigns k kv = false) after.
Proof.
  induction env as [|kv env IH] using rev_ind; [done|]. rewrite getenv_app. unfold getenv at 1. cbn [foldl].
  destruct (assigns k kv) eqn:Hk.
  - intros [= <-]. exists env, []. split; [|constructor]. by rewrite <-assigns_value.
  - intros (before & after & -> & Hf)%IH. exists before, (after ++ [kv]). split; [by rewrite <-(assoc_L (++))|].
    apply Forall_app. split; [done|]. by apply Forall_singleton.
Qed.
Lemma assigns_other k k' v : "="%char ∉ k → "="%char ∉ k' → k ≠ k' → assigns k (env_text (k', v)) = false.
Proof.
  intros Hk Hk' Hne. destruct (assigns k (env_text (k', v))) eqn:Ha; [|done]. exfalso. apply Hne.
  apply assigns_value in Ha. revert Ha. generalize (drop (length k + 1) (env_text (k', v))) as w. intros w.
  unfold env_text. cbn [fst snd]. change (go "=") with ["="%char]. cbn [app]. intros Ha.
  pose proof (f_equal (λ t, IndexByte t "="%char) Ha) as Hi. cbn beta in Hi. rewrite !IndexByte_first in Hi by done.
  injection Hi as Hi. by apply app_inj_1 in Ha as [-> _].
Qed.
Lemma getenv_texts kvs k v : Forall (λ kv, "="%char ∉ kv.1) kvs → NoDup kvs.*1 → (k, v) ∈ kvs →
  getenv (env_text <$> kvs) k = Some v.
Proof.
  induction kvs as [|[k' v'] kvs IH] using rev_ind; [by intros _ _ ?%elem_of_nil|].
  rewrite fmap_app. intros [He [He' _]%Forall_cons_1]%Forall_app Hn Hin. cbn in He'.
  apply NoDup_app in Hn as (Hn & Hd & _). rewrite fmap_app, getenv_app. unfold getenv at 1. cbn [fmap list_fmap foldl].
  apply elem_of_app in Hin as [Hin|[= -> ->]%list_elem_of_singleton].
  - rewrite assigns_other; [by apply IH| |exact He'|].
    + rewrite Forall_forall in He. by apply (He (k, v)).
    + intros ->. apply (Hd k'); [by apply (list_elem_of_fmap_2 fst) in Hin|by left].
  - rewrite assigns_text. unfold env_text. cbn [fst snd]. by rewrite drop_app_add.
Qed.
(** The scan reads a word as an assignment of [k] exactly when it is one. *)
Lemma env_entry_lookup m k tok : isEnvKey k = true → "="%char ∉ k →
  env_entry m tok !! k = if assigns k tok then Some (drop (length k + 1) tok) else m !! k.
Proof.
  intros Hk Hn. destruct (assigns k tok) eqn:Ha.
  - apply assigns_value in Ha. revert Ha. generalize (drop (length k + 1) tok) as v. intros v ->.
    unfold env_entry, env_text. cbn [fst snd]. change (go "=" ++ v) with ("="%char :: v). rewrite IndexByte_first by done.
    destruct k as [|c k]; [done|]. cbn [length]. change (S (length k)) with (length (c :: k)).
    rewrite take_app_length, Hk, lookup_insert_eq. replace (S (length (c :: k))) with (length (c :: k) + 1)%nat by lia.
    by rewrite drop_app_add.
  - unfold env_entry. destruct (IndexByte tok "="%char) as [[|i]|] eqn:Hi; [done| |done].
    cbv zeta. destruct (isEnvKey (take (S i) tok)); [|done]. rewrite lookup_insert_ne; [done|]. intros Heq.
    apply IndexByte_Some in Hi as [Hi _]. apply take_drop_middle in Hi. rewrite Heq in Hi.
    assert (assigns k tok = true) as Hp; [|by rewrite Hp in Ha].
    unfold assigns. apply HasPrefix_spec. eexists. rewrite <-Hi at 1. by rewrite <-(assoc_L (++)).
Qed.
Lemma env_entries_other m k toks : isEnvKey k = true → "="%char ∉ k →
  Forall (λ tok, assigns k tok = false) toks → foldl env_entry m toks !! k = m !! k.
Proof.
  intros Hk Hn Hf. revert m. induction Hf as [|tok toks Ht _ IH]; intros m; [done|]. cbn [foldl].
  by rewrite IH, env_entry_lookup, Ht.
Qed.
Lemma Fields_newline s : ascii_only s = true → Fields (s ++ [byte_of 10]) = Fields s.
Proof.
  intros Hs. unfold Fields. rewrite !decode_all_ascii by (by rewrite ?ascii_only_app, ?Hs).
  rewrite fmap_app. by apply (fields_trailing _ [byte_of 10]).
Qed.
Lemma Join_app l l' sep : l ≠ [] → l' ≠ [] → Join (l ++ l') sep = Join l sep ++ sep ++ Join l' sep.
Proof.
  intros Hl Hl'. induction l as [|p l IH]; [done|]. cbn [app]. rewrite Join_cons by (by destruct l).
  destruct l as [|q l]; [done|]. rewrite IH, (Join_cons p (q :: l)) by done. by rewrite <-!(assoc_L (++)).
Qed.
Lemma Join_ascii l : Forall (λ kv, ascii_only kv = true) l → ascii_only (Join l (go " ")) = true.
Proof.
  induction 1 as [|p l Hp Hl IH]; [done|]. destruct l; [done|]. rewrite Join_cons, !ascii_only_app, Hp by done. exact IH.
Qed.
Lemma Fields_Join l : Forall (λ kv, ascii_only kv = true) l → Fields (Join l (go " ")) = l ≫= Fields.
Proof.
  induction 1 as [|kv l Hkv Hl IH]; [done|]. destruct l as [|kv' l]; [cbn; by rewrite app_nil_r|].
  pose proof (Join_ascii _ Hl) as Hj. rewrite Join_cons by done. change (go " ") with [" "%char] in *. cbn [app].
  rewrite Fields_app_space by done. by rewrite IH.
Qed.
(** No other variable has, inside its value, a word that assigns [k]. *)
Definition no_echo (k : gostring) (env : list gostring) : Prop :=
  Forall (λ kv, assigns k kv = false → Forall (λ tok, assigns k tok = false) (Fields kv)) env.
(** What ps prints of a process, its command and then its environment, is read as the values
    its environment has. *)
Lemma ps_value command env k v :
  ascii_only command = true → Forall (λ kv, ascii_only kv = true) env → isEnvKey k = true → "="%char ∉ k →
  getenv env k = Some v → wordy (env_text (k, v)) = true → no_echo k env →
  parse_env (command ++ go " " ++ Join env (go " ") ++ [byte_of 10]) !! k = Some v.
Proof.
  intros Hcmd Henv Hk Hn Hget Hw Hecho. unfold parse_env. change (go " ") with [" "%char]. cbn [app].
  pose proof (Join_ascii _ Henv) as Hj. change (go " ") with [" "%char] in Hj.
  assert (command ++ " "%char :: Join env [" "%char] ++ [byte_of 10] = (command ++ " "%char :: Join env [" "%char]) ++ [byte_of 10]) as ->
    by (by rewrite <-(assoc_L (++))).
  assert (ascii_only (command ++ " "%char :: Join env [" "%char]) = true) as Hall by (rewrite ascii_only_app, Hcmd; exact Hj).
  rewrite Fields_TrimSpace by (by rewrite ascii_only_app, Hall). rewrite Fields_newline, Fields_app_space, foldl_app by done.
  change [" "%char] with (go " "). rewrite Fields_Join by done.
  apply getenv_Some in Hget as (before & after & -> & Hafter). rewrite bind_app, bind_cons, !foldl_app.
  assert (env_text (k, v) ≠ []) as Hne by (unfold env_text; cbn [fst snd]; by destruct k).
  rewrite (Fields_word (env_text (k, v))) by done. cbn [foldl]. rewrite env_entries_other; [|done..|].
  - rewrite env_entry_lookup, assigns_text by done. unfold env_text. cbn [fst snd]. by rewrite drop_app_add.
  - apply Forall_app in Hecho as [_ [_ Hecho]%Forall_cons_1]. clear -Hafter Hecho.
    induction Hafter as [|kv after Hkv _ IH]; [constructor|]. apply Forall_cons_1 in Hecho as [He Hecho].
    rewrite bind_cons. apply Forall_app. split; [by apply He|by apply IH].
Qed.
Lemma wordy_app s t : wordy (s ++ t) = wordy s && wordy t.
Proof. unfold wordy. rewrite ascii_only_app, forallb_app. by destruct (ascii_only s), (ascii_only t), (forallb _ s). Qed.

End shell.

Definition shell_file (p : gostring) : bool := bool_decide (p ∈ [go "/ann/ca.pem"; go "/bin/zsh"]).
Definition shell_environ : list gostring := [go "HOME=/ann"; go "HTTPS_PROXY=http://corp:3128"].
Definition shell_started : shell_result :=
  @RunShell sample_unicode (inr (go "[::]:8080", go "state file")) shell_file (go "/ann/ca.pem") (go "/bin/zsh") shell_environ.
Definition shell_env : list gostring := match shell_started with ShellExec _ _ env => env | _ => [] end.
(** The tool's environment: the shell kept one value for each name, in an order of its own, and
    added variables. *)
Definition tool_env : list gostring :=
  go "SHLVL=2" :: go "HTTPS_PROXY=http://127.0.0.1:8080" :: go "HOME=/ann" :: drop 4 shell_env ++ [go "PWD=/ann/my project"; go "_=/opt/claude"].
Definition shell_probe : SysProbe := {|
  sp_ps := None; sp_env _ := Some (go "claude --resume" ++ go " " ++ Join tool_env (go " ") ++ [byte_of 10]);
  sp_lsof _ := None; sp_time _ := 0; sp_lookup _ := None |}.
Definition shell_tool : rawProc := mkRawProc 7 1 (go "ann") (go "claude --resume") 0.

Lemma shell_start : shell_started = ShellExec (go "/bin/zsh") [go "zsh"; go "-i"] shell_env.
Proof. vm_compute. reflexivity. Qed.



(** Two ways to be taken for protected without Redactr: any proxy counts as
    Redactr's; and an assignment among the arguments counts as one of the
    environment, since both are words of the same output. *)
Definition plain_probe (out : gostring) : SysProbe := {|
  sp_ps := None; sp_env _ := Some out; sp_lsof _ := None; sp_time _ := 0; sp_lookup _ := None |}.
Lemma any_proxy_counts :
  (λ s, (ss_Status s, ss_Reason s)) <$>
    @session_of sample_unicode (plain_probe (go "claude HOME=/ann HTTPS_PROXY=http://corp:3128")) (NewLister 99) shell_tool
  = Some (StatusProtected, go "HTTPS_PROXY points at Redactr").
Proof. vm_compute. reflexivity. Qed.
Lemma argument_counts :
  (λ s, (ss_Status s, ss_Reason s)) <$>
    @session_of sample_unicode (plain_probe (go "claude say REDACTR_BOUND=1 HOME=/ann")) (NewLister 99) shell_tool
  = Some (StatusProtected, go "tagged with REDACTR_BOUND=1").
Proof. vm_compute. reflexivity. Qed.

(** ** code.go *)

Section code.
Context `{RegexpEngine} `{UnicodeData} `{GoSort} `{EntropyEnv} `{HttpClient} `{Yaml} `{FwManager}.

(** The file of the project; the error of the directory, and that of the write with what it
    leaves of the file, which is truncated first. *)
Definition writeDevcontainer (dir_err : option gostring) (write_err : option (gostring * option (gmap gostring json))) (force : bool) (content : gmap gostring json)
    (file : option (gmap gostring json)) : option (gmap gostring json) * option gostring :=
  match dir_err with
  | Some e => (file, Some e)
  | None =>
      if negb force && bool_decide (is_Some file) then (file, Some (go "already exists (use --force to overwrite)"))
      else match write_err with Some (e, rest) => (rest, Some e) | None => (Some content, None) end
  end.
Definition RunCode (dial : nat → bool) (spawn : option gostring) (fate : relay_fate) (e : SwitchEnv) (load : option gostring)
    (disk : Disk) (dir_err : option gostring) (write_err : option (gostring * option (gmap gostring json))) (caPath : gostring) (force : bool)
    (file : option (gmap gostring json)) (w : World) : World * option (gmap gostring json) * option gostring :=
  match ensureDaemon dial spawn with
  | Some err => (w, file, Some err)
  | None =>
      match socketEnable fate e w with
      | (w, inl _) => (w, file, Some (go "could not enable proxy: " ++ enable_refused))
      | (w, inr _) =>
          match handleLaunchPolicy load disk w with
          | inl _ => (w, file, Some (go "could not fetch launch policy: " ++ launch_refused (go "code")))
          | inr info =>
              let '(file, err) := writeDevcontainer dir_err write_err force
                (Generate (mkGenerate (li_Image info) (li_ProxyAddr info) caPath)) file in
              (w, file, err)
          end
      end
  end.
(** A file that is there is only ever replaced with [--force], and on an error before the write
    it stays. *)
Lemma RunCode_keeps dial spawn fate e load disk dir_err write_err caPath force file w :
  let '(_, file', err) := RunCode dial spawn fate e load disk dir_err write_err caPath force file w in
  (is_Some err → write_err = None → file' = file) ∧ (force = false → is_Some file → file' = file ∧ is_Some err).
Proof.
  unfold RunCode. destruct (ensureDaemon dial spawn); [by eauto|]. destruct (socketEnable fate e w) as [w1 [err|st]]; [by eauto|].
  destruct (handleLaunchPolicy load disk w1) as [err|info]; [by eauto|]. unfold writeDevcontainer.
  destruct dir_err; [by eauto|]. destruct (negb force && _) eqn:Hf; [by eauto|].
  assert (force = false → is_Some file → False) as Hno by (intros -> Hfile; by rewrite bool_decide_eq_true_2 in Hf).
  destruct write_err as [[err rest]|]; (split; [try done; by intros []|]; intros Hforce Hfile; by destruct (Hno Hforce Hfile)).
Qed.
End code.
