(* ===== verification/Mcp.v ===== *)
(** * The MCP wrapper — internal/mcpwrap/wrap.go, cmd/redactr-mcp-wrap/main.go

    The wrapper sits between an editor and a tool server and passes every line
    through [ScanMessage], which asks the daemon's dashboard to redact the text it
    finds in the message. *)
From S2P Require Import Prelude GoStr Utf8 GoFloat GoSort Spans Scanner Redactor Sha256 Cache Regex Rules FileBlock Coordinator Presidio Entropy Json JsonRound JsonDecode JsonStruct Gliner Domain Extract Proxy Config Sandbox Firewall Base64 Signing Token Bundle Sessions Store ServerAuth Httpapi Daemon Policy Control.
Local Open Scope Z_scope.

(** ** wrap.go *)

(** Decoding into [interface{}]: numbers have to be representable. *)
Fixpoint any_ok (v : json) : bool :=
  match v with
  | JNum t => bool_decide (is_Some (ParseFloat t))
  | JArr l => forallb any_ok l
  | JObj ms => forallb (λ kv, any_ok kv.2) ms
  | _ => true
  end.
Definition dec_any : decoder json := λ _ v, if any_ok v then Some v else None.
Definition dec_part_map : decoder (gmap gostring json) := dec_map JNull dec_any.
(** [p["text"].(string)] *)
Definition part_text (p : gmap gostring json) : option gostring :=
  match p !! go "text" with Some (JStr lit) => Some (unquote lit) | _ => None end.

(** The texts of a content array, when it is one of objects. *)
Definition content_texts (result : json) : option gostring :=
  obj ← dec_raw_map ∅ result; content ← obj !! go "content";
  parts ← dec_slice ∅ dec_part_map [] content;
  Some (Join (omap part_text parts) [chr 10]).
(** The content of a request's parameters, when it is a string. *)
Definition params_text (params : json) : option gostring :=
  obj ← dec_raw_map ∅ params; content ← obj !! go "content"; dec_string [] content.
Definition extractTextFromMessage (msg : gmap gostring json) : gostring :=
  let from_params := default [] (params ← msg !! go "params"; params_text params) in
  match msg !! go "result" with
  | None => from_params
  | Some result =>
      match content_texts result with
      | Some text => text
      | None => match dec_string [] result with Some text => text | None => from_params end
      end
  end.

(** The scanner: an error, or the redacted text. *)
Definition RemoteScanner : Type := gostring → gostring + gostring.
(** Every failure lets the message through as it is. *)
Definition ScanMessage (scanner : option RemoteScanner) (msg : gostring) : gostring :=
  match scanner with
  | None => msg
  | Some ScanText =>
      match raw_of msg with
      | None => msg
      | Some parsed =>
          let text := extractTextFromMessage parsed in
          if bool_decide (text = []) then msg
          else
            match ScanText text with
            | inl _ => msg
            | inr redacted => if bool_decide (redacted = text) then msg else Replace1 msg text redacted
            end
      end
  end.

(** ** main.go *)

(** The response as a [map[string]string]: a value of another kind leaves an empty text and an
    error that is ignored. *)
Definition lenient_strings (v : json) : gmap gostring gostring :=
  match v with
  | JObj ms => foldl (λ m kv, <[unquote kv.1 := match kv.2 with JStr lit => unquote lit | _ => [] end]> m) ∅ ms
  | _ => ∅
  end.
(** [post]: for a URL and a body, the error of the request or the body of the response. *)
Definition apiScanner (post : gostring → gostring → gostring + gostring) (baseURL : gostring) : RemoteScanner := λ text,
  match post (baseURL ++ go "/api/scan") (compact (string_map [("text", text)])) with
  | inl e => inl e
  | inr body =>
      inr match DecodeFirst body with
          | Some v => default text (lenient_strings v !! go "redacted")
          | None => text
          end
  end.

Definition discoverAPIPort `{UnicodeData} (file : gostring + gostring) : gostring :=
  match file with inl _ => [] | inr data => TrimSpace data end.
(** The wrapper scans only if it found the daemon's port. *)
Definition wrapper_scanner (post : gostring → gostring → gostring + gostring) (port : gostring) : option RemoteScanner :=
  if bool_decide (port = []) then None else Some (apiScanner post (go "http://127.0.0.1:" ++ port)).

(** The default buffer of [bufio.Scanner]. *)
Definition max_line : Z := 65536.
(** One direction of the relay. *)
Definition relay (scanner : option RemoteScanner) (input : gostring) : gostring :=
  ScanLines max_line input ≫= λ line, ScanMessage scanner line ++ [chr 10].

(** ** Texts that stand in a message as they are *)

Definition plain_byte (c : Ascii.ascii) : bool :=
  let n := byteN c in
  ((32 <=? n)%N && (n <? 127)%N) && negb ((n =? 34)%N || (n =? 92)%N || is_html c).
Definition plain (t : gostring) : bool := negb (bool_decide (t = [])) && forallb plain_byte t.

Lemma plain_byte_spec c : plain_byte c = true →
  (32 ≤ byteN c < 127)%N ∧ (byteN c =? 34)%N = false ∧ (byteN c =? 92)%N = false ∧ is_html c = false.
Proof. unfold plain_byte. intros Hc. bool_hyps. rewrite N.leb_le, N.ltb_lt in *. by split_and!. Qed.
Lemma plain_lit_ok t : forallb plain_byte t = true → lit_ok t.
Proof.
  induction t as [|c t IH]; [constructor|]. cbn [forallb]. intros [(Hr & Hq & Hb & _)%plain_byte_spec Ht]%andb_true_iff.
  apply lit_plain; [done|done|apply N.ltb_ge; lia|by apply IH].
Qed.
Lemma plain_ascii t : forallb plain_byte t = true → ascii_only t = true.
Proof.
  unfold ascii_only. rewrite !forallb_forall. intros Ht c Hc. apply Ht, plain_byte_spec in Hc as (Hr & _).
  apply N.ltb_lt. lia.
Qed.
Lemma plain_quote t : forallb plain_byte t = true → quote_lit t = t.
Proof.
  intros Ht. unfold quote_lit. rewrite decode_all_ascii by by apply plain_ascii.
  induction t as [|c t IH]; [done|]. cbn [forallb] in Ht. apply andb_true_iff in Ht as [(Hr & Hq & Hb & Hh)%plain_byte_spec Ht].
  rewrite fmap_cons. cbn [mbind list_bind]. rewrite IH by done. cbn [escape_rune].
  rewrite (proj2 (N.ltb_lt _ _)) by lia. unfold escape_byte. rewrite Hq, Hb, Hh. cbn [orb].
  rewrite !(proj2 (N.eqb_neq _ _)), (proj2 (N.ltb_ge _ _)) by lia. done.
Qed.
Lemma plain_unquote t : forallb plain_byte t = true → unquote t = t.
Proof.
  intros Ht. rewrite <- (plain_quote t Ht) at 1. by rewrite unquote_quote_lit, valid_utf8_ascii by by apply plain_ascii.
Qed.

(** ** A tool's answer with one text *)

Definition rpc_result (id t : gostring) : json := JObj [
  (go "jsonrpc", JStr (go "2.0")); (go "id", JNum id);
  (go "result", JObj [(go "content", JArr [JObj [(go "type", JStr (go "text")); (go "text", JStr t)]])])].
Definition rpc_before (id : gostring) : gostring :=
  js "{'jsonrpc':'2.0','id':" ++ id ++ js ",'result':{'content':[{'type':'text','text':'".
Definition rpc_after : gostring := js "'}]}}".
Definition rpc_message (id t : gostring) : gostring := rpc_before id ++ t ++ rpc_after.
Lemma rpc_text id t : text_of (rpc_result id t) = rpc_message id t.
Proof.
  unfold rpc_message, rpc_before, rpc_result. cbn [text_of fmap list_fmap Join fst snd].
  repeat first [rewrite <- app_assoc | rewrite <- app_comm_cons]. vm_compute. reflexivity.
Qed.
Lemma rpc_read id t : parse_number id = Some (id, []) → forallb plain_byte t = true →
  Unmarshal (rpc_message id t) = Some (rpc_result id t).
Proof.
  intros Hid Ht. rewrite <- rpc_text. refine (proj1 (Unmarshal_text _ _ _)); [|vm_compute; discriminate].
  pose proof (plain_lit_ok t Ht) as Hl.
  assert (∀ k v, scan_str (k ++ [quote]) = Some (k, []) → json_ok v → lit_ok k ∧ json_ok v) as Hkv.
  { intros k v Hk Hv. by split; [apply lit_ok_text|]. }
  assert (∀ l, lit_ok l → json_ok (JStr l)) as Hs by done.
  unfold rpc_result. apply json_ok_obj.
  apply Forall_cons_2; [apply Hkv; [vm_compute; reflexivity|apply Hs, lit_ok_text; vm_compute; reflexivity]|].
  apply Forall_cons_2; [apply Hkv; [vm_compute; reflexivity|exact Hid]|].
  apply Forall_cons_2; [|apply Forall_nil_2]. apply Hkv; [vm_compute; reflexivity|]. apply json_ok_obj.
  apply Forall_cons_2; [|apply Forall_nil_2]. apply Hkv; [vm_compute; reflexivity|]. apply json_ok_arr.
  apply Forall_cons_2; [|apply Forall_nil_2]. apply json_ok_obj.
  apply Forall_cons_2; [apply Hkv; [vm_compute; reflexivity|apply Hs, lit_ok_text; vm_compute; reflexivity]|].
  apply Forall_cons_2; [|apply Forall_nil_2]. apply Hkv; [vm_compute; reflexivity|by apply Hs].
Qed.
Definition rpc_part (t : gostring) : json := JObj [(go "type", JStr (go "text")); (go "text", JStr t)].
Definition rpc_part_map (t : gostring) : gmap gostring json := <[go "text" := JStr t]> {[go "type" := JStr (go "text")]}.
Lemma rpc_part_read t : dec_part_map ∅ (rpc_part t) = Some (rpc_part_map t).
Proof. vm_compute. reflexivity. Qed.
Definition rpc_content (t : gostring) : json := JObj [(go "content", JArr [rpc_part t])].
Lemma rpc_content_read t : dec_raw_map ∅ (rpc_content t) = Some {[go "content" := JArr [rpc_part t]]}.
Proof. vm_compute. reflexivity. Qed.
Lemma rpc_content_texts t : content_texts (rpc_content t) = Some (unquote t).
Proof.
  unfold content_texts. rewrite rpc_content_read. cbn [mbind option_bind]. rewrite lookup_singleton_eq.
  cbn [mbind option_bind dec_slice mapM]. rewrite rpc_part_read. cbn [mbind option_bind mret option_ret omap list_omap].
  unfold part_text, rpc_part_map. by rewrite lookup_insert_eq.
Qed.
Lemma rpc_extract id t : extractTextFromMessage <$> dec_raw_map ∅ (rpc_result id t) = Some (unquote t).
Proof.
  assert (∃ m, dec_raw_map ∅ (rpc_result id t) = Some m ∧ m !! go "result" = Some (rpc_content t)) as (m & -> & Hm)
    by (eexists; split; vm_compute; reflexivity).
  cbn [fmap option_fmap option_map]. unfold extractTextFromMessage. by rewrite Hm, rpc_content_texts.
Qed.

Lemma Replace1_at pre old new post : Index (pre ++ old ++ post) old = Some (length pre) →
  Replace1 (pre ++ old ++ post) old new = pre ++ new ++ post.
Proof.
  intros Hi. unfold Replace1. rewrite Hi, take_app_length. f_equal. f_equal.
  by rewrite <- length_app, app_assoc, drop_app_length.
Qed.
(** The first place a text stands in the message is the text itself. *)
Definition stands_first (id t : gostring) : Prop := Index (rpc_message id t) t = Some (length (rpc_before id)).
Lemma ScanMessage_result ScanText id t r :
  parse_number id = Some (id, []) → plain t = true → stands_first id t → ScanText t = inr r →
  ScanMessage (Some ScanText) (rpc_message id t) = rpc_message id r.
Proof.
  intros Hid [Hne Ht]%andb_true_iff Hi Hr. apply negb_true_iff, bool_decide_eq_false in Hne.
  unfold ScanMessage, raw_of. rewrite rpc_read by done. cbn [mbind option_bind].
  pose proof (rpc_extract id t) as He. destruct (dec_raw_map ∅ (rpc_result id t)) as [m|]; [|done].
  cbn [fmap option_fmap option_map] in He. injection He as ->. rewrite plain_unquote by done.
  rewrite bool_decide_eq_false_2, Hr by done. case_bool_decide as Heq; [by rewrite Heq|].
  by apply Replace1_at.
Qed.
(** A text the message does not contain as it is passes, whatever the scanner found. *)
Lemma ScanMessage_absent ScanText msg parsed : raw_of msg = Some parsed →
  Index msg (extractTextFromMessage parsed) = None → ScanMessage (Some ScanText) msg = msg.
Proof.
  intros Hp Hi. unfold ScanMessage. rewrite Hp. case_bool_decide; [done|].
  destruct (ScanText _); [done|]. case_bool_decide; [done|]. unfold Replace1. by rewrite Hi.
Qed.

(** ** The relay *)

Definition short_line (l : gostring) : Prop := chr 10 ∉ l ∧ len l < max_line ∧ drop_cr l = l.
Lemma scan_lines_cons l p ps : len l < max_line →
  (scan_lines max_line (l :: p :: ps)).1 = drop_cr l :: (scan_lines max_line (p :: ps)).1.
Proof.
  intros Hl. change (scan_lines max_line (l :: p :: ps)) with (if max_line <=? len l then ([], false)
    else let '(ls, all) := scan_lines max_line (p :: ps) in (drop_cr l :: ls, all)).
  rewrite (proj2 (Z.leb_gt _ _)) by lia. by destruct (scan_lines max_line (p :: ps)).
Qed.
Lemma Split_cons s c : ∃ p ps, Split s c = p :: ps.
Proof. pose proof (Split_ne s c). destruct (Split s c); [done|by eexists _, _]. Qed.
(** Every short line is handed on, scanned, and nothing is lost or invented. *)
Lemma relay_lines scanner ls : Forall short_line ls →
  relay scanner (ls ≫= λ l, l ++ [chr 10]) = ls ≫= λ l, ScanMessage scanner l ++ [chr 10].
Proof.
  unfold relay, ScanLines. change (byte_of 10) with (chr 10). induction 1 as [|l ls (Hn & Hl & Hc) _ IH]; [done|]. cbn [mbind list_bind].
  rewrite <- app_assoc. cbn [app]. rewrite Split_app by done.
  destruct (Split_cons (mbind (λ l, l ++ [chr 10]) ls) (chr 10)) as (p & ps & Hs).
  change (list_bind _ _ (λ l0, l0 ++ [chr 10]) ls) with (mbind (λ l0, l0 ++ [chr 10]) ls) in *.
  rewrite Hs in *. rewrite scan_lines_cons, Hc by done. cbn [mbind list_bind]. by f_equal.
Qed.
Lemma relay_line scanner l : short_line l → relay scanner (l ++ [chr 10]) = ScanMessage scanner l ++ [chr 10].
Proof.
  intros Hl. pose proof (relay_lines scanner [l]) as Hr. cbn [mbind list_bind] in Hr. rewrite !app_nil_r in Hr.
  by apply Hr, Forall_singleton.
Qed.
(** A line that does not fit the buffer ends the relay: it and everything after it is lost. *)
Lemma relay_long scanner l rest : chr 10 ∉ l → max_line ≤ len l → relay scanner (l ++ chr 10 :: rest) = [].
Proof.
  intros Hn Hl. unfold relay, ScanLines. change (byte_of 10) with (chr 10). rewrite Split_app by done. destruct (Split_cons rest (chr 10)) as (p & ps & ->).
  change (scan_lines max_line (l :: p :: ps)) with (if max_line <=? len l then ([], false)
    else let '(ls, all) := scan_lines max_line (p :: ps) in (drop_cr l :: ls, all)).
  by rewrite (proj2 (Z.leb_le _ _)).
Qed.

(** ** Through the daemon *)

Section dashboard.
Context `{RegexpEngine} `{UnicodeData} `{GoSort} `{EntropyEnv} `{HttpClient} `{Yaml}.
Context (layer_ms : gostring → nat → gostring → Z) (layer_timer : gostring → nat → gostring → bool).
(** The JSON of the findings (with their confidences, which are floating-point numbers). *)
Context (findings_json : list Finding → json).

(** The dashboard's [POST /api/scan] as its client sees it; a panic closes the connection. *)
Definition dashboard (now ms : Z) (m : Moment) (d : Daemon) (body : gostring) : gostring + gostring :=
  match handleScan layer_ms layer_timer now ms m body d with
  | Ok (_, r) =>
      inr match ap_body r with
          | AScan original redacted findings =>
              compact (JObj [(go "findings", findings_json findings); (go "original", quoted original);
                             (go "redacted", quoted redacted)]) ++ [byte_of 10]
          | AError e => e ++ [byte_of 10]
          | _ => []
          end
  | _ => inl (go "EOF")
  end.

Lemma request_read t : valid_utf8 t = t →
  (v ← DecodeFirst (compact (string_map [("text", t)])); dec_struct [(go "text", dec_string)] [] v) = Some t.
Proof.
  intros Ht. change (string_map [("text", t)]) with (JObj [(go "text", quoted t)]).
  assert (Forall wire_member [(go "text", quoted t)]) as [Hok Hd]%members_ok by wire.
  destruct (Unmarshal_compact _ Hok Hd) as [_ ->]. cbn [mbind option_bind].
  read_member. by rewrite dec_struct_nil, Ht.
Qed.
Lemma reply_read (fj : json) original redacted : json_ok fj → (jdepth fj ≤ 2)%N →
  (λ v, lenient_strings v !! go "redacted") <$>
    DecodeFirst (compact (JObj [(go "findings", fj); (go "original", quoted original); (go "redacted", quoted redacted)])
                 ++ [byte_of 10])
  = Some (Some (valid_utf8 redacted)).
Proof.
  intros Hok Hd. rewrite DecodeFirst_members; [|wire; by split_and!]. cbn [fmap option_fmap option_map canon lenient_strings].
  rewrite !fmap_cons, fmap_nil. cbn [foldl fst snd]. f_equal.
  replace (unquote (html_escape (go "redacted"))) with (go "redacted") by (vm_compute; reflexivity).
  rewrite lookup_insert_eq. cbn [quoted canon]. destruct (quote_lit_spec redacted) as (_ & Hu & ->). by rewrite Hu.
Qed.

(** The wrapper's client on this machine: the dashboard of [d] listens on [port]. *)
Definition dashboard_at (port : gostring) (now ms : Z) (m : Moment) (d : Daemon) (url body : gostring) : gostring + gostring :=
  if bool_decide (url = (go "http://127.0.0.1:" ++ port) ++ go "/api/scan") then dashboard now ms m d body else inl (go "refused").

(** C19: what the wrapper does to a tool's answer.  A line that fits the buffer and
    holds a message whose content is one text is relayed as one line.  When the
    wrapper has read no port from its file, the line is the message as it is —
    and no daemon ever writes that file ([Startup.wrapper_never_scans]).  When it
    has the port of a daemon whose coordinator answers the text, the line is the
    same message with exactly the redacted text in the text's place, still a
    well-formed answer to the same request.  This holds for texts of printable
    characters that JSON writes as they are, redacted to such a text, that stand
    nowhere in the message in front of their place ([ScanMessage_misses] shows
    the others passed on unredacted or replaced elsewhere). *)
Theorem tool_result_redacted port port' now ms m d id t c o report
    (Hid : parse_number id = Some (id, [])) (Ht : plain t = true) (Hfirst : stands_first id t)
    (Hline : short_line (rpc_message id t))
    (Hfj : ∀ fs, json_ok (findings_json fs) ∧ (jdepth (findings_json fs) ≤ 2)%N)
    (Hscan : ScanAndRedact (coord_of layer_ms layer_timer d) m t = Ok (c, o))
    (Hok : so_err o = None) (Hrep : so_report o = Some report) (Hred : forallb plain_byte (so_text o) = true) :
  let relayed := relay (wrapper_scanner (dashboard_at port' now ms m d) port) (rpc_message id t ++ [chr 10]) in
  (port = [] → relayed = rpc_message id t ++ [chr 10])
  ∧ (port ≠ [] → port = port' →
       relayed = rpc_message id (so_text o) ++ [chr 10]
       ∧ Unmarshal (rpc_message id (so_text o)) = Some (rpc_result id (so_text o))).
Proof.
  cbv zeta. rewrite relay_line by done. unfold wrapper_scanner. split; [by intros ->|]. intros Hport <-.
  rewrite bool_decide_eq_false_2 by done. split; [|by apply rpc_read]. f_equal.
  apply ScanMessage_result; [done..|]. pose proof Ht as [_ Hp]%andb_true_iff.
  unfold apiScanner, dashboard_at. rewrite bool_decide_eq_true_2 by done. unfold dashboard, handleScan, scan_request.
  rewrite request_read by by apply valid_utf8_ascii, plain_ascii.
  rewrite Hscan. cbn [mbind res_bind]. unfold scan_answer. rewrite Hok, Hrep. cbn [ap_body].
  destruct (Hfj (r_findings report)) as [Hj Hd]. pose proof (reply_read _ t (so_text o) Hj Hd) as Hread.
  destruct (DecodeFirst _) as [v|]; [|done]. cbn [fmap option_fmap option_map] in Hread.
  injection Hread as ->. cbn. by rewrite valid_utf8_ascii by by apply plain_ascii.
Qed.
End dashboard.

(** ** Evaluation *)

Section evaluation.
Local Existing Instance re2.
Local Existing Instance sample_unicode.
Local Existing Instance insertion_sort.
Local Existing Instance sample_entropy.
Local Existing Instance toy_yaml.
#[local] Instance no_server : HttpClient := {|
  http_get _ _ := HttpError (go "refused"); http_post _ _ _ := HttpError (go "refused"); decode_error _ := go "json";
|}.
Definition idle_coord : Coordinator := coord_of (λ _ _ _, 0) (λ _ _ _, false) idle_daemon.
Definition secret_text : gostring := go "ssn 536-90-4399 of bob@corp.io".

Lemma secret_scanned : (λ r, (so_text r.2, so_err r.2, bool_decide (is_Some (so_report r.2)))) <$> ScanAndRedact idle_coord (mkMoment 0 0) secret_text
  = Ok (go "ssn [REDACTED-US_SSN] of [REDACTED-EMAIL_ADDRESS]", None, true).
Proof. vm_compute. reflexivity. Qed.

Theorem tool_result_redacted_witness :
  let relayed port := relay (wrapper_scanner (dashboard_at (λ _ _ _, 0) (λ _ _ _, false) (λ _, JNull) (go "8080") 0 0 (mkMoment 0 0) idle_daemon)
    port) (rpc_message (go "7") secret_text ++ [chr 10]) in
  relayed [] = rpc_message (go "7") secret_text ++ [chr 10]
  ∧ relayed (go "8080") = rpc_message (go "7") (go "ssn [REDACTED-US_SSN] of [REDACTED-EMAIL_ADDRESS]") ++ [chr 10].
Proof.
  pose proof secret_scanned as E. destruct (ScanAndRedact idle_coord (mkMoment 0 0) secret_text) as [[c o]| |] eqn:Hs; [|discriminate E..].
  apply (inj Ok) in E. pose proof (f_equal (λ p, p.1.1) E) as Ht. pose proof (f_equal (λ p, p.1.2) E) as He.
  pose proof (f_equal snd E) as Hr. cbn [fst snd] in Ht, He, Hr. apply bool_decide_eq_true in Hr as [report Hr].
  cbv zeta. rewrite <- Ht.
  assert (short_line (rpc_message (go "7") secret_text)) as Hline.
  { split; [|split; [vm_compute; reflexivity..]].
    apply (bool_decide_unpack (chr 10 ∉ rpc_message (go "7") secret_text)). vm_compute. exact I. }
  assert (∀ port, let relayed := relay (wrapper_scanner (dashboard_at (λ _ _ _, 0) (λ _ _ _, false) (λ _, JNull) (go "8080") 0 0
      (mkMoment 0 0) idle_daemon) port) (rpc_message (go "7") secret_text ++ [chr 10]) in
    (port = [] → relayed = rpc_message (go "7") secret_text ++ [chr 10])
    ∧ (port ≠ [] → port = go "8080" → relayed = rpc_message (go "7") (so_text o) ++ [chr 10]
         ∧ Unmarshal (rpc_message (go "7") (so_text o)) = Some (rpc_result (go "7") (so_text o)))) as Hall.
  { intros port. refine (tool_result_redacted (λ _ _ _, 0) (λ _ _ _, false) (λ _, JNull) port (go "8080") 0 0 (mkMoment 0 0)
      idle_daemon (go "7") secret_text c o report _ _ _ Hline _ Hs He Hr _);
      [reflexivity|vm_compute; reflexivity|vm_compute; reflexivity| |rewrite Ht; vm_compute; reflexivity].
    intros _. split; [exact I|vm_compute; discriminate]. }
  split; [exact (proj1 (Hall []) eq_refl)|]. refine (proj1 (proj2 (Hall (go "8080")) _ eq_refl)). discriminate.
Defined.

(** With a scanner that finds the number: two parts, or a text that JSON escapes, pass as they
    are; and a text that also stands in the id is replaced there. *)
Definition hide : RemoteScanner := λ _, inr (go "[SSN]").
Definition two_parts : gostring := js "{'result':{'content':[{'text':'ssn 536-90-4399'},{'text':'more'}]}}".
Definition escaped_part : gostring := js "{'result':'ssn\t536-90-4399'}".
Definition repeated_text : gostring := js "{'id':'536-90-4399','result':'536-90-4399'}".
Lemma ScanMessage_misses :
  ScanMessage (Some hide) two_parts = two_parts ∧ ScanMessage (Some hide) escaped_part = escaped_part
  ∧ ScanMessage (Some hide) repeated_text = js "{'id':'[SSN]','result':'536-90-4399'}".
Proof. split_and!; vm_compute; reflexivity. Qed.
End evaluation.
