(* ===== verification/Startup.v ===== *)
(** * The daemon's life — daemon/daemon.go Start, Stop and the background loops, sidecar/manager.go

    What runs, listens and lies in the state directory from [Start] to [Stop],
    with any step failing and with requests and ticks in between; and what other
    programs read from that directory: [redactr shell] and the MCP wrapper. *)
From S2P Require Import Prelude GoStr Utf8 GoFloat GoSort Spans Scanner Redactor Sha256 Cache Regex Rules FileBlock Coordinator Presidio Entropy Json JsonRound JsonDecode JsonStruct Gliner Domain Extract Proxy Config Sandbox Firewall Base64 Signing Token Bundle Sessions Store ServerAuth Httpapi Daemon Policy Control Shell Mcp.
Local Open Scope Z_scope.

(** ** What runs *)

(** Listeners, loops, the database and the lock. *)
Inductive part := PAdmin | PTransparent | PDashboard | PControl | PReconcile | PPolicy | PMonitor
  | PWatcher | PLicense | PStore | PLock.
#[export] Instance part_eq_dec : EqDecision part.
Proof. solve_decision. Defined.
Definition parts : list part := [PAdmin; PTransparent; PDashboard; PControl; PReconcile; PPolicy; PMonitor; PWatcher; PLicense; PStore; PLock].
#[export] Program Instance part_countable : Countable part :=
  inj_countable (λ p, fst <$> list_find (eq p) parts) (λ i, i ≫= (parts !!.)) _.
Next Obligation. by intros []. Qed.

Section startup.
Context `{RegexpEngine} `{UnicodeData} `{GoSort} `{EntropyEnv} `{HttpClient} `{Yaml} `{FwManager}.

(** The daemon's objects and the proxy ([World]), what is open, the port of the sidecar process
    while it lives, and the state directory but proxy.pid, which is in [World]. *)
Record Host := mkHost {
  ho_world : World;
  ho_open : gset part;
  ho_sidecar : option Z;
  ho_files : gmap gostring gostring;
}.
Definition with_world (f : World → World) (h : Host) : Host := mkHost (f (ho_world h)) (ho_open h) (ho_sidecar h) (ho_files h).
Definition opened (p : part) (h : Host) : Host := mkHost (ho_world h) ({[p]} ∪ ho_open h) (ho_sidecar h) (ho_files h).
Definition closed (p : part) (h : Host) : Host := mkHost (ho_world h) (ho_open h ∖ {[p]}) (ho_sidecar h) (ho_files h).
Definition write_file (ok : bool) (name text : gostring) (h : Host) : Host :=
  if ok then mkHost (ho_world h) (ho_open h) (ho_sidecar h) (<[name := text]> (ho_files h)) else h.
Definition remove_file (ok : bool) (name : gostring) (h : Host) : Host :=
  if ok then mkHost (ho_world h) (ho_open h) (ho_sidecar h) (delete name (ho_files h)) else h.
Definition set_addrs (transparent dash : gostring) (w : World) : World :=
  mkWorld (wd_daemon w) (wd_proxy w) (wd_fw w) (wd_pid w) transparent dash.

(** ** sidecar/manager.go *)

(** A free port, the start of the process, and whether the file is written. *)
Record SidecarEnv := mkSidecarEnv { sc_port : gostring + Z; sc_spawn : option gostring; sc_written : bool }.
Definition sidecar_url (port : Z) : gostring := go "http://127.0.0.1:" ++ Itoa port.
Definition StartLazy (e : SidecarEnv) (h : Host) : Host * (gostring + Z) :=
  match sc_port e with
  | inl err => (h, inl err)
  | inr port =>
      match sc_spawn e with
      | Some err => (h, inl (go "start gliner sidecar: " ++ err))
      | None =>
          (write_file (sc_written e) (go "sidecar.port") (Itoa port)
             (mkHost (ho_world h) (ho_open h) (Some port) (ho_files h)), inr port)
      end
  end.
Definition StopSidecar (h : Host) : Host := mkHost (ho_world h) (ho_open h) None (ho_files h).

(** ** Start *)

Definition gliner_enabled (cfg : Config) : bool :=
  existsb (λ r, bool_decide (rs_layer r = go "gliner") && rule_enabled cfg (rs_id r)) AllRules.

(** What the surroundings contribute; [sn_switch] serves the proxy's listener and its file. *)
Record StartEnv := mkStartEnv {
  sn_ephemeral : bool;
  sn_admin : gostring + gostring;
  sn_transparent : gostring + gostring;
  sn_dashboard : gostring + gostring;
  sn_dash_written : bool;
  sn_sidecar : SidecarEnv;
  sn_watch : option gostring;
  sn_switch : SwitchEnv;
  sn_socket : option gostring;
  sn_enrolled : bool;
}.
Definition start_step : Type := Host → Host * option gostring.
Definition and_then (f g : start_step) : start_step := λ h, match f h with (h, None) => g h | r => r end.
Infix ">>>" := and_then (at level 60, right associativity).

Definition start_admin (e : StartEnv) : start_step := λ h,
  match sn_admin e with inl err => (h, Some (go "admin: " ++ err)) | inr _ => (opened PAdmin h, None) end.
Definition start_transparent (e : StartEnv) : start_step := λ h,
  match sn_transparent e with
  | inl err => (h, Some (go "transparent listener: " ++ err))
  | inr addr => (with_world (λ w, set_addrs addr (wd_dashboard w) w) (opened PTransparent h), None)
  end.
Definition start_dashboard (e : StartEnv) : start_step := λ h,
  match sn_dashboard e with
  | inl err => (h, Some (go "dashboard: " ++ err))
  | inr addr =>
      (write_file (sn_dash_written e) (go "dashboard.port") addr
         (with_world (λ w, set_addrs (wd_transparent w) addr w) (opened PDashboard h)), None)
  end.
Definition start_sidecar (e : StartEnv) : start_step := λ h,
  if gliner_enabled (cfg_of (ho_world h)) && negb (sn_ephemeral e) then
    match StartLazy (sn_sidecar e) h with
    | (h, inl _) => (h, None)
    | (h, inr port) =>
        (with_world (λ w, mkWorld (set_gliner (wd_daemon w) (Gliner_SetBaseURL (dm_gliner (wd_daemon w)) (sidecar_url port)))
                            (wd_proxy w) (wd_fw w) (wd_pid w) (wd_transparent w) (wd_dashboard w)) h, None)
    end
  else (h, None).
Definition start_watcher (e : StartEnv) : start_step := λ h,
  match sn_watch e with Some _ => (h, None) | None => (opened PWatcher h, None) end.
Definition start_listener (e : StartEnv) : start_step := λ h,
  let '(w, err) := start_proxy (sn_switch e) (ho_world h) in (with_world (λ _, w) h, err).
Definition startControlSocket (e : StartEnv) : start_step := λ h,
  let h := remove_file true (go "redactr.sock") h in
  match sn_socket e with
  | Some err => (h, Some err)
  | None => (opened PControl (write_file true (go "redactr.sock") [] h), None)
  end.
Definition start_loops (e : StartEnv) : start_step := λ h,
  if negb (sn_ephemeral e) && sn_enrolled e then (opened PMonitor (opened PPolicy h), None) else (h, None).
Definition Start (e : StartEnv) : start_step :=
  start_admin e >>> start_transparent e >>> (λ h, (opened PReconcile h, None)) >>> start_dashboard e >>>
  start_sidecar e >>> start_watcher e >>> start_listener e >>> startControlSocket e >>> start_loops e.

(** ** While it runs *)

(** The probes of the sidecar: one per second, 120 at most, and the client is ready with the first
    that succeeds. *)
Definition becomes_ready (health : nat → bool) : bool := existsb health (seq 0 120).
(** Requests of the dashboard and the control socket, a tick of the reconcile loop (one may be
    under way when the loop is cancelled), the sidecar's probes, and any other event. *)
Inductive live_event :=
| LEnable (e : SwitchEnv)
| LDisable (e : SwitchEnv)
| LReconcile (e : FwEnv)
| LHealth (health : nat → bool)
| LOther (d : Daemon).
Definition live_op (w : World) (ev : live_event) : control_op :=
  match ev with
  | LEnable e => CEnable e
  | LDisable e => CDisable e
  | LReconcile e => CReconcile e
  | LHealth health =>
      COther (if becomes_ready health then set_gliner (wd_daemon w) (Gliner_SetReady (dm_gliner (wd_daemon w)) true) else wd_daemon w)
  | LOther d => COther d
  end.
Definition live (h : Host) (ev : live_event) : Host := with_world (λ w, control_exec (live_op w ev) w) h.

(** ** Stop *)

(** [sp_cleanup]: what the platform manager's Cleanup does. *)
Record StopEnv := mkStopEnv { sp_switch : SwitchEnv; sp_cleanup : fm_State → fm_State; sp_removed : gostring → bool }.
Definition cleanup_fw (c : fm_State → fm_State) (w : World) : World :=
  set_fw (mkFwWorld (fw_ctl (wd_fw w)) (c (fw_mgr (wd_fw w))) (fw_file (wd_fw w)) (fw_saved (wd_fw w))) w.
Definition stop_steps (e : StopEnv) : list (Host → Host) := [
  λ h, remove_file (sp_removed e (go "redactr.sock")) (go "redactr.sock") (closed PControl h);
  closed PMonitor; closed PPolicy; closed PReconcile;
  with_world (λ w, set_fw (Disable (se_fw (sp_switch e)) (wd_fw w)).1 w);
  with_world (λ w, set_proxy (Proxy_Stop (wd_proxy w)) w);
  StopSidecar; closed PAdmin; closed PDashboard;
  with_world (cleanup_fw (sp_cleanup e));
  with_world (clearProxyState (sp_switch e));
  remove_file (sp_removed e (go "dashboard.port")) (go "dashboard.port");
  remove_file (sp_removed e (go "api.port")) (go "api.port");
  remove_file (sp_removed e (go "sidecar.port")) (go "sidecar.port");
  closed PWatcher; closed PLicense; closed PStore; closed PLock].
(** The steps with the events that come before each. *)
Fixpoint stop_run (steps : list (Host → Host)) (evss : list (list live_event)) (h : Host) : Host :=
  match steps with
  | [] => h
  | step :: steps => stop_run steps (tail evss) (step (foldl live h (default [] (head evss))))
  end.
Definition Stop (e : StopEnv) (h : Host) : Host := stop_run (stop_steps e) [] h.
End startup.

(** ** Runs *)

Section runs.
Context `{RegexpEngine} `{UnicodeData} `{GoSort} `{EntropyEnv} `{HttpClient} `{Yaml} `{FwManager}.

(** What [Build] leaves: the license watcher, the database and the lock. *)
Definition built (h : Host) : Prop :=
  wd_proxy (ho_world h) = not_listening ∧ ho_open h = {[PLicense; PStore; PLock]} ∧ ho_sidecar h = None
  ∧ wd_pid (ho_world h) = None ∧ go "api.port" ∉ dom (ho_files h).
(** A request to enable comes only while the proxy is off. *)
Definition orderly_event (ev : live_event) (h : Host) : Prop :=
  match ev with LEnable _ => px_running (wd_proxy (ho_world h)) = false | _ => True end.
Definition event_env (ev : live_event) : option SwitchEnv :=
  match ev with LEnable e | LDisable e => Some e | _ => None end.
(** A daemon whose start succeeded, or failed anywhere, and what came after, with surroundings of
    which [good] holds. *)
Inductive host_reach (good : SwitchEnv → Prop) : Host → Prop :=
| host_started e h h' err : built h → good (sn_switch e) → Start e h = (h', err) → host_reach good h'
| host_lived ev h : host_reach good h → orderly_event ev h → (∀ e, event_env ev = Some e → good e) →
    host_reach good (live h ev).

(** A property of the steps before the listener starts, and one it establishes. *)
Lemma and_then_leads (P Q R : Host → Prop) f g :
  (∀ h, P h → Q (f h).1) → (∀ h, Q h → R (g h).1) → (∀ h, Q h → R h) → ∀ h, P h → R (and_then f g h).1.
Proof. intros Hf Hg Hqr h Hh. unfold and_then. specialize (Hf h Hh). destruct (f h) as [h' [err|]]; [by apply Hqr|by apply Hg]. Qed.
Lemma Start_world (P Q : World → Prop) e :
  (∀ w t d, P w → P (set_addrs t d w)) →
  (∀ w d, P w → P (mkWorld d (wd_proxy w) (wd_fw w) (wd_pid w) (wd_transparent w) (wd_dashboard w))) →
  (∀ w, P w → Q (start_proxy (sn_switch e) w).1) → (∀ w, P w → Q w) →
  ∀ h, P (ho_world h) → Q (ho_world (Start e h).1).
Proof.
  intros Haddr Hdaemon Hproxy Hpq. unfold Start. set (p := λ h, P (ho_world h)). set (q := λ h, Q (ho_world h)).
  assert (∀ ok name text h, ho_world (write_file ok name text h) = ho_world h) as Hwrite by (by intros [] ???).
  assert (∀ h, p h → q h) as Hq by (intros h; apply Hpq).
  apply (and_then_leads p p q); [intros h Hh; unfold start_admin; by destruct (sn_admin e)| |done].
  apply (and_then_leads p p q); [intros h Hh; unfold start_transparent; destruct (sn_transparent e); [done|by apply Haddr]| |done].
  apply (and_then_leads p p q); [done| |done].
  apply (and_then_leads p p q); [intros h Hh; unfold start_dashboard; destruct (sn_dashboard e); [done|]| |done].
  { unfold p. cbn [fst]. rewrite Hwrite. by apply Haddr. }
  apply (and_then_leads p p q); [intros h Hh; unfold start_sidecar, StartLazy; destruct (_ && _); [|done]| |done].
  { destruct (sc_port _); [done|]. destruct (sc_spawn _); [done|]. unfold p. cbn [fst with_world ho_world]. rewrite Hwrite. by apply Hdaemon. }
  apply (and_then_leads p p q); [intros h Hh; unfold start_watcher; by destruct (sn_watch e)| |done].
  apply (and_then_leads p q q); [intros h Hh; unfold start_listener; specialize (Hproxy _ Hh); by destruct (start_proxy _ _)| |done].
  apply (and_then_leads q q q); [intros h Hh; unfold startControlSocket; by destruct (sn_socket e)| |done].
  intros h Hh. unfold start_loops. by destruct (_ && _).
Qed.
Lemma Start_files (P : gmap gostring gostring → Prop) e :
  (∀ files name text, name ≠ go "api.port" → P files → P (<[name := text]> files)) →
  (∀ files name, P files → P (delete name files)) → ∀ h, P (ho_files h) → P (ho_files (Start e h).1).
Proof.
  intros Hins Hdel. unfold Start. set (p := λ h, P (ho_files h)).
  assert (∀ ok name text h, name ≠ go "api.port" → p h → p (write_file ok name text h)) as Hwrite by (intros [] ????; [by apply Hins|done]).
  assert (∀ f g, (∀ h, p h → p (f h).1) → (∀ h, p h → p (g h).1) → ∀ h, p h → p (and_then f g h).1) as Hseq
    by (intros f g Hf Hg; by apply (and_then_leads p p p)).
  repeat (apply Hseq; [intros h Hh|]); [| | | | | | | |intros h Hh].
  - unfold start_admin. by destruct (sn_admin e).
  - unfold start_transparent. by destruct (sn_transparent e).
  - done.
  - unfold start_dashboard. destruct (sn_dashboard e); [done|]. by apply Hwrite.
  - unfold start_sidecar, StartLazy. destruct (_ && _); [|done]. destruct (sc_port _); [done|]. destruct (sc_spawn _); [done|].
    by apply (Hwrite _ (go "sidecar.port") _ (mkHost _ _ _ _)).
  - unfold start_watcher. by destruct (sn_watch e).
  - unfold start_listener. by destruct (start_proxy _ _).
  - unfold startControlSocket. destruct (sn_socket e); [by apply Hdel|]. by apply Hins; [|apply Hdel].
  - unfold start_loops. by destruct (_ && _).
Qed.

Lemma host_reach_knows good h : host_reach good h → knows_listener (wd_proxy (ho_world h)).
Proof.
  induction 1 as [e h h' err (Hp & _) _ Hs|ev h _ IH Ho _].
  - rewrite <- (f_equal fst Hs : _ = h').
    apply (Start_world (λ w, wd_proxy w = not_listening) (λ w, knows_listener (wd_proxy w))); try done.
    + intros w Hw. change (start_proxy (sn_switch e) w).1 with (control_exec (CStart (sn_switch e)) w).
      apply control_reach_knows, control_more; [by apply control_new|]. cbn. by rewrite Hw.
    + intros w Hw. apply control_reach_knows. by apply control_new.
  - unfold live. cbn [with_world ho_world]. rewrite control_exec_proxy.
    destruct ev as [e|e|e|health|d]; cbn [live_op bind_of stops]; try done; [by apply Proxy_Start_knows|by apply Proxy_Stop_knows].
Qed.
(** Nothing ever writes the file from which the MCP wrapper learns the daemon's port. *)
Lemma api_port_never_written good h : host_reach good h → ho_files h !! go "api.port" = None.
Proof.
  induction 1 as [e h h' err (_ & _ & _ & _ & Hf) _ Hs|ev h _ IH _ _]; [|done].
  rewrite <- (f_equal fst Hs : _ = h').
  apply (Start_files (λ files, files !! go "api.port" = None)); [| |by apply not_elem_of_dom].
  - intros files name text Hne Hn. by rewrite lookup_insert_ne.
  - intros files name Hn. by rewrite lookup_delete_None; right.
Qed.

(** ** Stopping *)

(** The manager removes what it is told to remove: it reports no error, and the tools accept. *)
Definition reports_removal : Prop := ∀ m, (fm_Unredirect m).2 = None.
Definition accepts_removal : Prop := ∀ m, fm_accepts m CallUnredirect = true.
(** The controller that is off has no rules installed; it fails to only after a failed Redirect. *)
Definition fw_settled (w : World) : Prop :=
  accepts_removal → IsActive (wd_fw w) = false → fm_installs (fw_mgr (wd_fw w)) None.
(** An event that does not switch on. *)
Definition quiet (ev : live_event) : Prop := match ev with LEnable _ => False | _ => True end.

Lemma Disable_settled e f : accepts_removal → (IsActive f = false → fm_installs (fw_mgr f) None) →
  IsActive (Disable e f).1 = false → fm_installs (fw_mgr (Disable e f).1) None.
Proof.
  intros Hacc Hf. destruct (IsActive f) eqn:Ha.
  - destruct (Disable e f) as [f' [err|]] eqn:Hd; cbn [fst]; [|intros _; destruct (Disable_removes e f f' Ha Hd) as [Hr _]; by apply Hr].
    revert Hd. unfold Disable, IsActive in *. rewrite Ha. cbn [negb].
    destruct (fm_Unredirect _) as [m' [msg|]]; [|done]. intros [= <- _]. cbn. by rewrite Ha.
  - unfold Disable. unfold IsActive in Ha. rewrite Ha. cbn. intros _. by apply Hf.
Qed.
Lemma Disable_off e f : reports_removal → IsActive (Disable e f).1 = false.
Proof.
  intros Hrep. unfold Disable, IsActive. destruct (fc_enabled (fw_ctl f)) eqn:Ha; cbn [negb fst]; [|done].
  specialize (Hrep (fw_mgr f)). destruct (fm_Unredirect _) as [m' err]. cbn [snd] in Hrep. by subst err.
Qed.
Lemma Disable_stays_off e f : IsActive f = false → IsActive (Disable e f).1 = false.
Proof. unfold Disable, IsActive. intros Ha. by rewrite Ha. Qed.
Lemma Reconcile_stays_off e f : IsActive f = false → IsActive (Reconcile e f).1 = false.
Proof. unfold Reconcile, IsActive. intros Ha. by rewrite Ha. Qed.
Lemma Reconcile_settled e f : (IsActive f = false → fm_installs (fw_mgr f) None) →
  IsActive (Reconcile e f).1 = false → fm_installs (fw_mgr (Reconcile e f).1) None.
Proof.
  intros Hf. unfold Reconcile. destruct (fc_enabled (fw_ctl f)) eqn:Ha; cbn [negb]; [|done].
  assert (IsActive f = true) as Hact by done. destruct (resolveAll _ _); cbn [fst]; [by rewrite Hact|].
  destruct (ipSetsEqual _ _); cbn [fst]; [by rewrite Hact|]. destruct (fm_Redirect _ _ _) as [m' [msg|]]; unfold IsActive; cbn [fst fw_ctl fc_enabled persist]; [by rewrite Ha|done].
Qed.

(** What the steps and the quiet events of a stop keep. *)
Record stop_inv (h : Host) : Prop := {
  si_knows : knows_listener (wd_proxy (ho_world h));
  si_fw : fw_settled (ho_world h);
}.
Lemma quiet_inv ev h : quiet ev → stop_inv h → stop_inv (live h ev).
Proof.
  intros Hq [Hk Hf]. unfold live. split; cbn [with_world ho_world].
  - rewrite control_exec_proxy. destruct ev; cbn [live_op bind_of stops]; try done. by apply Proxy_Stop_knows.
  - unfold fw_settled in *. intros Hacc. specialize (Hf Hacc).
    destruct ev as [e|e|e|health|d]; cbn [live_op control_exec]; try done.
    + assert (wd_fw (handleProxyDisable e (ho_world h)).1 = (Disable (se_fw e) (wd_fw (ho_world h))).1) as ->
        by (unfold handleProxyDisable, clearProxyState; cbn [fst]; destruct (se_pid_ok e); reflexivity). by apply Disable_settled.
    + cbn. by apply Reconcile_settled.
Qed.
Lemma clearProxyState_eq e w : ∃ pid, clearProxyState e w = set_pid pid w ∧ (pid = None ∨ pid = wd_pid w).
Proof. unfold clearProxyState. destruct (se_pid_ok e); [exists None|exists (wd_pid w)]; split; auto. by destruct w. Qed.

Definition keeps (P : Host → Prop) (step : Host → Host) : Prop := ∀ h, P h → P (step h).
Lemma stop_steps_inv e : (∀ m, fm_installs m None → fm_installs (sp_cleanup e m) None) → Forall (keeps stop_inv) (stop_steps e).
Proof.
  intros Hc. assert (∀ f : Host → Host, (∀ h, ho_world (f h) = ho_world h) → keeps stop_inv f) as Hsame.
  { intros f Hf h [Hk Hw]. split; by rewrite Hf. }
  unfold stop_steps. repeat apply Forall_cons_2; try (by apply Hsame; intros h; try destruct (sp_removed _ _)); [| | | |constructor].
  - intros h [Hk Hw]. split; [done|]. intros Hacc. cbn [with_world ho_world set_fw wd_fw]. apply Disable_settled; [done|by apply Hw].
  - intros h [Hk Hw]. split; [by apply Proxy_Stop_knows|done].
  - intros h [Hk Hw]. split; [done|]. unfold fw_settled in *. cbn [with_world ho_world set_fw wd_fw cleanup_fw fw_mgr]. intros Hacc Ha. apply Hc. by apply Hw.
  - intros h [Hk Hw]. cbn [with_world ho_world]. destruct (clearProxyState_eq (sp_switch e) (ho_world h)) as (pid & Heq & _).
    split; cbn [with_world ho_world]; by rewrite Heq.
Qed.
Lemma stop_run_keeps P steps evss h :
  Forall (keeps P) steps → (∀ ev, quiet ev → keeps P (λ h, live h ev)) → Forall (Forall quiet) evss → P h → P (stop_run steps evss h).
Proof.
  intros Hsteps Hlive. revert evss h. induction Hsteps as [|step steps Hstep _ IH]; intros evss h Hq Hh; [done|].
  cbn [stop_run]. assert (Forall quiet (default [] (head evss)) ∧ Forall (Forall quiet) (tail evss)) as [Hq1 Hq2].
  { destruct evss as [|evs evss]; [by split; constructor|]. by apply Forall_cons in Hq. }
  apply IH; [done|]. apply Hstep. revert h Hh. induction Hq1 as [|ev evs Hev _ IHe]; intros h Hh; [done|].
  cbn [foldl]. apply IHe. by apply (Hlive ev).
Qed.
(** What one of the steps establishes and all keep holds in the end. *)
Lemma stop_run_leads I P steps step evss h :
  step ∈ steps → (∀ h, I h → P (step h)) → Forall (keeps I) steps → Forall (keeps P) steps →
  (∀ ev, quiet ev → keeps I (λ h, live h ev)) → (∀ ev, quiet ev → keeps P (λ h, live h ev)) →
  Forall (Forall quiet) evss → I h → P (stop_run steps evss h).
Proof.
  intros Hin Hstep HI HP HlI HlP Hq Hh. revert evss h Hq Hh. induction Hin as [step steps|step step' steps Hin IH]; intros evss h Hq Hh;
    apply Forall_cons in HI as [HIs HI]; apply Forall_cons in HP as [HPs HP]; cbn [stop_run];
    (assert (Forall quiet (default [] (head evss)) ∧ Forall (Forall quiet) (tail evss)) as [Hq1 Hq2];
      [destruct evss as [|evs evss]; [by split; constructor|by apply Forall_cons in Hq]|]);
    (assert (I (foldl live h (default [] (head evss)))) as Hmid;
      [revert h Hh; induction Hq1 as [|ev evs Hev _ IHe]; intros h Hh; [done|]; cbn [foldl]; apply IHe; by apply (HlI ev)|]).
  - apply stop_run_keeps; [done..|]. by apply Hstep.
  - apply IH; [done..|]. by apply HIs.
Qed.

Lemma stop_steps_closed e p : Forall (keeps (λ h, p ∉ ho_open h)) (stop_steps e).
Proof.
  unfold stop_steps. repeat apply Forall_cons_2; [..|constructor]; intros h Hh; try done;
    try (cbn [closed ho_open]; set_solver).
  all: unfold remove_file; destruct (sp_removed _ _); cbn [closed ho_open]; set_solver.
Qed.
Lemma stop_steps_removed e name : Forall (keeps (λ h, ho_files h !! name = None)) (stop_steps e).
Proof.
  unfold stop_steps. repeat apply Forall_cons_2; [..|constructor]; intros h Hh; try done;
    unfold remove_file; destruct (sp_removed _ _); cbn [closed ho_files]; try done; by apply lookup_delete_None; right.
Qed.
Lemma remove_file_gone ok name h : ok = true → ho_files (remove_file ok name h) !! name = None.
Proof. intros ->. apply lookup_delete_eq. Qed.
Lemma quiet_pid ev h : quiet ev → wd_pid (ho_world h) = None → wd_pid (ho_world (live h ev)) = None.
Proof.
  intros Hq Hp. destruct ev as [e|e|e|health|d]; [done| |done..]. unfold live. cbn [with_world ho_world live_op control_exec].
  unfold handleProxyDisable, clearProxyState. cbn [fst]. by destruct (se_pid_ok e).
Qed.
Lemma quiet_stopped ev h : quiet ev → px_running (wd_proxy (ho_world h)) = false → px_running (wd_proxy (ho_world (live h ev))) = false.
Proof.
  intros Hq Hp. unfold live. cbn [with_world ho_world]. rewrite control_exec_proxy.
  destruct ev as [e|e|e|health|d]; cbn [live_op bind_of stops]; try done. unfold Proxy_Stop. by rewrite Hp.
Qed.

(** The parts that [Stop] closes: all but the transparent listener. *)
Definition stopped_parts : list part := [PAdmin; PDashboard; PControl; PReconcile; PPolicy; PMonitor; PWatcher; PLicense; PStore; PLock].
Definition state_files : list gostring := [go "redactr.sock"; go "dashboard.port"; go "api.port"; go "sidecar.port"].

Lemma anything_kept steps : Forall (keeps (λ _, True)) steps.
Proof. apply Forall_forall. by intros f _ h _. Qed.
Ltac in_steps := unfold stop_steps; apply list_elem_of_In; cbn [In]; tauto.

Section stopping.
Context (sp : StopEnv) (Hclean : ∀ m, fm_installs m None → fm_installs (sp_cleanup sp m) None).
Context (evss : list (list live_event)) (Hquiet : Forall (Forall quiet) evss).

Lemma Stop_inv h : stop_inv h → stop_inv (stop_run (stop_steps sp) evss h).
Proof. intros Hh. apply stop_run_keeps; [by apply stop_steps_inv|intros ev Hq h1; by apply quiet_inv|done|done]. Qed.
Lemma Stop_closes p h : p ∈ stopped_parts → p ∉ ho_open (stop_run (stop_steps sp) evss h).
Proof.
  clear Hclean. intros Hp. assert (∃ step, step ∈ stop_steps sp ∧ ∀ h, p ∉ ho_open (step h)) as (step & Hin & Hstep).
  { assert (closed p ∈ stop_steps sp ∨ p = PControl) as [Hin| ->].
    { destruct p; try (by right); try (left; in_steps). exfalso. revert Hp. apply (bool_decide_unpack _). by vm_compute. }
    - exists (closed p). split; [done|]. intros h1. cbn. set_solver.
    - eexists. split; [by left|]. intros h1. unfold remove_file. destruct (sp_removed _ _); cbn; set_solver. }
  apply (stop_run_leads (λ _, True) (λ h, p ∉ ho_open h) _ step);
    [done|intros h1 _; apply Hstep|apply anything_kept|apply stop_steps_closed|by intros ev _ h1|by intros ev _ h1|done|done].
Qed.
Lemma Stop_removes name h : name ∈ state_files → sp_removed sp name = true →
  ho_files (stop_run (stop_steps sp) evss h) !! name = None.
Proof.
  intros Hn Hok. assert (∃ step, step ∈ stop_steps sp ∧ ∀ h, ho_files (step h) !! name = None) as (step & Hin & Hstep).
  { assert (name = go "redactr.sock" ∨ remove_file (sp_removed sp name) name ∈ stop_steps sp) as [->|Hin].
    { unfold state_files in Hn. rewrite !elem_of_cons, elem_of_nil in Hn.
      destruct Hn as [->|[->|[->|[->|[]]]]]; first [by left|right; in_steps]. }
    - eexists. split; [by left|]. intros h1. by apply remove_file_gone.
    - exists (remove_file (sp_removed sp name) name). split; [done|]. intros h1. by apply remove_file_gone. }
  apply (stop_run_leads (λ _, True) (λ h, ho_files h !! name = None) _ step);
    [done|intros h1 _; apply Hstep|apply anything_kept|apply stop_steps_removed|by intros ev _ h1|by intros ev _ h1|done|done].
Qed.
Lemma Stop_sidecar h : ho_sidecar (stop_run (stop_steps sp) evss h) = None.
Proof.
  apply (stop_run_leads (λ _, True) (λ h, ho_sidecar h = None) _ StopSidecar); [in_steps|done|apply anything_kept| |by intros ev _ h1|by intros ev _ h1|done|done].
  unfold stop_steps. repeat apply Forall_cons_2; [..|constructor]; intros h1 Hh; try done;
    unfold remove_file; by destruct (sp_removed _ _).
Qed.
Lemma Stop_pid h : se_pid_ok (sp_switch sp) = true → wd_pid (ho_world (stop_run (stop_steps sp) evss h)) = None.
Proof.
  intros Hok. apply (stop_run_leads (λ _, True) (λ h, wd_pid (ho_world h) = None) _ (with_world (clearProxyState (sp_switch sp))));
    [in_steps| |apply anything_kept| |by intros ev _ h1|intros ev Hq h1; by apply quiet_pid|done|done].
  - intros h1 _. cbn [with_world ho_world]. unfold clearProxyState. by rewrite Hok.
  - unfold stop_steps. repeat apply Forall_cons_2; [..|constructor]; intros h1 Hh; try done;
      try (unfold remove_file; by destruct (sp_removed _ _)).
    cbn [with_world ho_world]. unfold clearProxyState. by destruct (se_pid_ok _).
Qed.
Lemma quiet_fw_off ev h : quiet ev → IsActive (wd_fw (ho_world h)) = false → IsActive (wd_fw (ho_world (live h ev))) = false.
Proof.
  intros Hq Ha. unfold live. destruct ev as [e|e|e|health|d]; cbn [with_world ho_world live_op control_exec]; try done.
  - assert (wd_fw (handleProxyDisable e (ho_world h)).1 = (Disable (se_fw e) (wd_fw (ho_world h))).1) as ->
      by (unfold handleProxyDisable, clearProxyState; cbn [fst]; destruct (se_pid_ok e); reflexivity).
    by apply Disable_stays_off.
  - cbn. by apply Reconcile_stays_off.
Qed.
(** Stopping switches the firewall controller off. *)
Lemma Stop_redirection h : stop_inv h → reports_removal → IsActive (wd_fw (ho_world (stop_run (stop_steps sp) evss h))) = false.
Proof.
  intros Hh Hrep. apply (stop_run_leads stop_inv (λ h, IsActive (wd_fw (ho_world h)) = false) _
    (with_world (λ w, set_fw (Disable (se_fw (sp_switch sp)) (wd_fw w)).1 w)));
    [in_steps| |by apply stop_steps_inv| |intros ev Hq h1; by apply quiet_inv|intros ev Hq h1; by apply quiet_fw_off|done..].
  - intros h1 _. by apply Disable_off.
  - unfold stop_steps. repeat apply Forall_cons_2; [..|constructor]; intros h1 Ha; try done;
      try (unfold remove_file; by destruct (sp_removed _ _)).
    + by apply Disable_stays_off.
    + cbn [with_world ho_world]. destruct (clearProxyState_eq (sp_switch sp) (ho_world h1)) as (pid & Heq & _). by rewrite Heq.
Qed.
Lemma Stop_listener h : stop_inv h → px_running (wd_proxy (ho_world (stop_run (stop_steps sp) evss h))) = false.
Proof.
  intros Hh. apply (stop_run_leads stop_inv (λ h, px_running (wd_proxy (ho_world h)) = false) _
    (with_world (λ w, set_proxy (Proxy_Stop (wd_proxy w)) w)));
    [in_steps| |by apply stop_steps_inv| |intros ev Hq h1; by apply quiet_inv|intros ev Hq h1; by apply quiet_stopped|done..].
  - intros h1 _. cbn [with_world ho_world set_proxy wd_proxy]. unfold Proxy_Stop.
    destruct (px_running (wd_proxy (ho_world h1))) eqn:Hr; cbn [negb]; [reflexivity|exact Hr].
  - unfold stop_steps. repeat apply Forall_cons_2; [..|constructor]; intros h1 Hr; try done;
      try (unfold remove_file; by destruct (sp_removed _ _)); cbn [with_world ho_world].
    + cbn [set_proxy wd_proxy]. unfold Proxy_Stop. by rewrite Hr.
    + unfold clearProxyState. by destruct (se_pid_ok _).
Qed.
End stopping.

(** ** What others read from the state directory *)

Definition pid_file (h : Host) : gostring + gostring :=
  match wd_pid (ho_world h) with Some t => inr t | None => inl (go "no such file") end.
Definition state_file (name : gostring) (h : Host) : gostring + gostring :=
  match ho_files h !! name with Some t => inr t | None => inl (go "no such file") end.
(** The answer of the dashboard at an address to the status request. *)
Definition status_body (w : World) : gostring :=
  let r := handleProxyStatus w in
  compact (JObj [(go "addr", quoted (pt_addr r)); (go "enabled", JBool (pt_enabled r)); (go "routing", JBool (pt_routing r))]) ++ [byte_of 10].
Definition dashboard_answer (h : Host) (addr : gostring) : gostring + Z * gostring :=
  if bool_decide (addr = normalizeAddr (wd_dashboard (ho_world h)) ∧ PDashboard ∈ ho_open h)
  then inr (200, status_body (ho_world h)) else inl (go "connection refused").

Lemma status_read lib_error w :
  fetchProxyAddrFromDashboard lib_error (inr (200, status_body w)) =
    (let r := handleProxyStatus w in let addr := valid_utf8 (pt_addr r) in
     if negb (pt_enabled r) || bool_decide (addr = []) then inl (go "proxy reported disabled or addr empty") else inr addr).
Proof.
  unfold fetchProxyAddrFromDashboard, status_body. change (negb (200 =? 200)) with false. cbv iota zeta.
  set (r := handleProxyStatus w). set (ms := [_; _; _]). rewrite DecodeFirst_members by wire. cbn [mbind option_bind]. unfold ms.
  read_member. erewrite dec_struct_member; [|reflexivity|reflexivity]. by destruct (pt_routing r).
Qed.

(** What the daemon writes to proxy.pid is an address without spaces, and the write succeeds. *)
Definition tidy (e : SwitchEnv) : Prop :=
  se_pid_ok e = true ∧ ∀ addr, se_bind e = inr addr → wordy addr = true ∧ addr ≠ [].
Definition recorded (w : World) : Prop :=
  if px_running (wd_proxy w)
  then ∃ addr, wd_pid w = Some addr ∧ px_listener (wd_proxy w) = Some addr ∧ wordy addr = true ∧ addr ≠ []
  else wd_pid w = None.
Lemma enable_recorded e w : tidy e → recorded w → px_running (wd_proxy w) = false → recorded (handleProxyEnable e w).1.
Proof.
  intros [Hok Hb] Hw Hr. unfold recorded in Hw. rewrite Hr in Hw. unfold handleProxyEnable.
  destruct (se_bind e) as [err|addr] eqn:Hbind; cbn [Proxy_Start].
  - unfold recorded. cbn [fst set_proxy wd_proxy px_running wd_pid]. by rewrite Hr.
  - cbv zeta. set (p := mkListening _ _ _ _ _). destruct (enabled_world e addr p w) as (Hp & _ & _ & _ & Hpid & _).
    set (w1 := writeProxyState e addr _) in *. clearbody w1.
    assert (recorded w1) as Hw1.
    { unfold recorded. rewrite Hp. cbn [p px_running px_listener]. exists addr. split; [by apply Hpid|]. split; [done|]. by apply Hb. }
    destruct (Enable _ _ _ _ _) as [f' [err|]]; exact Hw1.
Qed.
Lemma start_recorded e w : tidy e → recorded w → px_running (wd_proxy w) = false → recorded (start_proxy e w).1.
Proof.
  intros [Hok Hb] Hw Hr. unfold recorded in Hw. rewrite Hr in Hw. unfold start_proxy. destruct (pr_Enabled _).
  - destruct (se_bind e) as [err|addr] eqn:Hbind; cbn [Proxy_Start fst].
    + unfold recorded. cbn [set_proxy wd_proxy px_running wd_pid]. by rewrite Hr.
    + unfold recorded, writeProxyState. rewrite Hok. cbn. exists addr. split; [done|]. split; [done|]. by apply Hb.
  - unfold recorded. cbn [fst]. by rewrite Hr.
Qed.
Lemma disable_recorded e w : tidy e → recorded (handleProxyDisable e w).1.
Proof.
  intros [Hok _]. unfold handleProxyDisable, clearProxyState. rewrite Hok. cbn [fst]. unfold recorded.
  cbn [set_pid flag_proxy set_proxy set_fw wd_proxy wd_pid]. unfold Proxy_Stop.
  destruct (px_running (wd_proxy w)) eqn:Hr; cbn [negb px_running]; [done|by rewrite Hr].
Qed.
Lemma host_reach_recorded h : host_reach tidy h → recorded (ho_world h).
Proof.
  induction 1 as [e h h' err (Hp & _ & _ & Hpid & _) Hg Hs|ev h Hreach IH Ho Hg].
  - rewrite <- (f_equal fst Hs : _ = h').
    apply (Start_world (λ w, wd_proxy w = not_listening ∧ wd_pid w = None) recorded); try done.
    + intros w [Hw Hn]. apply start_recorded; [done| |by rewrite Hw]. unfold recorded. by rewrite Hw.
    + intros w [Hw Hn]. unfold recorded. by rewrite Hw.
  - unfold live. cbn [with_world ho_world].
    destruct ev as [e|e|e|health|d]; cbn [live_op control_exec event_env] in *; try exact IH.
    + apply enable_recorded; [by apply Hg|done|done].
    + apply disable_recorded. by apply Hg.
Qed.

Lemma wordy_TrimSpace s : wordy s = true → TrimSpace s = s.
Proof.
  unfold wordy. intros [Ha Hw]%andb_true_iff. unfold TrimSpace. rewrite decode_all_ascii by done.
  assert (∀ s, forallb (λ c, negb (IsSpace (byteN c))) s = true →
    drop_spaces ((λ c, (byteN c, [c])) <$> s) = (λ c, (byteN c, [c])) <$> s) as Hdrop.
  { intros [|c t]; [done|]. cbn. intros [Hc _]%andb_true_iff. apply negb_true_iff in Hc. by rewrite Hc. }
  rewrite Hdrop, <- pieces_rev, Hdrop, <- pieces_rev, rev_involutive by (done || by rewrite forallb_forall in *; setoid_rewrite <-in_rev).
  apply pieces_bytes.
Qed.

(** [redactr shell] against the daemon's state directory. As long as the daemon could write
    its file and the flag of the configuration is on only while the proxy runs: the shell finds
    the proxy exactly when it accepts connections, at the address of the one open listener, and
    otherwise reports that it is not running. *)
Theorem shell_finds_proxy lib_error h :
  host_reach tidy h →
  (pr_Enabled (cf_Proxy (cfg_of (ho_world h))) = true → px_running (wd_proxy (ho_world h)) = true) →
  match discoverProxyAddr lib_error (pid_file h) (state_file (go "dashboard.port") h) (dashboard_answer h) with
  | inr (addr, _) => ∃ i, px_open (wd_proxy (ho_world h)) = {[i := addr]}
  | inl _ => px_open (wd_proxy (ho_world h)) = ∅
  end.
Proof.
  intros Hreach Hflag. destruct (host_reach_knows _ _ Hreach) as [_ Hk]. pose proof (host_reach_recorded _ Hreach) as Hrec.
  unfold recorded in Hrec. unfold discoverProxyAddr, pid_file, readState.
  destruct (px_running (wd_proxy (ho_world h))) eqn:Hr.
  - destruct Hrec as (addr & -> & Hl & Hw & Hne). destruct Hk as (i & addr' & _ & Hl' & Ho).
    rewrite wordy_TrimSpace, bool_decide_eq_false_2 by done. exists i. congruence.
  - rewrite Hrec. destruct (state_file _ _) as [e|dash]; [done|]. cbv zeta.
    destruct (bool_decide (TrimSpace dash = [])); [done|]. unfold dashboard_answer.
    case_bool_decide; [|done]. rewrite status_read. cbv zeta.
    assert (pt_enabled (handleProxyStatus (ho_world h)) = false) as ->; [|done].
    unfold handleProxyStatus. cbn [pt_enabled]. destruct (pr_Enabled _); [by specialize (Hflag eq_refl)|done].
Qed.

(** C16: what a stop leaves. However far the start came, whatever was switched since, and with
    requests to disable, reconciliations and other events between its steps: afterwards no
    listener of the proxy is open, every other part but the transparent listener is closed, the
    sidecar process is gone, and so are the state files if they could be removed, so that
    [redactr shell] reports that nothing runs. If the manager reports no error when it is told to
    remove the redirection, the firewall controller is off; and if the platform's tools accept it
    too, no redirection is installed. *)
Theorem stop_tears_down good sp evss h :
  host_reach good h → (∀ m, fm_installs m None → fm_installs (sp_cleanup sp m) None) →
  Forall (Forall quiet) evss → (IsActive (wd_fw (ho_world h)) = false → fm_installs (fw_mgr (wd_fw (ho_world h))) None) →
  let h' := stop_run (stop_steps sp) evss h in
  px_open (wd_proxy (ho_world h')) = ∅ ∧ (∀ p, p ∈ ho_open h' → p = PTransparent) ∧ ho_sidecar h' = None
  ∧ (reports_removal → IsActive (wd_fw (ho_world h')) = false)
  ∧ (reports_removal → accepts_removal → fm_installs (fw_mgr (wd_fw (ho_world h'))) None)
  ∧ (∀ name, name ∈ state_files → sp_removed sp name = true → ho_files h' !! name = None)
  ∧ (se_pid_ok (sp_switch sp) = true → sp_removed sp (go "dashboard.port") = true →
       ∀ lib_error ask, ∃ e, discoverProxyAddr lib_error (pid_file h') (state_file (go "dashboard.port") h') ask = inl e).
Proof.
  intros Hreach Hclean Hquiet Hfw0. assert (fw_settled (ho_world h)) as Hfw by (intros _; exact Hfw0). cbv zeta. set (h' := stop_run (stop_steps sp) evss h).
  assert (stop_inv h) as Hh by (split; [by eapply host_reach_knows|done]).
  destruct (Stop_inv sp Hclean evss Hquiet h Hh) as [[_ Hk] Hfw']. fold h' in Hk, Hfw'.
  pose proof (Stop_listener sp Hclean evss Hquiet h Hh) as Hr. fold h' in Hr. rewrite Hr in Hk.
  split; [exact Hk|]. split.
  { intros p Hp. destruct (decide (p ∈ stopped_parts)) as [Hin|Hout]; [by destruct (Stop_closes sp evss Hquiet p h Hin)|].
    destruct p; first [done|exfalso; apply Hout; apply (bool_decide_unpack _); by vm_compute]. }
  split; [by apply Stop_sidecar|]. pose proof (Stop_redirection sp Hclean evss Hquiet h Hh) as Hoff. fold h' in Hoff.
  split; [exact Hoff|]. split; [intros Hrep Hacc; by apply Hfw'; [|apply Hoff]|]. split; [intros name Hn; by apply Stop_removes|].
  intros Hpid Hdash lib_error ask. unfold discoverProxyAddr, pid_file, state_file.
  rewrite (Stop_pid sp evss Hquiet h Hpid : wd_pid (ho_world h') = None).
  rewrite (Stop_removes sp evss Hquiet (go "dashboard.port") h : _ → _ → ho_files h' !! go "dashboard.port" = None);
    [by eexists|apply (bool_decide_unpack _); by vm_compute|done].
Qed.

(** ** main.go of the MCP wrapper *)

(** No daemon ever says its port in that file: beside every daemon the wrapper relays what a tool
    answers as it is. *)
Lemma wrapper_never_scans good h post input : host_reach good h →
  relay (wrapper_scanner post (discoverAPIPort (state_file (go "api.port") h))) input
  = ScanLines max_line input ≫= λ line, line ++ [chr 10].
Proof. intros Hreach. unfold state_file. by rewrite (api_port_never_written _ _ Hreach). Qed.

(** ** The monitor loop *)

(** Before the first look at the dashboard's session list nobody tells the lister the proxy's
    address: no connection counts as one to the proxy. *)
Lemma unset_proxy_unseen l c : ls_proxyAddr l = [] → conn_class l c ≠ ConnProxy.
Proof.
  intros Hl. unfold conn_class. rewrite Hl. change (splitHostPort []) with ([] : gostring, [] : gostring).
  destruct (splitHostPort c) as [host port]. destruct (bool_decide (host = [])); [done|].
  rewrite (bool_decide_eq_false_2 (([] : gostring) ≠ [])) by (intros Hne; by apply Hne). rewrite andb_false_r.
  by destruct (_ && _).
Qed.
End runs.

(** ** Evaluation *)

Section evaluation.
Local Existing Instance re2.
Local Existing Instance sample_unicode.
Local Existing Instance insertion_sort.
Local Existing Instance sample_entropy.
Local Existing Instance toy_yaml.
Local Existing Instance demo_manager.
Local Existing Instance offline.

Definition demo_built : Host := mkHost idle_world {[PLicense; PStore; PLock]} None ∅.
Definition demo_start : StartEnv :=
  mkStartEnv false (inr (go "[::]:9090")) (inr (go "127.0.0.1:58601")) (inr (go "[::]:9080")) true
    (mkSidecarEnv (inr 4100) None true) None switch_env None true.
Definition demo_started : Host := (Start demo_start demo_built).1.
Definition demo_on : Host := live demo_started (LEnable switch_env).
Definition demo_stop : StopEnv := mkStopEnv switch_env id (λ _, true).

Lemma switch_env_tidy : tidy switch_env.
Proof. split; [done|]. intros addr [= <-]. split; [by vm_compute|done]. Qed.
Lemma demo_on_reach : host_reach tidy demo_on.
Proof.
  apply (host_lived tidy (LEnable switch_env) demo_started).
  - apply (host_started tidy demo_start demo_built demo_started (Start demo_start demo_built).2);
      [split_and!; try done; apply (bool_decide_unpack _); by vm_compute|exact switch_env_tidy|apply surjective_pairing].
  - by vm_compute.
  - intros e [= <-]. exact switch_env_tidy.
Qed.
Lemma demo_start_succeeds : (Start demo_start demo_built).2 = None.
Proof. vm_compute. reflexivity. Qed.

Theorem shell_finds_proxy_witness : ∃ i, px_open (wd_proxy (ho_world demo_on)) = {[i := go "[::]:61616"]}.
Proof.
  pose proof (shell_finds_proxy id demo_on demo_on_reach) as Hfind.
  assert (discoverProxyAddr id (pid_file demo_on) (state_file (go "dashboard.port") demo_on) (dashboard_answer demo_on)
    = inr (go "[::]:61616", go "state file")) as Hd by (vm_compute; reflexivity).
  rewrite Hd in Hfind. apply Hfind. intros _. vm_compute. reflexivity.
Defined.

Theorem stop_tears_down_witness :
  px_open (wd_proxy (ho_world (Stop demo_stop demo_on))) = ∅
  ∧ IsActive (wd_fw (ho_world (Stop demo_stop demo_on))) = false
  ∧ fm_installs (fw_mgr (wd_fw (ho_world (Stop demo_stop demo_on)))) None
  ∧ ∃ e, discoverProxyAddr id (pid_file (Stop demo_stop demo_on)) (state_file (go "dashboard.port") (Stop demo_stop demo_on))
           (dashboard_answer demo_on) = inl e.
Proof.
  destruct (stop_tears_down tidy demo_stop [] demo_on demo_on_reach) as (Hopen & _ & _ & Hoff & Hgone & _ & Hshell);
    [by intros m|constructor|intros Ha; vm_compute in Ha; discriminate|].
  assert (reports_removal) as Hrep by (by intros m). assert (accepts_removal) as Hacc by (by intros m).
  split; [exact Hopen|]. split; [exact (Hoff Hrep)|]. split; [exact (Hgone Hrep Hacc)|].
  exact (Hshell eq_refl eq_refl id (dashboard_answer demo_on)).
Defined.

(** A request to enable that the dashboard handles after the proxy was stopped and before the
    dashboard is closed: the daemon ends with the redirection in force, to a port that closes with
    its process. *)
Definition late_enable : list (list live_event) := [[]; []; []; []; []; []; [LEnable switch_env]].
Lemma enable_during_stop :
  let h := stop_run (stop_steps demo_stop) late_enable demo_on in
  fm_installs (fw_mgr (wd_fw (ho_world h))) (Some ([go "10.0.0.1"], 58601)) ∧ PDashboard ∉ ho_open h
  ∧ px_open (wd_proxy (ho_world h)) = {[1%nat := go "[::]:61616"]}.
Proof.
  split; [vm_compute; reflexivity|]. split; [apply (bool_decide_unpack _); by vm_compute|vm_compute; reflexivity].
Qed.
End evaluation.
