(* ===== verification/Loops.v ===== *)
(** * The background loops and the run of the daemon — internal/daemon/daemon.go

    The loop that syncs the policy, the loop that reports sessions, the probes of the
    detector's manager (sidecar/manager.go), and [Run] from the built daemon to the
    stop after a signal, over the files, the sessions and the host of the other
    components. *)
From S2P Require Import Prelude GoStr Utf8 GoFloat GoSort Spans Scanner Redactor Sha256 Cache Regex Rules FileBlock Coordinator Presidio Entropy Json JsonRound JsonDecode JsonStruct Indent Gliner Domain Extract Proxy Config Sandbox Firewall Sessions Base64 Signing Token Store ServerAuth Bundle Httpapi Daemon System Policy Control History Fleet Certs Files Startup.
Local Open Scope Z_scope.

Section loops.
Context `{UnicodeData} `{GoSort} `{TimeText} `{PublicKeyText}.
Context (lib_error : gostring → gostring).

Definition isEnrolled (stat : bool) (fs : Files) : bool := EnrollmentExists stat fs.

(** ** policySyncLoop *)

(** A sync at the start and one per tick, until the context is done or the process ends. *)
Inductive loop_event (A : Type) := Tick (a : A) | Done.
Arguments Tick {A} a.
Arguments Done {A}.
Record sync_tick := mkSyncTick { st_env : SyncEnv; st_fetch : Fetch; st_now : Z }.
Fixpoint sync_loop (evs : list (loop_event sync_tick)) (fs : Files) : Files :=
  match evs with
  | [] | Done :: _ => fs
  | Tick t :: evs =>
      match SyncFiles lib_error (st_env t) (st_fetch t) (st_now t) fs with
      | (fs, Returned _) => sync_loop evs fs
      | (fs, _) => fs
      end
  end.
Definition policySyncLoop (first : sync_tick) (evs : list (loop_event sync_tick)) (fs : Files) : Files :=
  sync_loop (Tick first :: evs) fs.

(** ** monitorLoop *)

(** A report: the sessions are listed, then posted.  [probe] is the machine at that time. *)
Record report_tick := mkReportTick { rt_probe : SysProbe; rt_now : Z; rt_collect : Z; rt_post : Post unit }.
Definition report (t : report_tick) (disk : Disk) (l : Lister) : Lister * option gostring :=
  match @ListSessions _ _ (rt_probe t) (rt_now t) l with
  | (l, None) => (l, Some (go "session scan failed"))
  | (l, Some sessions) => (l, (Report (rt_post t) (Collect (rt_collect t) sessions) tt disk).2)
  end.
(** The lister, and what became of each report. *)
Fixpoint report_loop (evs : list (loop_event report_tick)) (disk : Disk) (l : Lister) : Lister * list (option gostring) :=
  match evs with
  | [] | Done :: _ => (l, [])
  | Tick t :: evs =>
      let '(l, err) := report t disk l in
      let '(l, errs) := report_loop evs disk l in (l, err :: errs)
  end.
Definition monitorLoop (first : report_tick) (evs : list (loop_event report_tick)) (disk : Disk) (l : Lister) : Lister * list (option gostring) :=
  report_loop (Tick first :: evs) disk l.

(** ** What the loops leave alone *)

Context `{!TimeLaws}.

Lemma SyncFiles_enrollment e fetch now fs : fi_enrollment (SyncFiles lib_error e fetch now fs).1 = fi_enrollment fs.
Proof.
  unfold SyncFiles. repeat (case_match; try done).
  all: match goal with Hs : SavePolicyFile _ _ _ = _ |- _ => unfold SavePolicyFile in Hs; destruct (replace_file _ _ _ _) as [[? ?] ?]; by simplify_eq end.
Qed.
(** The loop never touches the enrolment, and as long as no sync caches a policy the files stay as they are. *)
Lemma sync_loop_enrollment evs fs : fi_enrollment (sync_loop evs fs) = fi_enrollment fs.
Proof.
  revert fs. induction evs as [|[t|] evs IH]; intros fs; [done| |done]. cbn [sync_loop].
  pose proof (SyncFiles_enrollment (st_env t) (st_fetch t) (st_now t) fs) as He.
  destruct (SyncFiles _ _ _ _ _) as [fs' []]; cbn [fst] in He; try done. by rewrite IH.
Qed.
(** The loop is that of the [Disk]: each tick is a sync of it. *)
Fixpoint disk_loop (evs : list (loop_event sync_tick)) (d : Disk) : Disk :=
  match evs with
  | [] | Done :: _ => d
  | Tick t :: evs => disk_loop evs (Sync lib_error (st_fetch t) (st_now t) (sync_io (st_env t) d) d).1
  end.
Fixpoint ticks_fine (evs : list (loop_event sync_tick)) (d : Disk) : Prop :=
  match evs with
  | [] | Done :: _ => True
  | Tick t :: evs => sync_fine lib_error (st_env t) (st_fetch t) (st_now t) d
      ∧ ticks_fine evs (Sync lib_error (st_fetch t) (st_now t) (sync_io (st_env t) d) d).1
  end.
(** Unless the process ends in one of its syncs, the loop leaves the policy of the last sync that
    cached one; a loop that is cut short leaves that of the syncs before, or of the last. *)
Lemma sync_loop_disk evs fs : readable fs → ticks_fine evs (disk_of lib_error fs) →
  ∃ n, disk_of lib_error (sync_loop evs fs) = disk_loop (take n evs) (disk_of lib_error fs) ∧ readable (sync_loop evs fs).
Proof.
  revert fs. induction evs as [|[t|] evs IH]; intros fs Hr Hf; [by exists O| |by exists O]. destruct Hf as [Ht Hf]. cbn [sync_loop].
  pose proof (SyncFiles_disk lib_error (st_env t) (st_fetch t) (st_now t) fs Hr Ht) as Hs.
  destruct (SyncFiles _ _ _ _ _) as [fs' o]. destruct (Sync _ _ _ _ _) as [d' err] eqn:Hsync. cbn [fst snd] in *.
  destruct Hs as (Hr' & Hd & [->| ->]).
  - rewrite <- Hd in Hf. destruct (IH fs' Hr' Hf) as (n & Hn & Hrn). exists (S n). split; [|done]. cbn [take disk_loop]. rewrite Hsync. cbn [fst]. by rewrite Hn, Hd.
  - exists 1%nat. split; [|done]. cbn [take disk_loop]. rewrite Hsync. done.
Qed.
End loops.

(** ** sidecar/manager.go: the probes *)

Definition isHealthy (r : http_reply) : bool := health_ready r.
(** [waitForReady] only logs: the probe that found the detector ready, or that none of 120 did. *)
Fixpoint wait_for_ready (tries i : nat) (probe : nat → http_reply) : option nat :=
  match tries with
  | O => None
  | S tries => if isHealthy (probe i) then Some i else wait_for_ready tries (S i) probe
  end.
Definition waitForReady (probe : nat → http_reply) : option nat := wait_for_ready 120 0 probe.
Lemma wait_for_ready_Some tries i probe :
  is_Some (wait_for_ready tries i probe) ↔ existsb (λ i, isHealthy (probe i)) (seq i tries) = true.
Proof.
  revert i. induction tries as [|tries IH]; intros i; cbn [wait_for_ready seq existsb].
  - split; [by intros []|done].
  - destruct (isHealthy (probe i)); cbn [orb]; [by split; [|eexists]|apply IH].
Qed.
(** Its log agrees with the daemon's own probes, which do make the client ready. *)
Lemma waitForReady_becomes_ready probe : is_Some (waitForReady probe) ↔ becomes_ready (λ i, isHealthy (probe i)) = true.
Proof. apply wait_for_ready_Some. Qed.
(** A reply with any member that is no string is not ready, whatever it says of the status. *)
Lemma unhealthy_extra_member :
  isHealthy (HttpReply 200 (compact (JObj [(go "status", quoted (go "ready"))]))) = true
  ∧ isHealthy (HttpReply 200 (compact (JObj [(go "status", quoted (go "ready")); (go "queue", JNum (go "0"))]))) = false.
Proof. vm_compute. split; reflexivity. Qed.

(** ** Run *)

Section run.
Context `{RegexpEngine} `{UnicodeData} `{GoSort} `{EntropyEnv} `{HttpClient} `{Yaml} `{FwManager}.

(** [Run], from what [Build] returned, over what happens until the signal: the host it leaves, and
    its error. *)
Definition Run (built : gostring + Host) (start : StartEnv) (evs : list live_event) (stop : StopEnv) : option Host * option gostring :=
  match built with
  | inl e => (None, Some e)
  | inr h =>
      match Start start h with
      | (h, Some e) => (Some h, Some e)
      | (h, None) => (Some (Stop stop (foldl live h evs)), None)
      end
  end.
End run.

(** A start that fails is not stopped: the detector that it started goes on without the daemon, and
    the file with the dashboard's address stays. *)
Section failed_start.
Local Existing Instance re2.
Local Existing Instance sample_unicode.
Local Existing Instance insertion_sort.
Local Existing Instance sample_entropy.
Local Existing Instance toy_yaml.
Local Existing Instance demo_manager.
Local Existing Instance offline.
Definition no_socket : StartEnv :=
  mkStartEnv false (inr (go "[::]:9090")) (inr (go "127.0.0.1:58601")) (inr (go "[::]:9080")) true
    (mkSidecarEnv (inr 4100) None true) None switch_env (Some (go "bind: invalid argument")) true.
Lemma failed_start_leaves_sidecar :
  match Run (inr demo_built) no_socket [] demo_stop with
  | (Some h, Some _) => is_Some (ho_sidecar h) ∧ is_Some (ho_files h !! go "dashboard.port")
  | _ => False
  end.
Proof.
  assert (Is_true match Run (inr demo_built) no_socket [] demo_stop with
    | (Some h, Some _) => bool_decide (is_Some (ho_sidecar h)) && bool_decide (is_Some (ho_files h !! go "dashboard.port"))
    | _ => false end) as Hrun by (vm_compute; exact I).
  destruct (Run _ _ _ _) as [[h|] [e|]]; try done. apply andb_prop_elim in Hrun as [H1%bool_decide_unpack H2%bool_decide_unpack]. done.
Qed.
End failed_start.
