(* ===== verification/Lifecycle.v ===== *)
(** * One daemon per machine — internal/lifecycle/lifecycle.go

    A starting daemon takes an exclusive lock on the pid file; if another holds it,
    the file's pid is asked to end and the lock is tried again.  Any number of
    processes may do this at once: a machine is the lock, the file and the
    processes, and a run is any interleaving of their system calls. *)
From S2P Require Import Prelude GoStr Utf8.
Local Open Scope Z_scope.

(** ** Reading pids *)

Section pids.
Context `{UnicodeData}.

(** [data]: what the file holds, if it can be read. *)
Definition readPid (data : option gostring) : option Z :=
  match data with
  | None => None
  | Some data =>
      let line := TrimSpace (default [] (head (SplitN data (chr 10) 2))) in
      if bool_decide (line = []) then None
      else match Atoi line with Some pid => if pid <=? 0 then None else Some pid | None => None end
  end.

(** [comm]: the name [ps] prints for a process, if it does. *)
Definition isRedactrProcess (comm : option gostring) : bool :=
  match comm with
  | None => false
  | Some out =>
      let comm := ToLower (TrimSpace out) in
      if bool_decide (comm = []) then false
      else
        let base := match LastIndexByte comm "/"%char with Some i => drop (S i) comm | None => comm end in
        Contains base (go "redactr") || bool_decide (base = go "go")
  end.

(** The first pid that [lsof] prints for the port the file holds. *)
Definition findSidecarPid (port_file : option gostring) (lsof : Z → option gostring) : option Z :=
  match port_file with
  | None => None
  | Some data =>
      match Atoi (TrimSpace data) with
      | None => None
      | Some port =>
          if port <=? 0 then None
          else
            match lsof port with
            | None => None
            | Some out =>
                head (omap (λ line, match Atoi (TrimSpace line) with
                                    | Some pid => if 0 <? pid then Some pid else None
                                    | None => None end) (Split (TrimSpace out) (chr 10)))
            end
      end
  end.
End pids.

(** ** AcquireSingleton, system call by system call *)

Inductive AqError :=
  | FlockFailed | PidfileUnparseable | AlreadyHeld | NotOurs (pid : Z) | SigtermFailed | SigkillFailed
  | StillAlive (pid : Z) | FlockAfterReplace | ClaimFailed.
Inductive acq :=
| AqTry
| AqRead
| AqCheck (pid : Z)
| AqTerm (pid : Z)
| AqPoll (pid : Z) (left_ : nat)
| AqKill (pid : Z)
| AqPollKilled (pid : Z) (left_ : nat)
| AqRetry
| AqClaim
| AqWrite
| AqHeld
| AqReleased
| AqFailed (e : AqError).

(** The processes at or past [AcquireSingleton], the others, the holder of the lock, the file. *)
Record Machine := mkMachine {
  mc_procs : gmap Z acq;
  mc_others : gset Z;
  mc_lock : option Z;
  mc_file : gostring;
}.
Definition processAlive (m : Machine) (pid : Z) : bool :=
  bool_decide (is_Some (mc_procs m !! pid)) || bool_decide (pid ∈ mc_others m).

(** What the system contributes to a call: an unexpected failure of [flock], of reading the
    file, of a signal, of a write, how much of a failed write arrives, which processes [ps] shows
    as ours, and whether the grace period is over. *)
Record Syscall := mkSyscall {
  sy_flock_ok : bool; sy_read_ok : bool; sy_kill_ok : bool; sy_write_ok : bool; sy_written : nat;
  sy_ours : Z → bool; sy_time_up : bool;
}.

Section acquire.
Context `{UnicodeData}.

Definition pid_line (pid : Z) : gostring := Itoa pid ++ [chr 10].
(** The grace period of 5 s in ticks of 50 ms, and the wait after SIGKILL. *)
Definition grace_polls : nat := 100.
Definition kill_polls : nat := 40.

(** The state after the next system call of [me], the holder of the lock and the file; closing
    the file after a failure gives the lock back. *)
Definition acquire_call (s : Syscall) (me : Z) (m : Machine) (st : acq) : option (acq * option Z * gostring) :=
  let stay st := Some (st, mc_lock m, mc_file m) in
  let flock failed :=
    if negb (sy_flock_ok s) then stay (AqFailed failed)
    else match mc_lock m with None => Some (AqClaim, Some me, mc_file m) | Some _ => stay (AqFailed failed) end in
  match st with
  | AqTry =>
      if negb (sy_flock_ok s) then stay (AqFailed FlockFailed)
      else match mc_lock m with None => Some (AqClaim, Some me, mc_file m) | Some _ => stay AqRead end
  | AqRead =>
      match readPid (if sy_read_ok s then Some (mc_file m) else None) with
      | None => stay (AqFailed PidfileUnparseable)
      | Some pid => if pid =? me then stay (AqFailed AlreadyHeld) else stay (AqCheck pid)
      end
  | AqCheck pid => if sy_ours s pid then stay (AqTerm pid) else stay (AqFailed (NotOurs pid))
  | AqTerm pid =>
      if processAlive m pid
      then if sy_kill_ok s then stay (AqPoll pid grace_polls) else stay (AqFailed SigtermFailed)
      else stay AqRetry
  | AqPoll pid n =>
      match n with
      | O => stay (AqKill pid)
      | S n => if sy_time_up s then stay (AqKill pid)
               else if processAlive m pid then stay (AqPoll pid n) else stay AqRetry
      end
  | AqKill pid =>
      if processAlive m pid && negb (sy_kill_ok s) then stay (AqFailed SigkillFailed)
      else stay (AqPollKilled pid kill_polls)
  | AqPollKilled pid n =>
      match n with
      | O => stay (AqFailed (StillAlive pid))
      | S n => if processAlive m pid then stay (AqPollKilled pid n) else stay AqRetry
      end
  | AqRetry => flock FlockAfterReplace
  | AqClaim => if sy_write_ok s then Some (AqWrite, mc_lock m, []) else Some (AqFailed ClaimFailed, None, mc_file m)
  | AqWrite =>
      if sy_write_ok s then Some (AqHeld, mc_lock m, pid_line me)
      else Some (AqFailed ClaimFailed, None, take (sy_written s) (pid_line me))
  | AqHeld | AqReleased | AqFailed _ => None
  end.

(** The events of a machine. *)
Inductive machine_event :=
| EvCall (me : Z) (s : Syscall)
| EvRelease (me : Z)
| EvExit (pid : Z)
| EvStart (pid : Z)
| EvOther (pid : Z).
Definition machine_step (ev : machine_event) (m : Machine) : option Machine :=
  match ev with
  | EvCall me s =>
      st ← mc_procs m !! me;
      '(st', lock, file) ← acquire_call s me m st;
      Some (mkMachine (<[me := st']> (mc_procs m)) (mc_others m) lock file)
  | EvRelease me =>
      match mc_procs m !! me with
      | Some AqHeld => Some (mkMachine (<[me := AqReleased]> (mc_procs m)) (mc_others m) None (mc_file m))
      | _ => None
      end
  | EvExit pid =>
      Some (mkMachine (delete pid (mc_procs m)) (mc_others m ∖ {[pid]})
              (if bool_decide (mc_lock m = Some pid) then None else mc_lock m) (mc_file m))
  | EvStart pid =>
      if processAlive m pid || (pid <=? 0) || (2 ^ 63 <=? pid) then None
      else Some (mkMachine (<[pid := AqTry]> (mc_procs m)) (mc_others m) (mc_lock m) (mc_file m))
  | EvOther pid =>
      if processAlive m pid then None
      else Some (mkMachine (mc_procs m) ({[pid]} ∪ mc_others m) (mc_lock m) (mc_file m))
  end.
Inductive machine_reach : Machine → Prop :=
| machine_boot others file : machine_reach (mkMachine ∅ others None file)
| machine_more ev m m' : machine_reach m → machine_step ev m = Some m' → machine_reach m'.

(** ** ReapOrphans *)

(** The outcome of ending a process: its error.  [unredirect], [cleanup]: the errors of the
    firewall, those of a platform without one left out. *)
Definition first_error (errs : list (option gostring)) : option gostring := head (omap id errs).
Record ReapEnv := mkReap {
  rp_port_file : option gostring; rp_lsof : Z → option gostring; rp_alive : Z → bool;
  rp_terminate : Z → option gostring; rp_firewall : option (option gostring * option gostring);
}.
(** The process that is ended, whether the port file is removed, the error. *)
Definition ReapOrphans (e : ReapEnv) : option Z * bool * option gostring :=
  let found := findSidecarPid (rp_port_file e) (rp_lsof e) in
  let victim := pid ← found; if rp_alive e pid then Some pid else None in
  let killed := pid ← victim; rp_terminate e pid in
  let fw := match rp_firewall e with Some (u, c) => [u; c] | None => [] end in
  (victim, bool_decide (is_Some found), first_error (killed :: fw)).
End acquire.

(** ** One holder, named by the file *)

Section exclusion.
Context `{UnicodeData}.

(** Whether a process has the lock, and whom it would signal. *)
Definition has_lock (st : acq) : bool := match st with AqClaim | AqWrite | AqHeld => true | _ => false end.
Definition target (st : acq) : option Z :=
  match st with
  | AqCheck pid | AqTerm pid | AqPoll pid _ | AqKill pid | AqPollKilled pid _ => Some pid
  | _ => None
  end.
Definition target_ok (me : Z) (st : acq) : Prop := ∀ pid, target st = Some pid → pid ≠ me ∧ 0 < pid.

Record machine_inv (m : Machine) : Prop := {
  mi_lock : ∀ p st, mc_procs m !! p = Some st → has_lock st = true ↔ mc_lock m = Some p;
  mi_holder : ∀ p, mc_lock m = Some p → is_Some (mc_procs m !! p);
  mi_file : ∀ p, mc_procs m !! p = Some AqHeld → mc_file m = pid_line p;
  mi_pids : ∀ p st, mc_procs m !! p = Some st → 0 < p < 2 ^ 63 ∧ target_ok p st;
}.

(** A text of digits, read as a number. *)
Lemma digits_not_space ds : forallb is_digit_byte ds = true → TrimSpace ds = ds.
Proof.
  intros Hd. assert (∀ c, c ∈ ds → IsSpace (byteN c) = false ∧ (byteN c < 128)%N) as Hc.
  { intros c Hin%list_elem_of_In. rewrite forallb_forall in Hd. apply Hd, is_digit_byte_range in Hin.
    unfold byteZ in Hin. unfold IsSpace, between. fold (byteN c) in Hin.
    assert (48 ≤ byteN c ≤ 57)%N as Hr by lia.
    split; [|lia]. rewrite (proj2 (N.ltb_lt _ _)) by lia. apply orb_false_iff. split; [apply andb_false_iff; right; apply N.leb_gt|apply N.eqb_neq]; lia. }
  unfold TrimSpace. rewrite decode_all_ascii.
  2: { unfold ascii_only. apply forallb_forall. intros c Hin%list_elem_of_In. apply N.ltb_lt, Hc, Hin. }
  assert (∀ l, (∀ c, c ∈ l → IsSpace (byteN c) = false) →
    drop_spaces ((λ c, (byteN c, [c])) <$> l) = (λ c, (byteN c, [c])) <$> l) as Hdrop.
  { intros [|c l] Hl; [done|]. rewrite fmap_cons. cbn [drop_spaces]. rewrite Hl; [done|by left]. }
  rewrite Hdrop by (intros c Hin; apply Hc, Hin). change (@fmap list _ _ _) with (@List.map Ascii.ascii (N * gostring)) in *. rewrite <- map_rev, Hdrop.
  - rewrite <- map_rev, rev_involutive. clear. induction ds as [|c ds IH]; [done|]. cbn. by f_equal.
  - intros c Hin. apply Hc. rewrite list_elem_of_In in *. by apply in_rev.
Qed.

Lemma readPid_line p : 0 < p < 2 ^ 63 → readPid (Some (pid_line p)) = Some p.
Proof.
  intros Hp. destruct (Itoa_decimal p) as (Hne & Hd & _); [lia|].
  assert (chr 10 ∉ Itoa p) as Hn.
  { intros Hin%list_elem_of_In. rewrite forallb_forall in Hd. apply Hd in Hin. by vm_compute in Hin. }
  unfold readPid, pid_line. assert (head (SplitN (Itoa p ++ [chr 10]) (chr 10) 2) = Some (Itoa p)) as ->.
  { cbn [SplitN]. assert (IndexByte (Itoa p ++ [chr 10]) (chr 10) = Some (length (Itoa p))) as ->.
    { revert Hn. generalize (Itoa p) as ds. intros ds Hn. induction ds as [|c l IH]; cbn [app IndexByte length].
      - by rewrite bool_decide_eq_true_2.
      - apply not_elem_of_cons in Hn as [Hc Hn]. rewrite bool_decide_eq_false_2 by congruence. by rewrite IH. }
    cbn [head]. by rewrite take_app_length. }
  cbn [default from_option id]. rewrite digits_not_space, bool_decide_eq_false_2, Atoi_Itoa by (done || lia).
  by rewrite (proj2 (Z.leb_gt _ _)) by lia.
Qed.
Lemma readPid_pos data pid : readPid data = Some pid → 0 < pid.
Proof.
  unfold readPid. destruct data; [|done]. cbv zeta. case_bool_decide; [done|]. destruct (Atoi _) as [z|]; [|done].
  destruct (Z.leb_spec z 0); [done|]. by intros [= <-].
Qed.

(** One call keeps the lock, takes a free one, or gives it back. *)
Lemma acquire_call_spec s me m st st' lock file : target_ok me st →
  acquire_call s me m st = Some (st', lock, file) →
  (has_lock st' = has_lock st ∧ lock = mc_lock m
   ∨ has_lock st = false ∧ has_lock st' = true ∧ mc_lock m = None ∧ lock = Some me
   ∨ has_lock st = true ∧ has_lock st' = false ∧ lock = None)
  ∧ (file = mc_file m ∨ has_lock st = true) ∧ (st' = AqHeld → file = pid_line me) ∧ st ≠ AqHeld ∧ target_ok me st'.
Proof.
  unfold target_ok, acquire_call. intros Ht.
  destruct st as [| |pid|pid|pid n|pid|pid n| | | | | |e]; cbn [target has_lock] in *.
  - destruct (negb (sy_flock_ok s)); [|destruct (mc_lock m) eqn:Hl]; intros [= <- <- <-]; naive_solver.
  - destruct (readPid _) as [pid|] eqn:Hr; [|intros [= <- <- <-]; naive_solver]. apply readPid_pos in Hr.
    destruct (Z.eqb_spec pid me); intros [= <- <- <-]; cbn; naive_solver.
  - destruct (sy_ours s pid); intros [= <- <- <-]; cbn; naive_solver.
  - destruct (processAlive m pid); [destruct (sy_kill_ok s)|]; intros [= <- <- <-]; cbn; naive_solver.
  - destruct n; [|destruct (sy_time_up s); [|destruct (processAlive m pid)]]; intros [= <- <- <-]; cbn; naive_solver.
  - destruct (_ && _); intros [= <- <- <-]; cbn; naive_solver.
  - destruct n; [|destruct (processAlive m pid)]; intros [= <- <- <-]; cbn; naive_solver.
  - destruct (negb (sy_flock_ok s)); [|destruct (mc_lock m) eqn:Hl]; intros [= <- <- <-]; naive_solver.
  - destruct (sy_write_ok s); intros [= <- <- <-]; naive_solver.
  - destruct (sy_write_ok s); intros [= <- <- <-]; naive_solver.
  - done.
  - done.
  - done.
Qed.

Lemma machine_step_inv ev m m' : machine_inv m → machine_step ev m = Some m' → machine_inv m'.
Proof.
  intros [Hl Hh Hf Hp]. destruct ev as [me s|me|pid|pid|pid]; cbn [machine_step].
  - destruct (mc_procs m !! me) as [st|] eqn:Hst; [|done]. cbn [mbind option_bind].
    destruct (acquire_call s me m st) as [[[st' lock] file]|] eqn:Hc; [|done]. intros [= <-].
    destruct (Hp _ _ Hst) as [Hr Ht]. apply acquire_call_spec in Hc as (Hlock & Hfile & Hheld & Hnot & Ht'); [|done].
    pose proof (Hl _ _ Hst) as Hme. split; cbn [mc_procs mc_lock mc_file].
    + intros p q [[<- <-]|[Hne Hq]]%lookup_insert_Some.
      * destruct Hlock as [[-> ->]|[(_ & -> & _ & ->)|(_ & -> & ->)]]; [done|naive_solver..].
      * pose proof (Hl _ _ Hq) as Hq'. destruct Hlock as [[_ ->]|[(_ & _ & Hn & ->)|(Hs & _ & ->)]]; [done| |].
        -- rewrite Hn in Hq'. naive_solver.
        -- apply Hme in Hs. rewrite Hs in Hq'. naive_solver.
    + intros p Hp'. rewrite lookup_insert_is_Some'. destruct Hlock as [[_ ->]|[(_ & _ & _ & ->)|(_ & _ & ->)]]; naive_solver.
    + intros p [[<- Heq]|[Hne Hq]]%lookup_insert_Some; [by apply Hheld|]. pose proof (Hf _ Hq) as Hq'.
      destruct Hfile as [->|Hs]; [done|]. apply Hme in Hs. pose proof (proj1 (Hl _ _ Hq) eq_refl). congruence.
    + intros p q [[<- <-]|[Hne Hq]]%lookup_insert_Some; [done|by eapply Hp].
  - destruct (mc_procs m !! me) as [st|] eqn:Hst; [|done]. destruct st; try done. intros [= <-].
    pose proof (proj1 (Hl _ _ Hst) eq_refl) as Hme. split; cbn [mc_procs mc_lock mc_file].
    + intros p q [[<- <-]|[Hne Hq]]%lookup_insert_Some; [done|]. pose proof (Hl _ _ Hq). naive_solver.
    + done.
    + intros p [[<- ?]|[Hne Hq]]%lookup_insert_Some; [done|by apply Hf].
    + intros p q [[<- <-]|[Hne Hq]]%lookup_insert_Some; [|by eapply Hp]. split; [by eapply Hp|done].
  - intros [= <-]. split; cbn [mc_procs mc_lock mc_file].
    + intros p q [Hne Hq]%lookup_delete_Some. rewrite (Hl _ _ Hq). case_bool_decide; naive_solver.
    + intros p. case_bool_decide as Hd; [done|]. intros Hp'. rewrite lookup_delete_ne by naive_solver. by apply Hh.
    + intros p [_ Hq]%lookup_delete_Some. by apply Hf.
    + intros p q [_ Hq]%lookup_delete_Some. by eapply Hp.
  - destruct (processAlive m pid) eqn:Ha; [done|]. destruct (Z.leb_spec pid 0); [done|]. destruct (Z.leb_spec (2 ^ 63) pid); [done|].
    cbn [orb]. intros [= <-].
    assert (mc_procs m !! pid = None) as Hnone.
    { unfold processAlive in Ha. apply orb_false_iff in Ha as [Ha%bool_decide_eq_false _]. by apply eq_None_not_Some. }
    split; cbn [mc_procs mc_lock mc_file].
    + intros p q [[<- <-]|[Hne Hq]]%lookup_insert_Some; [|by apply Hl]. split; [done|].
      intros Hlk%Hh. rewrite Hnone in Hlk. by destruct Hlk.
    + intros p Hp'. rewrite lookup_insert_is_Some'. right. by apply Hh.
    + intros p [[<- ?]|[Hne Hq]]%lookup_insert_Some; [done|by apply Hf].
    + intros p q [[<- <-]|[Hne Hq]]%lookup_insert_Some; [split; [lia|done]|by eapply Hp].
  - destruct (processAlive m pid); [done|]. intros [= <-]. by split.
Qed.
Lemma machine_reach_inv m : machine_reach m → machine_inv m.
Proof.
  induction 1 as [others file|ev m m' _ IH Hs]; [|by eapply machine_step_inv].
  split; cbn; by intros *; rewrite ?lookup_empty.
Qed.

(** C17: exclusion. Whatever processes start, run, exit or fail, and in whatever order their system
    calls interleave: at most one holds the daemon's lock; while it does, the pid file names it, so
    a process that finds the lock taken and reads the file targets exactly the holder; and no
    process ever signals itself or a pid that is not positive. *)
Theorem singleton_exclusive m : machine_reach m →
  (∀ p, mc_procs m !! p = Some AqHeld →
     mc_lock m = Some p ∧ readPid (Some (mc_file m)) = Some p
     ∧ (∀ q, mc_procs m !! q = Some AqHeld → q = p)
     ∧ (∀ q s m', mc_procs m !! q = Some AqRead → sy_read_ok s = true →
          machine_step (EvCall q s) m = Some m' → mc_procs m' !! q = Some (AqCheck p)))
  ∧ (∀ p st pid, mc_procs m !! p = Some st → target st = Some pid → pid ≠ p ∧ 0 < pid).
Proof.
  intros [Hl Hh Hf Hp]%machine_reach_inv. split; [|intros p st pid Hst Ht; by apply (Hp p st Hst)].
  intros p Hheld. pose proof (proj1 (Hl _ _ Hheld) eq_refl) as Hlock.
  assert (readPid (Some (mc_file m)) = Some p) as Hread.
  { rewrite (Hf _ Hheld). by apply readPid_line, (Hp _ _ Hheld). }
  split_and!; [done..| |].
  - intros q Hq. pose proof (proj1 (Hl _ _ Hq) eq_refl). congruence.
  - intros q s m' Hq Hs. cbn [machine_step]. rewrite Hq. cbn [mbind option_bind acquire_call].
    rewrite Hs, Hread. assert (p ≠ q) as Hne%Z.eqb_neq by congruence. rewrite Hne.
    cbn [mbind option_bind]. intros [= <-]. apply lookup_insert_eq.
Qed.
End exclusion.

(** ** An attempt ends *)

Section attempts.
Context `{UnicodeData}.

Definition final (st : acq) : bool := match st with AqHeld | AqReleased | AqFailed _ => true | _ => false end.
(** The calls an attempt can still make. *)
Definition calls_left (st : acq) : nat :=
  match st with
  | AqTry => 150
  | AqRead => 149
  | AqCheck _ => 148
  | AqTerm _ => 147
  | AqPoll _ n => 46 + n
  | AqKill _ => 45
  | AqPollKilled _ n => 4 + n
  | AqRetry => 3
  | AqClaim => 2
  | AqWrite => 1
  | AqHeld | AqReleased | AqFailed _ => 0
  end%nat.
Fixpoint machine_run (evs : list machine_event) (m : Machine) : option Machine :=
  match evs with
  | [] => Some m
  | ev :: evs => m' ← machine_step ev m; machine_run evs m'
  end.
Definition own_call (me : Z) (ev : machine_event) : bool := match ev with EvCall p _ => p =? me | _ => false end.
Definition own_calls (me : Z) (evs : list machine_event) : nat := length (List.filter (own_call me) evs).

Lemma acquire_call_left s me m st st' lock file :
  acquire_call s me m st = Some (st', lock, file) → (calls_left st' < calls_left st)%nat.
Proof.
  unfold acquire_call, grace_polls, kill_polls. intros Hc.
  destruct st; repeat case_match; simplify_eq; cbn [calls_left]; lia.
Qed.
Lemma acquire_call_some s me m st : final st = false → is_Some (acquire_call s me m st).
Proof. unfold acquire_call. destruct st; cbn [final]; intros; repeat case_match; by eauto. Qed.

(** The others do not change where a process stands. *)
Lemma machine_step_frame ev m m' me st : machine_step ev m = Some m' → mc_procs m !! me = Some st →
  own_call me ev = false → ev ≠ EvExit me →
  ∃ st', mc_procs m' !! me = Some st' ∧ (calls_left st' ≤ calls_left st)%nat.
Proof.
  intros Hs Hst Ho He. destruct ev as [p s|p|p|p|p]; cbn [machine_step own_call] in *.
  - apply Z.eqb_neq in Ho. destruct (mc_procs m !! p); [|done]. cbn [mbind option_bind] in Hs.
    destruct (acquire_call _ _ _ _) as [[[? ?] ?]|]; [|done]. simplify_eq/=. rewrite lookup_insert_ne by done. eauto.
  - destruct (decide (p = me)) as [->|Hne].
    + rewrite Hst in Hs. destruct st; try done. simplify_eq/=. rewrite lookup_insert_eq. eauto.
    + destruct (mc_procs m !! p) as [[]|]; try done. simplify_eq/=. rewrite lookup_insert_ne by done. eauto.
  - simplify_eq/=. rewrite lookup_delete_ne by congruence. eauto.
  - destruct (_ || _) eqn:Hor; [done|]. simplify_eq/=. rewrite lookup_insert_ne; [eauto|]. intros ->.
    unfold processAlive in Hor. by rewrite Hst in Hor.
  - destruct (processAlive m p); [done|]. simplify_eq/=. eauto.
Qed.

Lemma machine_run_left evs m m' me st : machine_run evs m = Some m' → mc_procs m !! me = Some st →
  EvExit me ∉ evs →
  ∃ st', mc_procs m' !! me = Some st' ∧ (own_calls me evs + calls_left st' ≤ calls_left st)%nat.
Proof.
  revert m st. induction evs as [|ev evs IH]; intros m st Hr Hst Hx; cbn [machine_run] in Hr.
  - simplify_eq. exists st. split; [done|]. unfold own_calls. cbn. lia.
  - destruct (machine_step ev m) as [m1|] eqn:Hs; [|done]. cbn [mbind option_bind] in Hr.
    apply not_elem_of_cons in Hx as [Hx1 Hx2]. unfold own_calls in *. cbn [List.filter].
    destruct (own_call me ev) eqn:Ho.
    + destruct ev as [p s| | | |]; try done. cbn [own_call] in Ho. apply Z.eqb_eq in Ho as ->.
      cbn [machine_step] in Hs. rewrite Hst in Hs. cbn [mbind option_bind] in Hs.
      destruct (acquire_call s me m st) as [[[st1 lock] file]|] eqn:Hc; [|done].
      injection Hs as <-. apply acquire_call_left in Hc.
      destruct (IH _ st1 Hr) as (st' & Hst' & Hle); [apply lookup_insert_eq|done|].
      exists st'. split; [done|]. cbn [length]. lia.
    + destruct (machine_step_frame _ _ _ _ _ Hs Hst Ho) as (st1 & Hst1 & Hle1); [congruence|].
      destruct (IH _ st1 Hr Hst1 Hx2) as (st' & Hst' & Hle). exists st'. split; [done|lia].
Qed.

(** C35: an attempt to become the daemon ends. Whatever the other processes do meanwhile, a process
    makes at most 150 system calls (the grace period of 5 s polled every 50 ms, and 40 polls
    after SIGKILL); until it holds the lock or has failed its next call is always possible, so it
    never waits for another process for ever; and with the lock free and no failing call, three
    calls make it the daemon, named by the file. *)
Theorem acquire_terminates evs m m' me :
  mc_procs m !! me = Some AqTry → machine_run evs m = Some m' → EvExit me ∉ evs →
  ∃ st, mc_procs m' !! me = Some st ∧ (own_calls me evs ≤ 150)%nat
    ∧ (own_calls me evs = 150%nat → final st = true)
    ∧ (final st = false → ∀ s, is_Some (machine_step (EvCall me s) m'))
    ∧ (∀ s, st = AqTry → mc_lock m' = None → sy_flock_ok s = true → sy_write_ok s = true →
         machine_run [EvCall me s; EvCall me s; EvCall me s] m'
         = Some (mkMachine (<[me := AqHeld]> (mc_procs m')) (mc_others m') (Some me) (pid_line me))).
Proof.
  intros Hst Hr Hx. destruct (machine_run_left _ _ _ _ _ Hr Hst Hx) as (st & Hst' & Hle).
  cbn [calls_left] in Hle. exists st. split_and!; [done|lia| | |].
  - intros Heq. destruct st; cbn [calls_left final] in *; first [done|lia].
  - intros Hf s. cbn [machine_step]. rewrite Hst'. cbn [mbind option_bind].
    destruct (acquire_call_some s me m' st Hf) as [[[? ?] ?] ->]. by eexists.
  - intros s -> Hlock Hfl Hw. destruct m' as [procs others lock file]. cbn [mc_procs mc_lock mc_others] in *. subst lock.
    cbn [machine_run machine_step mc_procs]. rewrite Hst'. cbn [mbind option_bind acquire_call mc_lock mc_file mc_procs mc_others].
    rewrite Hfl. cbn [negb mbind option_bind machine_step mc_procs mc_lock mc_file mc_others].
    rewrite lookup_insert_eq. cbn [mbind option_bind acquire_call mc_lock mc_file]. rewrite Hw.
    cbn [mbind option_bind machine_step mc_procs mc_lock mc_file mc_others]. rewrite lookup_insert_eq.
    cbn [mbind option_bind acquire_call mc_lock mc_file]. rewrite Hw.
    cbn [mbind option_bind]. by rewrite !insert_insert_eq.
Qed.
End attempts.

(** ** A concrete machine *)

Section machine_example.
#[local] Existing Instance sample_unicode.

Definition quiet : Syscall := mkSyscall true true true true 0 (λ _, true) false.
(** A stale file names 100, a pid now used by another process. *)
Definition stale : Machine := mkMachine ∅ {[100]} None (go "100" ++ [chr 10]).
Definition ran (evs : list machine_event) : Machine := default stale (machine_run evs stale).
Definition takeover : list machine_event :=
  [EvStart 200; EvCall 200 quiet; EvCall 200 quiet; EvCall 200 quiet; EvStart 300; EvCall 300 quiet].
Definition early : list machine_event :=
  [EvStart 200; EvCall 200 quiet; EvStart 300; EvCall 300 quiet; EvCall 300 quiet; EvCall 300 quiet].

Lemma machine_run_reach evs m m' : machine_reach m → machine_run evs m = Some m' → machine_reach m'.
Proof.
  revert m. induction evs as [|ev evs IH]; intros m Hm; cbn [machine_run]; [by intros [= <-]|].
  destruct (machine_step ev m) as [m1|] eqn:Hs; [|done]. cbn [mbind option_bind]. apply IH. by eapply machine_more.
Qed.

(** Between taking the lock and writing the file, a daemon is not named by it: a process that
    starts then signals whoever has the pid of a daemon long gone. *)
Lemma early_reader_stale_target : ∃ m, machine_run early stale = Some m ∧
  mc_procs m !! 200 = Some AqClaim ∧ mc_lock m = Some 200 ∧ mc_procs m !! 300 = Some (AqTerm 100).
Proof. eexists. split; [vm_compute; reflexivity|]. split_and!; vm_compute; reflexivity. Qed.

(** Whoever listens on the recorded port is ended, whatever it is; only a predecessor daemon is
    asked for its name first. *)
Lemma reaps_any_listener :
  ReapOrphans (mkReap (Some (go "5432")) (λ _, Some (go "812" ++ [chr 10])) (λ _, true) (λ _, None) None)
  = (Some 812, true, None) ∧ isRedactrProcess (Some (go "/usr/bin/postgres")) = false.
Proof. split; vm_compute; reflexivity. Qed.

Lemma singleton_exclusive_witness :
  mc_lock (ran takeover) = Some 200 ∧ readPid (Some (mc_file (ran takeover))) = Some 200
  ∧ mc_procs (default stale (machine_step (EvCall 300 quiet) (ran takeover))) !! 300 = Some (AqCheck 200).
Proof.
  assert (machine_reach (ran takeover)) as Hr.
  { apply (machine_run_reach takeover stale); [apply machine_boot|vm_compute; reflexivity]. }
  destruct (singleton_exclusive (ran takeover) Hr) as [Hheld _].
  destruct (Hheld 200) as (Hlock & Hread & _ & Htarget); [vm_compute; reflexivity|].
  split; [exact Hlock|]. split; [exact Hread|].
  apply (Htarget 300 quiet); [vm_compute; reflexivity..].
Defined.

Lemma acquire_terminates_witness : ∃ st,
  mc_procs (ran takeover) !! 300 = Some st ∧ is_Some (machine_step (EvCall 300 quiet) (ran takeover)).
Proof.
  destruct (acquire_terminates [EvCall 300 quiet] (ran (take 5 takeover)) (ran takeover) 300)
    as (st & Hst & _ & _ & Hnext & _); [vm_compute; reflexivity..| |].
  - intros Hin. apply list_elem_of_singleton in Hin. discriminate.
  - exists st. split; [exact Hst|]. apply Hnext.
    assert (mc_procs (ran takeover) !! 300 = Some AqRead) as Hr by (vm_compute; reflexivity).
    rewrite Hr in Hst. injection Hst as <-. reflexivity.
Defined.
End machine_example.
