(* ===== verification/Dashboard.v ===== *)
(** * The dashboard's pages of sessions and licence, and the health of the layers — api/routes.go, sessions_darwin.go, admin.go

    Handlers that read other components or run a command of macOS: kill, and an
    AppleScript that opens a Terminal window.  What such a command does is an
    argument; the texts handed to it are built, quoted and read back here. *)
From S2P Require Import Prelude GoStr Utf8 GoFloat GoSort Spans Scanner Redactor Sha256 Cache Regex Rules FileBlock Coordinator Presidio Entropy Json JsonRound JsonDecode JsonStruct Gliner Domain Extract Proxy Config Firewall Base64 Signing Token Bundle Sessions Store ServerAuth Httpapi Daemon Platform Licensing.
Local Open Scope Z_scope.

Definition json_ok_response (v : json) : ApiResponse := mkApi 200 (AJson v).
(** [writeError] *)
Definition writeError (status : Z) (msg : gostring) : ApiResponse := mkApi status (AJson (string_map [("error", msg)])).

(** ** The licence *)

Definition free_license : json := JObj [(go "features", JArr []); (go "tier", quoted (go "free")); (go "valid", JBool false)].
(** The map of the response, its keys in order; [absent]: whether a list of no features is nil. *)
Definition handleGetLicense (absent : bool) (lic : option LicenseManager) : ApiResponse :=
  match lic ≫= GetClaims with
  | None => json_ok_response free_license
  | Some claims =>
      json_ok_response (JObj [
        (go "customer", quoted (lc_Sub claims)); (go "expires", JNum (Itoa (lc_ExpiresAt claims)));
        (go "features", match lc_Features claims with [] => if absent then JNull else JArr [] | l => strings_json l end);
        (go "tier", quoted (if lc_Demo claims then go "demo" else go "paid"));
        (go "valid", JBool match lic with Some m => lm_valid m | None => false end)])
  end.

(** ** The health of the layers (admin.go) *)

Definition layers_health (layers : list (gostring * bool)) : ApiResponse :=
  let models := foldl (λ m l, <[l.1 := if l.2 : bool then go "ready" else go "not ready"]> m) (∅ : gmap gostring gostring) layers in
  let healthy := forallb snd layers in
  mkApi (if healthy then 200 else 503) (AJson (JObj [
    (go "models", map_json (quoted <$> models)); (go "status", quoted (if healthy then go "healthy" else go "degraded"))])).

(** ** Sessions *)

(** What has been done to the machine: processes sent a signal, lines typed into new Terminals. *)
Record Desktop := mkDesktop { mh_signalled : list Z; mh_typed : list gostring }.
(** A command: it ran, or an error and what it printed. *)
Inductive command := CmdOk | CmdError (e out : gostring).

Section dashboard.
Context `{UnicodeData} `{GoSort} `{SysProbe} `{TimeText}.
(** [unicode.IsPrint] above ASCII. *)
Context (is_print : N → bool).

(** [%q]: [strconv.Quote]. *)
Definition quote_rune (rb : N * gostring) : gostring :=
  let '(r, bytes) := rb in
  if (r =? 34)%N || (r =? 92)%N then back :: bytes
  else if (r =? RuneError)%N && (length bytes =? 1)%nat then back :: byte_of 120 :: (bytes ≫= λ c, hex_low (byteN c))
  else if ((32 <=? r) && (r <=? 126))%N then bytes
  else if ((128 <=? r) && is_print r)%N then bytes
  else if (r =? 7)%N then [back; byte_of 97] else if (r =? 8)%N then [back; byte_of 98]
  else if (r =? 12)%N then [back; byte_of 102] else if (r =? 10)%N then [back; byte_of 110]
  else if (r =? 13)%N then [back; byte_of 114] else if (r =? 9)%N then [back; byte_of 116]
  else if (r =? 11)%N then [back; byte_of 118]
  else if (r <? 32)%N || (r =? 127)%N then back :: byte_of 120 :: hex_low r
  else if (r <? 65536)%N then back :: byte_of 117 :: hex_low (r / 256) ++ hex_low (r mod 256)
  else back :: byte_of 85 :: hex_low 0 ++ hex_low (r / 65536) ++ hex_low (r / 256 mod 256) ++ hex_low (r mod 256).
Definition Quote (s : gostring) : gostring := dquote :: (decode_all s ≫= quote_rune) ++ [dquote].

(** *** sessions_darwin.go *)

(** [kill]: the machine, and the error. *)
Definition StopProcess (supported : bool) (kill : command) (pid : Z) (h : Desktop) : Desktop * option gostring :=
  if negb supported then (h, Some (go "session discovery is currently only implemented for macOS"))
  else
    let h := mkDesktop (mh_signalled h ++ [pid]) (mh_typed h) in
    match kill with
    | CmdOk => (h, None)
    | CmdError e out => (h, Some (go "kill " ++ Itoa pid ++ go ": " ++ e ++ go " (" ++ TrimSpace out ++ go ")"))
    end.
Definition launch_script (line : gostring) : gostring :=
  go "tell application " ++ Quote (go "Terminal") ++ nl ++ go "		activate" ++ nl ++ go "		do script " ++ Quote line ++ nl ++ go "	end tell".
(** osascript types the literal of the script into a new Terminal. *)
Definition osascript (ran : command) (script : gostring) (h : Desktop) : Desktop * option gostring :=
  let start := length (go "tell application " ++ Quote (go "Terminal") ++ nl ++ go "		activate" ++ nl ++ go "		do script ") in
  match apple_literal (drop (start + 1) script) with
  | None => (h, Some (go "osascript: syntax"))
  | Some (line, _) =>
      match ran with
      | CmdOk => (mkDesktop (mh_signalled h) (mh_typed h ++ [line]), None)
      | CmdError e out => (h, Some (go "osascript: " ++ e ++ go " (" ++ TrimSpace out ++ go ")"))
      end
  end.
Definition LaunchProtectedShell (supported : bool) (ran : command) (bin : gostring) (h : Desktop) : Desktop * option gostring :=
  if negb supported then (h, Some (go "session discovery is currently only implemented for macOS"))
  else if bool_decide (bin = []) then (h, Some (go "redactr binary path not provided"))
  else osascript ran (launch_script (bin ++ go " shell")) h.

(** *** routes.go *)

Definition session_json (s : Session) : json := JObj ([
  (go "pid", JNum (Itoa (ss_PID s))); (go "ppid", JNum (Itoa (ss_PPID s))); (go "user", quoted (ss_User s));
  (go "command", quoted (ss_Command s)); (go "tool", quoted (ss_Tool s)); (go "started_at", quoted (time_text (ss_StartedAt s)));
  (go "status", quoted (status_text (ss_Status s))); (go "reason", quoted (ss_Reason s)); (go "has_proxy_env", JBool (ss_HasProxyEnv s))]
  ++ (if bool_decide (ss_ProxyEnv s = []) then [] else [(go "proxy_env", quoted (ss_ProxyEnv s))])
  ++ [(go "bound_flag", JBool (ss_BoundFlag s)); (go "connections", match ss_Connections s with [] => JNull | l => strings_json l end)]
  ++ match ss_DirectAIConn s with [] => [] | l => [(go "direct_ai_conn", strings_json l)] end
  ++ [(go "via_proxy", JBool (ss_ViaProxy s))]).
(** [proxy]: the address of the proxy, if the server has one. *)
Definition handleListSessions (supported : bool) (proxy : option gostring) (now : Z) (lister : option Lister)
    : option Lister * ApiResponse :=
  match lister with
  | Some l =>
      if supported then
        let l := match proxy with Some addr => SetProxyAddr l addr | None => l end in
        match ListSessions now l with
        | (l, None) => (Some l, writeError 500 (go "session scan failed: ps"))
        | (l, Some sessions) =>
            (Some l, json_ok_response (JObj [(go "proxy_addr", quoted (ls_proxyAddr l));
              (go "sessions", JArr (session_json <$> sessions)); (go "supported", JBool true)]))
        end
      else (lister, json_ok_response (JObj [(go "note", quoted (go "Session discovery is currently macOS-only."));
              (go "proxy_addr", quoted []); (go "sessions", JArr []); (go "supported", JBool supported)]))
  | None => (lister, json_ok_response (JObj [(go "note", quoted (go "Session discovery is currently macOS-only."));
              (go "proxy_addr", quoted []); (go "sessions", JArr []); (go "supported", JBool supported)]))
  end.
Definition handleStopSession (supported : bool) (kill : command) (pidStr : gostring) (h : Desktop) : Desktop * ApiResponse :=
  match Atoi pidStr with
  | None => (h, writeError 400 (go "invalid pid"))
  | Some pid =>
      if pid <=? 1 then (h, writeError 400 (go "invalid pid"))
      else
        match StopProcess supported kill pid h with
        | (h, Some e) => (h, writeError 500 e)
        | (h, None) => (h, json_ok_response (JObj [(go "ok", JBool true); (go "pid", JNum (Itoa pid))]))
        end
  end.
Definition handleLaunchShell (supported : bool) (ran : command) (bin : gostring) (h : Desktop) : Desktop * ApiResponse :=
  if negb supported then
    (h, writeError 501 (go "launching a protected shell from the dashboard is currently macOS-only — run `redactr shell` in a terminal instead"))
  else if bool_decide (bin = []) then (h, writeError 500 (go "redactr binary path is not configured"))
  else
    match LaunchProtectedShell supported ran bin h with
    | (h, Some e) => (h, writeError 500 e)
    | (h, None) => (h, json_ok_response (JObj [(go "ok", JBool true)]))
    end.
End dashboard.

(** ** What the pages do *)

Definition printable (s : gostring) : Prop := Forall (λ c, 32 ≤ byteN c ≤ 126)%N s.
Lemma printable_ascii s : printable s → ascii_only s = true.
Proof.
  intros Hs. unfold ascii_only. apply forallb_forall. intros c Hc%list_elem_of_In. unfold printable in Hs. rewrite Forall_forall in Hs.
  specialize (Hs c Hc). cbv beta in Hs. unfold byteN in *. lia.
Qed.
Lemma Quote_printable is_print s : printable s → Quote is_print s = dquote :: apple_escape s ++ [dquote].
Proof.
  intros Hs. unfold Quote. rewrite decode_all_ascii by by apply printable_ascii. do 2 f_equal.
  induction Hs as [|c s Hc _ IH]; [done|]. rewrite fmap_cons, bind_cons, IH, apple_escape_cons. f_equal.
  cbn [quote_rune]. destruct (N.eqb_spec (byteN c) 34) as [H34|H34].
  - assert (c = dquote) as -> by (apply byteN_inj; exact H34). reflexivity.
  - rewrite (bool_decide_eq_false_2 (c = dquote)) by (by intros ->). destruct (N.eqb_spec (byteN c) 92) as [H92|H92].
    + assert (c = back) as -> by (apply byteN_inj; exact H92). reflexivity.
    + rewrite (bool_decide_eq_false_2 (c = back)) by (by intros ->). cbn [orb].
      rewrite (proj2 (N.eqb_neq (byteN c) RuneError)) by (unfold RuneError; lia). cbn [andb].
      by rewrite (proj2 (N.leb_le _ _)), (proj2 (N.leb_le _ _)) by lia.
Qed.

(** The Terminal's shell splits a line of plain characters at its spaces; others it interprets. *)
Definition shell_plain (c : Ascii.ascii) : bool :=
  let n := byteZ c in ((47 <=? n) && (n <=? 58)) || ((64 <=? n) && (n <=? 90)) || ((97 <=? n) && (n <=? 122)) || (n =? 45) || (n =? 46) || (n =? 95) || (n =? 43).
Definition shell_words (line : gostring) : option (list gostring) :=
  if forallb (λ c, shell_plain c || bool_decide (c = byte_of 32)) line
  then Some (filter (λ w, w ≠ []) (Split line (byte_of 32))) else None.
Lemma shell_plain_range c : shell_plain c = true → (43 <= byteN c <= 122)%N ∧ c ≠ byte_of 32.
Proof. unfold shell_plain. intros Hc. split; [unfold byteZ, byteN in *; lia|]. intros ->. by vm_compute in Hc. Qed.

Section acts.
Context `{UnicodeData} `{GoSort} `{SysProbe} `{TimeText}.
Context (is_print : N → bool).

Lemma launched_line bin ran h : printable bin →
  osascript is_print ran (launch_script is_print (bin ++ go " shell")) h =
  match ran with
  | CmdOk => (mkDesktop (mh_signalled h) (mh_typed h ++ [bin ++ go " shell"]), None)
  | CmdError e out => (h, Some (go "osascript: " ++ e ++ go " (" ++ TrimSpace out ++ go ")"))
  end.
Proof.
  intros Hbin. assert (printable (bin ++ go " shell")) as Hline by (apply Forall_app; split; [done|by repeat constructor]).
  unfold osascript, launch_script. rewrite (Quote_printable _ (bin ++ go " shell")) by done.
  set (pre := go "tell application " ++ _ ++ nl ++ go "		activate" ++ nl ++ go "		do script ").
  assert (∀ rest, go "tell application " ++ Quote is_print (go "Terminal") ++ nl ++ go "		activate" ++ nl ++ go "		do script " ++ rest = pre ++ rest) as ->
    by (intros rest; unfold pre; by rewrite <- !app_assoc).
  cbn [app]. rewrite drop_app_add, <- app_assoc. cbn [app]. by rewrite skipn_cons, drop_0, apple_literal_escape.
Qed.

(** The sessions page.  A request to stop signals nothing, or exactly the one process it names, and
    never process 1 or below; it is answered with 200 exactly when kill succeeded; the identifier
    that the list shows of a session names that session; and a shell is launched by a line that
    the Terminal reads as the binary and the word shell, if its path has plain characters only. *)
Theorem sessions_page kill text h ran bin :
  (let '(h', r) := handleStopSession true kill text h in
   mh_typed h' = mh_typed h
   ∧ ((mh_signalled h' = mh_signalled h ∧ ap_status r = 400)
      ∨ ∃ pid, Atoi text = Some pid ∧ 1 < pid ∧ mh_signalled h' = mh_signalled h ++ [pid] ∧ (ap_status r = 200 ↔ kill = CmdOk)))
  ∧ (∀ s, 1 < ss_PID s < 2 ^ 63 → mh_signalled (handleStopSession true kill (Itoa (ss_PID s)) h).1 = mh_signalled h ++ [ss_PID s])
  ∧ (bin ≠ [] → forallb shell_plain bin = true →
     ∃ line, mh_typed (handleLaunchShell is_print true CmdOk bin h).1 = mh_typed h ++ [line] ∧ shell_words line = Some [bin; go "shell"])
  ∧ handleStopSession false kill text h = (h, (handleStopSession false kill text h).2)
  ∧ handleLaunchShell is_print false ran bin h = (h, (handleLaunchShell is_print false ran bin h).2).
Proof.
  split_and!.
  - unfold handleStopSession. destruct (Atoi text) as [pid|]; [|by split; [|left]]. destruct (Z.leb_spec pid 1); [by split; [|left]|].
    unfold StopProcess. destruct kill as [|e out]; (split; [done|right; exists pid; by split_and!]).
  - intros s Hs. unfold handleStopSession. rewrite Atoi_Itoa by lia. rewrite (proj2 (Z.leb_gt _ _)) by lia. unfold StopProcess. by destruct kill.
  - intros Hne Hp. exists (bin ++ go " shell"). rewrite forallb_forall in Hp.
    assert (printable bin) as Hpr.
    { apply Forall_forall. intros c Hc%list_elem_of_In%Hp%shell_plain_range. lia. }
    split.
    + unfold handleLaunchShell, LaunchProtectedShell. cbn [negb]. rewrite bool_decide_eq_false_2 by done. by rewrite launched_line.
    + unfold shell_words. rewrite forallb_app. rewrite (proj2 (forallb_forall _ bin)).
      * change (forallb _ (go " shell")) with true. cbn [andb]. change (go " shell") with (byte_of 32 :: go "shell").
        rewrite Split_app; [|intros Hin%list_elem_of_In%Hp%shell_plain_range; tauto].
        change (Split (go "shell") (byte_of 32)) with [go "shell"]. by rewrite filter_cons_True.
      * intros c Hc. by rewrite (Hp c Hc).
  - unfold handleStopSession, StopProcess. destruct (Atoi text) as [pid|]; [|done]. by destruct (pid <=? 1).
  - done.
Qed.
(** A path with a space runs something else. *)
Lemma launch_splits_path : shell_words (go "/Users/ann/My Apps/redactr" ++ go " shell") = Some [go "/Users/ann/My"; go "Apps/redactr"; go "shell"].
Proof. vm_compute. reflexivity. Qed.
End acts.

(** The health page says healthy exactly when every layer is ready. *)
Lemma layers_health_status layers : ap_status (layers_health layers) = 200 ↔ Forall (λ l, l.2 = true) layers.
Proof.
  unfold layers_health. cbn [ap_status]. destruct (forallb snd layers) eqn:Hl.
  - split; [intros _|done]. rewrite forallb_forall in Hl. apply Forall_forall. by intros l Hin%list_elem_of_In%Hl.
  - split; [done|]. intros Hall. assert (forallb snd layers = true); [|congruence]. apply forallb_forall.
    intros l Hin%list_elem_of_In. rewrite Forall_forall in Hall. by apply Hall.
Qed.
(** After a refresh with a bad token the page still shows the tier of the old licence. *)
Lemma license_page_keeps_tier `{UnicodeData} `{Ecdsa} go_quote pub now token m c absent :
  lm_claims m = Some c → lc_Demo c = false → ok_of (verify go_quote pub now token) = None →
  ∃ rest, ap_body (handleGetLicense absent (Some (Refresh go_quote pub now token m).1))
    = AJson (JObj (rest ++ [(go "tier", quoted (go "paid")); (go "valid", JBool false)])).
Proof.
  intros Hc Hd Hv. pose proof (verify_not_panic go_quote pub now token) as Hnp.
  unfold Refresh. destruct (verify go_quote pub now token); [done| |done]. cbn [fst].
  unfold handleGetLicense, GetClaims. cbn [mbind option_bind lm_claims lm_valid]. rewrite Hc, Hd. cbn [ap_body json_ok_response].
  by eexists [_; _; _].
Qed.
