(* ===== verification/Main.v ===== *)
(** * Commands and the tray — cmd/redactr/main.go, cmd/redactr-server/main.go, internal/tray

    How the words of the command line become a command, with package flag; what
    the server makes of its environment; and the tray, a client of the control
    socket that shows the daemon's status and turns the proxy on and off. *)
From S2P Require Import Prelude GoStr Utf8 GoFloat GoSort Spans Scanner Redactor Sha256 Cache Regex Rules FileBlock Coordinator Presidio Entropy Json JsonRound JsonDecode JsonStruct Gliner Domain Extract Proxy Config Sandbox Firewall Base64 Signing Token Bundle Sessions Store ServerAuth Httpapi Daemon Policy Control Client.
Local Open Scope Z_scope.

(** ** Package flag *)

Inductive flag_value := FString (s : gostring) | FBool (b : bool).
Definition FlagSet : Type := list (gostring * flag_value).
Definition flag_lookup (fs : FlagSet) (name : gostring) : option flag_value :=
  snd <$> find (λ f, bool_decide (f.1 = name)) fs.
Definition flag_set (fs : FlagSet) (name : gostring) (v : flag_value) : FlagSet :=
  (λ f, if bool_decide (f.1 = name) then (f.1, v) else f) <$> fs.
Definition ParseBool (s : gostring) : option bool :=
  if bool_decide (s ∈ go <$> ["1"; "t"; "T"; "true"; "TRUE"; "True"]%string) then Some true
  else if bool_decide (s ∈ go <$> ["0"; "f"; "F"; "false"; "FALSE"; "False"]%string) then Some false
  else None.

(** A word of the command line: no flag, [--], a flag with the value after an equals sign, or not a flag's form. *)
Inductive flag_word := Plain | Terminator | BadFlag | Flag (name : gostring) (value : option gostring).
Fixpoint split_equals (s : gostring) : gostring * option gostring :=
  match s with
  | [] => ([], None)
  | c :: s' => if byteZ c =? 61 then ([], Some s') else let '(n, v) := split_equals s' in (c :: n, v)
  end.
Definition is_dash (c : Ascii.ascii) : bool := byteZ c =? 45.
Definition flag_name (name : gostring) : flag_word :=
  match name with
  | [] => BadFlag
  | c :: s => if is_dash c || (byteZ c =? 61) then BadFlag else let '(n, v) := split_equals s in Flag (c :: n) v
  end.
Definition read_flag (s : gostring) : flag_word :=
  match s with
  | c :: ((d :: s') as rest) =>
      if negb (is_dash c) then Plain
      else if is_dash d then match s' with [] => Terminator | _ => flag_name s' end
      else flag_name rest
  | _ => Plain
  end.

(** [FlagSet.Parse] with [ExitOnError]: the process ends with a status, or the flags and the
    words after them are known. *)
Inductive parsed_flags := FlagExit (status : Z) | FlagsRead (fs : FlagSet) (args : list gostring).
Fixpoint flags_parse (fs : FlagSet) (args : list gostring) : parsed_flags :=
  match args with
  | [] => FlagsRead fs []
  | s :: rest =>
      match read_flag s with
      | Plain => FlagsRead fs args
      | Terminator => FlagsRead fs rest
      | BadFlag => FlagExit 2
      | Flag name value =>
          match flag_lookup fs name, value with
          | None, _ => FlagExit (if bool_decide (name = go "help") || bool_decide (name = go "h") then 0 else 2)
          | Some (FBool _), None => flags_parse (flag_set fs name (FBool true)) rest
          | Some (FBool _), Some v =>
              match ParseBool v with Some b => flags_parse (flag_set fs name (FBool b)) rest | None => FlagExit 2 end
          | Some (FString _), Some v => flags_parse (flag_set fs name (FString v)) rest
          | Some (FString _), None =>
              match rest with v :: rest' => flags_parse (flag_set fs name (FString v)) rest' | [] => FlagExit 2 end
          end
      end
  end.
Definition get_string (fs : FlagSet) (name : gostring) : gostring :=
  match flag_lookup fs name with Some (FString s) => s | _ => [] end.
Definition get_bool (fs : FlagSet) (name : gostring) : bool :=
  match flag_lookup fs name with Some (FBool b) => b | _ => false end.

(** ** cmd/redactr/main.go *)

Inductive subcommand :=
| CmdCleanup (home : gostring)
| CmdShell (home : gostring)
| CmdAgent (home tool : gostring) (args : list gostring)
| CmdTray (home : gostring)
| CmdEnroll (home server token : gostring)
| CmdCode (home project : gostring) (force : bool)
| CmdDaemon (home : gostring)
| CmdExit (status : Z).
Definition enroll_flags : FlagSet := [(go "server", FString []); (go "token", FString [])].
Definition code_flags : FlagSet := [(go "force", FBool false)].

(** [home]: the home directory, if it can be told; [args]: the words after the program's name. *)
Definition main (home : option gostring) (args : list gostring) : subcommand :=
  match home with
  | None => CmdExit 1
  | Some home =>
      match args with
      | [] => CmdDaemon home
      | sub :: rest =>
          if bool_decide (sub = go "cleanup") then CmdCleanup home
          else if bool_decide (sub = go "shell") then CmdShell home
          else if bool_decide (sub ∈ [go "claude"; go "codex"; go "copilot"]) then CmdAgent home sub rest
          else if bool_decide (sub = go "tray") then CmdTray home
          else if bool_decide (sub = go "enroll") then
            match flags_parse enroll_flags rest with
            | FlagExit n => CmdExit n
            | FlagsRead fs _ =>
                let server := get_string fs (go "server") in
                let token := get_string fs (go "token") in
                if bool_decide (server = []) || bool_decide (token = []) then CmdExit 1 else CmdEnroll home server token
            end
          else if bool_decide (sub = go "code") then
            match flags_parse code_flags rest with
            | FlagExit n => CmdExit n
            | FlagsRead fs rest => CmdCode home (default [] (head rest)) (get_bool fs (go "force"))
            end
          else CmdDaemon home
      end
  end.
Definition words (s : string) : list gostring := Split (go s) (chr 32).

Example main_enroll :
  main (Some (go "/home/u")) (words "enroll -token=t=1 --server https://x --") = CmdEnroll (go "/home/u") (go "https://x") (go "t=1")
  ∧ main (Some (go "/home/u")) (words "enroll --server https://x") = CmdExit 1
  ∧ main (Some (go "/home/u")) (words "enroll --server") = CmdExit 2
  ∧ main (Some (go "/home/u")) (words "enroll -h") = CmdExit 0.
Proof. vm_compute. repeat split; reflexivity. Qed.

(** Nobody enrols without a server and a token; an agent's own words are passed on unread. *)
Lemma main_enroll_both home args h server token : main home args = CmdEnroll h server token → server ≠ [] ∧ token ≠ [].
Proof.
  unfold main. destruct home as [home|]; [|done]. destruct args as [|sub rest]; [done|].
  repeat (case_bool_decide; [try done|]; try done).
  - destruct (flags_parse _ _) as [n|fs r]; [done|]. do 2 case_bool_decide; cbn [orb]; [done..|]. by intros [= <- <- <-].
  - by destruct (flags_parse _ _).
Qed.
Lemma main_agent home tool args : tool ∈ [go "claude"; go "codex"; go "copilot"] →
  main (Some home) (tool :: args) = CmdAgent home tool args.
Proof. intros Ht. unfold main. by set_unfold in Ht; destruct Ht as [->|[->|[->|[]]]]. Qed.
(** Words after [--force], but not [--force] after the project: the flags end at the first other word. *)
Lemma code_force_first : ∀ home, main (Some home) (words "code --force ./app") = CmdCode home (go "./app") true.
Proof. intros home. reflexivity. Qed.
Lemma code_force_last : ∀ home, main (Some home) (words "code ./app --force") = CmdCode home (go "./app") false.
Proof. intros home. reflexivity. Qed.
(** A subcommand that does not exist, [help] and [--version] among them, starts the daemon. *)
Lemma unknown_starts_daemon home sub rest :
  sub ∉ go <$> ["cleanup"; "shell"; "claude"; "codex"; "copilot"; "tray"; "enroll"; "code"]%string →
  main (Some home) (sub :: rest) = CmdDaemon home.
Proof. intros Hs. unfold main. set_unfold in Hs. rewrite !bool_decide_false; [done|set_solver..]. Qed.

(** ** cmd/redactr-server/main.go *)

Definition env (getenv : gostring → gostring) (k def : gostring) : gostring :=
  if bool_decide (getenv k = []) then def else getenv k.
Section server.
Context `{UnicodeData} `{Sqlite} `{PublicKeyText} `{TimeText}.
Record ServerMain := mkServerMain {
  sm_addr : gostring; sm_db : gostring; sm_server : Server;
}.
(** [open], [load]: the error of opening the database, and what loading the key gives; [builder]: the
    builder that signs with the key at a path. The process ends with the text of an error. *)
Definition server_main (getenv : gostring → gostring) (rnd : gostring) (open_ : gostring → option gostring)
    (load : gostring → gostring + ec_PrivateKey)
    (builder : gostring → gostring → gostring → gostring → gostring + gostring * gostring) : gostring + ServerMain :=
  let addr := env getenv (go "REDACTR_SERVER_ADDR") (go ":8080") in
  let dbPath := env getenv (go "REDACTR_SERVER_DB") (go "./redactr-server.db") in
  let keyDir := env getenv (go "REDACTR_SERVER_KEY_DIR") (go "./keys") in
  let adminKey := env getenv (go "REDACTR_ADMIN_KEY") (NewRawToken rnd) in
  match open_ dbPath with
  | Some e => inl (go "store: " ++ e)
  | None =>
      match load keyDir with
      | inl e => inl (go "keys: " ++ e)
      | inr priv =>
          let reg := getenv (go "REDACTR_REGISTRY") in
          inr (mkServerMain addr dbPath
            (mkServer priv adminKey
              (if bool_decide (reg = []) then None else Some (builder (env getenv (go "REDACTR_COSIGN_KEY") (go "./keys/cosign.key")))) reg))
      end
  end.
(** Without a configured key a fresh one is required: the administrator's routes never stand open,
    and with a configured one they ask for exactly that. *)
Lemma server_main_admin getenv rnd open_ load builder sn got : rnd ≠ [] →
  server_main getenv rnd open_ load builder = inr sn →
  RequireAdmin (sv_adminKey (sm_server sn)) got = true ↔ got = env getenv (go "REDACTR_ADMIN_KEY") (b64_encode rnd).
Proof.
  intros Hr. unfold server_main. destruct (open_ _); [done|]. destruct (load _); [done|]. intros [= <-]. cbn [sm_server sv_adminKey].
  unfold RequireAdmin, NewRawToken. rewrite andb_true_iff, negb_true_iff, bool_decide_eq_false, bool_decide_eq_true.
  split; [by intros [_ ?]|]. intros ->. split; [|done]. unfold env. case_bool_decide as He; [|done].
  destruct rnd as [|a [|b [|c r]]]; done.
Qed.
End server.

(** ** tray.go *)

Inductive tray_color := Green | Red.
Record View := mkView { vw_color : tray_color; vw_label : gostring }.
Definition TrayState (st : ControlStatus) (reachable : bool) : View :=
  if negb reachable then mkView Red (go "Daemon: Down")
  else if ct_enabled st && negb (bool_decide (ct_addr st = [])) then mkView Green (go "Proxy: Enabled")
  else mkView Red (go "Proxy: Disabled").

(** ** tray_systray.go *)

Section tray.
Context `{RegexpEngine} `{UnicodeData} `{GoSort} `{EntropyEnv} `{HttpClient} `{Yaml} `{FwManager}.
Context (lib_error : gostring → gostring).

(** A request over the socket. *)
Definition tray_ask (fate : relay_fate) (handler : World → World * socket_answer) (w : World) : World * socket_answer :=
  match fate with
  | Relayed => handler w
  | NotSent e => (w, NoSocket e)
  | NoAnswer e => ((handler w).1, NoSocket e)
  end.
Definition tray_status (fate : relay_fate) (w : World) : gostring + ControlStatus :=
  ClientStatus lib_error (tray_ask fate (λ w, (w, serveStatus w)) w).2.
Definition apply_view (fate : relay_fate) (w : World) : View :=
  match tray_status fate w with inr st => TrayState st true | inl _ => TrayState zero_status false end.
(** [tr_relay], [tr_switch]: what becomes of the request the socket sends on to the dashboard. *)
Record ClickEnv := mkClick { tr_status : relay_fate; tr_change : relay_fate; tr_view : relay_fate; tr_relay : relay_fate; tr_switch : SwitchEnv }.
Inductive tray_event := TrayTick (fate : relay_fate) | TrayClick (e : ClickEnv).
Definition tray_click (e : ClickEnv) (w : World) : World :=
  let disable := match tray_status (tr_status e) w with inr st => ct_enabled st | inl _ => false end in
  (tray_ask (tr_change e) (if disable then serveDisable (tr_relay e) (tr_switch e) else serveEnable (tr_relay e) (tr_switch e)) w).1.
Definition tray_step (ev : tray_event) (w : World) : World * View :=
  match ev with
  | TrayTick fate => (w, apply_view fate w)
  | TrayClick e => let w := tray_click e w in (w, apply_view (tr_view e) w)
  end.

(** What a reachable daemon shows. *)
Lemma apply_view_live w : valid_utf8 (Proxy_Addr (wd_proxy w)) = Proxy_Addr (wd_proxy w) →
  apply_view Relayed w = TrayState (statusValue w) true.
Proof.
  intros Ha. unfold apply_view, tray_status. cbn [tray_ask snd]. unfold ClientStatus, serveStatus. rewrite control_read.
  unfold TrayState, wire_status, statusValue. cbn [ct_enabled ct_addr]. by rewrite Ha.
Qed.
(** A click asks for the opposite of what the daemon says. *)
Lemma tray_click_switches e w : tr_status e = Relayed → tr_change e = Relayed →
  tray_click e w = (if pr_Enabled (cf_Proxy (cfg_of w)) then socketDisable (tr_relay e) (tr_switch e) w
                    else socketEnable (tr_relay e) (tr_switch e) w).1.
Proof.
  intros Hs Hc. unfold tray_click, tray_status. rewrite Hs, Hc. cbn [tray_ask snd]. unfold ClientStatus, serveStatus. rewrite control_read.
  unfold wire_status, statusValue. cbn [ct_enabled]. destruct (pr_Enabled _).
  - unfold serveDisable. by destruct (socketDisable _ _ _) as [w' [err|st]].
  - unfold serveEnable. by destruct (socketEnable _ _ _) as [w' [err|st]].
Qed.
(** Stopping the proxy keeps its address: with the flag set again and nothing listening, the tray
    is green. *)
Lemma tray_green_not_listening d f pid tp dash addr :
  pr_Enabled (cf_Proxy (mg_cfg (dm_mgr d))) = true → valid_utf8 addr = addr → addr ≠ [] →
  let stopped := Proxy_Stop (Proxy_Start (inr addr) not_listening).1 in
  px_open stopped = ∅ ∧ apply_view Relayed (mkWorld d stopped f pid tp dash) = mkView Green (go "Proxy: Enabled").
Proof.
  intros Hf Hv Hne stopped. split; [cbn; apply delete_insert_id; apply lookup_empty|].
  rewrite apply_view_live by done. unfold TrayState, statusValue, cfg_of. cbn [ct_enabled ct_addr wd_daemon].
  rewrite Hf. change (Proxy_Addr _) with addr. by rewrite bool_decide_false.
Qed.
End tray.

(** ** icon.go *)

(** The pixels of the disc that are painted; coordinates and radius in float64. *)
Definition circle_pixel (n x y : Z) : bool :=
  let c := f64_div (f64_of_Z n) (f64_of_Z 2) in
  let r := f64_sub c (f64_of_Z 1) in
  let dx := f64_sub (f64_add (f64_of_Z x) (f64_lit 1 2)) c in
  let dy := f64_sub (f64_add (f64_of_Z y) (f64_lit 1 2)) c in
  f64_le (f64_add (f64_mul dx dx) (f64_mul dy dy)) (f64_mul r r).
Definition le_bytes (width : nat) (n : Z) : gostring :=
  (λ i, byte_of ((n / 2 ^ (8 * Z.of_nat i)) mod 256)) <$> seq 0 width.
Definition icoWrap (png : gostring) : gostring :=
  le_bytes 2 0 ++ le_bytes 2 1 ++ le_bytes 2 1
    ++ [byte_of 22; byte_of 22; byte_of 0; byte_of 0]
    ++ le_bytes 2 1 ++ le_bytes 2 32 ++ le_bytes 4 (len png) ++ le_bytes 4 (6 + 16) ++ png.
(** [png]: the encoded image of the disc in a colour. *)
Definition iconBytes (windows : bool) (png : Z * Z * Z → gostring) (c : gostring) : gostring :=
  let p := png (if bool_decide (c = go "green") then (46, 204, 64) else (255, 65, 54)) in
  if windows then icoWrap p else p.

(** The disc in integers: the pixels whose centre is within ten of the middle. *)
Lemma circle_pixel_disc :
  forallb (λ x, forallb (λ y, Bool.eqb (circle_pixel 22 x y) ((2 * x - 21) ^ 2 + (2 * y - 21) ^ 2 <=? 400)) (seqZ 0 22)) (seqZ 0 22) = true.
Proof. vm_compute. reflexivity. Qed.
(** The directory entry of the icon says where its image starts. *)
Lemma icoWrap_image png : drop 22 (icoWrap png) = png ∧ take 22 (icoWrap png) = take 14 (icoWrap png) ++ le_bytes 4 (len png) ++ le_bytes 4 22.
Proof. split; reflexivity. Qed.
